(* ===== verification/_CoqProject ===== *)
-Q . S2P
Prelude.v
Keeps.v
Bitmap.v
Paging.v
Boot.v
KernelHeap.v
Tasks.v
TaskManager.v
Allocator.v
Keyboard.v
Terminal.v
Font8x8.v
Framebuffer.v
Files.v
VfsCache.v
Resource.v
Vfs.v
Ramfs.v
RamfsLaws.v
CString.v
Memory.v
Places.v
Scheduler.v
Watch.v
Process.v
Elf.v
Syscall.v
SignalLaws.v
Devfs.v
SyscallLaws.v
BreakLaws.v
Ustar.v
Ports.v
Segments.v
Vga.v
Print.v
Interrupts.v
Quiet.v
Calls.v
Entry.v
Fairness.v
Interaction.v
Userland.v
Shell.v
Square.v
Programs.v
Kernel.v
