(* ===== verification/Prelude.v ===== *)
(** * Alura OS: a verification library of its kernel

    The sources are a 32-bit x86 kernel in C (src/src, src/include): a page
    allocator and paging, a kernel heap, a multilevel-feedback scheduler, a
    virtual file system with a RAM file system and device files, a terminal over
    a VGA or framebuffer display, a program loader, system calls with signals,
    and the interrupt dispatch; and the programs that run on it (src/initrd): a C
    library over the system calls, the first process, a shell, a calculator and a
    drawing program.  This library translates them into executable definitions and
    proves what each part promises.

    ** How the code is modelled

    A C function is a computation in the monad [M S A] (this file) over the state
    [S] of its component: [Ret] an answer and a state, [Fault] where the source
    makes an access the model has no memory for (a NULL or dangling pointer, an
    unmapped address, an index outside an array), [NoFuel] when a loop outlives
    its bound.  [zoom] runs a component inside a larger state.  Machine words are
    [Z] with the wrap-around written out ([u8], [u16], [u32], [u64], [i32]).
    [wp c Q s] says that [c] from [s] ends without a fault and without running
    out of fuel in a result that satisfies [Q]: the properties are of total
    correctness, but where a theorem speaks of every run of the kernel that returns
  ([wlp] of Keeps, used by Scheduler, Calls, Entry and Fairness).  Loops take a fuel argument; the theorems ask for more fuel than
    the list, the path or the buffer they walk is long, which is always enough.

    A program is an interaction tree: its events are the calls it makes, their
    answers are anything the kernel may give, and its loops may run for ever.
    [always] of Interaction holds of a tree when every call of every run, finite or
    not, finds its condition true and leads to a tree of which it holds again; it
    speaks about what a program does, and of its result when it has one.

    Memory is kept by kind.  Page frames, page tables, user memory and stacks are
    words of physical memory, reached through the processor's page walk ([walk]
    of Paging); the headers of the heap's free list are words by their address in
    the heap.  Structures that the kernel allocates (tasks, resources, VFS nodes,
    files) are records in finite maps by the address that the heap answered, so
    aliasing and dangling pointers are those of the code.

    ** The parts, bottom up

    - Bitmap: memory_bitmap.c, the physical pages.
    - Paging: memory_paging.c, two-level paging, the recursive mapping, the
      bounce pages and the page walk.  Memory: bytes, words and strings through
      that walk, and the lemmas for accesses inside one page.
    - KernelHeap: kernel_heap.c, and the queue of directories to destroy.
      Allocator is the interface between the heap and its clients: a class of the
      operations and their laws, proved of KernelHeap, used by everything above.
    - Tasks: the data of task_manager.h and resourse.h.  TaskManager: queues,
      scheduling, blocking, waking, exit (task_manager.c, timer.c).  Places: where
      a task stands in the queues.  Scheduler: the steps of the scheduler (ticks,
      waits, wake-ups, ends), the switch on the way out (task_switch.s and the ends
      of the interrupt stubs) and the invariant they keep.  Watch: the class of what
      such steps carry along.  Process: stacks, creation, fork, destruction and
      signal delivery (task_manager.c).
    - Keyboard: drivers/keyboard.c.  Terminal: terminal.c over the class of
      display drivers, which Vga (drivers/vga.c) and Framebuffer
      (drivers/framebuffer.c, with Font8x8) implement.  Print: print.c.
    - Files: the data of vfs.h and ramfs.h.  VfsCache and Vfs: vfs.c, the node
      cache, reference counts and path resolution, over the class [FileSystems] of
      operation tables and its laws.  Ramfs and RamfsLaws: fs/ramfs.c and its
      laws.  Devfs: fs/devfs.c, the tables of the running kernel and the proof
      that they satisfy the laws of Vfs.  Ustar: fs/ustar.c and the start of the
      RAM file system.  Resource: resource.c.
    - CString: libc/string.c over byte memory.
    - Elf: elf_executable.c.  Syscall: syscall.c, every call and the dispatch.
      SignalLaws, SyscallLaws and BreakLaws: the theorems on signals, on
      descriptors and handlers, and on the heap of a program.
    - Keeps: the logic of what a computation leaves alone.  Quiet: what the file
      systems and most system calls leave of the scheduler's data.  Calls: what
      every other call and an exception make of it, for whatever is watched.
      Entry: the ways into the kernel and out, the states that any sequence of them
      reaches, and the invariant of the kernel.  Fairness: an instance of Watch, the
      runs of the whole kernel, and how long a ready task can wait in them.
    - Ports: io.h, pic.c and the timer chip.  Segments: gdt.c, tss.c and the table
      of idt.c.  Interrupts: irq.c, the handler of idt.c and the registration of
      the drivers.  Boot: bootstrap.c, on physical memory.  Kernel: kernel.c, the
      whole initialisation over the state of all the parts.
    - Interaction: the logic of programs.  Userland: lib/syscall.c and
      lib/newlib_glue.c.  Shell: src/shell.c.  Square: src/square.c.  Programs:
      src/init.c and src/calc.c.

    ** What is proved

    - Memory: allocation answers a free page and no page twice; mapping and
      unmapping change the translation of exactly one page; the software
      translation agrees with the processor's; the heap hands out disjoint
      blocks, joins freed neighbours, and keeps its list consistent.
    - Tasks: the queues are disjoint lists, scheduling is round robin with
      levels, blocking, waking and exit move exactly the tasks they should, and
      every sequence of kernel entries (interrupts, exceptions, all the system calls
      with what they do to files and memory, programs running between them) keeps
      the invariant that each task is in the
      one place its state names.  Such an entry needs more fuel than there are tasks,
      that the idle task makes no call, and that the heap does not hand out the block
      of a task, which its laws promise (tasks_allocated_live).  In no such sequence
      does a ready task wait for more ticks than a bound that counts the tasks, those
      made in the meantime included, unless it is ended.
    - Files: the node cache is consistent, resolution accounts for every
      reference, a write is read back, descriptors take the lowest free slot.
    - Devices: the terminal refines a text grid, glyphs are drawn pixel by pixel,
      writes never leave the framebuffer, scancodes are a bounded queue.
    - Text: the string library, the bounds of formatted output and the value of
      printed numbers, the octal sizes of the boot archive.
    - Processes: the argument stack of a new program, the frame a signal handler
      starts with, the return from it, descriptor and signal calls with every
      error they answer, the pages that sbrk maps.
    - The start: the address space the machine boots with; the segments, the gates
      and the vectors of the interrupt controllers after the initialisation.
    - Programs: the wrappers of the C library reach the system call they are named
      after, the glue reports errors as errno, the shell never overruns its line and
      runs what was typed, the drawing program stays inside the screen and its pixels
      are those of the driver.

    ** Not modelled

    - The assembly that saves and restores registers (boot.s, the first halves of
      the isr and irq stubs): what they save is the register frame that the
      handlers here take.
    - TLB invalidation, cli, sti (but for the flag of Kernel), lgdt, lidt and ltr, port input (a parameter).
    - The idle task, an endless hlt; crt0.s, which calls main and exit; the build
      of the toolchain; the multiboot structures that no code reads.  The C library
      itself (newlib) is not under src: what the programs use of it are events.
    - C's evaluation of uninitialised memory: where a result depends on it, the
      old contents are a parameter (the class [OldNodes] of TaskManager, the stale
      arguments of Elf and Interrupts, the bytes of a block for Ramfs). *)
From stdpp Require Export base list gmap fin_maps numbers.
From Stdlib Require Export ZArith Lia.

#[global] Open Scope Z_scope.

(** * Machine integers

    Machine words are [Z] values kept in range by explicit wrap-around. *)

Definition u8 (x : Z) : Z := x mod 2 ^ 8.
Definition u16 (x : Z) : Z := x mod 2 ^ 16.
Definition u32 (x : Z) : Z := x mod 2 ^ 32.
Definition u64 (x : Z) : Z := x mod 2 ^ 64.
Definition i32 (x : Z) : Z := (x + 2 ^ 31) mod 2 ^ 32 - 2 ^ 31.
Definition i64 (x : Z) : Z := (x + 2 ^ 63) mod 2 ^ 64 - 2 ^ 63.

Ltac unfold_words := unfold u8, u16, u32, u64, i32, i64 in *.

(** Arithmetic closer for goals with [/] and [mod] by literals. *)
Ltac zlia := Z.div_mod_to_equations; first [lia | nia].
Ltac word_lia := unfold_words; Z.div_mod_to_equations; lia.

Lemma u32_small x : 0 <= x < 2 ^ 32 -> u32 x = x.
Proof. apply Z.mod_small. Qed.

Lemma u32_range x : 0 <= u32 x < 2 ^ 32.
Proof. apply Z.mod_pos_bound. lia. Qed.

Lemma u32_idem x : u32 (u32 x) = u32 x.
Proof. apply u32_small, u32_range. Qed.

Lemma i32_small x : - 2 ^ 31 <= x < 2 ^ 31 -> i32 x = x.
Proof. intros. unfold i32. rewrite Z.mod_small; lia. Qed.

Lemma ltb_decide x y : (x <? y) = bool_decide (x < y).
Proof. destruct (Z.ltb_spec x y); case_bool_decide; done || lia. Qed.
Lemma leb_decide x y : (x <=? y) = bool_decide (x <= y).
Proof. destruct (Z.leb_spec x y); case_bool_decide; done || lia. Qed.

(** * Bit-level reasoning *)

Lemma testbit_above p n i : 0 <= n < 2 ^ p -> 0 <= p <= i -> Z.testbit n i = false.
Proof.
  intros [Hn Hp] Hi. destruct (decide (n = 0)) as [->|]; [apply Z.testbit_0_l|].
  apply Z.bits_above_log2; [done|].
  apply Z.log2_lt_pow2; [lia|]. eapply Z.lt_le_trans; [done|].
  apply Z.pow_le_mono_r; lia.
Qed.

Lemma testbit_u32 x i : Z.testbit (u32 x) i = Z.testbit x i && (i <? 32).
Proof.
  unfold u32. destruct (Z.ltb_spec i 32).
  - rewrite andb_true_r. destruct (Z.ltb_spec i 0).
    + by rewrite !Z.testbit_neg_r by lia.
    + by rewrite Z.mod_pow2_bits_low.
  - by rewrite Z.mod_pow2_bits_high, andb_false_r by lia.
Qed.

Lemma testbit_pow2_shift k i :
  0 <= k -> Z.testbit (Z.shiftl 1 k) i = (i =? k).
Proof. intros. rewrite Z.shiftl_1_l, Z.pow2_bits_eqb by lia. by rewrite Z.eqb_sym. Qed.

(** The word test [w & (1 << k)] of the sources is a bit test. *)
Lemma land_single_bit w k :
  0 <= k -> (Z.land w (Z.shiftl 1 k) =? 0) = negb (Z.testbit w k).
Proof.
  intros Hk. destruct (Z.testbit w k) eqn:Hb; simpl.
  - apply Z.eqb_neq. intros H0.
    assert (Z.testbit (Z.land w (Z.shiftl 1 k)) k = false) as H1
      by (rewrite H0; apply Z.testbit_0_l).
    rewrite Z.land_spec, Hb, testbit_pow2_shift, Z.eqb_refl in H1; done.
  - apply Z.eqb_eq, Z.bits_inj'. intros i Hi.
    rewrite Z.land_spec, testbit_pow2_shift, Z.testbit_0_l by done.
    destruct (Z.eqb_spec i k) as [->|]; [by rewrite Hb|apply andb_false_r].
Qed.

Lemma lor_range p a b :
  0 <= p -> 0 <= a < 2 ^ p -> 0 <= b < 2 ^ p -> 0 <= Z.lor a b < 2 ^ p.
Proof.
  intros Hp Ha Hb. split; [apply Z.lor_nonneg; lia|].
  destruct (decide (Z.lor a b = 0)) as [->|]; [lia|].
  apply Z.log2_lt_pow2; [pose proof (proj2 (Z.lor_nonneg a b)); lia|].
  rewrite Z.log2_lor by lia.
  assert (0 < p).
  { destruct (decide (p = 0)) as [->|]; [|lia]. simpl in *.
    assert (a = 0) as -> by lia. assert (b = 0) as -> by lia. done. }
  apply Z.max_lub_lt; (destruct (decide (0 < a)); destruct (decide (0 < b));
    first [apply Z.log2_lt_pow2; lia | rewrite Z.log2_nonpos by lia; lia]).
Qed.

Lemma land_range p a b :
  0 <= p -> 0 <= a < 2 ^ p -> 0 <= b -> 0 <= Z.land a b < 2 ^ p.
Proof.
  intros Hp Ha Hb. split; [apply Z.land_nonneg; lia|].
  destruct (decide (Z.land a b = 0)) as [->|]; [lia|].
  apply Z.log2_lt_pow2; [pose proof (proj2 (Z.land_nonneg a b)); lia|].
  eapply Z.le_lt_trans; [apply Z.log2_land; lia|].
  eapply Z.le_lt_trans; [apply Z.le_min_l|].
  destruct (decide (a = 0)) as [->|]; [|apply Z.log2_lt_pow2; lia].
  by rewrite Z.land_0_l in *.
Qed.

(** * Lists *)

Lemma lookup_repeat {A} (x : A) n i : (i < n)%nat -> repeat x n !! i = Some x.
Proof. revert i. induction n as [|n IH]; intros [|i] Hi; simpl; [lia|lia|done|]. apply IH. lia. Qed.

(** * Pages *)

Definition PAGE_SIZE : Z := 4096.
Definition PAGE_MASK : Z := 0xFFFFF000.
Definition KERNEL_VIRTUAL_SPACE_START : Z := 0xC0000000.
Definition KERNEL_LOW_WINDOW_SIZE : Z := 0x04000000.

(** [ALIGN_UP] and [ALIGN_DOWN] of memory.h on 32-bit values. *)
Definition ALIGN_UP (value : Z) : Z := Z.land (u32 (value + PAGE_SIZE - 1)) PAGE_MASK.
Definition ALIGN_DOWN (value : Z) : Z := Z.land value PAGE_MASK.

Lemma land_page_mask x : 0 <= x < 2 ^ 32 -> Z.land x PAGE_MASK = x - x mod PAGE_SIZE.
Proof.
  intros Hx.
  assert (x - x mod PAGE_SIZE = Z.shiftl (Z.shiftr x 12) 12) as ->.
  { rewrite Z.shiftl_mul_pow2, Z.shiftr_div_pow2 by lia. unfold PAGE_SIZE. zlia. }
  apply Z.bits_inj'. intros i Hi. rewrite Z.land_spec.
  change PAGE_MASK with (Z.shiftl (Z.ones 20) 12).
  rewrite !Z.shiftl_spec by lia.
  destruct (Z.ltb_spec i 12).
  { by rewrite !(Z.testbit_neg_r _ (i - 12)), andb_false_r by lia. }
  rewrite Z.shiftr_spec by lia. replace (i - 12 + 12) with i by lia.
  destruct (Z.ltb_spec i 32).
  - by rewrite Z.ones_spec_low, andb_true_r by lia.
  - rewrite (testbit_above 32 x i) by lia. done.
Qed.

Lemma align_down_spec x : 0 <= x < 2 ^ 32 -> ALIGN_DOWN x = x / PAGE_SIZE * PAGE_SIZE.
Proof. intros. unfold ALIGN_DOWN. rewrite land_page_mask by done. unfold PAGE_SIZE. zlia. Qed.

Lemma align_up_spec x :
  0 <= x <= 2 ^ 32 - PAGE_SIZE ->
  ALIGN_UP x = (x + PAGE_SIZE - 1) / PAGE_SIZE * PAGE_SIZE.
Proof.
  intros. unfold ALIGN_UP. rewrite u32_small by (unfold PAGE_SIZE in *; lia).
  rewrite land_page_mask by (unfold PAGE_SIZE in *; lia). unfold PAGE_SIZE. zlia.
Qed.

(** * The execution monad

    A kernel operation is a function from a component state to an outcome:
    a value with the new state, [Fault] when the C code would dereference
    NULL, touch storage outside the modelled object or raise a CPU fault, and
    [NoFuel] when a loop has not finished within the fuel it was given. *)

Inductive outcome (A : Type) : Type :=
| Ret (a : A)
| Fault
| NoFuel.
Arguments Ret {A} a.
Arguments Fault {A}.
Arguments NoFuel {A}.

Definition M (S A : Type) : Type := S -> outcome (A * S).

Definition ret {S A} (a : A) : M S A := fun s => Ret (a, s).
Definition bind {S A B} (m : M S A) (k : A -> M S B) : M S B :=
  fun s => match m s with
           | Ret (a, s') => k a s'
           | Fault => Fault
           | NoFuel => NoFuel
           end.
Definition fault {S A} : M S A := fun _ => Fault.
Definition get {S} : M S S := fun s => Ret (s, s).
Definition gets {S A} (f : S -> A) : M S A := fun s => Ret (f s, s).
Definition put {S} (s : S) : M S unit := fun _ => Ret (tt, s).
Definition modify {S} (f : S -> S) : M S unit := fun s => Ret (tt, f s).
Definition of_option {S A} (o : option A) : M S A :=
  match o with Some a => ret a | None => fault end.

(** Runs an operation of a component on the part of a larger state that holds
    the component. *)
Definition zoom {S C A} (proj : S -> C) (inj : C -> S -> S) (m : M C A) : M S A :=
  fun s => match m (proj s) with
           | Ret (a, c) => Ret (a, inj c s)
           | Fault => Fault
           | NoFuel => NoFuel
           end.

(** [for (i = lo; i < hi; ++i) f(i);] *)
Fixpoint for_loop {S} (n : nat) (i : Z) (f : Z -> M S unit) : M S unit :=
  match n with
  | O => ret tt
  | Datatypes.S n' => bind (f i) (fun _ => for_loop n' (i + 1) f)
  end.
Definition for_range {S} (lo hi : Z) (f : Z -> M S unit) : M S unit :=
  for_loop (Z.to_nat (hi - lo)) lo f.

(** [for (x in l) f(x);] *)
Fixpoint for_each {S X} (l : list X) (f : X -> M S unit) : M S unit :=
  match l with
  | [] => ret tt
  | x :: l' => bind (f x) (fun _ => for_each l' f)
  end.

(** A [while] loop with loop-carried locals [a]: the body answers [inl] to go
    round again and [inr] to leave the loop. *)
Fixpoint loop {S A B} (fuel : nat) (body : A -> M S (A + B)) (a : A) : M S B :=
  match fuel with
  | O => fun _ => NoFuel
  | Datatypes.S fuel' =>
      bind (body a) (fun r => match r with
                              | inl a' => loop fuel' body a'
                              | inr b => ret b
                              end)
  end.

(** * Records with field update

    [r <| field := v |>] is [r] with one field replaced.  A record type takes
    part by an instance of [Fields], its eta expansion. *)

Class Fields (R : Type) := rebuild : R -> R.
Class Setter {R E : Type} (field : R -> E) := over : (E -> E) -> R -> R.

Ltac derive_setter field :=
  match type of field with
  | ?R -> ?E =>
      let whole := eval cbv beta delta [rebuild] in (rebuild (R := R)) in
      let whole := eval red in whole in
      match eval pattern field in whole with
      | ?abs _ =>
          let s := eval cbv beta in (fun (f : E -> E) => abs (fun r => f (field r))) in
          exact s
      end
  end.
#[global] Hint Extern 1 (Setter ?field) => derive_setter field : typeclass_instances.

Definition assign {R E} (field : R -> E) `{!Setter field} (v : E) : R -> R := over (fun _ => v).
Arguments over {R E} field {_} f r /.
Arguments assign {R E} field {_} v r /.

Declare Scope kernel_scope.
Delimit Scope kernel_scope with kernel.
Notation "'let!' x := m 'in' k" := (bind m (fun x => k))
  (at level 10, x binder, m at level 100, k at level 200,
   format "'[v' 'let!'  x  :=  m  'in' '/' k ']'") : kernel_scope.
Notation "'let!' ' p := m 'in' k" := (bind m (fun x => match x with p => k end))
  (at level 10, p pattern, m at level 100, k at level 200) : kernel_scope.
Notation "'do!' m 'in' k" := (bind m (fun _ => k))
  (at level 10, m at level 100, k at level 200) : kernel_scope.
Notation "r <| field := v |>" := (assign field v r)
  (at level 1, left associativity, field at level 7, v at level 200,
   format "r  <| field  :=  v |>") : kernel_scope.
#[global] Open Scope kernel_scope.

(** * Total-correctness reasoning

    [wp m Q s]: from [s], [m] finishes without a fault and within its fuel, in
    a result and a state that satisfy [Q]. *)

Definition wp {S A} (m : M S A) (Q : A -> S -> Prop) (s : S) : Prop :=
  match m s with
  | Ret (a, s') => Q a s'
  | Fault => False
  | NoFuel => False
  end.

Create HintDb kernel.

Section wp_rules.
Context {S : Type}.
Implicit Types s : S.

Lemma wp_mono {A} (m : M S A) (P Q : A -> S -> Prop) s :
  wp m P s -> (forall a s', P a s' -> Q a s') -> wp m Q s.
Proof. unfold wp. destruct (m s) as [[a s']| |]; auto. Qed.

Lemma wp_and {A} (m : M S A) (P Q : A -> S -> Prop) s :
  wp m P s -> wp m Q s -> wp m (fun a s' => P a s' /\ Q a s') s.
Proof. unfold wp. destruct (m s) as [[a s']| |]; auto. Qed.

Lemma wp_ret {A} (a : A) Q s : Q a s -> wp (ret a) Q s.
Proof. done. Qed.

Lemma wp_bind {A B} (m : M S A) (k : A -> M S B) Q s :
  wp m (fun a s' => wp (k a) Q s') s -> wp (bind m k) Q s.
Proof. unfold wp, bind. by destruct (m s) as [[a s']| |]. Qed.

Lemma wp_get Q s : Q s s -> wp get Q s.
Proof. done. Qed.
Lemma wp_gets {A} (f : S -> A) Q s : Q (f s) s -> wp (gets f) Q s.
Proof. done. Qed.
Lemma wp_put s0 Q s : Q tt s0 -> wp (put s0) Q s.
Proof. done. Qed.
Lemma wp_modify (f : S -> S) Q s : Q tt (f s) -> wp (modify f) Q s.
Proof. done. Qed.
Lemma wp_of_option {A} (o : option A) a Q s : o = Some a -> Q a s -> wp (of_option o) Q s.
Proof. by intros ->. Qed.

Lemma wp_zoom {C A} (proj : S -> C) (inj : C -> S -> S) (m : M C A) Q s :
  wp m (fun a c => Q a (inj c s)) (proj s) -> wp (zoom proj inj m) Q s.
Proof. unfold wp, zoom. by destruct (m (proj s)) as [[a c]| |]. Qed.

Lemma wp_for_loop n lo f (I : Z -> S -> Prop) s :
  I lo s ->
  (forall i s', lo <= i < lo + Z.of_nat n -> I i s' -> wp (f i) (fun _ => I (i + 1)) s') ->
  wp (for_loop n lo f) (fun _ => I (lo + Z.of_nat n)) s.
Proof.
  revert lo s. induction n as [|n IH]; intros lo s Hs Hstep.
  - cbn [for_loop]. apply wp_ret. by rewrite Z.add_0_r.
  - cbn [for_loop]. apply wp_bind. eapply wp_mono; [apply Hstep; [lia|done]|].
    intros [] s' Hs'. replace (lo + Z.of_nat (Datatypes.S n)) with (lo + 1 + Z.of_nat n) by lia.
    apply IH; [done|]. intros. apply Hstep; [lia|done].
Qed.

(** The invariant rule of the bounded [for] loop. *)
Lemma wp_for_range lo hi f (I : Z -> S -> Prop) Q s :
  I lo s ->
  (forall i s', lo <= i < hi -> I i s' -> wp (f i) (fun _ => I (i + 1)) s') ->
  (forall s', I (Z.max lo hi) s' -> Q tt s') ->
  wp (for_range lo hi f) Q s.
Proof.
  intros Hs Hstep HQ. unfold for_range. eapply wp_mono; [eapply (wp_for_loop _ _ _ I); [done|]|].
  - intros. apply Hstep; [lia|done].
  - intros [] s' HI. apply HQ. replace (Z.max lo hi) with (lo + Z.of_nat (Z.to_nat (hi - lo))) by lia.
    done.
Qed.

Lemma wp_for_each {X} (l : list X) f (I : list X -> S -> Prop) Q s :
  I [] s ->
  (forall past x rest s', l = past ++ x :: rest -> I past s' ->
     wp (f x) (fun _ => I (past ++ [x])) s') ->
  (forall s', I l s' -> Q tt s') ->
  wp (for_each l f) Q s.
Proof.
  intros Hs Hstep HQ.
  assert (forall todo past s', l = past ++ todo -> I past s' ->
            wp (for_each todo f) Q s') as Hgen; [|by apply (Hgen l [])].
  induction todo as [|x todo IH]; intros past s' Hl HI.
  - cbn [for_each]. apply wp_ret, HQ. by rewrite Hl, app_nil_r.
  - cbn [for_each]. apply wp_bind. eapply wp_mono; [by eapply Hstep|].
    intros [] s'' HI'. apply (IH (past ++ [x])); [by rewrite <- app_assoc|done].
Qed.

(** The invariant rule of the [while] loop, with a variant that decreases. *)
Lemma wp_loop {A B} fuel (body : A -> M S (A + B)) a (I : A -> S -> Prop) (V : A -> S -> nat) Q s :
  I a s -> (V a s < fuel)%nat ->
  (forall a s, I a s ->
     wp (body a) (fun r s' => match r with
                              | inl a' => I a' s' /\ (V a' s' < V a s)%nat
                              | inr b => Q b s'
                              end) s) ->
  wp (loop fuel body a) Q s.
Proof.
  intros Hs Hf Hbody. revert a s Hs Hf.
  induction fuel as [|fuel IH]; intros a s Hs Hf; [lia|].
  cbn [loop]. apply wp_bind. eapply wp_mono; [by apply Hbody|].
  intros [a'|b] s'; [|by intros; apply wp_ret].
  intros [HI HV]. apply IH; [done|lia].
Qed.

(** A [while] loop whose first [n] rounds only move on along [x]. *)
Lemma wp_loop_steps {A B} fuel (body : A -> M S (A + B)) (x : nat -> A) n Q s :
  (n < fuel)%nat ->
  (forall i, (i < n)%nat -> wp (body (x i)) (fun r s' => r = inl (x (Datatypes.S i)) /\ s' = s) s) ->
  wp (body (x n)) (fun r s' => match r with inl _ => False | inr b => Q b s' end) s ->
  wp (loop fuel body (x O)) Q s.
Proof.
  revert fuel x. induction n as [|n IH]; intros fuel x Hf Hstep Hlast;
    (destruct fuel as [|fuel]; [lia|]); cbn [loop]; apply wp_bind.
  - eapply wp_mono; [exact Hlast|]. intros [a|b] s'; [done|]. by intros; apply wp_ret.
  - eapply wp_mono; [apply Hstep; lia|]. intros r s' [-> ->].
    apply (IH fuel (fun i => x (Datatypes.S i))); [lia| |done]. intros i Hi. apply Hstep. lia.
Qed.

(** What a [wp] says about a run: it returns. *)
Lemma wp_returns {A} (m : M S A) Q s :
  wp m Q s <-> exists a s', m s = Ret (a, s') /\ Q a s'.
Proof.
  unfold wp. split.
  - destruct (m s) as [[a s']| |]; [|done|done]. eauto.
  - intros (a & s' & -> & HQ). done.
Qed.
End wp_rules.

#[export] Hint Resolve wp_ret wp_get wp_gets wp_put wp_modify : kernel.

(** One symbolic step of a program under [wp]. *)
Ltac wp_step :=
  match goal with
  | |- wp (bind _ _) _ _ => apply wp_bind
  | |- wp (ret _) _ _ => apply wp_ret
  | |- wp get _ _ => apply wp_get
  | |- wp (gets _) _ _ => apply wp_gets
  | |- wp (put _) _ _ => apply wp_put
  | |- wp (modify _) _ _ => apply wp_modify
  | |- wp (zoom _ _ _) _ _ => apply wp_zoom
  | |- wp (of_option _) _ _ => eapply wp_of_option
  | H : ?b = true |- wp (if ?b then _ else _) _ _ => rewrite H
  | H : ?b = false |- wp (if ?b then _ else _) _ _ => rewrite H
  end.
Ltac wp_run := repeat (wp_step; cbv beta; cbn [fst snd]).
(** The same, reducing the matches on known values that the steps leave. *)
Ltac wp_go := repeat (cbv beta iota; try change (0 =? 0) with true; cbv iota; wp_step); cbv beta iota.
(** Case analysis on the condition of the leading [if]. *)
Ltac wp_if H :=
  match goal with |- wp (if ?b then _ else _) _ _ => destruct b eqn:H end.
