(* ===== verification/Keeps.v ===== *)
(** * What a computation keeps

    [runs total] is the total or the partial correctness of a computation, so that
    one proof serves both: with [true] it is [wp], with [false] a run that faults or
    has no more fuel is not spoken about.  [Keeps f m]: every run of [m] that
    returns leaves [f] of the state as it was, proved along the structure of [m]. *)
From S2P Require Import Prelude.

Definition runs {S A} (total : bool) (m : M S A) (Q : A -> S -> Prop) (s : S) : Prop :=
  match m s with Ret (a, s') => Q a s' | _ => total = false end.
#[global] Abbreviation wlp := (runs false).

Section runs.
Context {S : Type}.
Implicit Types (s : S) (total : bool).

Lemma runs_wp {A} total (m : M S A) Q s : wp m Q s -> runs total m Q s.
Proof. unfold wp, runs. by destruct (m s) as [[a s']| |]. Qed.
Lemma wp_runs {A} (m : M S A) Q s : runs true m Q s -> wp m Q s.
Proof. unfold wp, runs. by destruct (m s) as [[a s']| |]. Qed.
Lemma runs_mono {A} total (m : M S A) (P Q : A -> S -> Prop) s :
  runs total m P s -> (forall a s', P a s' -> Q a s') -> runs total m Q s.
Proof. unfold runs. destruct (m s) as [[a s']| |]; auto. Qed.
Lemma runs_and {A} total (m : M S A) (P Q : A -> S -> Prop) s :
  runs total m P s -> runs total m Q s -> runs total m (fun a s' => P a s' /\ Q a s') s.
Proof. unfold runs. destruct (m s) as [[a s']| |]; auto. Qed.
Lemma runs_bind {A B} total (m : M S A) (k : A -> M S B) Q s :
  runs total m (fun a s' => runs total (k a) Q s') s -> runs total (bind m k) Q s.
Proof. unfold runs, bind. by destruct (m s) as [[a s']| |]. Qed.
Lemma runs_bind_inv {A B} total (m : M S A) (k : A -> M S B) Q s :
  runs total (bind m k) Q s -> runs total m (fun a s' => runs total (k a) Q s') s.
Proof. unfold runs, bind. by destruct (m s) as [[a s']| |]. Qed.
(** A step that always returns. *)
Lemma runs_bind_wp {A B} total (m : M S A) (k : A -> M S B) Q s :
  wp m (fun a s' => runs total (k a) Q s') s -> runs total (bind m k) Q s.
Proof. intros H. by apply runs_bind, runs_wp. Qed.
Lemma runs_ret {A} total (a : A) Q s : Q a s -> runs total (ret a) Q s.
Proof. done. Qed.
Lemma runs_zoom {C A} total (proj : S -> C) (inj : C -> S -> S) (m : M C A) Q s :
  runs total m (fun a c => Q a (inj c s)) (proj s) -> runs total (zoom proj inj m) Q s.
Proof. unfold runs, zoom. by destruct (m (proj s)) as [[a c]| |]. Qed.
(** A loop that returns, by an invariant of its turns. *)
Lemma wlp_loop {A B} (I : A -> S -> Prop) fuel (body : A -> M S (A + B)) a Q s :
  I a s ->
  (forall a s, I a s -> runs false (body a) (fun r s' => match r with inl a' => I a' s' | inr b => Q b s' end) s) ->
  runs false (loop fuel body a) Q s.
Proof.
  intros Ha Hbody. revert a s Ha. induction fuel as [|n IH]; intros a s Ha; [done|]. cbn [loop].
  apply runs_bind. eapply runs_mono; [by apply Hbody|]. intros [a'|b] s' H; [by apply IH|by apply runs_ret].
Qed.
Lemma runs_inv {A} total (m : M S A) Q s a s' : runs total m Q s -> m s = Ret (a, s') -> Q a s'.
Proof. unfold runs. intros H E. by rewrite E in H. Qed.
End runs.

Class Keeps {S A X} (f : S -> X) (m : M S A) : Prop := keeps : forall s a s', m s = Ret (a, s') -> f s' = f s.

Section keeps.
Context {S X : Type} (f : S -> X).

Lemma wlp_keeps {A} (m : M S A) Q s : Keeps f m -> (forall a s', f s' = f s -> Q a s') -> wlp m Q s.
Proof. intros H HQ. unfold runs. destruct (m s) as [[a s']| |] eqn:E; [|done|done]. by apply HQ, (H s a). Qed.

Lemma keeps_ret {A} (a : A) : Keeps f (ret a).
Proof. by intros s b s' [= _ <-]. Qed.
Lemma keeps_fault {A} : Keeps f (@fault S A).
Proof. by intros s b s' [=]. Qed.
Lemma keeps_nofuel {A} : Keeps (A := A) f (fun _ => NoFuel).
Proof. by intros s b s' [=]. Qed.
Lemma keeps_get : Keeps f (@get S).
Proof. by intros s b s' [= _ <-]. Qed.
Lemma keeps_gets {A} (g : S -> A) : Keeps f (gets g).
Proof. by intros s b s' [= _ <-]. Qed.
Lemma keeps_of_option {A} (o : option A) : Keeps f (of_option o).
Proof. destruct o; [apply keeps_ret|apply keeps_fault]. Qed.
Lemma keeps_modify (g : S -> S) : (forall s, f (g s) = f s) -> Keeps f (modify g).
Proof. by intros H s b s' [= _ <-]. Qed.
Lemma keeps_bind {A B} (m : M S A) (k : A -> M S B) : Keeps f m -> (forall a, Keeps f (k a)) -> Keeps f (bind m k).
Proof.
  intros Hm Hk s b s'. unfold bind. destruct (m s) as [[a s1]| |] eqn:E; [|done|done].
  intros H. by rewrite (Hk a s1 b s' H), (Hm s a s1 E).
Qed.
Lemma keeps_for_loop n i (g : Z -> M S unit) : (forall i, Keeps f (g i)) -> Keeps f (for_loop n i g).
Proof. intros H. revert i. induction n as [|n IH]; intros i; [apply keeps_ret|]. cbn [for_loop]. by apply keeps_bind. Qed.
Lemma keeps_for_range lo hi (g : Z -> M S unit) : (forall i, Keeps f (g i)) -> Keeps f (for_range lo hi g).
Proof. apply keeps_for_loop. Qed.
Lemma keeps_for_each {Y} (l : list Y) (g : Y -> M S unit) : (forall y, Keeps f (g y)) -> Keeps f (for_each l g).
Proof. intros H. induction l as [|y l IH]; [apply keeps_ret|]. cbn [for_each]. by apply keeps_bind. Qed.
Lemma keeps_loop {A B} fuel (body : A -> M S (A + B)) a : (forall a, Keeps f (body a)) -> Keeps f (loop fuel body a).
Proof.
  intros H. revert a. induction fuel as [|n IH]; intros a; [apply keeps_nofuel|]. cbn [loop].
  apply keeps_bind; [apply H|]. intros [a'|b]; [apply IH|apply keeps_ret].
Qed.
(** An operation on a part that [f] does not look at, and on one it does. *)
Lemma keeps_zoom_out {C A} (proj : S -> C) (inj : C -> S -> S) (m : M C A) :
  (forall c s, f (inj c s) = f s) -> Keeps f (zoom proj inj m).
Proof. intros H s a s'. unfold zoom. destruct (m (proj s)) as [[b c]| |]; [|done|done]. intros [= _ <-]. apply H. Qed.
Lemma keeps_zoom {C A Y} (g : C -> Y) (proj : S -> C) (inj : C -> S -> S) (m : M C A) :
  (forall c s, g c = g (proj s) -> f (inj c s) = f s) -> Keeps g m -> Keeps f (zoom proj inj m).
Proof.
  intros H Hm s a s'. unfold zoom. destruct (m (proj s)) as [[b c]| |] eqn:E; [|done|done]. intros [= _ <-].
  apply H. by apply (Hm _ b).
Qed.
End keeps.

Create HintDb keeps.
#[export] Hint Resolve keeps_ret keeps_fault keeps_nofuel keeps_get keeps_gets keeps_of_option : keeps.

(** One rule per construct; what is left are the operations of other parts. *)
Ltac keeps_step :=
  match goal with
  | |- Keeps _ _ => solve [auto 2 with keeps nocore]
  | |- Keeps _ (bind _ _) => apply keeps_bind; [|intros]
  | |- Keeps _ (modify _) => apply keeps_modify; intros; solve [reflexivity]
  | |- Keeps _ (loop _ _ _) => apply keeps_loop; intros
  | |- Keeps _ (for_range _ _ _) => apply keeps_for_range; intros
  | |- Keeps _ (for_each _ _) => apply keeps_for_each; intros
  | |- Keeps _ (zoom _ _ _) => apply keeps_zoom_out; intros; solve [reflexivity]
  | |- Keeps _ (if ?b then _ else _) => destruct b
  | |- Keeps _ (match ?x with _ => _ end) => destruct x
  | |- Keeps _ (let x := _ in _) => cbv zeta
  end.
Ltac solve_keeps := repeat first [keeps_step | progress (cbv beta zeta iota)].
