(* ===== verification/Bitmap.v ===== *)
(** * Physical page bitmap (src/memory_bitmap.c, include/memory_bitmap.h)

    The allocator of physical pages.  Its storage, the words behind
    [memory_bitmap.entries], is a finite map from word index to 32-bit word; an
    access to a word outside it is a [Fault].  Addresses of the linker
    ([_kernel_physical_start], [_kernel_physical_end]) are arguments. *)
From S2P Require Import Prelude.

(** ** Data *)

Definition BITMAP_ENTRY_SIZE_IN_BITS : Z := 32.

Record memory_bitmap_t : Type := mk_memory_bitmap {
  entries : gmap Z Z;
  pages : Z;
  last_allocated_page_index : Z;
}.

Definition set_entry (i w : Z) (bm : memory_bitmap_t) : memory_bitmap_t :=
  mk_memory_bitmap (<[i := w]> (entries bm)) (pages bm) (last_allocated_page_index bm).
Definition set_pages (n : Z) (bm : memory_bitmap_t) : memory_bitmap_t :=
  mk_memory_bitmap (entries bm) n (last_allocated_page_index bm).
Definition set_last (n : Z) (bm : memory_bitmap_t) : memory_bitmap_t :=
  mk_memory_bitmap (entries bm) (pages bm) n.

Definition load_entry (i : Z) : M memory_bitmap_t Z :=
  let! bm := get in of_option (entries bm !! i).

(** multiboot.h: a memory map entry and a loaded module. *)
Record multiboot_memory_map_t : Type := mk_mmap {
  mmap_addr : Z;
  mmap_len : Z;
  mmap_type : Z;
}.
Record multiboot_module_t : Type := mk_module {
  mod_start : Z;
  mod_end : Z;
}.
Record multiboot_info_t : Type := mk_multiboot {
  mmap : list multiboot_memory_map_t;
  mods : list multiboot_module_t;
}.
Definition MULTIBOOT_MEMORY_AVAILABLE : Z := 1.

(** ** The bit macros *)

Definition BITMAP_SET (page_index : Z) : M memory_bitmap_t unit :=
  let! w := load_entry (page_index / BITMAP_ENTRY_SIZE_IN_BITS) in
  modify (set_entry (page_index / BITMAP_ENTRY_SIZE_IN_BITS)
            (Z.lor w (Z.shiftl 1 (page_index mod BITMAP_ENTRY_SIZE_IN_BITS)))).

Definition BITMAP_CLEAR (page_index : Z) : M memory_bitmap_t unit :=
  let! w := load_entry (page_index / BITMAP_ENTRY_SIZE_IN_BITS) in
  modify (set_entry (page_index / BITMAP_ENTRY_SIZE_IN_BITS)
            (Z.land w (u32 (Z.lnot (Z.shiftl 1 (page_index mod BITMAP_ENTRY_SIZE_IN_BITS)))))).

Definition BITMAP_TEST (page_index : Z) : M memory_bitmap_t bool :=
  let! w := load_entry (page_index / BITMAP_ENTRY_SIZE_IN_BITS) in
  ret (negb (Z.land w (Z.shiftl 1 (page_index mod BITMAP_ENTRY_SIZE_IN_BITS)) =? 0)).

(** ** Initialisation *)

Section init.
(** Addresses of the linker symbols. *)
Variables kernel_physical_start kernel_physical_end : Z.

Definition memory_bitmap_lock_first_megabyte : M memory_bitmap_t unit :=
  for_range 0 (0x100000 / PAGE_SIZE) BITMAP_SET.

Definition memory_bitmap_lock_multiboot_modules (multiboot : multiboot_info_t)
  : M memory_bitmap_t unit :=
  for_each (mods multiboot) (fun mod_ =>
    for_range (mod_start mod_ / PAGE_SIZE)
              (u32 (mod_end mod_ + PAGE_SIZE - 1) / PAGE_SIZE) BITMAP_SET).

Definition memory_bitmap_lock_kernel : M memory_bitmap_t unit :=
  for_range (kernel_physical_start / PAGE_SIZE)
            (u32 (kernel_physical_end + PAGE_SIZE - 1) / PAGE_SIZE) BITMAP_SET.

Definition memory_bitmap_lock_bitmap : M memory_bitmap_t unit :=
  let! bm := get in
  let bitmap_phys_start := ALIGN_UP kernel_physical_end in
  let bitmap_size_bytes := ALIGN_UP (pages bm / 8) in
  let bitmap_pages := bitmap_size_bytes / PAGE_SIZE in
  let start_page := bitmap_phys_start / PAGE_SIZE in
  for_range 0 bitmap_pages (fun i => BITMAP_SET (u32 (start_page + i))).

(** The first loop of the initialiser: the highest region end, in 32 bits. *)
Definition total_memory_bytes (m : list multiboot_memory_map_t) : Z :=
  fold_left (fun total r =>
    let region_end := u32 (mmap_len r + mmap_addr r) in
    if region_end >? total then region_end else total) m 0.

(** Frees the pages of one memory map entry. *)
Definition memory_bitmap_clear_region (r : multiboot_memory_map_t) : M memory_bitmap_t unit :=
  if mmap_type r =? MULTIBOOT_MEMORY_AVAILABLE then
    for_range (u32 (mmap_addr r / PAGE_SIZE))
              (u32 (u64 (mmap_addr r + mmap_len r + PAGE_SIZE - 1) / PAGE_SIZE)) BITMAP_CLEAR
  else ret tt.

Definition memory_bitmap_module_init (multiboot : multiboot_info_t)
  : M memory_bitmap_t unit :=
  do! modify (set_pages (total_memory_bytes (mmap multiboot) / PAGE_SIZE)) in
  let! bm := get in
  do! for_range 0 (pages bm) BITMAP_SET in
  do! for_each (mmap multiboot) memory_bitmap_clear_region in
  do! memory_bitmap_lock_first_megabyte in
  do! memory_bitmap_lock_multiboot_modules multiboot in
  do! memory_bitmap_lock_kernel in
  do! memory_bitmap_lock_bitmap in
  modify (set_last 0).
End init.

(** ** Allocation and release *)

(** [for (page_index = i; n times; ++page_index) if (!BITMAP_TEST(..)) break;]
    answers the page the loop stopped at, if it found one. *)
Fixpoint memory_bitmap_scan (n : nat) (page_index : Z) : M memory_bitmap_t (option Z) :=
  match n with
  | O => ret None
  | S n' =>
      let! used := BITMAP_TEST page_index in
      if used then memory_bitmap_scan n' (page_index + 1) else ret (Some page_index)
  end.

(** The address of a page, or 0 for [NULL]. *)
Definition memory_bitmap_allocate : M memory_bitmap_t Z :=
  let! bm := get in
  let! first := memory_bitmap_scan (Z.to_nat (pages bm - last_allocated_page_index bm))
                                   (last_allocated_page_index bm) in
  let! found := match first with
                | Some page_index => ret (Some page_index)
                | None => memory_bitmap_scan (Z.to_nat (last_allocated_page_index bm)) 0
                end in
  match found with
  | None => ret 0
  | Some page_index =>
      do! BITMAP_SET page_index in
      do! modify (set_last page_index) in
      ret (u32 (page_index * PAGE_SIZE))
  end.

Definition memory_bitmap_free (address : Z) : M memory_bitmap_t unit :=
  let page_index := address / PAGE_SIZE in
  let! used := BITMAP_TEST page_index in
  do! (if used then BITMAP_CLEAR page_index else ret tt) in
  let! bm := get in
  if page_index <? last_allocated_page_index bm
  then modify (set_last page_index) else ret tt.

(** ** The bitmap as a set of used pages *)

(** The bit of a page; the specification view of the storage. *)
Definition page_used (bm : memory_bitmap_t) (p : Z) : bool :=
  match entries bm !! (p / BITMAP_ENTRY_SIZE_IN_BITS) with
  | Some w => Z.testbit w (p mod BITMAP_ENTRY_SIZE_IN_BITS)
  | None => false
  end.

(** The storage covers page [p]. *)
Definition has_page (bm : memory_bitmap_t) (p : Z) : Prop :=
  0 <= p /\ is_Some (entries bm !! (p / BITMAP_ENTRY_SIZE_IN_BITS)).

(** [bm'] is [bm] with the used bits mapped by [f]; nothing else changed. *)
Record bits_mapped (f : Z -> bool -> bool) (bm bm' : memory_bitmap_t) : Prop := {
  mapped_pages : pages bm' = pages bm;
  mapped_last : last_allocated_page_index bm' = last_allocated_page_index bm;
  mapped_has : forall p, has_page bm' p <-> has_page bm p;
  mapped_used : forall p, 0 <= p -> page_used bm' p = f p (page_used bm p);
}.

Lemma bits_mapped_id bm : bits_mapped (fun _ b => b) bm bm.
Proof. split; done. Qed.

Lemma bits_mapped_trans f g h bm1 bm2 bm3 :
  bits_mapped f bm1 bm2 -> bits_mapped g bm2 bm3 ->
  (forall p b, 0 <= p -> g p (f p b) = h p b) -> bits_mapped h bm1 bm3.
Proof.
  intros [P1 L1 H1 U1] [P2 L2 H2 U2] Hfg. split; [congruence|congruence| |].
  - intros p. by rewrite H2.
  - intros p Hp. rewrite U2, U1 by done. by apply Hfg.
Qed.

Lemma bits_mapped_compose f g bm1 bm2 bm3 :
  bits_mapped f bm1 bm2 -> bits_mapped g bm2 bm3 ->
  bits_mapped (fun p b => g p (f p b)) bm1 bm3.
Proof. intros H1 H2. by eapply bits_mapped_trans. Qed.

Lemma bits_mapped_ext f g bm bm' :
  bits_mapped f bm bm' -> (forall p b, 0 <= p -> f p b = g p b) -> bits_mapped g bm bm'.
Proof. intros [P L H U] E. split; [done..|]. intros. rewrite U by done. by apply E. Qed.

Lemma same_word_bit p q :
  0 <= p -> 0 <= q -> p / 32 = q / 32 -> (p mod 32 =? q mod 32) = (p =? q).
Proof.
  intros. destruct (Z.eqb_spec p q) as [->|]; [apply Z.eqb_refl|].
  apply Z.eqb_neq. zlia.
Qed.

Lemma update_word_mapped bm p w w' (f : bool -> bool) :
  has_page bm p -> entries bm !! (p / 32) = Some w ->
  (forall k, 0 <= k < 32 ->
     Z.testbit w' k = if k =? p mod 32 then f (Z.testbit w k) else Z.testbit w k) ->
  bits_mapped (fun q b => if q =? p then f b else b) bm (set_entry (p / 32) w' bm).
Proof.
  intros [Hp _] Hw Hbits. split; [done|done| |].
  - intros q. unfold has_page, set_entry, BITMAP_ENTRY_SIZE_IN_BITS; simpl.
    rewrite lookup_insert. case_decide as E; [|done]. rewrite <- E, Hw.
    by split; intros []; split.
  - intros q Hq. unfold page_used, set_entry, BITMAP_ENTRY_SIZE_IN_BITS; simpl.
    rewrite lookup_insert. case_decide as E.
    + rewrite <- E, Hw. rewrite Hbits by (apply Z.mod_pos_bound; lia).
      by rewrite same_word_bit by (done || lia).
    + destruct (Z.eqb_spec q p) as [->|]; [done|]. done.
Qed.

Lemma wp_load_entry bm p Q :
  has_page bm p ->
  (forall w, entries bm !! (p / 32) = Some w -> Q w bm) ->
  wp (load_entry (p / BITMAP_ENTRY_SIZE_IN_BITS)) Q bm.
Proof.
  intros [Hp [w Hw]] HQ. unfold load_entry. wp_run; [exact Hw|]. by apply HQ.
Qed.

Lemma wp_BITMAP_TEST bm p Q :
  has_page bm p -> Q (page_used bm p) bm -> wp (BITMAP_TEST p) Q bm.
Proof.
  intros Hp HQ. unfold BITMAP_TEST. wp_step. apply (wp_load_entry bm p); [done|].
  intros w Hw. wp_run. rewrite land_single_bit, negb_involutive
    by (apply Z.mod_pos_bound; unfold BITMAP_ENTRY_SIZE_IN_BITS; lia).
  unfold page_used, BITMAP_ENTRY_SIZE_IN_BITS in *. by rewrite Hw in HQ.
Qed.

Lemma wp_BITMAP_SET bm p Q :
  has_page bm p ->
  (forall bm', bits_mapped (fun q b => (q =? p) || b) bm bm' -> Q tt bm') ->
  wp (BITMAP_SET p) Q bm.
Proof.
  intros Hp HQ. unfold BITMAP_SET. wp_step. apply (wp_load_entry bm p); [done|].
  intros w Hw. wp_run. apply HQ.
  eapply bits_mapped_ext; [eapply (update_word_mapped _ _ w _ (fun _ => true)); [done..|]|].
  - intros k Hk. unfold BITMAP_ENTRY_SIZE_IN_BITS. pose proof (Z.mod_pos_bound p 32).
    rewrite Z.lor_spec, testbit_pow2_shift by lia. by destruct (k =? p mod 32); rewrite ?orb_true_r, ?orb_false_r.
  - intros q b _. cbv beta. by destruct (q =? p).
Qed.

Lemma wp_BITMAP_CLEAR bm p Q :
  has_page bm p ->
  (forall bm', bits_mapped (fun q b => negb (q =? p) && b) bm bm' -> Q tt bm') ->
  wp (BITMAP_CLEAR p) Q bm.
Proof.
  intros Hp HQ. unfold BITMAP_CLEAR. wp_step. apply (wp_load_entry bm p); [done|].
  intros w Hw. wp_run. apply HQ.
  eapply bits_mapped_ext; [eapply (update_word_mapped _ _ w _ (fun _ => false)); [done..|]|].
  - intros k Hk. unfold BITMAP_ENTRY_SIZE_IN_BITS. pose proof (Z.mod_pos_bound p 32).
    rewrite Z.land_spec, testbit_u32, Z.lnot_spec, testbit_pow2_shift by lia.
    destruct (Z.ltb_spec k 32); [|lia].
    by destruct (k =? p mod 32); simpl; rewrite ?andb_true_r, ?andb_false_r.
  - intros q b _. cbv beta. by destruct (q =? p).
Qed.

#[export] Hint Resolve bits_mapped_id : kernel.

(** Pages [lo <= p < hi]. *)
Definition in_range (lo hi p : Z) : bool := (lo <=? p) && (p <? hi).

Lemma in_range_step lo i p : lo <= i -> (p =? i) || in_range lo i p = in_range lo (i + 1) p.
Proof.
  intros. unfold in_range.
  destruct (Z.eqb_spec p i), (Z.leb_spec lo p), (Z.ltb_spec p i), (Z.ltb_spec p (i + 1)); simpl; lia.
Qed.

Lemma in_range_max lo hi p : in_range lo (Z.max lo hi) p = in_range lo hi p.
Proof.
  unfold in_range. destruct (Z.leb_spec lo p), (Z.ltb_spec p hi), (Z.ltb_spec p (Z.max lo hi));
    simpl; lia.
Qed.

Section ranges.
Variables (bm : memory_bitmap_t) (lo hi : Z).
Hypothesis Hhas : forall p, lo <= p < hi -> has_page bm p.

Lemma wp_set_range Q :
  (forall bm', bits_mapped (fun p b => in_range lo hi p || b) bm bm' -> Q tt bm') ->
  wp (for_range lo hi BITMAP_SET) Q bm.
Proof using Hhas.
  intros HQ. apply (wp_for_range _ _ _
    (fun i bm' => lo <= i /\ bits_mapped (fun p b => in_range lo i p || b) bm bm')).
  - split; [done|]. eapply bits_mapped_ext; [apply bits_mapped_id|].
    intros p b _. unfold in_range. destruct (Z.leb_spec lo p), (Z.ltb_spec p lo); simpl; done || lia.
  - intros i bm' Hi [_ Hbm]. apply wp_BITMAP_SET; [apply Hbm, Hhas; done|].
    intros bm'' Hbm'. split; [lia|]. eapply bits_mapped_trans; [exact Hbm|exact Hbm'|].
    intros p b _. cbv beta. by rewrite orb_assoc, in_range_step by lia.
  - intros bm' [_ Hbm]. apply HQ. eapply bits_mapped_ext; [exact Hbm|].
    intros. cbv beta. by rewrite in_range_max.
Qed.

Lemma wp_clear_range Q :
  (forall bm', bits_mapped (fun p b => negb (in_range lo hi p) && b) bm bm' -> Q tt bm') ->
  wp (for_range lo hi BITMAP_CLEAR) Q bm.
Proof using Hhas.
  intros HQ. apply (wp_for_range _ _ _
    (fun i bm' => lo <= i /\ bits_mapped (fun p b => negb (in_range lo i p) && b) bm bm')).
  - split; [done|]. eapply bits_mapped_ext; [apply bits_mapped_id|].
    intros p b _. unfold in_range. destruct (Z.leb_spec lo p), (Z.ltb_spec p lo); simpl; done || lia.
  - intros i bm' Hi [_ Hbm]. apply wp_BITMAP_CLEAR; [apply Hbm, Hhas; done|].
    intros bm'' Hbm'. split; [lia|]. eapply bits_mapped_trans; [exact Hbm|exact Hbm'|].
    intros p b _. cbv beta. rewrite <- in_range_step by lia.
    by destruct (p =? i), (in_range lo i p).
  - intros bm' [_ Hbm]. apply HQ. eapply bits_mapped_ext; [exact Hbm|].
    intros. cbv beta. by rewrite in_range_max.
Qed.
End ranges.

(** ** Initialisation: which pages end up used *)

Section init_spec.
Variables kernel_physical_start kernel_physical_end : Z.
Abbreviation init := (memory_bitmap_module_init kernel_physical_start kernel_physical_end).

Definition region_pages (r : multiboot_memory_map_t) (p : Z) : bool :=
  (mmap_type r =? MULTIBOOT_MEMORY_AVAILABLE) &&
  in_range (u32 (mmap_addr r / PAGE_SIZE))
           (u32 (u64 (mmap_addr r + mmap_len r + PAGE_SIZE - 1) / PAGE_SIZE)) p.
Definition module_pages (m : multiboot_module_t) (p : Z) : bool :=
  in_range (mod_start m / PAGE_SIZE) (u32 (mod_end m + PAGE_SIZE - 1) / PAGE_SIZE) p.
Definition kernel_pages (p : Z) : bool :=
  in_range (kernel_physical_start / PAGE_SIZE)
           (u32 (kernel_physical_end + PAGE_SIZE - 1) / PAGE_SIZE) p.
(** Whole pages that hold [x] bytes. *)
Definition pages_of (x : Z) : Z := (x + PAGE_SIZE - 1) / PAGE_SIZE.
Definition bitmap_pages (n p : Z) : bool :=
  in_range (pages_of kernel_physical_end) (pages_of kernel_physical_end + pages_of (n / 8)) p.

(** The highest end of the regions [l], in 32 bits: no region ends above it, and
    it is the end of one, or 0. *)
Definition region_end (r : multiboot_memory_map_t) : Z := u32 (mmap_addr r + mmap_len r).
Definition highest_end (l : list multiboot_memory_map_t) (e : Z) : Prop :=
  (forall r, r ∈ l -> region_end r <= e) /\ (e = 0 \/ exists r, r ∈ l /\ e = region_end r).

Lemma total_memory_bytes_highest l e : highest_end l e -> total_memory_bytes l = e.
Proof using Type.
  assert (forall l t, let t' := fold_left (fun total r =>
    let region_end := u32 (mmap_len r + mmap_addr r) in
    if region_end >? total then region_end else total) l t in
    t <= t' /\ (forall r, r ∈ l -> region_end r <= t') /\ (t' = t \/ exists r, r ∈ l /\ t' = region_end r)) as H.
  { clear. induction l as [|r l IH]; intros t; cbn.
    - split_and!; [done| |by left]. intros r Hr. by apply not_elem_of_nil in Hr.
    - rewrite (Z.add_comm (mmap_len r)). fold (region_end r). set (t1 := if region_end r >? t then region_end r else t).
      assert (t <= t1 /\ region_end r <= t1 /\ (t1 = t \/ t1 = region_end r)) as (T1 & T2 & T3)
        by (unfold t1; rewrite Z.gtb_ltb; destruct (Z.ltb_spec t (region_end r)); lia).
      destruct (IH t1) as (H1 & H2 & H3). cbn in *. split_and!; [lia| |].
      + intros r' [->|Hr']%elem_of_cons; [lia|by apply H2].
      + destruct H3 as [E|(r' & Hr' & ->)]; [|right; exists r'; by rewrite elem_of_cons; auto].
        rewrite E. destruct T3 as [->| ->]; [by left|right]. exists r. split; [left|done]. }
  intros [H1 H2]. set (t := total_memory_bytes l).
  assert (0 <= t /\ (forall r, r ∈ l -> region_end r <= t) /\ (t = 0 \/ exists r, r ∈ l /\ t = region_end r)) as (K1 & K2 & K3)
    by exact (H l 0). clearbody t. clear H. assert (e <= t) as Hle.
  { destruct H2 as [->|(r & Hr & ->)]; [done|by apply K2]. }
  destruct K3 as [->|(r & Hr & E)]; [|pose proof (H1 r Hr); lia].
  destruct H2 as [->|(r & Hr & ->)]; [done|]. pose proof (u32_range (mmap_addr r + mmap_len r)). unfold region_end in *. lia.
Qed.
Lemma highest_end_range l e : highest_end l e -> 0 <= e < 2 ^ 32.
Proof using Type. intros [_ [->|(r & _ & ->)]]; [lia|apply u32_range]. Qed.
Lemma align_up_pages x : 0 <= x <= 2 ^ 32 - PAGE_SIZE -> ALIGN_UP x / PAGE_SIZE = pages_of x.
Proof using Type. intros H. rewrite align_up_spec by done. by rewrite Z.div_mul. Qed.

(** Pages that some available memory map entry touches. *)
Definition available (mb : multiboot_info_t) (p : Z) : bool :=
  existsb (fun r => region_pages r p) (mmap mb).
(** Pages the four [lock] functions reserve. *)
Definition locked (mb : multiboot_info_t) (n p : Z) : bool :=
  in_range 0 256 p || existsb (fun m => module_pages m p) (mods mb)
    || kernel_pages p || bitmap_pages n p.

(** The storage the initialiser writes to: the [n] pages there are, and
    every page of an available region, a module, the kernel or the bitmap. *)
Definition init_storage (mb : multiboot_info_t) (n : Z) (bm : memory_bitmap_t) : Prop :=
  forall p, in_range 0 n p || available mb p || locked mb n p = true -> has_page bm p.

Lemma in_range_iff lo hi p : in_range lo hi p = true <-> lo <= p < hi.
Proof using Type. unfold in_range. rewrite andb_true_iff, Z.leb_le, Z.ltb_lt. lia. Qed.

(** A check that every range of the initialiser lies in [[0, n)]. *)
Definition within (n lo hi : Z) : bool := (0 <=? lo) && (hi <=? n).
Definition storage_within (mb : multiboot_info_t) (total n : Z) : bool :=
  within n 0 total && within n 0 256 &&
  forallb (fun r => within n (u32 (mmap_addr r / PAGE_SIZE))
    (u32 (u64 (mmap_addr r + mmap_len r + PAGE_SIZE - 1) / PAGE_SIZE))) (mmap mb) &&
  forallb (fun m => within n (mod_start m / PAGE_SIZE)
    (u32 (mod_end m + PAGE_SIZE - 1) / PAGE_SIZE)) (mods mb) &&
  within n (kernel_physical_start / PAGE_SIZE)
    (u32 (kernel_physical_end + PAGE_SIZE - 1) / PAGE_SIZE) &&
  within n (pages_of kernel_physical_end) (pages_of kernel_physical_end + pages_of (total / 8)).

Lemma within_range n lo hi p : within n lo hi = true -> in_range lo hi p = true -> 0 <= p < n.
Proof using Type. unfold within. rewrite in_range_iff, andb_true_iff, Z.leb_le, Z.leb_le. lia. Qed.

Lemma init_storage_within mb total bm n :
  storage_within mb total n = true -> (forall p, 0 <= p < n -> has_page bm p) -> init_storage mb total bm.
Proof using Type.
  unfold storage_within, init_storage, locked, available, kernel_pages, bitmap_pages.
  intros Hw Hhas p Hp. apply Hhas.
  rewrite !andb_true_iff, !forallb_forall in Hw.
  destruct Hw as (((((W1 & W2) & W3) & W4) & W5) & W6).
  rewrite !orb_true_iff, !existsb_exists in Hp. unfold region_pages, module_pages in Hp.
  destruct Hp as [[H|(r & Hr & H)]|[[[H|(m & Hm & H)]|H]|H]];
    try (eapply within_range; [|exact H]; by eauto).
  apply andb_true_iff in H as [_ H]. by eapply within_range; [apply W3|].
Qed.

Lemma existsb_in {A} (f : A -> bool) l x : In x l -> f x = true -> existsb f l = true.
Proof. intros. apply existsb_exists. eauto. Qed.

Lemma existsb_snoc {A} (f : A -> bool) l x : existsb f (l ++ [x]) = existsb f l || f x.
Proof. rewrite existsb_app. simpl. by rewrite orb_false_r. Qed.

Lemma in_range_true lo hi p : lo <= p < hi -> in_range lo hi p = true.
Proof. intros. unfold in_range. destruct (Z.leb_spec lo p), (Z.ltb_spec p hi); done || lia. Qed.

Lemma wp_clear_regions mb bm Q :
  (forall p, available mb p = true -> has_page bm p) ->
  (forall bm', bits_mapped (fun p b => negb (available mb p) && b) bm bm' -> Q tt bm') ->
  wp (for_each (mmap mb) memory_bitmap_clear_region) Q bm.
Proof using Type.
  intros Hhas HQ. apply (wp_for_each _ _ (fun done_ bm' =>
    bits_mapped (fun p b => negb (existsb (fun r => region_pages r p) done_) && b) bm bm')).
  { eapply bits_mapped_ext; [apply bits_mapped_id|done]. }
  2: { intros bm' Hbm. apply HQ, Hbm. }
  intros past r rest bm' Hl Hbm.
  unfold memory_bitmap_clear_region. wp_if Hty.
  - apply wp_clear_range.
    + intros p Hp. apply Hbm, Hhas. unfold available. eapply (existsb_in _ _ r).
      { rewrite Hl. apply in_elt. }
      unfold region_pages. rewrite Hty. by apply in_range_true.
    + intros bm'' Hbm'. eapply bits_mapped_trans; [exact Hbm|exact Hbm'|].
      intros p b _. cbv beta. rewrite existsb_snoc. unfold region_pages at 3. rewrite Hty.
      by destruct (existsb _ past), (in_range _ _ p).
  - apply wp_ret. eapply bits_mapped_ext; [exact Hbm|].
    intros p b _. cbv beta. rewrite existsb_snoc. unfold region_pages at 3. rewrite Hty.
    by rewrite orb_false_r.
Qed.

Lemma wp_lock_modules mb bm Q :
  (forall p, existsb (fun m => module_pages m p) (mods mb) = true -> has_page bm p) ->
  (forall bm', bits_mapped (fun p b => existsb (fun m => module_pages m p) (mods mb) || b) bm bm' ->
     Q tt bm') ->
  wp (memory_bitmap_lock_multiboot_modules mb) Q bm.
Proof using Type.
  intros Hhas HQ. apply (wp_for_each _ _ (fun done_ bm' =>
    bits_mapped (fun p b => existsb (fun m => module_pages m p) done_ || b) bm bm')).
  { eapply bits_mapped_ext; [apply bits_mapped_id|done]. }
  2: { intros bm' Hbm. apply HQ, Hbm. }
  intros past r rest bm' Hl Hbm. apply wp_set_range.
  - intros p Hp. apply Hbm, Hhas. eapply (existsb_in _ _ r).
    { rewrite Hl. apply in_elt. }
    by apply in_range_true.
  - intros bm'' Hbm'. eapply bits_mapped_trans; [exact Hbm|exact Hbm'|].
    intros p b _. cbv beta. rewrite existsb_snoc. unfold module_pages at 3.
    by destruct (existsb _ past), (in_range _ _ p).
Qed.

Lemma wp_lock_bitmap bm Q :
  0 <= kernel_physical_end <= 2 ^ 32 - PAGE_SIZE -> 0 <= pages bm <= 2 ^ 20 ->
  (forall p, bitmap_pages (pages bm) p = true -> has_page bm p) ->
  (forall bm', bits_mapped (fun p b => bitmap_pages (pages bm) p || b) bm bm' -> Q tt bm') ->
  wp (memory_bitmap_lock_bitmap kernel_physical_end) Q bm.
Proof using Type.
  intros Hk Hp Hhas HQ. unfold memory_bitmap_lock_bitmap. wp_run. unfold PAGE_SIZE in Hk.
  rewrite !align_up_pages by (unfold PAGE_SIZE; zlia). unfold bitmap_pages in *.
  set (s := pages_of kernel_physical_end) in *. set (n := pages_of (pages bm / 8)) in *.
  assert (0 <= s /\ s + n <= 2 ^ 32) as [Hs Hfit] by (unfold s, n, pages_of, PAGE_SIZE; zlia).
  apply (wp_for_range _ _ _
    (fun i bm' => bits_mapped (fun p b => in_range s (s + i) p || b) bm bm')).
  - eapply bits_mapped_ext; [apply bits_mapped_id|]. intros p b _. cbv beta.
    unfold in_range. destruct (Z.leb_spec s p), (Z.ltb_spec p (s + 0)); simpl; done || lia.
  - intros i bm' Hi Hbm. rewrite u32_small by lia. apply wp_BITMAP_SET.
    + apply Hbm, Hhas. apply in_range_true. lia.
    + intros bm'' Hbm'. eapply bits_mapped_trans; [exact Hbm|exact Hbm'|].
      intros p b _. cbv beta. rewrite orb_assoc, in_range_step by lia.
      by replace (s + i + 1) with (s + (i + 1)) by lia.
  - intros bm' Hbm. apply HQ. eapply bits_mapped_ext; [exact Hbm|].
    intros p b _. cbv beta. f_equal. unfold in_range.
    destruct (Z.leb_spec s p), (Z.ltb_spec p (s + Z.max 0 n)), (Z.ltb_spec p (s + n)); simpl; done || lia.
Qed.
End init_spec.

(** C19: Initialisation.  When the storage is there, [memory_bitmap_module_init]
    finishes with as many pages as fit below the highest end of a region of the
    memory map, and a page below that count is used afterwards exactly when it is
    locked (first megabyte, modules, kernel, bitmap storage) or lies in no
    available region. *)
Theorem memory_bitmap_module_init_spec ks ke mb total bm :
  highest_end (mmap mb) total -> 0 <= ke <= 2 ^ 32 - PAGE_SIZE -> init_storage ks ke mb (total / PAGE_SIZE) bm ->
  wp (memory_bitmap_module_init ks ke mb)
     (fun _ bm' =>
        pages bm' = total / PAGE_SIZE /\
        last_allocated_page_index bm' = 0 /\
        forall p, 0 <= p < pages bm' ->
          page_used bm' p = locked ks ke mb (pages bm') p || negb (available mb p)) bm.
Proof.
  intros Htotal Hke Hst. unfold memory_bitmap_module_init, init_storage in *.
  rewrite (total_memory_bytes_highest _ _ Htotal). apply highest_end_range in Htotal.
  set (n := total / PAGE_SIZE) in *.
  assert (0 <= n <= 2 ^ 20) as Hn20 by (unfold n, PAGE_SIZE; zlia). clearbody n. clear Htotal. wp_run.
  set (bm0 := set_pages n bm). change (pages bm0) with n.
  assert (forall p, in_range 0 n p || available mb p || locked ks ke mb n p = true ->
            has_page bm0 p) as Hst0 by exact Hst. clear Hst.
  assert (forall f bm' q, bits_mapped f bm0 bm' ->
    in_range 0 n q || available mb q || locked ks ke mb n q = true -> has_page bm' q) as Hkeep.
  { intros f bm' q Hm Hq. by apply Hm, Hst0. }
  apply wp_set_range. { intros p Hp. apply Hst0. by rewrite in_range_true. }
  intros bm1 H1. wp_run. apply wp_clear_regions.
  { intros p Hp. eapply Hkeep; [exact H1|]. by rewrite Hp, ?orb_true_r. }
  intros bm2 H2. apply (bits_mapped_compose _ _ _ _ _ H1) in H2. wp_run.
  apply wp_set_range.
  { intros p Hp. eapply Hkeep; [exact H2|]. unfold locked.
    rewrite (in_range_true 0 256) by done. by rewrite orb_true_r. }
  intros bm3 H3. apply (bits_mapped_compose _ _ _ _ _ H2) in H3. wp_run.
  apply wp_lock_modules.
  { intros p Hp. eapply Hkeep; [exact H3|]. unfold locked. by rewrite Hp, !orb_true_r. }
  intros bm4 H4. apply (bits_mapped_compose _ _ _ _ _ H3) in H4. wp_run.
  apply wp_set_range.
  { intros p Hp. eapply Hkeep; [exact H4|]. unfold locked, kernel_pages.
    rewrite (in_range_true _ _ p Hp). by rewrite !orb_true_r. }
  intros bm5 H5. apply (bits_mapped_compose _ _ _ _ _ H4) in H5. wp_run.
  assert (pages bm5 = n) as Hn by apply H5.
  apply wp_lock_bitmap; rewrite ?Hn; [done|done| |].
  { intros p Hp. eapply Hkeep; [exact H5|]. unfold locked. by rewrite Hp, !orb_true_r. }
  intros bm6 H6. apply (bits_mapped_compose _ _ _ _ _ H5) in H6. wp_run.
  assert (pages bm6 = n) as Hn6 by apply H6. simpl. rewrite Hn6.
  split; [done|]. split; [done|]. intros p Hp.
  change (page_used (set_last 0 bm6) p) with (page_used bm6 p).
  rewrite (mapped_used _ _ _ H6) by lia. cbv beta. rewrite (in_range_true 0 n) by done.
  unfold locked, kernel_pages. change (0x100000 / PAGE_SIZE) with 256. simpl orb at 5.
  rewrite andb_true_r.
  destruct (bitmap_pages _ _ _), (in_range 0 256 p), (existsb _ (mods mb)), (in_range _ _ p),
    (available mb p); done.
Qed.

(** ** Allocation and release: specifications *)

Record bitmap_ok (bm : memory_bitmap_t) : Prop := {
  ok_pages : 0 <= pages bm <= 2 ^ 20;
  ok_last : 0 <= last_allocated_page_index bm <= pages bm;
  ok_storage : forall p, 0 <= p < pages bm -> has_page bm p;
}.

(** The page the next-fit search answers: the first free page from the last
    allocated one on, else the first free page below it. *)
Inductive next_fit (bm : memory_bitmap_t) (p : Z) : Prop :=
| next_fit_after :
    last_allocated_page_index bm <= p < pages bm -> page_used bm p = false ->
    (forall q, last_allocated_page_index bm <= q < p -> page_used bm q = true) -> next_fit bm p
| next_fit_before :
    0 <= p < last_allocated_page_index bm -> page_used bm p = false ->
    (forall q, last_allocated_page_index bm <= q < pages bm -> page_used bm q = true) ->
    (forall q, 0 <= q < p -> page_used bm q = true) -> next_fit bm p.

Lemma next_fit_bounds bm p :
  bitmap_ok bm -> next_fit bm p -> 0 <= p < pages bm /\ page_used bm p = false.
Proof. intros [? ? _] []; split; lia || done. Qed.

Lemma wp_scan n lo bm Q :
  (forall p, lo <= p < lo + Z.of_nat n -> has_page bm p) ->
  ((forall p, lo <= p < lo + Z.of_nat n -> page_used bm p = true) -> Q None bm) ->
  (forall p, lo <= p < lo + Z.of_nat n -> page_used bm p = false ->
     (forall q, lo <= q < p -> page_used bm q = true) -> Q (Some p) bm) ->
  wp (memory_bitmap_scan n lo) Q bm.
Proof.
  revert lo. induction n as [|n IH]; intros lo Hhas HN HS; cbn [memory_bitmap_scan].
  - apply wp_ret, HN. lia.
  - apply wp_bind, wp_BITMAP_TEST; [apply Hhas; lia|]. destruct (page_used bm lo) eqn:Hlo.
    + apply IH; [intros; apply Hhas; lia| |].
      * intros Hall. apply HN. intros p Hp.
        destruct (decide (p = lo)) as [->|]; [done|]. apply Hall. lia.
      * intros p Hp Hfree Hbelow. apply HS; [lia|done|]. intros q Hq.
        destruct (decide (q = lo)) as [->|]; [done|]. apply Hbelow. lia.
    + apply wp_ret, HS; [lia|done|lia].
Qed.

(** The effect of taking page [p]: its bit is set and the search position moves. *)
Record allocated (p : Z) (bm bm' : memory_bitmap_t) : Prop := {
  al_pages : pages bm' = pages bm;
  al_last : last_allocated_page_index bm' = p;
  al_has : forall q, has_page bm' q <-> has_page bm q;
  al_used : forall q, 0 <= q -> page_used bm' q = (q =? p) || page_used bm q;
}.

Lemma wp_allocate bm Q :
  bitmap_ok bm ->
  (forall p bm', next_fit bm p -> allocated p bm bm' -> Q (p * PAGE_SIZE) bm') ->
  ((forall p, 0 <= p < pages bm -> page_used bm p = true) -> Q 0 bm) ->
  wp memory_bitmap_allocate Q bm.
Proof.
  intros Hok HS HN. pose proof Hok as [Hp Hl Hst].
  assert (forall p, next_fit bm p ->
    wp (do! BITMAP_SET p in do! modify (set_last p) in ret (u32 (p * PAGE_SIZE))) Q bm) as Htake.
  { intros p Hfit. pose proof (next_fit_bounds bm p Hok Hfit) as [Hr Hfree].
    wp_run. apply wp_BITMAP_SET; [by apply Hst|]. intros bm' [? ? ? ?]. wp_run.
    rewrite u32_small by (unfold PAGE_SIZE; lia). by apply HS. }
  unfold memory_bitmap_allocate. wp_run. apply wp_scan.
  - intros p Hpr. apply Hst. lia.
  - intros Hafter. apply wp_bind, wp_scan.
    + intros p Hpr. apply Hst. lia.
    + intros Hbefore. apply wp_ret, HN. intros p Hpr.
      destruct (decide (last_allocated_page_index bm <= p)); [apply Hafter|apply Hbefore]; lia.
    + intros p Hpr Hfree Hbelow. apply Htake. apply next_fit_before; [lia|done| |done].
      intros q Hq. apply Hafter. lia.
  - intros p Hpr Hfree Hbelow. apply wp_bind, wp_ret, Htake. apply next_fit_after; [lia|done|done].
Qed.

Lemma allocated_ok bm p bm' : bitmap_ok bm -> next_fit bm p -> allocated p bm bm' -> bitmap_ok bm'.
Proof.
  intros Hok Hfit [E1 E2 E3 E4]. pose proof (next_fit_bounds bm p Hok Hfit) as [Hr _].
  destruct Hok as [? ? Hst]. split; rewrite ?E1, ?E2; [lia|lia|]. intros q Hq. by apply E3, Hst.
Qed.

(** C9: Allocation.  On a well-formed bitmap [memory_bitmap_allocate] finishes:
    either every page is in use, and it answers NULL and changes nothing, or it
    answers the address of the next-fit page, marks exactly that page used,
    moves the search position to it and keeps the bitmap well-formed. *)
Theorem memory_bitmap_allocate_spec bm :
  bitmap_ok bm ->
  wp memory_bitmap_allocate
     (fun address bm' =>
        bitmap_ok bm' /\
        ((exists p, address = p * PAGE_SIZE /\ next_fit bm p /\
            last_allocated_page_index bm' = p /\
            forall q, 0 <= q -> page_used bm' q = (q =? p) || page_used bm q)
         \/ (address = 0 /\ bm' = bm /\ forall p, 0 <= p < pages bm -> page_used bm p = true)))
     bm.
Proof.
  intros Hok. apply wp_allocate; [done| |].
  - intros p bm' Hfit Hal. split; [by eapply allocated_ok|].
    left. exists p. destruct Hal. done.
  - intros Hall. split; [done|]. by right.
Qed.

(** The effect of releasing page [p]: its bit is clear and the search position
    is at or below it. *)
Record released (p : Z) (bm bm' : memory_bitmap_t) : Prop := {
  rl_pages : pages bm' = pages bm;
  rl_last : last_allocated_page_index bm' = Z.min p (last_allocated_page_index bm);
  rl_has : forall q, has_page bm' q <-> has_page bm q;
  rl_used : forall q, 0 <= q -> page_used bm' q = negb (q =? p) && page_used bm q;
}.

Lemma wp_free bm address Q :
  has_page bm (address / PAGE_SIZE) ->
  (forall bm', released (address / PAGE_SIZE) bm bm' -> Q tt bm') ->
  wp (memory_bitmap_free address) Q bm.
Proof.
  intros Hhas HQ. unfold memory_bitmap_free. set (p := address / PAGE_SIZE) in *.
  assert (forall bm', bits_mapped (fun q b => if q =? p then false else b) bm bm' ->
    wp (let! bm0 := get in
        if p <? last_allocated_page_index bm0 then modify (set_last p) else ret tt) Q bm') as Hlast.
  { intros bm' [E1 E2 E3 E4]. assert (forall q, 0 <= q ->
      page_used bm' q = negb (q =? p) && page_used bm q) as E5.
    { intros q Hq. rewrite E4 by done. by destruct (q =? p). }
    wp_run. wp_if Hc; wp_run; apply HQ; split; cbn; try done; lia. }
  wp_run. apply wp_BITMAP_TEST; [done|]. destruct (page_used bm p) eqn:Hu.
  - wp_run. apply wp_BITMAP_CLEAR; [done|]. intros bm' Hbm'. apply Hlast.
    eapply bits_mapped_ext; [exact Hbm'|]. intros q b _. cbv beta. by destruct (q =? p).
  - apply wp_bind, wp_ret, Hlast. split; [done..|]. intros q Hq.
    by destruct (Z.eqb_spec q p) as [->|].
Qed.

(** Release.  [memory_bitmap_free] of any address whose page the storage
    covers finishes, clears exactly that page's bit, leaves the search position
    at or below the page, and keeps the bitmap well-formed; releasing a page
    that is already free changes no bit. *)
Theorem memory_bitmap_free_spec bm address :
  bitmap_ok bm -> has_page bm (address / PAGE_SIZE) ->
  wp (memory_bitmap_free address)
     (fun _ bm' =>
        bitmap_ok bm' /\
        last_allocated_page_index bm' <= address / PAGE_SIZE /\
        forall q, 0 <= q ->
          page_used bm' q = negb (q =? address / PAGE_SIZE) && page_used bm q) bm.
Proof.
  intros [Hp Hl Hst] Hhas. apply wp_free; [done|]. intros bm' [E1 E2 E3 E4].
  pose proof (proj1 Hhas). split; [|split; [lia|done]].
  split; rewrite ?E1, ?E2; [lia|lia|]. intros q Hq. by apply E3, Hst.
Qed.

(** Round trip.  Releasing the page an allocation has just answered gives
    back the set of used pages there was before, and the search position is such
    that the next allocation answers that page again. *)
Theorem memory_bitmap_allocate_free bm :
  bitmap_ok bm -> (exists p, 0 <= p < pages bm /\ page_used bm p = false) ->
  wp (let! address := memory_bitmap_allocate in
      do! memory_bitmap_free address in ret address)
     (fun address bm' =>
        (forall q, 0 <= q -> page_used bm' q = page_used bm q) /\
        next_fit bm' (address / PAGE_SIZE)) bm.
Proof.
  intros Hok (p0 & Hp0 & Hfree0). wp_run. apply wp_allocate; [done| |].
  - intros p bm1 Hfit Hal. pose proof (next_fit_bounds bm p Hok Hfit) as [Hr Hfree].
    destruct Hal as [E1 E2 E3 E4]. wp_run.
    assert (p * PAGE_SIZE / PAGE_SIZE = p) as Hdiv by (apply Z.div_mul; done).
    apply wp_free; rewrite Hdiv; [apply E3, Hok; lia|].
    intros bm2 [F1 F2 F3 F4]. wp_run.
    assert (forall q, 0 <= q -> page_used bm2 q = page_used bm q) as Hsame.
    { intros q Hq. rewrite F4, E4 by done. destruct (Z.eqb_spec q p) as [->|]; [by rewrite Hfree|done]. }
    split; [done|]. rewrite Hdiv. apply next_fit_after.
    + rewrite F1, F2, E1, E2. lia.
    + by rewrite Hsame by lia.
    + rewrite F2, E2. lia.
  - intros Hall. rewrite Hall in Hfree0; done.
Qed.

(** [n] allocations in a row, as a caller that grabs several pages does. *)
Fixpoint allocate_many (n : nat) : M memory_bitmap_t (list Z) :=
  match n with
  | O => ret []
  | S n' => let! address := memory_bitmap_allocate in
            let! rest := allocate_many n' in ret (address :: rest)
  end.

(** C18: No page is handed out twice.  From a well-formed bitmap in which page 0
    is locked, the addresses that any number of allocations answer are, NULLs
    apart, pairwise distinct and page-aligned addresses of pages that were free
    and are now used; used pages stay used; and NULL is answered only when every
    page is in use. *)
Theorem memory_bitmap_allocate_distinct n bm :
  bitmap_ok bm -> page_used bm 0 = true ->
  wp (allocate_many n)
     (fun addresses bm' =>
        pages bm' = pages bm /\
        bitmap_ok bm' /\
        (forall q, 0 <= q -> page_used bm q = true -> page_used bm' q = true) /\
        NoDup (filter (fun a => a <> 0) addresses) /\
        (forall a, a ∈ addresses -> a <> 0 ->
           exists p, a = p * PAGE_SIZE /\ 0 < p /\
                     page_used bm p = false /\ page_used bm' p = true) /\
        (0 ∈ addresses -> forall p, 0 <= p < pages bm' -> page_used bm' p = true)) bm.
Proof.
  revert bm. induction n as [|n IH]; intros bm Hok H0; cbn [allocate_many].
  { apply wp_ret. split_and!; [done|done|done|constructor| |]; intros; by (exfalso; eapply not_elem_of_nil). }
  wp_run. apply wp_allocate; [done| |].
  - intros p bm1 Hfit Hal. pose proof (allocated_ok _ _ _ Hok Hfit Hal) as Hok1.
    pose proof (next_fit_bounds bm p Hok Hfit) as [Hr Hfree]. destruct Hal as [Hpg _ _ Hu].
    assert (p <> 0) as Hp0 by (intros ->; congruence). wp_run.
    eapply wp_mono; [apply IH; [done|rewrite Hu by lia; by rewrite H0, orb_true_r]|].
    intros rest bm2 (Hpg2 & Hok2 & Hmono & Hnd & Hrest & Hnull). wp_run.
    split_and!; [congruence|done| | | |].
    + intros q Hq Hqu. apply Hmono; [done|]. rewrite Hu by done. by rewrite Hqu, orb_true_r.
    + rewrite filter_cons_True by (unfold PAGE_SIZE; lia). constructor; [|done].
      rewrite list_elem_of_filter. intros [Hne Hin].
      destruct (Hrest _ Hin Hne) as (p' & Hpp' & _ & Hfree' & _).
      assert (p' = p) as -> by (unfold PAGE_SIZE in *; lia).
      rewrite Hu, Z.eqb_refl in Hfree' by lia. done.
    + intros a [->|Hin]%elem_of_cons Hne.
      * exists p. split_and!; [done|lia|done|]. apply Hmono; [lia|]. rewrite Hu, Z.eqb_refl by lia. done.
      * destruct (Hrest _ Hin Hne) as (p' & -> & ? & Hf & ?). exists p'. split_and!; try done.
        rewrite Hu in Hf by lia. by apply orb_false_iff in Hf as [].
    + intros [Hz|Hin]%elem_of_cons; [|by apply Hnull]. unfold PAGE_SIZE in Hz. lia.
  - intros Hall. wp_run. eapply wp_mono; [by apply IH|].
    intros rest bm2 (Hpg2 & Hok2 & Hmono & Hnd & Hrest & Hnull). wp_run.
    split_and!; [done|done|done| | |].
    + rewrite filter_cons_False; [done|]. by intros [].
    + intros a [->|Hin]%elem_of_cons Hne; [done|]. by apply Hrest.
    + intros _ p Hp. rewrite Hpg2 in Hp. apply Hmono; [lia|]. by apply Hall.
Qed.


(** ** Concrete runs *)

(** 40 pages in two words; pages 0 to 31 and 33 are in use. *)
Definition small_bitmap : memory_bitmap_t :=
  mk_memory_bitmap {[0 := 0xFFFFFFFF; 1 := 0x2]} 40 33.

Lemma small_bitmap_has p : 0 <= p < 64 -> has_page small_bitmap p.
Proof.
  intros. split; [lia|]. unfold BITMAP_ENTRY_SIZE_IN_BITS.
  assert (p / 32 = 0 \/ p / 32 = 1) as [-> | ->] by zlia; vm_compute; eauto.
Qed.

Lemma small_bitmap_ok : bitmap_ok small_bitmap.
Proof. split; simpl; [lia|lia|]. intros. apply small_bitmap_has. lia. Qed.

(** Next fit goes on from page 33: 34 is the first free page. *)
Example small_allocate :
  (match memory_bitmap_allocate small_bitmap with
   | Ret (a, bm) => Some (a, last_allocated_page_index bm, page_used bm 34)
   | _ => None end) = Some (34 * 4096, 34, true).
Proof. vm_compute. reflexivity. Qed.

Lemma memory_bitmap_allocate_spec_witness :
  bitmap_ok small_bitmap /\
  wp memory_bitmap_allocate
     (fun address bm' =>
        bitmap_ok bm' /\
        ((exists p, address = p * PAGE_SIZE /\ next_fit small_bitmap p /\
            last_allocated_page_index bm' = p /\
            forall q, 0 <= q -> page_used bm' q = (q =? p) || page_used small_bitmap q)
         \/ (address = 0 /\ bm' = small_bitmap /\
             forall p, 0 <= p < pages small_bitmap -> page_used small_bitmap p = true)))
     small_bitmap.
Proof. split; [exact small_bitmap_ok|]. apply memory_bitmap_allocate_spec. exact small_bitmap_ok. Defined.

Lemma memory_bitmap_free_spec_witness :
  wp (memory_bitmap_free (33 * 4096))
     (fun _ bm' =>
        bitmap_ok bm' /\
        last_allocated_page_index bm' <= 33 * 4096 / PAGE_SIZE /\
        forall q, 0 <= q ->
          page_used bm' q = negb (q =? 33 * 4096 / PAGE_SIZE) && page_used small_bitmap q)
     small_bitmap.
Proof.
  apply memory_bitmap_free_spec; [exact small_bitmap_ok|].
  apply small_bitmap_has. split; vm_compute; congruence.
Defined.

Lemma memory_bitmap_allocate_free_witness :
  wp (let! address := memory_bitmap_allocate in
      do! memory_bitmap_free address in ret address)
     (fun address bm' =>
        (forall q, 0 <= q -> page_used bm' q = page_used small_bitmap q) /\
        next_fit bm' (address / PAGE_SIZE)) small_bitmap.
Proof.
  apply memory_bitmap_allocate_free; [exact small_bitmap_ok|].
  exists 34. split; [simpl; lia|reflexivity].
Defined.

Lemma memory_bitmap_allocate_distinct_witness :
  wp (allocate_many 9)
     (fun addresses bm' =>
        pages bm' = pages small_bitmap /\
        bitmap_ok bm' /\
        (forall q, 0 <= q -> page_used small_bitmap q = true -> page_used bm' q = true) /\
        NoDup (filter (fun a => a <> 0) addresses) /\
        (forall a, a ∈ addresses -> a <> 0 ->
           exists p, a = p * PAGE_SIZE /\ 0 < p /\
                     page_used small_bitmap p = false /\ page_used bm' p = true) /\
        (0 ∈ addresses -> forall p, 0 <= p < pages bm' -> page_used bm' p = true)) small_bitmap.
Proof. apply memory_bitmap_allocate_distinct; [exact small_bitmap_ok|reflexivity]. Defined.

(** A machine with 0x208 pages of which the region [0x100000, 0x207800) is
    available, the kernel at 1 MiB and a module; its storage has 32 words. *)
Definition small_multiboot : multiboot_info_t :=
  mk_multiboot [mk_mmap 0 0x9FC00 1; mk_mmap 0x100000 0x107800 1; mk_mmap 0x207800 0x800 2]
               [mk_module 0x150000 0x151800].
Definition blank_bitmap : memory_bitmap_t :=
  mk_memory_bitmap (list_to_map ((fun i => (Z.of_nat i, 0xDEADBEEF)) <$> seq 0 32)) 0 0.

Lemma blank_bitmap_has p : 0 <= p < 1024 -> has_page blank_bitmap p.
Proof.
  intros Hp. split; [lia|]. unfold BITMAP_ENTRY_SIZE_IN_BITS.
  assert (Forall (fun i => is_Some (entries blank_bitmap !! i)) (Z.of_nat <$> seq 0 32)) as Hall.
  { repeat constructor; vm_compute; eauto. }
  rewrite Forall_forall in Hall. apply Hall, list_elem_of_In, list_elem_of_fmap.
  assert (0 <= p / 32 < 32) by (split; [apply Z.div_pos; lia|apply Z.div_lt_upper_bound; lia]).
  exists (Z.to_nat (p / 32)). rewrite elem_of_seq. split; lia.
Qed.

Lemma memory_bitmap_module_init_spec_witness :
  wp (memory_bitmap_module_init 0x100000 0x120000 small_multiboot)
     (fun _ bm' =>
        pages bm' = 0x208 /\
        last_allocated_page_index bm' = 0 /\
        forall p, 0 <= p < pages bm' ->
          page_used bm' p = locked 0x100000 0x120000 small_multiboot (pages bm') p
                              || negb (available small_multiboot p)) blank_bitmap.
Proof.
  apply (memory_bitmap_module_init_spec _ _ small_multiboot 0x208000).
  - split; [|by right; exists (mk_mmap 0x207800 0x800 2); split; [do 2 right; left|]].
    intros r. cbn. rewrite !elem_of_cons. intros [->|[->|[->|H]]]; [vm_compute; congruence..|]. by apply not_elem_of_nil in H.
  - unfold PAGE_SIZE. lia.
  - apply (init_storage_within _ _ _ _ _ 1024); [vm_compute; reflexivity|]. exact blank_bitmap_has.
Defined.

(** The last page of an available region that ends inside a page is free after
    initialisation, although half of it is not available memory. *)
Example partial_page_is_free :
  (match memory_bitmap_module_init 0x100000 0x120000 small_multiboot blank_bitmap with
   | Ret (_, bm) => Some (page_used bm 0x207, page_used bm 0x206, page_used bm 0x150)
   | _ => None end) = Some (false, false, true).
Proof. vm_compute. reflexivity. Qed.
