(* ===== verification/Paging.v ===== *)
(** * Virtual memory (src/memory_paging.c, include/memory_paging.h)

    Page directories and tables live in physical memory and are reached, as in
    the code, through virtual addresses: the low kernel window, the recursive
    mapping of directory entry 1023, and the bounce pages.  [walk] is the
    address translation of the processor (two-level 32-bit paging, with 4 MiB
    pages while CR4.PSE is set); every load and store of the kernel goes
    through it, and an access it does not translate is a [Fault].  The TLB is
    not modelled: the code invalidates an entry after each change. *)
From S2P Require Import Prelude Bitmap.

(** ** Constants *)

Definition KERNEL_BOUNCE_PAGE_START : Z := 0xFFB00000.
Definition KERNEL_BOUNCE_PAGE_SIZE : Z := 16.
Definition KERNEL_PDE_START : Z := 768.
Definition KERNEL_PDE_ENTRIES : Z := 1024.
Definition PAGE_PRESENT : Z := 0x1.
Definition PAGE_READ_WRITE : Z := 0x2.
Definition PAGE_USER : Z := 0x4.
Definition PAGE_4MB : Z := 0x80.
Definition PAGE_DIRECTORY_VADDR : Z := 0xFFFFF000.
Definition PAGE_TABLE_VADDR (pd : Z) : Z := u32 (0xFFC00000 + Z.shiftl pd 12).

Inductive memory_paging_result_t : Type :=
| MEMORY_PAGING_RESULT_OK
| MEMORY_PAGING_RESULT_ALLOCATION_ERROR
| MEMORY_PAGING_RESULT_BAD_PARAMETER.

#[export] Instance memory_paging_result_eq_dec : EqDecision memory_paging_result_t.
Proof. solve_decision. Defined.

(** ** Machine state *)

Record machine_t : Type := mk_machine {
  phys : gmap Z Z;                  (* 32-bit words of physical memory, by word index *)
  cr3 : Z;                          (* physical address of the current directory *)
  pse : bool;                       (* CR4.PSE *)
  memory_bitmap : memory_bitmap_t;
  bounce_pages_used : list bool;
  kernel_page_directory : Z;        (* virtual *)
  kernel_page_directory_phys : Z;
}.

Definition set_phys (f : gmap Z Z -> gmap Z Z) (m : machine_t) : machine_t :=
  mk_machine (f (phys m)) (cr3 m) (pse m) (memory_bitmap m) (bounce_pages_used m)
    (kernel_page_directory m) (kernel_page_directory_phys m).
Definition set_cr3 (x : Z) (m : machine_t) : machine_t :=
  mk_machine (phys m) x (pse m) (memory_bitmap m) (bounce_pages_used m)
    (kernel_page_directory m) (kernel_page_directory_phys m).
Definition set_pse (x : bool) (m : machine_t) : machine_t :=
  mk_machine (phys m) (cr3 m) x (memory_bitmap m) (bounce_pages_used m)
    (kernel_page_directory m) (kernel_page_directory_phys m).
Definition set_bitmap (x : memory_bitmap_t) (m : machine_t) : machine_t :=
  mk_machine (phys m) (cr3 m) (pse m) x (bounce_pages_used m)
    (kernel_page_directory m) (kernel_page_directory_phys m).
Definition set_bounce (x : list bool) (m : machine_t) : machine_t :=
  mk_machine (phys m) (cr3 m) (pse m) (memory_bitmap m) x
    (kernel_page_directory m) (kernel_page_directory_phys m).
Definition set_kernel_directory (virt ph : Z) (m : machine_t) : machine_t :=
  mk_machine (phys m) (cr3 m) (pse m) (memory_bitmap m) (bounce_pages_used m) virt ph.

Definition on_bitmap {A} (op : M memory_bitmap_t A) : M machine_t A :=
  zoom memory_bitmap set_bitmap op.

(** ** The processor: physical words, translation, loads and stores *)

Definition phys_word (m : machine_t) (pa : Z) : Z := default 0 (phys m !! (pa / 4)).

Definition pde_index (va : Z) : Z := Z.land (Z.shiftr va 22) 0x3FF.
Definition pte_index (va : Z) : Z := Z.land (Z.shiftr va 12) 0x3FF.
Definition present (e : Z) : bool := negb (Z.land e PAGE_PRESENT =? 0).

(** Translation of [va] through the directory at physical address [dir]. *)
Definition walk (m : machine_t) (dir va : Z) : option Z :=
  let pde := phys_word m (dir + 4 * pde_index va) in
  if negb (present pde) then None
  else if pse m && negb (Z.land pde PAGE_4MB =? 0)
  then Some (Z.land pde 0xFFC00000 + Z.land va 0x3FFFFF)
  else let pte := phys_word m (Z.land pde PAGE_MASK + 4 * pte_index va) in
       if negb (present pte) then None
       else Some (Z.land pte PAGE_MASK + Z.land va 0xFFF).

Definition translate (m : machine_t) (va : Z) : option Z := walk m (cr3 m) va.

(** 32-bit accesses at 4-byte aligned virtual addresses. *)
Definition load (va : Z) : M machine_t Z :=
  let! m := get in
  let! pa := of_option (translate m va) in ret (phys_word m pa).
Definition store (va w : Z) : M machine_t unit :=
  let! m := get in
  let! pa := of_option (translate m va) in
  modify (set_phys (fun ph => <[pa / 4 := w]> ph)).

(** [table[i]] of a [page_entry_t*]. *)
Definition load_entry (table i : Z) : M machine_t Z := load (u32 (table + 4 * i)).
Definition store_entry (table i w : Z) : M machine_t unit := store (u32 (table + 4 * i)) w.

(** ** memory_paging.c *)

Definition kernel_low_physical_to_virtual (pa : Z) : Z := u32 (pa + KERNEL_VIRTUAL_SPACE_START).

Definition bounce_init : M machine_t unit :=
  modify (set_bounce (replicate (Z.to_nat KERNEL_BOUNCE_PAGE_SIZE) false)).

Definition memory_paging_reset_entry (entry : Z) : M machine_t unit :=
  for_range 0 KERNEL_PDE_ENTRIES (fun i => store_entry entry i 0).

Definition memory_paging_disable_pse : M machine_t unit := modify (set_pse false).

Definition memory_paging_set (page_directory_physical : Z) : M machine_t unit :=
  modify (set_cr3 page_directory_physical).

Definition memory_paging_get_current_page_directory_physical : M machine_t Z := gets cr3.

Definition memory_paging_map_current (physical_address virtual_address flags : Z)
  : M machine_t memory_paging_result_t :=
  let page_directory_index := pde_index virtual_address in
  let page_table_index := pte_index virtual_address in
  let! pde := load_entry PAGE_DIRECTORY_VADDR page_directory_index in
  let! ok :=
    if Z.land pde PAGE_PRESENT =? 0 then
      let! new_page_table_entry := on_bitmap memory_bitmap_allocate in
      if new_page_table_entry =? 0 then ret false
      else
        do! store_entry PAGE_DIRECTORY_VADDR page_directory_index
              (Z.lor (Z.lor new_page_table_entry PAGE_READ_WRITE) PAGE_PRESENT) in
        do! memory_paging_reset_entry (PAGE_TABLE_VADDR page_directory_index) in
        ret true
    else ret true in
  if negb ok then ret MEMORY_PAGING_RESULT_ALLOCATION_ERROR
  else
    do! (if Z.land flags PAGE_USER =? 0 then ret tt
         else let! e := load_entry PAGE_DIRECTORY_VADDR page_directory_index in
              store_entry PAGE_DIRECTORY_VADDR page_directory_index (Z.lor e PAGE_USER)) in
    do! store_entry (PAGE_TABLE_VADDR page_directory_index) page_table_index
          (Z.lor (Z.lor (Z.land physical_address PAGE_MASK) flags) PAGE_PRESENT) in
    ret MEMORY_PAGING_RESULT_OK.

Definition memory_paging_unmap_current (virtual_address : Z)
  : M machine_t memory_paging_result_t :=
  let page_directory_index := pde_index virtual_address in
  let page_table_index := pte_index virtual_address in
  let! pde := load_entry PAGE_DIRECTORY_VADDR page_directory_index in
  do! (if Z.land pde PAGE_PRESENT =? 0 then ret tt
       else store_entry (PAGE_TABLE_VADDR page_directory_index) page_table_index 0) in
  ret MEMORY_PAGING_RESULT_OK.

(** [bounce_pages_used[i]] *)
Definition bounce_slot (i : Z) : M machine_t bool :=
  let! m := get in of_option (bounce_pages_used m !! Z.to_nat i).

(** The scan of [bounce_alloc] over the slots from [i] on; [0] is [NULL]. *)
Fixpoint bounce_alloc_from (n : nat) (i physical_address : Z) : M machine_t Z :=
  match n with
  | O => ret 0
  | S n' =>
      let! used := bounce_slot i in
      if used then bounce_alloc_from n' (i + 1) physical_address
      else
        let virtual_address := KERNEL_BOUNCE_PAGE_START + i * PAGE_SIZE in
        let! r := memory_paging_map_current physical_address virtual_address PAGE_READ_WRITE in
        if decide (r = MEMORY_PAGING_RESULT_OK) then
          do! modify (fun m => set_bounce (<[Z.to_nat i := true]> (bounce_pages_used m)) m) in
          ret virtual_address
        else ret 0
  end.
Definition bounce_alloc (physical_address : Z) : M machine_t Z :=
  bounce_alloc_from (Z.to_nat KERNEL_BOUNCE_PAGE_SIZE) 0 physical_address.

Definition bounce_free (virtual_address : Z) : M machine_t unit :=
  if virtual_address <? KERNEL_BOUNCE_PAGE_START then ret tt
  else
    let bounce_index := (virtual_address - KERNEL_BOUNCE_PAGE_START) / PAGE_SIZE in
    if KERNEL_BOUNCE_PAGE_SIZE <=? bounce_index then ret tt
    else
      do! memory_paging_unmap_current virtual_address in
      modify (fun m => set_bounce (<[Z.to_nat bounce_index := false]> (bounce_pages_used m)) m).

Definition memory_paging_map (page_directory physical_address virtual_address flags : Z)
  : M machine_t memory_paging_result_t :=
  let page_directory_index := pde_index virtual_address in
  let page_table_index := pte_index virtual_address in
  let! pde := load_entry page_directory page_directory_index in
  let! ok :=
    if Z.land pde PAGE_PRESENT =? 0 then
      let! new_page_table_entry := on_bitmap memory_bitmap_allocate in
      if new_page_table_entry =? 0 then ret false
      else
        let! new_page_table_entry_virtual := bounce_alloc new_page_table_entry in
        do! memory_paging_reset_entry new_page_table_entry_virtual in
        do! bounce_free new_page_table_entry_virtual in
        do! store_entry page_directory page_directory_index
              (Z.lor (Z.lor new_page_table_entry PAGE_READ_WRITE) PAGE_PRESENT) in
        ret true
    else ret true in
  if negb ok then ret MEMORY_PAGING_RESULT_ALLOCATION_ERROR
  else
    do! (if Z.land flags PAGE_USER =? 0 then ret tt
         else let! e := load_entry page_directory page_directory_index in
              store_entry page_directory page_directory_index (Z.lor e PAGE_USER)) in
    let! pde := load_entry page_directory page_directory_index in
    let page_table := Z.land pde PAGE_MASK in
    let! page_table_virtual := bounce_alloc page_table in
    do! store_entry page_table_virtual page_table_index
          (Z.lor (Z.lor physical_address flags) PAGE_PRESENT) in
    do! bounce_free page_table_virtual in
    ret MEMORY_PAGING_RESULT_OK.

Definition memory_paging_unmap (page_directory virtual_address : Z)
  : M machine_t memory_paging_result_t :=
  let page_directory_index := pde_index virtual_address in
  let page_table_index := pte_index virtual_address in
  let! pde := load_entry page_directory page_directory_index in
  do! (if Z.land pde PAGE_PRESENT =? 0 then ret tt
       else
         let! pde := load_entry page_directory page_directory_index in
         let! page_table_virtual := bounce_alloc (Z.land pde PAGE_MASK) in
         do! store_entry page_table_virtual page_table_index 0 in
         bounce_free page_table_virtual) in
  ret MEMORY_PAGING_RESULT_OK.

Definition memory_paging_map_kernel (physical_address virtual_address flags : Z)
  : M machine_t memory_paging_result_t :=
  let page_directory_index := pde_index virtual_address in
  let page_table_index := pte_index virtual_address in
  let! m := get in
  let dir := kernel_page_directory m in
  let! pde := load_entry dir page_directory_index in
  let! ok :=
    if Z.land pde PAGE_PRESENT =? 0 then
      let! new_page_table_entry := on_bitmap memory_bitmap_allocate in
      if new_page_table_entry =? 0 then ret false
      else
        do! memory_paging_reset_entry (kernel_low_physical_to_virtual new_page_table_entry) in
        do! store_entry dir page_directory_index
              (Z.lor (Z.lor new_page_table_entry flags) PAGE_PRESENT) in
        ret true
    else ret true in
  if negb ok then ret MEMORY_PAGING_RESULT_ALLOCATION_ERROR
  else
    do! (if Z.land flags PAGE_USER =? 0 then ret tt
         else let! e := load_entry dir page_directory_index in
              store_entry dir page_directory_index (Z.lor e PAGE_USER)) in
    let! pde := load_entry dir page_directory_index in
    let page_table_virtual := kernel_low_physical_to_virtual (Z.land pde PAGE_MASK) in
    do! store_entry page_table_virtual page_table_index
          (Z.lor (Z.lor physical_address flags) PAGE_PRESENT) in
    ret MEMORY_PAGING_RESULT_OK.

(** [for (offset = 0; offset < total; offset += PAGE_SIZE)]: page [i] is offset
    [i * PAGE_SIZE]. *)
Definition memory_paging_map_physical_range
  (physical_address size virtual_address_base flags : Z) : M machine_t Z :=
  let physical_page_start := ALIGN_DOWN physical_address in
  let physical_offset := physical_address - physical_page_start in
  let total_size := ALIGN_UP (u32 (size + physical_offset)) in
  do! for_range 0 (total_size / PAGE_SIZE) (fun i =>
        do! memory_paging_map_kernel (u32 (physical_page_start + i * PAGE_SIZE))
              (u32 (virtual_address_base + i * PAGE_SIZE)) flags in ret tt) in
  ret (u32 (virtual_address_base + physical_offset)).

Definition memory_paging_map_higher_half : M machine_t unit :=
  for_range 0 (KERNEL_LOW_WINDOW_SIZE / PAGE_SIZE) (fun i =>
    do! memory_paging_map_kernel (i * PAGE_SIZE)
          (KERNEL_VIRTUAL_SPACE_START + i * PAGE_SIZE) PAGE_READ_WRITE in ret tt).

Definition memory_paging_create_kernel_page_directory : M machine_t memory_paging_result_t :=
  let! ph := on_bitmap memory_bitmap_allocate in
  do! modify (fun m => set_kernel_directory (kernel_page_directory m) ph m) in
  if ph =? 0 then ret MEMORY_PAGING_RESULT_ALLOCATION_ERROR
  else
    let virt := u32 (ph + KERNEL_VIRTUAL_SPACE_START) in
    do! modify (set_kernel_directory virt ph) in
    do! memory_paging_reset_entry virt in
    do! memory_paging_map_higher_half in
    do! store_entry virt 1023 (Z.lor (Z.lor ph PAGE_PRESENT) PAGE_READ_WRITE) in
    ret MEMORY_PAGING_RESULT_OK.

Definition memory_paging_module_init : M machine_t unit :=
  do! bounce_init in
  do! memory_paging_create_kernel_page_directory in
  let! m := get in
  do! memory_paging_set (kernel_page_directory_phys m) in
  memory_paging_disable_pse.

(** Answers the result code and [*result] (0 when it is not written). *)
Definition memory_paging_create_page_directory : M machine_t (memory_paging_result_t * Z) :=
  let! ph := on_bitmap memory_bitmap_allocate in
  if ph =? 0 then ret (MEMORY_PAGING_RESULT_ALLOCATION_ERROR, 0)
  else
    let! new_page_directory := bounce_alloc ph in
    do! memory_paging_reset_entry new_page_directory in
    do! for_range KERNEL_PDE_START KERNEL_PDE_ENTRIES (fun i =>
          let! m := get in
          let! e := load_entry (kernel_page_directory m) i in
          store_entry new_page_directory i e) in
    do! store_entry new_page_directory 1023 (Z.lor (Z.lor ph PAGE_PRESENT) PAGE_READ_WRITE) in
    do! bounce_free new_page_directory in
    ret (MEMORY_PAGING_RESULT_OK, ph).

Definition memory_paging_free_page_table (page_table : Z) : M machine_t unit :=
  for_range 0 KERNEL_PDE_ENTRIES (fun i =>
    let! e := load_entry page_table i in
    if Z.land e PAGE_PRESENT =? 0 then ret tt
    else
      let! e := load_entry page_table i in
      on_bitmap (memory_bitmap_free (Z.land e PAGE_MASK))).

Definition memory_paging_free_page_directory (page_directory : Z) : M machine_t unit :=
  if page_directory =? 0 then ret tt
  else
    for_range 0 KERNEL_PDE_ENTRIES (fun i =>
      if i =? 1023 then ret tt
      else
        let! e := load_entry page_directory i in
        if Z.land e PAGE_PRESENT =? 0 then ret tt
        else
          let! m := get in
          let! k := load_entry (kernel_page_directory m) i in
          if Z.land e PAGE_MASK =? Z.land k PAGE_MASK then ret tt
          else
            let page_table_physical := Z.land e PAGE_MASK in
            let! page_table := bounce_alloc page_table_physical in
            do! memory_paging_free_page_table page_table in
            do! on_bitmap (memory_bitmap_free page_table_physical) in
            bounce_free page_table).

(** The early returns leave the bounce page of the directory (or of the table)
    mapped, as the code does. *)
Definition memory_paging_virtual_to_physical (page_directory_phys virtual_address : Z)
  : M machine_t Z :=
  let pde_i := pde_index virtual_address in
  let pte_i := pte_index virtual_address in
  let! page_directory := bounce_alloc page_directory_phys in
  let! pde := load_entry page_directory pde_i in
  if Z.land pde PAGE_PRESENT =? 0 then ret 0
  else
    let pt_phys := Z.land pde PAGE_MASK in
    do! bounce_free page_directory in
    let! page_table := bounce_alloc pt_phys in
    let! pte := load_entry page_table pte_i in
    if Z.land pte PAGE_PRESENT =? 0 then ret 0
    else
      let page_physical := Z.land pte PAGE_MASK in
      let offset := Z.land virtual_address 0xFFF in
      do! bounce_free page_table in
      ret (u32 (page_physical + offset)).

(** [memcpy(dst, src, PAGE_SIZE)] between page-aligned addresses, word by word. *)
Definition copy_page (dst src : Z) : M machine_t unit :=
  for_range 0 (PAGE_SIZE / 4) (fun i =>
    let! w := load (u32 (src + 4 * i)) in store (u32 (dst + 4 * i)) w).

Definition memory_paging_copy_mapped_page (dst page_directory_index page_table_index : Z)
  : M machine_t unit :=
  let page_table := PAGE_TABLE_VADDR page_directory_index in
  let! e := load_entry page_table page_table_index in
  if Z.land e PAGE_PRESENT =? 0 then ret tt
  else
    let virtual_addr := Z.lor (Z.shiftl page_directory_index 22) (Z.shiftl page_table_index 12) in
    let! phys_dst := on_bitmap memory_bitmap_allocate in
    let! bitmap_dst := bounce_alloc phys_dst in
    do! copy_page bitmap_dst virtual_addr in
    let! e := load_entry page_table page_table_index in
    let flags := Z.land e 0xFFF in
    do! memory_paging_map dst phys_dst virtual_addr flags in
    bounce_free bitmap_dst.

(** The loop leaves at the first directory entry of the kernel half; entries
    from there on do nothing here. *)
Definition memory_paging_copy_mapped_memory (dst : Z) : M machine_t memory_paging_result_t :=
  let src := PAGE_DIRECTORY_VADDR in
  if src =? dst then ret MEMORY_PAGING_RESULT_OK
  else if dst =? 0 then ret MEMORY_PAGING_RESULT_BAD_PARAMETER
  else
    do! for_range 0 KERNEL_PDE_ENTRIES (fun page_directory_index =>
          if KERNEL_VIRTUAL_SPACE_START <=? Z.shiftl page_directory_index 22 then ret tt
          else
            let! e := load_entry src page_directory_index in
            if Z.land e PAGE_PRESENT =? 0 then ret tt
            else for_range 0 KERNEL_PDE_ENTRIES
                   (memory_paging_copy_mapped_page dst page_directory_index)) in
    ret MEMORY_PAGING_RESULT_OK.

Lemma set_bitmap_id m : set_bitmap (memory_bitmap m) m = m.
Proof. by destruct m. Qed.

(** ** Physical frames as arrays of 1024 words *)

Definition frame_word (m : machine_t) (f i : Z) : Z := default 0 (phys m !! (f * 1024 + i)).

(** The machine with word [i] of frame [f] overwritten. *)
Definition upd (f i w : Z) (m : machine_t) : machine_t := set_phys (<[f * 1024 + i := w]>) m.

(** The frame number in an entry, and a virtual page's frame under the
    directory in frame [d]. *)
Definition frame_of (e : Z) : Z := Z.land e PAGE_MASK / PAGE_SIZE.
Definition vpage_frame (m : machine_t) (d vp : Z) : option Z :=
  let pde := frame_word m d (vp / 1024) in
  if present pde then
    let pte := frame_word m (frame_of pde) (vp mod 1024) in
    if present pte then Some (frame_of pte) else None
  else None.

Lemma frame_word_upd m f i w f' i' :
  0 <= i < 1024 -> 0 <= i' < 1024 ->
  frame_word (upd f i w m) f' i' = if bool_decide (f = f' /\ i = i') then w else frame_word m f' i'.
Proof.
  intros. unfold frame_word, upd; simpl. rewrite lookup_insert.
  case_decide as E; case_bool_decide as E'; try done.
  - destruct E'. lia.
  - destruct E' as [-> ->]. done.
Qed.

Lemma frame_word_upd_eq m f i w : frame_word (upd f i w m) f i = w.
Proof. unfold frame_word, upd; simpl. by rewrite lookup_insert_eq. Qed.

Lemma frame_word_upd_frame m f i w f' i' :
  0 <= i < 1024 -> 0 <= i' < 1024 -> f <> f' ->
  frame_word (upd f i w m) f' i' = frame_word m f' i'.
Proof. intros. rewrite frame_word_upd by done. by rewrite bool_decide_eq_false_2 by (by intros []). Qed.

Lemma frame_word_upd_index m f i w f' i' :
  0 <= i < 1024 -> 0 <= i' < 1024 -> i <> i' ->
  frame_word (upd f i w m) f' i' = frame_word m f' i'.
Proof. intros. rewrite frame_word_upd by done. by rewrite bool_decide_eq_false_2 by (by intros []). Qed.

Lemma land_mask_any e : Z.land e PAGE_MASK = (e / PAGE_SIZE) mod 2 ^ 20 * PAGE_SIZE.
Proof.
  rewrite <- Z.land_ones by lia. unfold PAGE_SIZE.
  replace (e / 4096) with (Z.shiftr e 12) by (by rewrite Z.shiftr_div_pow2).
  change 4096 with (2 ^ 12). rewrite <- Z.shiftl_mul_pow2 by lia.
  change PAGE_MASK with (Z.shiftl (Z.ones 20) 12).
  apply Z.bits_inj'. intros i Hi. rewrite Z.land_spec, !Z.shiftl_spec, Z.land_spec by lia.
  destruct (Z.ltb_spec i 12).
  - by rewrite !(Z.testbit_neg_r _ (i - 12)), andb_false_r by lia.
  - rewrite Z.shiftr_spec by lia. by replace (i - 12 + 12) with i by lia.
Qed.

Lemma frame_of_range e : 0 <= frame_of e < 2 ^ 20.
Proof.
  unfold frame_of. rewrite land_mask_any, Z.div_mul by done. apply Z.mod_pos_bound. lia.
Qed.

Lemma frame_of_mask e : Z.land e PAGE_MASK = frame_of e * PAGE_SIZE.
Proof. unfold frame_of. by rewrite land_mask_any, Z.div_mul. Qed.

(** Bits of an entry built from a frame address and flags. *)
Lemma land_lor_small x y mask : Z.land y mask = 0 -> Z.land (Z.lor x y) mask = Z.land x mask.
Proof. intros H. by rewrite Z.land_lor_distr_l, H, Z.lor_0_r. Qed.

Lemma small_land_mask y : 0 <= y < 4096 -> Z.land y PAGE_MASK = 0.
Proof. intros. rewrite land_mask_any. unfold PAGE_SIZE. by rewrite Z.div_small. Qed.

Lemma frame_of_flags x y : 0 <= y < 4096 -> frame_of (Z.lor x y) = frame_of x.
Proof. intros. unfold frame_of. by rewrite land_lor_small by (by apply small_land_mask). Qed.

Lemma frame_of_addr f : 0 <= f < 2 ^ 20 -> frame_of (f * PAGE_SIZE) = f.
Proof.
  intros. unfold frame_of. rewrite land_mask_any, !Z.div_mul by done. by apply Z.mod_small.
Qed.

Lemma present_lor x : present (Z.lor x PAGE_PRESENT) = true.
Proof.
  unfold present. change PAGE_PRESENT with (Z.shiftl 1 0).
  rewrite land_single_bit by lia. rewrite negb_involutive, Z.lor_spec. by rewrite orb_true_r.
Qed.

Lemma present_lor_user x : present (Z.lor x PAGE_USER) = present x.
Proof.
  unfold present. change PAGE_PRESENT with (Z.shiftl 1 0).
  rewrite !land_single_bit by lia. rewrite Z.lor_spec. by rewrite orb_false_r.
Qed.

Lemma pde_index_div va : 0 <= va < 2 ^ 32 -> pde_index va = va / PAGE_SIZE / 1024.
Proof.
  intros. unfold pde_index. change 0x3FF with (Z.ones 10).
  rewrite Z.land_ones, Z.shiftr_div_pow2 by lia. unfold PAGE_SIZE. zlia.
Qed.

Lemma pte_index_div va : 0 <= va < 2 ^ 32 -> pte_index va = (va / PAGE_SIZE) mod 1024.
Proof.
  intros. unfold pte_index. change 0x3FF with (Z.ones 10).
  by rewrite Z.land_ones, Z.shiftr_div_pow2 by lia.
Qed.

Lemma phys_word_frame m f i : 0 <= i < 1024 -> phys_word m (f * PAGE_SIZE + 4 * i) = frame_word m f i.
Proof.
  intros. unfold phys_word, frame_word. do 2 f_equal. unfold PAGE_SIZE. zlia.
Qed.

Lemma walk_vpage m d va :
  pse m = false -> 0 <= va < 2 ^ 32 ->
  walk m (d * PAGE_SIZE) va = (fun f => f * PAGE_SIZE + va mod PAGE_SIZE) <$> vpage_frame m d (va / PAGE_SIZE).
Proof.
  intros Hpse Hva. unfold walk, vpage_frame. rewrite Hpse, pde_index_div, pte_index_div by done.
  cbn [andb]. rewrite phys_word_frame by (unfold PAGE_SIZE; zlia).
  destruct (present (frame_word m d _)); [|done]. cbn [negb].
  rewrite frame_of_mask, phys_word_frame by (apply Z.mod_pos_bound; lia).
  destruct (present (frame_word m (frame_of _) _)); [|done]. cbn [negb fmap option_fmap option_map].
  rewrite frame_of_mask. change 0xFFF with (Z.ones 12). by rewrite Z.land_ones by lia.
Qed.

(** ** The current address space

    [d] is the frame of the current directory; [self_mapped] is the recursive
    mapping the kernel reaches its tables through. *)
Record self_mapped (m : machine_t) (d : Z) : Prop := {
  sm_pse : pse m = false;
  sm_cr3 : cr3 m = d * PAGE_SIZE;
  sm_present : present (frame_word m d 1023) = true;
  sm_frame : frame_of (frame_word m d 1023) = d;
}.

Lemma vpage_frame_table m d p :
  self_mapped m d -> 0 <= p < 1024 -> present (frame_word m d p) = true ->
  vpage_frame m d (1023 * 1024 + p) = Some (frame_of (frame_word m d p)).
Proof.
  intros [_ _ Hpr Hfr] Hp Hpp. unfold vpage_frame.
  replace ((1023 * 1024 + p) / 1024) with 1023 by zlia.
  replace ((1023 * 1024 + p) mod 1024) with p by zlia.
  by rewrite Hpr, Hfr, Hpp.
Qed.

Section access.
Variables (m : machine_t) (d vp f : Z).
Hypothesis Hpse : pse m = false.
Hypothesis Hcr3 : cr3 m = d * PAGE_SIZE.
Hypothesis Hvp : 0 <= vp < 2 ^ 20.
Hypothesis Hmap : vpage_frame m d vp = Some f.

Lemma translate_word i :
  0 <= i < 1024 -> translate m (u32 (vp * PAGE_SIZE + 4 * i)) = Some (f * PAGE_SIZE + 4 * i).
Proof using All.
  intros Hi. unfold translate. rewrite u32_small by (unfold PAGE_SIZE; lia).
  rewrite Hcr3, walk_vpage by (done || unfold PAGE_SIZE; lia).
  replace ((vp * PAGE_SIZE + 4 * i) / PAGE_SIZE) with vp by (unfold PAGE_SIZE; zlia).
  rewrite Hmap. simpl. do 2 f_equal. unfold PAGE_SIZE. zlia.
Qed.

Lemma wp_load_mapped i Q :
  0 <= i < 1024 -> Q (frame_word m f i) m -> wp (load_entry (vp * PAGE_SIZE) i) Q m.
Proof using All.
  intros Hi HQ. unfold load_entry, load. wp_run; [by apply translate_word|].
  by rewrite phys_word_frame.
Qed.

Lemma wp_store_mapped i w Q :
  0 <= i < 1024 -> Q tt (upd f i w m) -> wp (store_entry (vp * PAGE_SIZE) i w) Q m.
Proof using All.
  intros Hi HQ. unfold store_entry, store. wp_run; [by apply translate_word|].
  unfold upd in HQ. by replace ((f * PAGE_SIZE + 4 * i) / 4) with (f * 1024 + i) by (unfold PAGE_SIZE; zlia).
Qed.
End access.

Section self_access.
Variables (m : machine_t) (d : Z).
Hypothesis Hself : self_mapped m d.

Lemma wp_load_pde i Q :
  0 <= i < 1024 -> Q (frame_word m d i) m -> wp (load_entry PAGE_DIRECTORY_VADDR i) Q m.
Proof using All.
  intros Hi HQ. change PAGE_DIRECTORY_VADDR with ((1023 * 1024 + 1023) * PAGE_SIZE).
  destruct Hself as [? ? ? Hf].
  apply (wp_load_mapped m d _ d); try done.
  rewrite <- Hf at 2. by apply vpage_frame_table.
Qed.

Lemma wp_store_pde i w Q :
  0 <= i < 1024 -> Q tt (upd d i w m) -> wp (store_entry PAGE_DIRECTORY_VADDR i w) Q m.
Proof using All.
  intros Hi HQ. change PAGE_DIRECTORY_VADDR with ((1023 * 1024 + 1023) * PAGE_SIZE).
  destruct Hself as [? ? ? Hf].
  apply (wp_store_mapped m d _ d); try done.
  rewrite <- Hf at 2. by apply vpage_frame_table.
Qed.

Lemma page_table_vaddr p : 0 <= p < 1024 -> PAGE_TABLE_VADDR p = (1023 * 1024 + p) * PAGE_SIZE.
Proof using Type.
  intros. unfold PAGE_TABLE_VADDR. rewrite Z.shiftl_mul_pow2 by lia.
  rewrite u32_small by lia. unfold PAGE_SIZE. lia.
Qed.

Lemma wp_load_pte p i Q :
  0 <= p < 1024 -> present (frame_word m d p) = true -> 0 <= i < 1024 ->
  Q (frame_word m (frame_of (frame_word m d p)) i) m -> wp (load_entry (PAGE_TABLE_VADDR p) i) Q m.
Proof using All.
  intros Hp Hpp Hi HQ. rewrite page_table_vaddr by done. destruct Hself.
  eapply (wp_load_mapped m d); [done|done|lia|by apply vpage_frame_table|done|done].
Qed.

Lemma wp_store_pte p i w Q :
  0 <= p < 1024 -> present (frame_word m d p) = true -> 0 <= i < 1024 ->
  Q tt (upd (frame_of (frame_word m d p)) i w m) -> wp (store_entry (PAGE_TABLE_VADDR p) i w) Q m.
Proof using All.
  intros Hp Hpp Hi HQ. rewrite page_table_vaddr by done. destruct Hself.
  eapply (wp_store_mapped m d); [done|done|lia|by apply vpage_frame_table|done|done].
Qed.
End self_access.

(** ** Well-formed address spaces *)

Definition table_frame (m : machine_t) (d p : Z) : Z := frame_of (frame_word m d p).
Definition table_present (m : machine_t) (d p : Z) : bool := present (frame_word m d p).

(** The page tables of a directory are pairwise distinct frames, distinct from
    the directory, and all are marked used in the bitmap; so is page 0, which
    the allocator could not tell from NULL. *)
Record tables_ok (m : machine_t) (d : Z) : Prop := {
  tk_dir : 0 <= d < 2 ^ 20;
  tk_ne : forall p, 0 <= p < 1023 -> table_present m d p = true -> table_frame m d p <> d;
  tk_inj : forall p q, 0 <= p < 1023 -> 0 <= q < 1023 -> p <> q ->
    table_present m d p = true -> table_present m d q = true ->
    table_frame m d p <> table_frame m d q;
  tk_bitmap : bitmap_ok (memory_bitmap m);
  tk_zero : page_used (memory_bitmap m) 0 = true;
  tk_dir_used : page_used (memory_bitmap m) d = true;
  tk_used : forall p, 0 <= p < 1023 -> table_present m d p = true ->
    page_used (memory_bitmap m) (table_frame m d p) = true;
}.

Definition dir_wf (m : machine_t) (d : Z) : Prop := self_mapped m d /\ tables_ok m d.

(** Everything but physical memory and the bitmap is the same. *)
Record same_regs (m m' : machine_t) : Prop := {
  sr_cr3 : cr3 m' = cr3 m;
  sr_pse : pse m' = pse m;
  sr_bounce : bounce_pages_used m' = bounce_pages_used m;
  sr_kdir : kernel_page_directory m' = kernel_page_directory m;
  sr_kphys : kernel_page_directory_phys m' = kernel_page_directory_phys m;
}.

#[export] Instance same_regs_preorder : PreOrder same_regs.
Proof. split; [by split|]. intros ? ? ? [] []. split; congruence. Qed.

Lemma same_regs_upd f i w m : same_regs m (upd f i w m).
Proof. by split. Qed.
Lemma same_regs_bitmap b m : same_regs m (set_bitmap b m).
Proof. by split. Qed.
#[export] Hint Resolve same_regs_upd same_regs_bitmap : kernel.

Lemma self_mapped_transfer m m' d :
  self_mapped m d -> same_regs m m' -> frame_word m' d 1023 = frame_word m d 1023 ->
  self_mapped m' d.
Proof. intros [] [] E. split; rewrite ?E; congruence. Qed.

(** Compares two memories given as nested case distinctions. *)
Ltac if_cases :=
  repeat case_bool_decide; first [done | exfalso; lia].

(** [memory_paging_reset_entry] on a table the current space maps at page [vp],
    when writing the table does not disturb the mapping of [vp]. *)
Lemma wp_reset_entry m d vp f Q :
  pse m = false -> cr3 m = d * PAGE_SIZE -> 0 <= vp < 2 ^ 20 ->
  vpage_frame m d vp = Some f -> f <> d -> f <> frame_of (frame_word m d (vp / 1024)) ->
  (forall m', same_regs m m' -> memory_bitmap m' = memory_bitmap m ->
     (forall f' i', 0 <= i' < 1024 ->
        frame_word m' f' i' = if bool_decide (f' = f) then 0 else frame_word m f' i') -> Q tt m') ->
  wp (memory_paging_reset_entry (vp * PAGE_SIZE)) Q m.
Proof.
  intros Hpse Hcr3 Hvp Hmap Hfd Hft HQ. unfold memory_paging_reset_entry.
  apply (wp_for_range _ _ _ (fun n m' =>
    0 <= n <= 1024 /\ same_regs m m' /\ memory_bitmap m' = memory_bitmap m /\
    forall f' i', 0 <= i' < 1024 -> frame_word m' f' i' =
      if bool_decide (f' = f /\ i' < n) then 0 else frame_word m f' i')).
  - split; [lia|]. split; [reflexivity|]. split; [done|]. intros f' i' Hi'.
    rewrite bool_decide_eq_false_2; [done|]. intros []. lia.
  - intros n m' Hn (Hn' & Hregs & Hbm & Hw). unfold KERNEL_PDE_ENTRIES in Hn.
    assert (vpage_frame m' d vp = Some f) as Hmap'.
    { revert Hmap. unfold vpage_frame.
      rewrite (Hw d) by zlia. rewrite (bool_decide_eq_false_2 (d = f /\ _)) by (intros []; congruence).
      destruct (present _); [|done].
      rewrite (Hw (frame_of _)) by (apply Z.mod_pos_bound; lia).
      by rewrite (bool_decide_eq_false_2 (frame_of _ = f /\ _)) by (intros []; congruence). }
    apply (wp_store_mapped m' d vp f); [by rewrite (sr_pse _ _ Hregs)|by rewrite (sr_cr3 _ _ Hregs)|done..|].
    split; [lia|]. split; [by transitivity m'|]. split; [done|]. intros f' i' Hi'.
    rewrite frame_word_upd, Hw by lia.
    by if_cases.
  - intros m' (_ & Hregs & Hbm & Hw). apply HQ; [done|done|]. intros f' i' Hi'. rewrite Hw by done.
    unfold KERNEL_PDE_ENTRIES. by if_cases.
Qed.

Lemma wp_reset_table m d p f Q :
  self_mapped m d -> 0 <= p < 1023 -> table_present m d p = true ->
  table_frame m d p = f -> f <> d ->
  (forall m', same_regs m m' -> memory_bitmap m' = memory_bitmap m ->
     (forall f' i', 0 <= i' < 1024 ->
        frame_word m' f' i' = if bool_decide (f' = f) then 0 else frame_word m f' i') -> Q tt m') ->
  wp (memory_paging_reset_entry (PAGE_TABLE_VADDR p)) Q m.
Proof.
  intros Hs Hp Hpr Hf Hfd HQ. rewrite page_table_vaddr by lia.
  apply (wp_reset_entry m d _ f); [apply Hs|apply Hs|lia| |done| |done].
  - rewrite vpage_frame_table by (done || lia). by rewrite <- Hf.
  - replace ((1023 * 1024 + p) / 1024) with 1023 by zlia. by rewrite (sm_frame _ _ Hs).
Qed.

(** ** [memory_paging_map_current] *)

(** The step that maps one page under the directory in frame [d]: entry [e]
    lands in slot [i] of the table of directory entry [p], in frame [t], which
    was there or is a fresh zeroed page; frame [x] may change as well. *)
Record map_step (x d p i e t : Z) (m m' : machine_t) : Prop := {
  ms_regs : same_regs m m';
  ms_present : table_present m' d p = true;
  ms_table : table_frame m' d p = t;
  ms_origin :
    (table_present m d p = true /\ table_frame m d p = t /\ memory_bitmap m' = memory_bitmap m) \/
    (table_present m d p = false /\ next_fit (memory_bitmap m) t /\
     allocated t (memory_bitmap m) (memory_bitmap m'));
  ms_entry : frame_word m' t i = e;
  ms_table_rest : forall j, 0 <= j < 1024 -> j <> i ->
    frame_word m' t j = if table_present m d p then frame_word m t j else 0;
  ms_dir_rest : forall j, 0 <= j < 1024 -> j <> p -> frame_word m' d j = frame_word m d j;
  ms_frames : forall f j, 0 <= j < 1024 -> f <> d -> f <> t -> f <> x -> frame_word m' f j = frame_word m f j;
}.

(** A page the allocator hands out is neither the directory nor one of its
    tables. *)
Lemma fresh_table m d t :
  tables_ok m d -> next_fit (memory_bitmap m) t ->
  0 < t < 2 ^ 20 /\ t <> d /\
  forall p, 0 <= p < 1023 -> table_present m d p = true -> table_frame m d p <> t.
Proof.
  intros [Hd _ _ Hbm H0 Hdu Hu] Hfit. pose proof (next_fit_bounds _ _ Hbm Hfit) as [Ht Hfree].
  pose proof (ok_pages _ Hbm). split_and!; [|lia|congruence|].
  - assert (t <> 0) by congruence. lia.
  - intros p Hp Hpr E. rewrite <- E, Hu in Hfree by done. done.
Qed.

(** The tail of the function: the user bit of the directory entry, then the
    table entry. *)
Definition map_current_finish (p i e flags : Z) : M machine_t memory_paging_result_t :=
  do! (if Z.land flags PAGE_USER =? 0 then ret tt
       else let! e := load_entry PAGE_DIRECTORY_VADDR p in
            store_entry PAGE_DIRECTORY_VADDR p (Z.lor e PAGE_USER)) in
  do! store_entry (PAGE_TABLE_VADDR p) i e in
  ret MEMORY_PAGING_RESULT_OK.

Lemma self_mapped_upd m d p w :
  self_mapped m d -> 0 <= p < 1023 -> self_mapped (upd d p w m) d.
Proof.
  intros Hs Hp. eapply self_mapped_transfer; [done|auto with kernel|].
  by rewrite frame_word_upd_index by lia.
Qed.

Lemma wp_map_current_finish m d p i e flags Q :
  self_mapped m d -> 0 <= p < 1023 -> 0 <= i < 1024 -> table_present m d p = true ->
  table_frame m d p <> d ->
  (forall m', same_regs m m' -> memory_bitmap m' = memory_bitmap m ->
     table_present m' d p = true -> table_frame m' d p = table_frame m d p ->
     (forall f j, 0 <= j < 1024 -> (f = d -> j <> p) ->
        frame_word m' f j =
          if bool_decide (f = table_frame m d p /\ j = i) then e else frame_word m f j) ->
     Q MEMORY_PAGING_RESULT_OK m') ->
  wp (map_current_finish p i e flags) Q m.
Proof.
  intros Hs Hp Hi Hpr Hne HQ. unfold map_current_finish.
  set (t := table_frame m d p) in *.
  assert (forall m1, self_mapped m1 d -> same_regs m m1 -> memory_bitmap m1 = memory_bitmap m ->
    table_present m1 d p = true -> table_frame m1 d p = t ->
    (forall f j, 0 <= j < 1024 -> (f = d -> j <> p) -> frame_word m1 f j = frame_word m f j) ->
    wp (do! store_entry (PAGE_TABLE_VADDR p) i e in ret MEMORY_PAGING_RESULT_OK) Q m1) as Hlast.
  { intros m1 Hs1 Hr1 Hb1 Hp1 Ht1 Hw1. wp_run.
    apply (wp_store_pte m1 d); [done|lia|done|done|]. wp_run. fold (table_frame m1 d p). rewrite Ht1.
    apply HQ; [by transitivity m1; auto with kernel|done| | |].
    - unfold table_present. by rewrite frame_word_upd_frame by (done || lia).
    - transitivity (table_frame m1 d p); [|done]. unfold table_frame at 1. by rewrite frame_word_upd_frame by (done || lia).
    - intros f j Hj Hfj. rewrite frame_word_upd, Hw1 by (done || lia). by if_cases. }
  wp_run. destruct (Z.land flags PAGE_USER =? 0).
  - apply wp_ret. by apply Hlast.
  - wp_run. apply (wp_load_pde m d); [done|lia|]. apply (wp_store_pde m d); [done|lia|].
    apply Hlast; [by apply self_mapped_upd|by auto with kernel|done| | |].
    + unfold table_present. rewrite frame_word_upd_eq. by rewrite present_lor_user.
    + unfold table_frame. rewrite frame_word_upd_eq. by rewrite frame_of_flags.
    + intros f j Hj Hfj. rewrite frame_word_upd by lia. case_bool_decide; [|done]. exfalso; lia.
Qed.

Lemma pde_index_range va : 0 <= pde_index va < 1024.
Proof. unfold pde_index. change 0x3FF with (Z.ones 10). rewrite Z.land_ones by lia. apply Z.mod_pos_bound. lia. Qed.
Lemma pte_index_range va : 0 <= pte_index va < 1024.
Proof. unfold pte_index. change 0x3FF with (Z.ones 10). rewrite Z.land_ones by lia. apply Z.mod_pos_bound. lia. Qed.

Definition page_entry (pa flags : Z) : Z := Z.lor (Z.lor (Z.land pa PAGE_MASK) flags) PAGE_PRESENT.

(** The directory entry of a new table, and the table cleared. *)
Lemma wp_new_table m bm' d p t (Q : bool -> machine_t -> Prop) :
  self_mapped m d -> 0 <= p < 1023 -> 0 < t < 2 ^ 20 -> t <> d ->
  (forall m', self_mapped m' d -> same_regs m m' -> memory_bitmap m' = bm' ->
     table_present m' d p = true -> table_frame m' d p = t ->
     (forall j, 0 <= j < 1024 -> frame_word m' t j = 0) ->
     (forall j, 0 <= j < 1024 -> j <> p -> frame_word m' d j = frame_word m d j) ->
     (forall f j, 0 <= j < 1024 -> f <> d -> f <> t -> frame_word m' f j = frame_word m f j) -> Q true m') ->
  wp (store_entry PAGE_DIRECTORY_VADDR p (Z.lor (Z.lor (t * PAGE_SIZE) PAGE_READ_WRITE) PAGE_PRESENT))
     (fun _ => wp (do! memory_paging_reset_entry (PAGE_TABLE_VADDR p) in ret true) Q) (set_bitmap bm' m).
Proof.
  intros Hs Hp Ht Htd HQ. set (m1 := set_bitmap bm' m).
  apply (wp_store_pde m1 d); [by destruct Hs|lia|]. set (m2 := upd d p _ m1).
  assert (self_mapped m2 d) as Hs2 by (apply self_mapped_upd; [by destruct Hs|lia]).
  assert (table_present m2 d p = true) as Hp2.
  { unfold table_present, m2. rewrite frame_word_upd_eq. apply present_lor. }
  assert (table_frame m2 d p = t) as Ht2.
  { unfold table_frame, m2. rewrite frame_word_upd_eq.
    rewrite !frame_of_flags by done. apply frame_of_addr. lia. }
  apply wp_bind, (wp_reset_table m2 d p t); try done. intros m3 Hr3 Hb3 Hw3.
  assert (forall j, 0 <= j < 1024 -> frame_word m3 d j = frame_word m2 d j) as Hd3.
  { intros j Hj. rewrite Hw3 by lia. by rewrite bool_decide_eq_false_2 by congruence. }
  apply wp_ret, HQ.
  - eapply self_mapped_transfer; [exact Hs2|done|]. apply Hd3. lia.
  - etransitivity; [|exact Hr3]. by split.
  - by rewrite Hb3.
  - unfold table_present. rewrite Hd3 by lia. exact Hp2.
  - unfold table_frame. by rewrite Hd3 by lia.
  - intros j Hj. rewrite Hw3 by done. by rewrite bool_decide_eq_true_2.
  - intros j Hj Hjp. rewrite Hd3 by done. unfold m2. by rewrite frame_word_upd_index by (done || lia).
  - intros f j Hj Hfd Hft. rewrite Hw3 by done. rewrite bool_decide_eq_false_2 by done.
    unfold m2. by rewrite frame_word_upd_frame by (done || lia).
Qed.

(** The step made of the state [m1] in which the table is in place. *)
Lemma map_step_store m m1 m' d p i e t :
  0 <= i < 1024 -> t <> d -> same_regs m m' -> table_present m' d p = true -> table_frame m' d p = t ->
  (table_present m d p = true /\ table_frame m d p = t /\ memory_bitmap m' = memory_bitmap m) \/
  (table_present m d p = false /\ next_fit (memory_bitmap m) t /\
   allocated t (memory_bitmap m) (memory_bitmap m')) ->
  (forall f j, 0 <= j < 1024 -> (f = d -> j <> p) ->
     frame_word m' f j = if bool_decide (f = t /\ j = i) then e else frame_word m1 f j) ->
  (forall j, 0 <= j < 1024 -> frame_word m1 t j = if table_present m d p then frame_word m t j else 0) ->
  (forall j, 0 <= j < 1024 -> j <> p -> frame_word m1 d j = frame_word m d j) ->
  (forall f j, 0 <= j < 1024 -> f <> d -> f <> t -> frame_word m1 f j = frame_word m f j) ->
  map_step d d p i e t m m'.
Proof.
  intros Hi Htd Hr Hp Ht Ho Hw Ht1 Hd1 Hf1. split; [done|done|done|done| | | |].
  - rewrite Hw by (done || congruence). by rewrite bool_decide_eq_true_2.
  - intros j Hj Hji. rewrite <- Ht1, Hw by (done || congruence). by rewrite bool_decide_eq_false_2 by (by intros []).
  - intros j Hj Hjp. rewrite Hw, <- Hd1 by done. by rewrite bool_decide_eq_false_2 by (intros []; congruence).
  - intros f j Hj Hfd Hft _. rewrite Hw, <- Hf1 by done. by rewrite bool_decide_eq_false_2 by (intros []; congruence).
Qed.

Lemma wp_map_current m d pa va flags Q :
  dir_wf m d -> pde_index va <> 1023 ->
  (forall t m', map_step d d (pde_index va) (pte_index va) (page_entry pa flags) t m m' ->
     Q MEMORY_PAGING_RESULT_OK m') ->
  (table_present m d (pde_index va) = false ->
   (forall q, 0 <= q < pages (memory_bitmap m) -> page_used (memory_bitmap m) q = true) ->
   Q MEMORY_PAGING_RESULT_ALLOCATION_ERROR m) ->
  wp (memory_paging_map_current pa va flags) Q m.
Proof.
  intros [Hs Hok] Hp HQ HF. unfold memory_paging_map_current.
  pose proof (pde_index_range va) as Hpr. pose proof (pte_index_range va) as Hir.
  set (p := pde_index va) in *. set (i := pte_index va) in *. clearbody p i.
  assert (0 <= p < 1023) as Hp' by lia. wp_run. apply (wp_load_pde m d); [done|lia|].
  destruct (Z.land (frame_word m d p) PAGE_PRESENT =? 0) eqn:Hpres.
  - assert (table_present m d p = false) as Habs by (unfold table_present, present; by rewrite Hpres).
    unfold on_bitmap. wp_run. apply wp_allocate; [apply Hok| |].
    + intros t bm' Hfit Hal. destruct (fresh_table m d t Hok Hfit) as (Ht & Htd & _).
      destruct (Z.eqb_spec (t * PAGE_SIZE) 0); [unfold PAGE_SIZE in *; lia|]. wp_run.
      apply (wp_new_table m bm' d p t); [done|done|done|done|].
      intros m3 Hs3 Hr3 Hb3 Hp3 Ht3 Hw3 Hd3 Hf3. cbn [negb].
      apply (wp_map_current_finish m3 d p i (page_entry pa flags)); try done; [congruence|].
      intros m4 Hr4 Hb4 Hp4 Ht4 Hw4. rewrite Ht3 in Ht4, Hw4. apply (HQ t).
      apply (map_step_store m m3); try done; [by etransitivity| |by rewrite Habs].
      right. by rewrite Hb4, Hb3.
    + intros Hall. rewrite set_bitmap_id. by apply wp_ret, wp_ret, HF.
  - assert (table_present m d p = true) as Hpre by (unfold table_present, present; by rewrite Hpres).
    apply wp_ret. cbn [negb]. pose proof (tk_ne _ _ Hok p Hp' Hpre) as Hne.
    apply (wp_map_current_finish m d p i (page_entry pa flags)); try done.
    intros m' Hr Hb Hp1 Ht1 Hw. apply (HQ (table_frame m d p)).
    apply (map_step_store m m); try done; [by left|by rewrite Hpre].
Qed.

(** A mapping step keeps the tables well-formed and changes the frame of exactly
    one virtual page outside the recursive window. *)
Lemma map_step_tables x d p i e t m m' :
  tables_ok m d -> 0 <= p < 1023 -> map_step x d p i e t m m' -> tables_ok m' d.
Proof.
  intros Hok Hp [Hr Hp' Ht Ho _ _ Hdir _].
  assert (forall q, 0 <= q < 1023 -> q <> p ->
    table_present m' d q = table_present m d q /\ table_frame m' d q = table_frame m d q) as Hrest.
  { intros q Hq Hqp. unfold table_present, table_frame. by rewrite Hdir by lia. }
  assert (t <> d /\ (forall q, 0 <= q < 1023 -> q <> p -> table_present m d q = true -> table_frame m d q <> t)
    /\ page_used (memory_bitmap m') t = true
    /\ (forall x, 0 <= x -> page_used (memory_bitmap m) x = true -> page_used (memory_bitmap m') x = true)
    /\ bitmap_ok (memory_bitmap m')) as (Htd & Htq & Htu & Hmono & Hbok).
  { destruct Hok as [K1 K2 K3 K4 K5 K6 K7].
    destruct Ho as [(Hpre & <- & ->)|(Habs & Hfit & Hal)].
    - split_and!; [by apply K2| |by apply K7|done|done]. intros q Hq Hqp Hqpr E.
      by apply (K3 q p).
    - destruct (fresh_table m d t) as (Htr & ? & Htq); [done|done|].
      split_and!; [done|by auto| | |by eapply allocated_ok]; intros; rewrite (al_used _ _ _ Hal) by lia.
      + by rewrite Z.eqb_refl.
      + by apply orb_true_iff; right. }
  destruct Hok as [K1 K2 K3 K4 K5 K6 K7]. split; [done| | |done|by apply Hmono|by apply Hmono; [lia|]|].
  - intros q Hq Hqpr. destruct (decide (q = p)) as [->|Hne]; [by rewrite Ht|].
    destruct (Hrest q Hq Hne) as [E1 E2]. rewrite E2. apply K2; [done|]. by rewrite <- E1.
  - intros q r Hq Hr' Hqr Hqpr Hrpr.
    destruct (decide (q = p)) as [->|Hnq], (decide (r = p)) as [->|Hnr]; [done| | |].
    + destruct (Hrest r Hr' Hnr) as [E1 E2]. rewrite Ht, E2. symmetry. apply Htq; [done|done|congruence].
    + destruct (Hrest q Hq Hnq) as [E1 E2]. rewrite Ht, E2. apply Htq; [done|done|congruence].
    + destruct (Hrest q Hq Hnq) as [E1 E2], (Hrest r Hr' Hnr) as [E3 E4].
      rewrite E2, E4. apply K3; congruence.
  - intros q Hq Hqpr. destruct (decide (q = p)) as [->|Hne]; [by rewrite Ht|].
    destruct (Hrest q Hq Hne) as [E1 E2]. rewrite E2. apply Hmono; [apply frame_of_range|].
    apply K7; [done|congruence].
Qed.

Lemma map_step_wf d p i e t m m' :
  dir_wf m d -> 0 <= p < 1023 -> map_step d d p i e t m m' -> dir_wf m' d.
Proof.
  intros [Hs Hok] Hp Hstep. split; [|by eapply map_step_tables].
  eapply self_mapped_transfer; [exact Hs|apply Hstep|]. apply (ms_dir_rest _ _ _ _ _ _ _ _ Hstep); lia.
Qed.

Lemma map_step_vpage x d p i e t m m' vp :
  tables_ok m d -> 0 <= p < 1023 -> 0 <= i < 1024 -> map_step x d p i e t m m' ->
  0 <= vp < 1023 * 1024 -> x = d \/ (table_present m d (vp / 1024) = true -> table_frame m d (vp / 1024) <> x) ->
  vpage_frame m' d vp =
    if bool_decide (vp = p * 1024 + i) then (if present e then Some (frame_of e) else None)
    else vpage_frame m d vp.
Proof.
  intros Hok Hp Hi Hstep Hvp Hx. pose proof (map_step_tables _ _ _ _ _ _ _ _ Hok Hp Hstep) as Hok'.
  destruct Hstep as [Hr Hp' Ht Ho He Htr Hdir Hfr].
  unfold vpage_frame. assert (0 <= vp / 1024 < 1023) as Hq by zlia.
  assert (0 <= vp mod 1024 < 1024) as Hj by (apply Z.mod_pos_bound; lia).
  set (q := vp / 1024) in *. set (j := vp mod 1024) in *.
  assert (vp = p * 1024 + i <-> q = p /\ j = i) as Hiff by (unfold q, j; split; zlia).
  rewrite (bool_decide_ext _ _ Hiff). clearbody q j. clear Hiff Hvp vp.
  destruct (decide (q = p)) as [->|Hqp].
  - unfold table_present, table_frame in Hp', Ht. rewrite Hp', Ht.
    destruct (decide (j = i)) as [->|Hji].
    + rewrite bool_decide_eq_true_2 by done. by rewrite He.
    + rewrite bool_decide_eq_false_2 by (by intros []). rewrite Htr by done.
      destruct Ho as [(Hpre & Ht0 & _)|(Habs & _ & _)].
      * rewrite Hpre. unfold table_present, table_frame in Hpre, Ht0. by rewrite Hpre, Ht0.
      * rewrite Habs. unfold table_present in Habs. by rewrite Habs.
  - rewrite bool_decide_eq_false_2 by (by intros []). rewrite Hdir by lia.
    destruct (present (frame_word m d q)) eqn:Hqpr; [|done].
    assert (frame_word m' d q = frame_word m d q) as E by (apply Hdir; lia).
    pose proof (tk_ne _ _ Hok q Hq Hqpr) as Hqd. unfold table_frame in Hqd, Hx.
    rewrite Hfr; [done|done|done| |destruct Hx as [Hx|Hx]; [congruence|by apply Hx]].
    pose proof (tk_inj _ _ Hok' q p Hq Hp Hqp) as Hinj.
    unfold table_present, table_frame in *. rewrite E, Ht in Hinj. by apply Hinj.
Qed.

Lemma page_entry_present pa flags : present (page_entry pa flags) = true.
Proof. apply present_lor. Qed.

Lemma page_entry_frame pa flags :
  0 <= flags < 4096 -> frame_of (page_entry pa flags) = (pa / PAGE_SIZE) mod 2 ^ 20.
Proof.
  intros. unfold page_entry. rewrite !frame_of_flags by done.
  rewrite land_mask_any. apply frame_of_addr, Z.mod_pos_bound. lia.
Qed.

Lemma translate_vpage m d va :
  self_mapped m d -> 0 <= va < 2 ^ 32 ->
  translate m va = (fun f => f * PAGE_SIZE + va mod PAGE_SIZE) <$> vpage_frame m d (va / PAGE_SIZE).
Proof. intros [Hp Hc _ _] Hva. unfold translate. rewrite Hc. by apply walk_vpage. Qed.

(** Virtual addresses below the recursive window. *)
Definition RECURSIVE_WINDOW : Z := 0xFFC00000.

(** C7: Mapping in the current space.  With a well-formed current directory,
    [memory_paging_map_current] of an address below the recursive window either
    succeeds, and from then on the processor translates exactly that page to the
    requested frame while every other address translates as before and the
    directory stays well-formed; or it finds no memory for a page table and
    changes nothing. *)
Theorem memory_paging_map_current_spec m d pa va flags :
  dir_wf m d -> 0 <= va < RECURSIVE_WINDOW -> 0 <= flags < 4096 ->
  wp (memory_paging_map_current pa va flags)
     (fun r m' =>
        (r = MEMORY_PAGING_RESULT_OK /\ dir_wf m' d /\
         forall va', 0 <= va' < RECURSIVE_WINDOW ->
           translate m' va' =
             if va' / PAGE_SIZE =? va / PAGE_SIZE
             then Some ((pa / PAGE_SIZE) mod 2 ^ 20 * PAGE_SIZE + va' mod PAGE_SIZE)
             else translate m va') \/
        (r = MEMORY_PAGING_RESULT_ALLOCATION_ERROR /\ m' = m /\
         forall q, 0 <= q < pages (memory_bitmap m) -> page_used (memory_bitmap m) q = true)) m.
Proof.
  intros Hwf Hva Hfl. unfold RECURSIVE_WINDOW in *.
  assert (0 <= pde_index va < 1023) as Hp
    by (rewrite pde_index_div by lia; unfold PAGE_SIZE; zlia).
  pose proof (pte_index_range va) as Hi.
  apply (wp_map_current m d); [done|lia| |by right].
  intros t m' Hstep. left. pose proof (map_step_wf _ _ _ _ _ _ _ Hwf Hp Hstep) as Hwf'.
  split; [done|]. split; [done|]. intros va' Hva'.
  rewrite !(translate_vpage _ d) by (apply Hwf || apply Hwf' || lia).
  rewrite (map_step_vpage _ _ _ _ _ _ _ _ _ (proj2 Hwf) Hp Hi Hstep)
    by (unfold PAGE_SIZE; zlia || by left).
  rewrite page_entry_present, page_entry_frame by done.
  rewrite pde_index_div, pte_index_div by lia.
  destruct (Z.eqb_spec (va' / PAGE_SIZE) (va / PAGE_SIZE)) as [E|E].
  - by rewrite bool_decide_eq_true_2 by zlia.
  - by rewrite bool_decide_eq_false_2 by zlia.
Qed.

(** ** Unmapping in the current space *)

Lemma wp_unmap_current m d va Q :
  self_mapped m d -> pde_index va <> 1023 ->
  (table_present m d (pde_index va) = true ->
   Q MEMORY_PAGING_RESULT_OK (upd (table_frame m d (pde_index va)) (pte_index va) 0 m)) ->
  (table_present m d (pde_index va) = false -> Q MEMORY_PAGING_RESULT_OK m) ->
  wp (memory_paging_unmap_current va) Q m.
Proof.
  intros Hs Hp HT HF. unfold memory_paging_unmap_current.
  pose proof (pde_index_range va). pose proof (pte_index_range va).
  wp_run. apply (wp_load_pde m d); [done|done|].
  unfold table_present, present in HT, HF.
  destruct (Z.land _ PAGE_PRESENT =? 0) eqn:Hpr.
  - wp_run. by apply HF.
  - apply wp_bind, (wp_store_pte m d); [done|done| |done|by apply HT].
    unfold present. by rewrite Hpr.
Qed.

Lemma tables_ok_upd m d f i w : tables_ok m d -> 0 <= i < 1024 -> f <> d -> tables_ok (upd f i w m) d.
Proof.
  intros [K1 K2 K3 K4 K5 K6 K7] Hi Hf.
  assert (forall q, 0 <= q < 1023 -> frame_word (upd f i w m) d q = frame_word m d q) as E.
  { intros q Hq. by rewrite frame_word_upd_frame by (done || lia). }
  split; try done; unfold table_present, table_frame in *.
  - intros q Hq. rewrite E by done. by apply K2.
  - intros q r Hq Hr. rewrite !E by done. by apply K3.
  - intros q Hq. rewrite E by done. by apply K7.
Qed.

Lemma dir_wf_upd m d f i w : dir_wf m d -> 0 <= i < 1024 -> f <> d -> dir_wf (upd f i w m) d.
Proof.
  intros [Hs Hok] Hi Hf. split; [|by apply tables_ok_upd].
  eapply self_mapped_transfer; [done|auto with kernel|]. by rewrite frame_word_upd_frame by (done || lia).
Qed.

(** Writing a slot of a page table of the space changes one virtual page. *)
Lemma vpage_frame_upd_table m d p i w vp :
  tables_ok m d -> 0 <= p < 1023 -> 0 <= i < 1024 -> table_present m d p = true ->
  0 <= vp < 1023 * 1024 ->
  vpage_frame (upd (table_frame m d p) i w m) d vp =
    if bool_decide (vp = p * 1024 + i) then (if present w then Some (frame_of w) else None)
    else vpage_frame m d vp.
Proof.
  intros Hok Hp Hi Hpr Hvp. pose proof (tk_ne _ _ Hok p Hp Hpr) as Hne.
  unfold vpage_frame. assert (0 <= vp / 1024 < 1023) as Hq by zlia.
  assert (0 <= vp mod 1024 < 1024) as Hj by (apply Z.mod_pos_bound; lia).
  rewrite (frame_word_upd_frame _ _ _ _ d) by (done || lia).
  destruct (decide (vp / 1024 = p)) as [Hqp|Hqp].
  - rewrite Hqp. unfold table_present, table_frame in *. rewrite Hpr, frame_word_upd by done.
    repeat case_bool_decide; try (exfalso; zlia); done.
  - rewrite bool_decide_eq_false_2 by zlia.
    destruct (present (frame_word m d (vp / 1024))) eqn:Hqpr; [|done].
    rewrite frame_word_upd_frame; [done|done|done|]. by apply (tk_inj _ _ Hok).
Qed.

(** C13: Unmapping in the current space.  [memory_paging_unmap_current] always
    answers OK; afterwards the processor faults on the page, every other address
    below the recursive window translates as before, and the directory stays
    well-formed. *)
Theorem memory_paging_unmap_current_spec m d va :
  dir_wf m d -> 0 <= va < RECURSIVE_WINDOW ->
  wp (memory_paging_unmap_current va)
     (fun r m' =>
        r = MEMORY_PAGING_RESULT_OK /\ dir_wf m' d /\
        forall va', 0 <= va' < RECURSIVE_WINDOW ->
          translate m' va' =
            if va' / PAGE_SIZE =? va / PAGE_SIZE then None else translate m va') m.
Proof.
  intros [Hs Hok] Hva. unfold RECURSIVE_WINDOW in *.
  assert (0 <= pde_index va < 1023) as Hp
    by (rewrite pde_index_div by lia; unfold PAGE_SIZE; zlia).
  pose proof (pte_index_range va) as Hi.
  apply (wp_unmap_current m d); [done|lia| |]; intros Hpr.
  - assert (dir_wf (upd (table_frame m d (pde_index va)) (pte_index va) 0 m) d) as Hwf'.
    { apply dir_wf_upd; [done|done|by apply (tk_ne _ _ Hok)]. }
    split; [done|]. split; [done|]. intros va' Hva'.
    rewrite !(translate_vpage _ d) by (apply Hwf' || done || lia).
    rewrite vpage_frame_upd_table by (done || unfold PAGE_SIZE; zlia).
    rewrite pde_index_div, pte_index_div by lia.
    destruct (Z.eqb_spec (va' / PAGE_SIZE) (va / PAGE_SIZE)).
    + by rewrite bool_decide_eq_true_2 by zlia.
    + by rewrite bool_decide_eq_false_2 by zlia.
  - split; [done|]. split; [done|]. intros va' Hva'.
    destruct (Z.eqb_spec (va' / PAGE_SIZE) (va / PAGE_SIZE)) as [E|E]; [|done].
    rewrite (translate_vpage _ d) by (done || lia). unfold vpage_frame.
    rewrite pde_index_div in Hpr by lia. unfold table_present in Hpr. by rewrite E, Hpr.
Qed.

(** ** Bounce pages *)

(** The current space is well-formed, the page table behind the bounce window
    exists, and there is a flag per bounce page. *)
Record bounce_ready (m : machine_t) (d : Z) : Prop := {
  br_wf : dir_wf m d;
  br_table : table_present m d 1022 = true;
  br_slots : length (bounce_pages_used m) = Z.to_nat KERNEL_BOUNCE_PAGE_SIZE;
}.

(** The frame of that page table, and the virtual page of slot [k]. *)
Definition bounce_table (m : machine_t) (d : Z) : Z := table_frame m d 1022.
Definition bounce_vp (k : nat) : Z := 1022 * 1024 + 768 + Z.of_nat k.

Definition bounce_taken (d : Z) (k : nat) (pa : Z) (m : machine_t) : machine_t :=
  set_bounce (<[k := true]> (bounce_pages_used m))
    (upd (bounce_table m d) (768 + Z.of_nat k) (page_entry pa PAGE_READ_WRITE) m).
Definition bounce_returned (d : Z) (k : nat) (m : machine_t) : machine_t :=
  set_bounce (<[k := false]> (bounce_pages_used m))
    (upd (bounce_table m d) (768 + Z.of_nat k) 0 m).

Lemma wp_map_current_present m d pa va flags Q :
  dir_wf m d -> pde_index va <> 1023 -> table_present m d (pde_index va) = true ->
  Z.land flags PAGE_USER = 0 ->
  Q MEMORY_PAGING_RESULT_OK
    (upd (table_frame m d (pde_index va)) (pte_index va) (page_entry pa flags) m) ->
  wp (memory_paging_map_current pa va flags) Q m.
Proof.
  intros [Hs Hok] Hp Hpr Hfl HQ. unfold memory_paging_map_current.
  pose proof (pde_index_range va). pose proof (pte_index_range va).
  wp_run. apply (wp_load_pde m d); [done|done|].
  pose proof Hpr as Hpr'. unfold table_present, present in Hpr'. apply negb_true_iff in Hpr'.
  rewrite Hpr', Hfl. do 2 (wp_step; cbn [negb Z.eqb]). do 2 wp_step.
  apply wp_bind, (wp_store_pte m d); [done|done|done|done|]. by apply wp_ret.
Qed.

Lemma bounce_address k :
  KERNEL_BOUNCE_PAGE_START + Z.of_nat k * PAGE_SIZE = bounce_vp k * PAGE_SIZE.
Proof. unfold KERNEL_BOUNCE_PAGE_START, bounce_vp, PAGE_SIZE. lia. Qed.

Lemma bounce_pde k : (k < 16)%nat -> pde_index (bounce_vp k * PAGE_SIZE) = 1022.
Proof.
  intros. unfold bounce_vp. rewrite pde_index_div by (unfold PAGE_SIZE; lia).
  unfold PAGE_SIZE. zlia.
Qed.
Lemma bounce_pte k : (k < 16)%nat -> pte_index (bounce_vp k * PAGE_SIZE) = 768 + Z.of_nat k.
Proof.
  intros. unfold bounce_vp. rewrite pte_index_div by (unfold PAGE_SIZE; lia).
  unfold PAGE_SIZE. zlia.
Qed.

Lemma bounce_lookup_lt m d k b :
  bounce_ready m d -> bounce_pages_used m !! k = Some b -> (k < 16)%nat.
Proof. intros [_ _ Hl] H. apply lookup_lt_Some in H. rewrite Hl in H. done. Qed.

(** [bounce_alloc] takes the first free slot, or answers NULL if there is none. *)
Lemma wp_bounce_alloc m d pa Q :
  bounce_ready m d ->
  (forall k, bounce_pages_used m !! k = Some false ->
     (forall j, (j < k)%nat -> bounce_pages_used m !! j = Some true) ->
     Q (bounce_vp k * PAGE_SIZE) (bounce_taken d k pa m)) ->
  (bounce_pages_used m = replicate 16 true -> Q 0 m) ->
  wp (bounce_alloc pa) Q m.
Proof.
  intros Hr HQ HN. pose proof Hr as [Hwf Htab Hlen]. unfold bounce_alloc.
  change (Z.to_nat KERNEL_BOUNCE_PAGE_SIZE) with 16%nat in *.
  assert (forall n i, (i + n = 16)%nat ->
    (forall j, (j < i)%nat -> bounce_pages_used m !! j = Some true) ->
    wp (bounce_alloc_from n (Z.of_nat i) pa) Q m) as Hgen; [|by apply (Hgen 16%nat 0%nat); [|lia]].
  induction n as [|n IH]; intros i Hi Hused; cbn [bounce_alloc_from].
  - apply wp_ret, HN. apply list_eq. intros j.
    destruct (decide (j < 16)%nat).
    + rewrite Hused by lia. by rewrite lookup_replicate_2.
    + rewrite !lookup_ge_None_2; rewrite ?length_replicate; done || lia.
  - destruct (lookup_lt_is_Some_2 (bounce_pages_used m) i ltac:(lia)) as [b Hb].
    unfold bounce_slot. wp_run; [by rewrite Nat2Z.id|]. destruct b.
    + replace (Z.of_nat i + 1) with (Z.of_nat (S i)) by lia. apply IH; [lia|].
      intros j Hj. destruct (decide (j = i)) as [->|]; [done|]. apply Hused. lia.
    + rewrite bounce_address. wp_run.
      apply (wp_map_current_present m d); rewrite ?bounce_pde, ?bounce_pte by lia; try done.
      rewrite decide_True by done. wp_run. rewrite Nat2Z.id. by apply HQ.
Qed.

Lemma wp_bounce_free m d k Q :
  bounce_ready m d -> (k < 16)%nat ->
  Q tt (bounce_returned d k m) -> wp (bounce_free (bounce_vp k * PAGE_SIZE)) Q m.
Proof.
  intros [[Hs Hok] Htab Hlen] Hk HQ. unfold bounce_free.
  pose proof (bounce_address k) as Ha.
  destruct (Z.ltb_spec (bounce_vp k * PAGE_SIZE) KERNEL_BOUNCE_PAGE_START);
    [unfold PAGE_SIZE in *; lia|].
  replace ((bounce_vp k * PAGE_SIZE - KERNEL_BOUNCE_PAGE_START) / PAGE_SIZE)
    with (Z.of_nat k) by (rewrite <- Ha; unfold PAGE_SIZE; zlia).
  destruct (Z.leb_spec KERNEL_BOUNCE_PAGE_SIZE (Z.of_nat k)); [unfold KERNEL_BOUNCE_PAGE_SIZE in *; lia|].
  wp_run. apply (wp_unmap_current m d); rewrite ?bounce_pde, ?bounce_pte by done; [done|done| |congruence].
  intros _. wp_run. by rewrite Nat2Z.id.
Qed.

(** Taking and returning slots keeps the space ready. *)
Lemma bounce_ready_slot m d k b w :
  bounce_ready m d -> (k < 16)%nat ->
  bounce_ready (set_bounce (<[k := b]> (bounce_pages_used m))
                  (upd (bounce_table m d) (768 + Z.of_nat k) w m)) d.
Proof.
  intros [[Hs Hok] Htab Hlen] Hk.
  assert (bounce_table m d <> d) as Hne by (apply (tk_ne _ _ Hok); done).
  destruct (dir_wf_upd m d (bounce_table m d) (768 + Z.of_nat k) w) as [Hs' Hok'];
    [done|lia|done|]. split.
  - split; [destruct Hs'|destruct Hok']; by split.
  - rewrite <- Htab. apply (f_equal present), (frame_word_upd_frame m); [lia|done|done].
  - simpl. by rewrite length_insert.
Qed.

Lemma bounce_ready_taken m d k pa : bounce_ready m d -> (k < 16)%nat -> bounce_ready (bounce_taken d k pa m) d.
Proof. apply bounce_ready_slot. Qed.
Lemma bounce_ready_returned m d k : bounce_ready m d -> (k < 16)%nat -> bounce_ready (bounce_returned d k m) d.
Proof. apply bounce_ready_slot. Qed.
#[export] Hint Resolve bounce_ready_taken bounce_ready_returned : kernel.

Lemma bounce_window m d k pa :
  bounce_ready m d -> (k < 16)%nat ->
  vpage_frame (bounce_taken d k pa m) d (bounce_vp k) = Some ((pa / PAGE_SIZE) mod 2 ^ 20).
Proof.
  intros [[Hs Hok] Htab _] Hk.
  change (vpage_frame (upd (table_frame m d 1022) (768 + Z.of_nat k) (page_entry pa PAGE_READ_WRITE) m)
            d (bounce_vp k) = Some ((pa / PAGE_SIZE) mod 2 ^ 20)).
  rewrite vpage_frame_upd_table by (done || unfold bounce_vp; lia).
  rewrite bool_decide_eq_true_2 by (unfold bounce_vp; lia).
  by rewrite page_entry_present, page_entry_frame.
Qed.

(** Accesses through a window that [bounce_alloc] opened on frame [f]. *)
Lemma wp_load_window m d k pa i Q :
  bounce_ready m d -> (k < 16)%nat -> 0 <= i < 1024 ->
  (pa / PAGE_SIZE) mod 2 ^ 20 <> bounce_table m d ->
  Q (frame_word m ((pa / PAGE_SIZE) mod 2 ^ 20) i) (bounce_taken d k pa m) ->
  wp (load_entry (bounce_vp k * PAGE_SIZE) i) Q (bounce_taken d k pa m).
Proof.
  intros Hr Hk Hi Hne HQ. pose proof (bounce_ready_taken m d k pa Hr Hk) as [[Hs' _] _ _].
  eapply (wp_load_mapped _ d); [apply Hs'|apply Hs'|unfold bounce_vp; lia|by apply bounce_window|done|].
  change (frame_word (bounce_taken d k pa m)) with
    (frame_word (upd (bounce_table m d) (768 + Z.of_nat k) (page_entry pa PAGE_READ_WRITE) m)).
  by rewrite frame_word_upd_frame by (done || lia).
Qed.

Lemma bounce_table_taken m d k pa :
  bounce_ready m d -> (k < 16)%nat -> bounce_table (bounce_taken d k pa m) d = bounce_table m d.
Proof.
  intros [[Hs Hok] Htab _] Hk. unfold bounce_table, table_frame, bounce_taken. simpl.
  f_equal. apply frame_word_upd_frame; [lia|lia|]. by apply (tk_ne _ _ Hok).
Qed.

Lemma bounce_table_returned m d k :
  bounce_ready m d -> (k < 16)%nat -> bounce_table (bounce_returned d k m) d = bounce_table m d.
Proof.
  intros [[Hs Hok] Htab _] Hk. unfold bounce_table, table_frame, bounce_returned. simpl.
  f_equal. apply frame_word_upd_frame; [lia|lia|]. by apply (tk_ne _ _ Hok).
Qed.

(** Outside the bounce table, physical memory is untouched by the windows. *)
Lemma frame_word_taken m d k pa f i :
  (k < 16)%nat -> 0 <= i < 1024 -> f <> bounce_table m d ->
  frame_word (bounce_taken d k pa m) f i = frame_word m f i.
Proof. intros. by apply (frame_word_upd_frame m); [lia|done|]. Qed.
Lemma frame_word_returned m d k f i :
  (k < 16)%nat -> 0 <= i < 1024 -> f <> bounce_table m d ->
  frame_word (bounce_returned d k m) f i = frame_word m f i.
Proof. intros. by apply (frame_word_upd_frame m); [lia|done|]. Qed.

Lemma frame_address f : 0 <= f < 2 ^ 20 -> (f * PAGE_SIZE / PAGE_SIZE) mod 2 ^ 20 = f.
Proof. intros. rewrite Z.div_mul by done. by apply Z.mod_small. Qed.

Lemma bounce_list_restored m d k pa :
  bounce_pages_used m !! k = Some false ->
  bounce_pages_used (bounce_returned d k (bounce_taken d k pa m)) = bounce_pages_used m.
Proof. intros Hk. simpl. rewrite list_insert_insert_eq. by apply list_insert_id. Qed.

(** Bounce round trip.  With a free bounce page, [bounce_alloc] maps the
    first free one onto the frame of the physical address it is given, and
    [bounce_free] of the address it answered unmaps it again: the same pages are
    free as before, the processor faults on the window, and every other address
    below the recursive window translates as before. *)
Theorem bounce_alloc_free m d pa :
  bounce_ready m d -> bounce_pages_used m <> replicate 16 true ->
  wp (bounce_alloc pa)
     (fun window m1 =>
        window <> 0 /\
        (forall off, 0 <= off < PAGE_SIZE ->
           translate m1 (window + off) = Some ((pa / PAGE_SIZE) mod 2 ^ 20 * PAGE_SIZE + off)) /\
        wp (bounce_free window)
           (fun _ m2 =>
              bounce_ready m2 d /\ bounce_pages_used m2 = bounce_pages_used m /\
              forall va, 0 <= va < RECURSIVE_WINDOW ->
                translate m2 va =
                  if va / PAGE_SIZE =? window / PAGE_SIZE then None else translate m va) m1) m.
Proof.
  intros Hr Hfree. apply (wp_bounce_alloc m d); [done| |done].
  intros k Hk _. pose proof (bounce_lookup_lt m d k _ Hr Hk) as Hlt.
  assert (0 <= bounce_vp k < 1023 * 1024) as Hvp by (unfold bounce_vp; lia).
  pose proof (bounce_ready_taken m d k pa Hr Hlt) as Hr1.
  pose proof (bounce_ready_returned _ d k Hr1 Hlt) as Hr2.
  split_and!.
  - unfold bounce_vp, PAGE_SIZE. lia.
  - intros off Hoff. rewrite (translate_vpage _ d) by (apply Hr1 || unfold PAGE_SIZE in *; lia).
    replace ((bounce_vp k * PAGE_SIZE + off) / PAGE_SIZE) with (bounce_vp k) by (unfold PAGE_SIZE in *; zlia).
    rewrite bounce_window by done. simpl. do 2 f_equal. unfold PAGE_SIZE in *. zlia.
  - apply (wp_bounce_free _ d); [done|done|]. split; [done|]. split; [by apply bounce_list_restored|].
    intros va Hva. unfold RECURSIVE_WINDOW in *. rewrite Z.div_mul by done.
    rewrite !(translate_vpage _ d) by (apply Hr2 || apply Hr || lia).
    pose proof Hr as [[Hs Hok] Htab _].
    change (vpage_frame (bounce_returned d k (bounce_taken d k pa m)) d (va / PAGE_SIZE)) with
      (vpage_frame (upd (bounce_table (bounce_taken d k pa m) d) (768 + Z.of_nat k) 0
                     (upd (bounce_table m d) (768 + Z.of_nat k) (page_entry pa PAGE_READ_WRITE) m))
         d (va / PAGE_SIZE)).
    rewrite bounce_table_taken by done.
    assert (bounce_table m d <> d) as Hne by (by apply (tk_ne _ _ Hok)).
    assert (forall w, upd (bounce_table m d) (768 + Z.of_nat k) 0 (upd (bounce_table m d) (768 + Z.of_nat k) w m)
              = upd (bounce_table m d) (768 + Z.of_nat k) 0 m) as ->.
    { intros w. unfold upd, set_phys. simpl. by rewrite insert_insert_eq. }
    unfold bounce_table. rewrite vpage_frame_upd_table by (done || unfold PAGE_SIZE; zlia).
    destruct (Z.eqb_spec (va / PAGE_SIZE) (bounce_vp k)) as [E|E].
    + rewrite bool_decide_eq_true_2 by (unfold bounce_vp in E; lia). done.
    + rewrite bool_decide_eq_false_2 by (unfold bounce_vp in E; lia). done.
Qed.

(** The answer [r] of the software translation of [va] under the directory [D],
    and the machine after it. *)
Definition translated (m : machine_t) (d D va r : Z) (m' : machine_t) : Prop :=
  bounce_ready m' d /\ memory_bitmap m' = memory_bitmap m /\
  (forall f i, 0 <= i < 1024 -> f <> bounce_table m d -> frame_word m' f i = frame_word m f i) /\
  match walk m (D * PAGE_SIZE) va with
  | Some pa => r = pa /\ bounce_pages_used m' = bounce_pages_used m
  | None => r = 0 /\ exists k, bounce_pages_used m !! k = Some false /\
                               bounce_pages_used m' = <[k := true]> (bounce_pages_used m)
  end.

(** What the translation answers, and what it leaves in memory. *)
Lemma wp_virtual_to_physical m d D va Q :
  bounce_ready m d -> bounce_pages_used m <> replicate 16 true ->
  0 <= D < 2 ^ 20 -> D <> bounce_table m d ->
  table_frame m D (pde_index va) <> bounce_table m d -> 0 <= va < 2 ^ 32 ->
  (forall r m', translated m d D va r m' -> Q r m') ->
  wp (memory_paging_virtual_to_physical (D * PAGE_SIZE) va) Q m.
Proof.
  intros Hr Hfree HD HDb HTb Hva HQ. eapply wp_mono; [|intros r m'; apply HQ]. unfold translated. clear HQ.
  pose proof Hr as [[[Hpse _ _ _] _] _ _].
  rewrite walk_vpage by done. unfold vpage_frame.
  rewrite <- pde_index_div, <- pte_index_div by done.
  pose proof (pde_index_range va) as Hp. pose proof (pte_index_range va) as Hi.
  set (p := pde_index va) in *. set (i := pte_index va) in *.
  unfold memory_paging_virtual_to_physical. fold p i. clearbody p i. wp_run.
  apply (wp_bounce_alloc m d); [done| |done]. intros k Hk _.
  pose proof (bounce_lookup_lt m d k _ Hr Hk) as Hlt.
  wp_run. apply (wp_load_window m d); [done|done|done|by rewrite frame_address|].
  rewrite frame_address by done.
  assert (forall e, (Z.land e PAGE_PRESENT =? 0) = negb (present e)) as Hpr
    by (intros; unfold present; by rewrite negb_involutive).
  rewrite Hpr. destruct (present (frame_word m D p)); cbn [negb].
  2: { wp_run. cbn [fmap option_fmap option_map]. split_and!; [by auto with kernel|done| |done|by exists k].
       intros f j Hj Hf. by apply frame_word_taken. }
  wp_run. apply (wp_bounce_free _ d); [by auto with kernel|done|].
  set (m1 := bounce_returned d k (bounce_taken d k (D * PAGE_SIZE) m)).
  assert (bounce_ready m1 d) as Hr1 by (unfold m1; auto with kernel).
  assert (bounce_table m1 d = bounce_table m d) as Ht1
    by (unfold m1; rewrite bounce_table_returned, bounce_table_taken; auto with kernel).
  assert (bounce_pages_used m1 = bounce_pages_used m) as Hl1 by (by apply bounce_list_restored).
  assert (forall f j, 0 <= j < 1024 -> f <> bounce_table m d -> frame_word m1 f j = frame_word m f j) as Hw1.
  { intros f j Hj Hf. unfold m1. rewrite frame_word_returned, frame_word_taken; try done.
    by rewrite bounce_table_taken. }
  apply wp_bind, (wp_bounce_alloc m1 d); [done| |by rewrite Hl1]. intros k2 Hk2 _.
  pose proof (bounce_lookup_lt m1 d k2 _ Hr1 Hk2) as Hlt2. rewrite frame_of_mask.
  pose proof (frame_of_range (frame_word m D p)) as HT. fold (table_frame m D p) in *.
  wp_run. apply (wp_load_window m1 d); [done|done|done|by rewrite frame_address, Ht1|].
  rewrite frame_address, Hw1 by done. rewrite Hpr.
  destruct (present (frame_word m (table_frame m D p) i)); cbn [negb].
  - wp_run. apply (wp_bounce_free _ d); [by auto with kernel|done|]. wp_run. cbn [fmap option_fmap option_map].
    split_and!; [by auto with kernel|done| | |].
    + intros f j Hj Hf. rewrite frame_word_returned, frame_word_taken, Hw1;
        rewrite ?bounce_table_taken, ?Ht1; done.
    + rewrite frame_of_mask. change 0xFFF with (Z.ones 12). rewrite Z.land_ones by lia.
      pose proof (frame_of_range (frame_word m (table_frame m D p) i)).
      apply u32_small. unfold PAGE_SIZE. zlia.
    + rewrite bounce_list_restored by done. done.
  - wp_run. cbn [fmap option_fmap option_map]. split_and!; [by auto with kernel|done| |done|].
    + intros f j Hj Hf. rewrite frame_word_taken, Hw1; rewrite ?Ht1; done.
    + exists k2. rewrite <- Hl1. done.
Qed.

(** C20: Software translation.  With a free bounce page,
    [memory_paging_virtual_to_physical] answers the processor's translation of
    the address under the given directory and gives its bounce pages back; when
    the page is not mapped it answers 0 and one bounce page stays taken for
    ever.  No frame but the bounce window's own table is written. *)
Theorem memory_paging_virtual_to_physical_spec m d D va :
  bounce_ready m d -> bounce_pages_used m <> replicate 16 true ->
  0 <= D < 2 ^ 20 -> D <> bounce_table m d ->
  table_frame m D (pde_index va) <> bounce_table m d -> 0 <= va < 2 ^ 32 ->
  wp (memory_paging_virtual_to_physical (D * PAGE_SIZE) va)
     (fun r m' =>
        bounce_ready m' d /\ memory_bitmap m' = memory_bitmap m /\
        (forall f i, 0 <= i < 1024 -> f <> bounce_table m d -> frame_word m' f i = frame_word m f i) /\
        match walk m (D * PAGE_SIZE) va with
        | Some pa => r = pa /\ bounce_pages_used m' = bounce_pages_used m
        | None => r = 0 /\ exists k, bounce_pages_used m !! k = Some false /\
                                     bounce_pages_used m' = <[k := true]> (bounce_pages_used m)
        end) m.
Proof.
  intros Hr Hfree HD HDb HTb Hva. apply (wp_virtual_to_physical m d D va _ Hr Hfree HD HDb HTb Hva).
  intros r m' H. exact H.
Qed.

(** ** Another directory, open through a bounce page

    [open_dir m d k D]: slot [k] of the bounce window of the current space [d]
    is in use and shows frame [D], the directory being edited. *)
Record open_dir (m : machine_t) (d : Z) (k : nat) (D : Z) : Prop := {
  od_ready : bounce_ready m d;
  od_slot : bounce_pages_used m !! k = Some true;
  od_window : vpage_frame m d (bounce_vp k) = Some D;
  od_ne : D <> d;
  od_nb : D <> bounce_table m d;
}.

Lemma vpage_frame_upd_frame m d f i w vp :
  0 <= i < 1024 -> 0 <= vp < 1024 * 1024 -> f <> d -> f <> frame_of (frame_word m d (vp / 1024)) ->
  vpage_frame (upd f i w m) d vp = vpage_frame m d vp.
Proof.
  intros Hi Hvp Hd Hf. unfold vpage_frame.
  rewrite (frame_word_upd_frame _ _ _ _ d) by (done || zlia).
  by rewrite frame_word_upd_frame by (done || apply Z.mod_pos_bound; lia).
Qed.

Lemma bounce_ready_upd m d f i w :
  bounce_ready m d -> 0 <= i < 1024 -> f <> d -> bounce_ready (upd f i w m) d.
Proof.
  intros [Hwf Htab Hlen] Hi Hf. split; [by apply dir_wf_upd| |done].
  rewrite <- Htab. by apply (f_equal present), frame_word_upd_frame.
Qed.

Lemma bounce_table_upd m d f i w : 0 <= i < 1024 -> f <> d -> bounce_table (upd f i w m) d = bounce_table m d.
Proof. intros Hi Hf. by apply (f_equal frame_of), frame_word_upd_frame. Qed.

Lemma bounce_table_vpage m d k :
  (k < 16)%nat -> frame_of (frame_word m d (bounce_vp k / 1024)) = bounce_table m d.
Proof.
  intros. unfold bounce_table, table_frame. do 2 f_equal. unfold bounce_vp. zlia.
Qed.

Lemma open_dir_lt m d k D : open_dir m d k D -> (k < 16)%nat.
Proof. intros [Hr Hs _ _ _]. by eapply bounce_lookup_lt. Qed.

Lemma open_dir_upd m d k D f i w :
  open_dir m d k D -> 0 <= i < 1024 -> f <> d -> f <> bounce_table m d -> open_dir (upd f i w m) d k D.
Proof.
  intros Ho Hi Hf Hb. pose proof (open_dir_lt _ _ _ _ Ho) as Hk. destruct Ho as [Hr Hs Hw Hn Hnb].
  split; [by apply bounce_ready_upd|done| |done|by rewrite bounce_table_upd].
  rewrite vpage_frame_upd_frame; [done|done|unfold bounce_vp; lia|done|by rewrite bounce_table_vpage].
Qed.

Lemma open_dir_slot m d k D k' b w :
  open_dir m d k D -> (k' < 16)%nat -> k' <> k ->
  open_dir (set_bounce (<[k' := b]> (bounce_pages_used m))
              (upd (bounce_table m d) (768 + Z.of_nat k') w m)) d k D.
Proof.
  intros Ho Hk' Hne. pose proof (open_dir_lt _ _ _ _ Ho) as Hk. destruct Ho as [Hr Hs Hw Hn Hnb].
  pose proof Hr as [[Hself Hok] Htab _].
  split; [by apply bounce_ready_slot|simpl; by rewrite list_lookup_insert_ne| |done|].
  - change (vpage_frame (upd (table_frame m d 1022) (768 + Z.of_nat k') w m) d (bounce_vp k) = Some D).
    rewrite vpage_frame_upd_table by (done || unfold bounce_vp; lia).
    rewrite bool_decide_eq_false_2; [done|]. unfold bounce_vp. lia.
  - change (D <> bounce_table (upd (bounce_table m d) (768 + Z.of_nat k') w m) d).
    rewrite bounce_table_upd; [done|lia|]. by apply (tk_ne _ _ Hok).
Qed.

Lemma open_dir_taken m d k D k' pa :
  open_dir m d k D -> bounce_pages_used m !! k' = Some false -> open_dir (bounce_taken d k' pa m) d k D.
Proof.
  intros Ho Hk'. pose proof Ho as [Hr Hs _ _ _].
  apply open_dir_slot; [done|by eapply bounce_lookup_lt|]. intros ->. congruence.
Qed.

(** Loads and stores in the open directory. *)
Lemma wp_load_open m d k D i Q :
  open_dir m d k D -> 0 <= i < 1024 -> Q (frame_word m D i) m ->
  wp (load_entry (bounce_vp k * PAGE_SIZE) i) Q m.
Proof.
  intros Ho Hi HQ. pose proof (open_dir_lt _ _ _ _ Ho). destruct Ho as [[[[] _] _ _] _ Hw _ _].
  apply (wp_load_mapped m d _ D); try done. unfold bounce_vp. lia.
Qed.
Lemma wp_store_open m d k D i w Q :
  open_dir m d k D -> 0 <= i < 1024 -> Q tt (upd D i w m) ->
  wp (store_entry (bounce_vp k * PAGE_SIZE) i w) Q m.
Proof.
  intros Ho Hi HQ. pose proof (open_dir_lt _ _ _ _ Ho). destruct Ho as [[[[] _] _ _] _ Hw _ _].
  apply (wp_store_mapped m d _ D); try done. unfold bounce_vp. lia.
Qed.

(** A bounce window that was just taken is an open frame of its own. *)
Lemma open_dir_window m d k pa f :
  bounce_ready m d -> bounce_pages_used m !! k = Some false ->
  pa = f * PAGE_SIZE -> 0 <= f < 2 ^ 20 -> f <> d -> f <> bounce_table m d ->
  open_dir (bounce_taken d k pa m) d k f.
Proof.
  intros Hr Hk -> Hf Hd Hb. pose proof (bounce_lookup_lt m d k _ Hr Hk) as Hlt.
  split; [by apply bounce_ready_taken| | |done|by rewrite bounce_table_taken].
  - simpl. apply list_lookup_insert_eq. by eapply lookup_lt_Some.
  - rewrite bounce_window by done. by rewrite frame_address.
Qed.

Lemma wp_reset_open m d k f Q :
  open_dir m d k f ->
  (forall m', same_regs m m' -> memory_bitmap m' = memory_bitmap m ->
     (forall f' i', 0 <= i' < 1024 ->
        frame_word m' f' i' = if bool_decide (f' = f) then 0 else frame_word m f' i') -> Q tt m') ->
  wp (memory_paging_reset_entry (bounce_vp k * PAGE_SIZE)) Q m.
Proof.
  intros Ho HQ. pose proof (open_dir_lt _ _ _ _ Ho) as Hk. destruct Ho as [[[[] _] _ _] _ Hw Hd Hb].
  apply (wp_reset_entry m d _ f); try done.
  - unfold bounce_vp. lia.
  - by rewrite bounce_table_vpage.
Qed.

(** States that agree on the registers, the bitmap and every frame but [f]. *)
Lemma open_dir_transfer m m' d k D f :
  open_dir m d k D -> same_regs m m' -> memory_bitmap m' = memory_bitmap m ->
  f <> d -> f <> bounce_table m d ->
  (forall g i, 0 <= i < 1024 -> g <> f -> frame_word m' g i = frame_word m g i) ->
  open_dir m' d k D.
Proof.
  intros Ho Hr Hb Hfd Hfb Hw. pose proof (open_dir_lt _ _ _ _ Ho) as Hk.
  destruct Ho as [[[Hs Hok] Htab Hlen] Hsl Hwin Hn Hnb].
  assert (forall q, 0 <= q < 1024 -> frame_word m' d q = frame_word m d q) as Hd by (intros; by apply Hw).
  assert (bounce_table m' d = bounce_table m d) as Ht by (by apply (f_equal frame_of), Hd).
  split; [split; [split| |]| | |done|by rewrite Ht].
  - eapply self_mapped_transfer; [done|done|by apply Hd].
  - destruct Hok as [K1 K2 K3 K4 K5 K6 K7]. split; rewrite ?Hb; try done;
      unfold table_present, table_frame in *.
    + intros q Hq. rewrite Hd by lia. by apply K2.
    + intros q r Hq Hr'. rewrite !Hd by lia. by apply K3.
    + intros q Hq. rewrite Hd by lia. by apply K7.
  - unfold table_present. rewrite Hd by lia. exact Htab.
  - by rewrite (sr_bounce _ _ Hr).
  - by rewrite (sr_bounce _ _ Hr).
  - rewrite <- Hwin. unfold vpage_frame. rewrite Hd by (unfold bounce_vp; zlia).
    destruct (present _); [|done]. rewrite Hw; [done|apply Z.mod_pos_bound; lia|].
    by rewrite bounce_table_vpage.
Qed.

(** ** [memory_paging_map] *)

Lemma open_dir_released m d k D k' pa :
  open_dir m d k D -> bounce_pages_used m !! k' = Some false ->
  open_dir (bounce_returned d k' (bounce_taken d k' pa m)) d k D.
Proof.
  intros Ho Hk'. pose proof Ho as [Hr Hs _ _ _].
  apply open_dir_slot; [by apply open_dir_taken|by eapply bounce_lookup_lt|]. intros ->. congruence.
Qed.

(** The state after a bounce page was opened on a frame, that frame edited by
    [m1 -> m2], and the page closed: only the window's table and the frame
    differ. *)
Record bounced (d f : Z) (m m' : machine_t) : Prop := {
  bo_regs : same_regs m m';
  bo_bitmap : memory_bitmap m' = memory_bitmap m;
  bo_words : forall g i, 0 <= i < 1024 -> g <> f -> g <> bounce_table m d ->
    frame_word m' g i = frame_word m g i;
}.

Lemma same_regs_released m d k pa :
  bounce_pages_used m !! k = Some false ->
  same_regs m (bounce_returned d k (bounce_taken d k pa m)).
Proof. intros Hk. split; try done. by apply bounce_list_restored. Qed.

(** Zeroing the fresh table [t] through a bounce page. *)
Lemma wp_reset_bounced m d k D t Q :
  open_dir m d k D -> bounce_pages_used m <> replicate 16 true ->
  0 <= t < 2 ^ 20 -> t <> d -> t <> D -> t <> bounce_table m d ->
  (forall m', open_dir m' d k D -> bounced d t m m' -> bounce_table m' d = bounce_table m d ->
     (forall i, 0 <= i < 1024 -> frame_word m' t i = 0) -> Q tt m') ->
  wp (let! window := bounce_alloc (t * PAGE_SIZE) in
      do! memory_paging_reset_entry window in bounce_free window) Q m.
Proof.
  intros Ho Hfree Ht Htd HtD Htb HQ. pose proof (od_ready _ _ _ _ Ho) as Hr.
  wp_step. apply (wp_bounce_alloc m d); [done| |done]. intros k' Hk' _.
  pose proof (bounce_lookup_lt m d k' _ Hr Hk') as Hlt.
  pose proof (open_dir_window m d k' _ t Hr Hk' eq_refl Ht Htd Htb) as Hw.
  pose proof (open_dir_taken m d k D k' (t * PAGE_SIZE) Ho Hk') as Ho1.
  set (m1 := bounce_taken d k' (t * PAGE_SIZE) m) in *.
  assert (bounce_table m1 d = bounce_table m d) as Hb1 by (by apply bounce_table_taken).
  wp_step. apply (wp_reset_open m1 d k' t); [done|]. intros m2 Hr2 Hbm2 Hw2.
  assert (forall g i, 0 <= i < 1024 -> g <> t -> frame_word m2 g i = frame_word m1 g i) as Hw2'.
  { intros g i Hi Hg. rewrite Hw2 by done. by rewrite bool_decide_eq_false_2. }
  assert (t <> bounce_table m1 d) as Htb1 by (by rewrite Hb1).
  pose proof (open_dir_transfer m1 m2 d k D t Ho1 Hr2 Hbm2 Htd Htb1 Hw2') as Ho2.
  pose proof (od_ready _ _ _ _ Ho2) as Hrd2.
  assert (bounce_table m2 d = bounce_table m d) as Hb2.
  { rewrite <- Hb1. apply (f_equal frame_of), Hw2'; [lia|done]. }
  assert (bounce_pages_used m2 !! k' = Some true) as Hs2.
  { rewrite (sr_bounce _ _ Hr2). apply Hw. }
  assert (k' <> k) as Hkk by (intros ->; pose proof (od_slot _ _ _ _ Ho); congruence).
  apply (wp_bounce_free m2 d); [done|done|]. apply HQ.
  - by apply open_dir_slot.
  - split.
    + destruct Hr2 as [R1 R2 R3 R4 R5]. split; try done. simpl. rewrite R3. simpl.
      rewrite list_insert_insert_eq. by apply list_insert_id.
    + exact Hbm2.
    + intros g i Hi Hgt Hgb. rewrite frame_word_returned by (done || by rewrite Hb2).
      rewrite Hw2' by done. by apply frame_word_taken.
  - by rewrite bounce_table_returned.
  - intros i Hi. rewrite frame_word_returned by (done || by rewrite Hb2).
    rewrite Hw2 by done. by rewrite bool_decide_eq_true_2.
Qed.

(** Writing entry [i] of the table in frame [t] through a bounce page. *)
Lemma wp_store_bounced m d k D t i e Q :
  open_dir m d k D -> bounce_pages_used m <> replicate 16 true ->
  0 <= t < 2 ^ 20 -> 0 <= i < 1024 -> t <> d -> t <> bounce_table m d ->
  (forall m', open_dir m' d k D -> bounced d t m m' ->
     (forall j, 0 <= j < 1024 -> frame_word m' t j = if j =? i then e else frame_word m t j) ->
     Q tt m') ->
  wp (let! window := bounce_alloc (t * PAGE_SIZE) in
      do! store_entry window i e in bounce_free window) Q m.
Proof.
  intros Ho Hfree Ht Hi Htd Htb HQ. pose proof (od_ready _ _ _ _ Ho) as Hr.
  wp_step. apply (wp_bounce_alloc m d); [done| |done]. intros k' Hk' _.
  pose proof (bounce_lookup_lt m d k' _ Hr Hk') as Hlt.
  pose proof (open_dir_window m d k' _ t Hr Hk' eq_refl Ht Htd Htb) as Hw.
  pose proof (open_dir_taken m d k D k' (t * PAGE_SIZE) Ho Hk') as Ho1.
  set (m1 := bounce_taken d k' (t * PAGE_SIZE) m) in *.
  assert (bounce_table m1 d = bounce_table m d) as Hb1 by (by apply bounce_table_taken).
  wp_step. apply (wp_store_open m1 d k' t); [done|done|].
  assert (t <> bounce_table m1 d) as Htb1 by (by rewrite Hb1).
  pose proof (open_dir_upd m1 d k D t i e Ho1 Hi Htd Htb1) as Ho2.
  assert (bounce_table (upd t i e m1) d = bounce_table m d) as Hb2
    by (by rewrite bounce_table_upd).
  assert (k' <> k) as Hkk by (intros ->; pose proof (od_slot _ _ _ _ Ho); congruence).
  apply (wp_bounce_free _ d); [apply Ho2|done|]. apply HQ.
  - by apply open_dir_slot.
  - split.
    + split; try done. simpl. rewrite list_insert_insert_eq. by apply list_insert_id.
    + done.
    + intros g j Hj Hgt Hgb. rewrite frame_word_returned by (done || by rewrite Hb2).
      rewrite frame_word_upd_frame by (done || congruence). by apply frame_word_taken.
  - intros j Hj. rewrite frame_word_returned by (done || by rewrite Hb2).
    rewrite frame_word_upd by done. unfold m1. rewrite frame_word_taken by done.
    destruct (Z.eqb_spec j i) as [->|].
    + by rewrite bool_decide_eq_true_2.
    + by rewrite bool_decide_eq_false_2 by (intros []; congruence).
Qed.

Definition map_entry (pa flags : Z) : Z := Z.lor (Z.lor pa flags) PAGE_PRESENT.

(** The tail of the function. *)
Definition map_finish (dir p i e flags : Z) : M machine_t memory_paging_result_t :=
  do! (if Z.land flags PAGE_USER =? 0 then ret tt
       else let! e := load_entry dir p in store_entry dir p (Z.lor e PAGE_USER)) in
  let! pde := load_entry dir p in
  let! window := bounce_alloc (Z.land pde PAGE_MASK) in
  do! store_entry window i e in
  do! bounce_free window in
  ret MEMORY_PAGING_RESULT_OK.

(** The entry is stored through a second bounce page; [m1] has the table in place. *)
Lemma wp_map_store m m1 d k D p i e t Q :
  open_dir m d k D -> bounce_pages_used m <> replicate 16 true ->
  0 <= p < 1024 -> 0 <= i < 1024 -> t <> D -> t <> d -> t <> bounce_table m d ->
  open_dir m1 d k D -> same_regs m m1 -> memory_bitmap m1 = memory_bitmap m ->
  bounce_table m1 d = bounce_table m d ->
  table_present m1 D p = true -> table_frame m1 D p = t ->
  (forall f j, 0 <= j < 1024 -> (f = D -> j <> p) -> frame_word m1 f j = frame_word m f j) ->
  (forall m', open_dir m' d k D -> same_regs m m' -> memory_bitmap m' = memory_bitmap m ->
     table_present m' D p = true -> table_frame m' D p = t ->
     (forall f j, 0 <= j < 1024 -> (f = D -> j <> p) -> f <> bounce_table m d ->
        frame_word m' f j = if bool_decide (f = t /\ j = i) then e else frame_word m f j) ->
     Q MEMORY_PAGING_RESULT_OK m') ->
  wp (let! pde := load_entry (bounce_vp k * PAGE_SIZE) p in
      let! window := bounce_alloc (Z.land pde PAGE_MASK) in
      do! store_entry window i e in
      do! bounce_free window in ret MEMORY_PAGING_RESULT_OK) Q m1.
Proof.
  intros Ho Hfree Hp Hi HtD Htd Htb Ho1 Hr1 Hbm1 Hbt1 Hp1 Ht1 Hw1 HQ. wp_step. apply (wp_load_open m1 d k D); [done|done|].
  rewrite frame_of_mask. fold (table_frame m1 D p). rewrite Ht1.
  assert (wp (let! window := bounce_alloc (t * PAGE_SIZE) in
              do! store_entry window i e in bounce_free window)
            (fun _ => Q MEMORY_PAGING_RESULT_OK) m1) as Hgoal.
  { apply (wp_store_bounced m1 d k D); try done.
    - by rewrite (sr_bounce _ _ Hr1).
    - rewrite <- Ht1; apply frame_of_range.
    - by rewrite Hbt1.
    - intros m2 Ho2 [Hr2 Hb2 Hw2] Ht2.
      assert (frame_word m2 D p = frame_word m1 D p) as HDp.
      { apply Hw2; [done|congruence|]. rewrite Hbt1. pose proof (od_nb _ _ _ _ Ho). done. }
      apply HQ; [done|by transitivity m1|congruence| | |].
      + unfold table_present. by rewrite HDp.
      + unfold table_frame at 1. by rewrite HDp.
      + intros f j Hj Hfj Hfb. destruct (decide (f = t)) as [->|Hft].
        * rewrite Ht2 by done. rewrite Hw1 by (done || congruence).
          destruct (Z.eqb_spec j i); [by rewrite bool_decide_eq_true_2|].
          by rewrite bool_decide_eq_false_2 by (by intros []).
        * rewrite bool_decide_eq_false_2 by (by intros []).
          rewrite Hw2 by (done || by rewrite Hbt1). by apply Hw1. }
  revert Hgoal. unfold wp, bind.
  destruct (bounce_alloc (t * PAGE_SIZE) m1) as [[w m2]| |]; [|done|done].
  destruct (store_entry w i e m2) as [[[] m3]| |]; [|done|done].
  by destruct (bounce_free w m3) as [[[] m4]| |].
Qed.

Lemma wp_map_finish m d k D p i e flags Q :
  open_dir m d k D -> bounce_pages_used m <> replicate 16 true ->
  0 <= p < 1024 -> 0 <= i < 1024 -> table_present m D p = true ->
  table_frame m D p <> d -> table_frame m D p <> D -> table_frame m D p <> bounce_table m d ->
  (forall m', open_dir m' d k D -> same_regs m m' -> memory_bitmap m' = memory_bitmap m ->
     table_present m' D p = true -> table_frame m' D p = table_frame m D p ->
     (forall f j, 0 <= j < 1024 -> (f = D -> j <> p) -> f <> bounce_table m d ->
        frame_word m' f j =
          if bool_decide (f = table_frame m D p /\ j = i) then e else frame_word m f j) ->
     Q MEMORY_PAGING_RESULT_OK m') ->
  wp (map_finish (bounce_vp k * PAGE_SIZE) p i e flags) Q m.
Proof.
  intros Ho Hfree Hp Hi Hpr Htd HtD Htb HQ. unfold map_finish.
  set (t := table_frame m D p) in *.
  wp_step. destruct (Z.land flags PAGE_USER =? 0).
  - apply wp_ret. by apply (wp_map_store m m d k D p i e t).
  - wp_step. apply (wp_load_open m d k D); [done|done|]. apply (wp_store_open m d k D); [done|done|].
    pose proof (od_ne _ _ _ _ Ho). pose proof (od_nb _ _ _ _ Ho).
    eapply (wp_map_store m _ d k D p i e t); try done; [by apply open_dir_upd|by apply bounce_table_upd| | |].
    + unfold table_present. rewrite frame_word_upd_eq. by rewrite present_lor_user.
    + unfold table_frame. rewrite frame_word_upd_eq. by rewrite frame_of_flags.
    + intros f j Hj Hfj. rewrite frame_word_upd by lia. case_bool_decide; [|done]. exfalso; lia.
Qed.

Lemma tables_ok_bitmap m d t bm' :
  tables_ok m d -> next_fit (memory_bitmap m) t -> allocated t (memory_bitmap m) bm' ->
  tables_ok (set_bitmap bm' m) d.
Proof.
  intros [K1 K2 K3 K4 K5 K6 K7] Hfit Hal.
  assert (forall x, 0 <= x -> page_used (memory_bitmap m) x = true -> page_used bm' x = true) as Hmono.
  { intros x Hx Hu. rewrite (al_used _ _ _ Hal) by done. by apply orb_true_iff; right. }
  split; [done|done|done|by eapply allocated_ok|by apply Hmono|by apply Hmono; [lia|]|].
  intros q Hq Hqp. apply Hmono; [apply frame_of_range|]. by apply K7.
Qed.

Lemma open_dir_bitmap m d k D t bm' :
  open_dir m d k D -> next_fit (memory_bitmap m) t -> allocated t (memory_bitmap m) bm' ->
  open_dir (set_bitmap bm' m) d k D.
Proof.
  intros [[[Hs Hok] Htab Hlen] Hsl Hw Hn Hb] Hfit Hal.
  split; [split; [split|done|done]|done|done|done|done].
  - by destruct Hs.
  - by eapply tables_ok_bitmap.
Qed.

Lemma map_entry_present pa flags : present (map_entry pa flags) = true.
Proof. apply present_lor. Qed.
Lemma map_entry_frame pa flags :
  0 <= flags < 4096 -> frame_of (map_entry pa flags) = (pa / PAGE_SIZE) mod 2 ^ 20.
Proof.
  intros. unfold map_entry. rewrite !frame_of_flags by done.
  unfold frame_of. by rewrite land_mask_any, Z.div_mul.
Qed.

(** The new table of a directory entry that had none, in the free page [t]: it is
    zeroed through the bounce window, the directory entry is stored, and the page
    is mapped in it. *)
Lemma wp_map_new_table m bm' d k D t p i e flags Q :
  open_dir m d k D -> bounce_pages_used m <> replicate 16 true -> tables_ok m D ->
  0 <= p < 1023 -> 0 <= i < 1024 -> table_present m D p = false ->
  next_fit (memory_bitmap m) t -> allocated t (memory_bitmap m) bm' ->
  (forall m', open_dir m' d k D -> map_step (bounce_table m d) D p i e t m m' ->
     Q MEMORY_PAGING_RESULT_OK m') ->
  wp (let! window := bounce_alloc (t * PAGE_SIZE) in
      do! memory_paging_reset_entry window in bounce_free window)
     (fun _ m2 => wp (do! store_entry (bounce_vp k * PAGE_SIZE) p
          (Z.lor (Z.lor (t * PAGE_SIZE) PAGE_READ_WRITE) PAGE_PRESENT) in
        map_finish (bounce_vp k * PAGE_SIZE) p i e flags) Q m2) (set_bitmap bm' m).
Proof.
  intros Ho Hfree Hok Hp Hi Habs Hfit Hal HQ. assert (0 <= p < 1024) as Hp' by lia.
  destruct (fresh_table m D t Hok Hfit) as (Ht & HtD & _).
  pose proof (od_ready _ _ _ _ Ho) as [[_ Hokd] Hbt _].
  destruct (fresh_table m d t Hokd Hfit) as (_ & Htd & Htt).
  assert (t <> bounce_table m d) as Htb by (intros ->; by apply (Htt 1022)).
  set (m1 := set_bitmap bm' m). assert (open_dir m1 d k D) as Ho1 by (by eapply open_dir_bitmap).
  apply (wp_reset_bounced m1 d k D); [done|done|lia|done|done|done|].
  intros m2 Ho2 [Hr2 Hb2 Hw2] Hbt2 Hz2. wp_step. apply (wp_store_open m2 d k D); [done|done|].
  pose proof (od_ne _ _ _ _ Ho) as HDd. pose proof (od_nb _ _ _ _ Ho) as HDb.
  set (w := Z.lor (Z.lor (t * PAGE_SIZE) PAGE_READ_WRITE) PAGE_PRESENT).
  assert (open_dir (upd D p w m2) d k D) as Ho3 by (apply open_dir_upd; rewrite ?Hbt2; done).
  assert (table_frame (upd D p w m2) D p = t) as Ht3.
  { unfold table_frame, w. rewrite frame_word_upd_eq, !frame_of_flags by done. apply frame_of_addr. lia. }
  assert (bounce_table (upd D p w m2) d = bounce_table m d) as Hbt3 by (by rewrite bounce_table_upd).
  set (m3 := upd D p w m2) in *. rewrite <- Hbt3 in HQ.
  apply (wp_map_finish m3 d k D p i); rewrite ?Ht3, ?Hbt3; try done.
  - simpl. by rewrite (sr_bounce _ _ Hr2).
  - unfold table_present, m3. rewrite frame_word_upd_eq. apply present_lor.
  - intros m4 Ho4 Hr4 Hb4 Hp4 Ht4 Hw4. apply HQ; [done|]. rewrite Hbt3.
    split; [|done|done| | | | |].
    + etransitivity; [|exact Hr4]. etransitivity; [|apply same_regs_upd].
      etransitivity; [|exact Hr2]. by split.
    + right. split_and!; [done|done|]. rewrite Hb4. unfold m3. simpl. by rewrite Hb2.
    + rewrite Hw4 by (done || congruence). by rewrite bool_decide_eq_true_2.
    + intros j Hj Hji. rewrite Habs, Hw4 by (done || congruence).
      rewrite bool_decide_eq_false_2 by (by intros []). unfold m3.
      rewrite frame_word_upd_frame by (done || congruence). by apply Hz2.
    + intros j Hj Hjp. rewrite Hw4 by done.
      rewrite bool_decide_eq_false_2 by (intros []; congruence).
      unfold m3. rewrite frame_word_upd_index by (done || lia). by apply Hw2.
    + intros f j Hj HfD Hft Hfb. rewrite Hw4 by done.
      rewrite bool_decide_eq_false_2 by (intros []; congruence).
      unfold m3. rewrite frame_word_upd_frame by (done || congruence). by apply Hw2.
Qed.

(** The same for a table that is there. *)
Lemma wp_map_old_table m d k D p i e flags Q :
  open_dir m d k D -> bounce_pages_used m <> replicate 16 true ->
  0 <= p < 1023 -> 0 <= i < 1024 -> table_present m D p = true ->
  table_frame m D p <> D -> table_frame m D p <> d -> table_frame m D p <> bounce_table m d ->
  (forall m', open_dir m' d k D -> map_step (bounce_table m d) D p i e (table_frame m D p) m m' ->
     Q MEMORY_PAGING_RESULT_OK m') ->
  wp (map_finish (bounce_vp k * PAGE_SIZE) p i e flags) Q m.
Proof.
  intros Ho Hfree Hp Hi Hpre HtD Htd Htb HQ. pose proof (od_nb _ _ _ _ Ho) as HDb.
  apply (wp_map_finish m d k D p i e); try done; [lia|].
  intros m' Ho' Hr Hb Hp1 Ht1 Hw. apply HQ; [done|].
  split; [done|done|done|by left| | | |].
  - rewrite Hw by (done || congruence). by rewrite bool_decide_eq_true_2.
  - intros j Hj Hji. rewrite Hpre, Hw by (done || congruence).
    by rewrite bool_decide_eq_false_2 by (by intros []).
  - intros j Hj Hjp. rewrite Hw by done. by rewrite bool_decide_eq_false_2 by (intros []; congruence).
  - intros f j Hj Hfd Hft Hfb. rewrite Hw by done. by rewrite bool_decide_eq_false_2 by (intros []; congruence).
Qed.

Lemma wp_memory_paging_map m d k D pa va flags Q :
  open_dir m d k D -> bounce_pages_used m <> replicate 16 true -> tables_ok m D ->
  pde_index va <> 1023 ->
  (table_present m D (pde_index va) = true ->
   table_frame m D (pde_index va) <> d /\ table_frame m D (pde_index va) <> bounce_table m d) ->
  (forall t m', open_dir m' d k D ->
     map_step (bounce_table m d) D (pde_index va) (pte_index va) (map_entry pa flags) t m m' ->
     Q MEMORY_PAGING_RESULT_OK m') ->
  (table_present m D (pde_index va) = false ->
   (forall q, 0 <= q < pages (memory_bitmap m) -> page_used (memory_bitmap m) q = true) ->
   Q MEMORY_PAGING_RESULT_ALLOCATION_ERROR m) ->
  wp (memory_paging_map (bounce_vp k * PAGE_SIZE) pa va flags) Q m.
Proof.
  intros Ho Hfree Hok Hp Hsep HQ HF. unfold memory_paging_map.
  pose proof (pde_index_range va) as Hpr. pose proof (pte_index_range va) as Hir.
  set (p := pde_index va) in *. set (i := pte_index va) in *. clearbody p i.
  assert (0 <= p < 1023) as Hp' by lia. wp_run. apply (wp_load_open m d k D); [done|lia|].
  fold (map_entry pa flags).
  destruct (Z.land (frame_word m D p) PAGE_PRESENT =? 0) eqn:Hpres.
  - assert (table_present m D p = false) as Habs by (unfold table_present, present; by rewrite Hpres).
    unfold on_bitmap. wp_run. apply wp_allocate; [apply Hok| |].
    + intros t bm' Hfit Hal. destruct (fresh_table m D t Hok Hfit) as (Ht & _).
      destruct (Z.eqb_spec (t * PAGE_SIZE) 0); [unfold PAGE_SIZE in *; lia|].
      pose proof (wp_map_new_table m bm' d k D t p i (map_entry pa flags) flags Q Ho Hfree Hok Hp' Hir Habs Hfit Hal
        (HQ t)) as Hgoal.
      revert Hgoal. unfold wp, bind, map_finish, ret. set (m1 := set_bitmap bm' m).
      destruct (bounce_alloc (t * PAGE_SIZE) m1) as [[w m2]| |]; [|done|done].
      destruct (memory_paging_reset_entry w m2) as [[[] m3]| |]; [|done|done].
      destruct (bounce_free w m3) as [[[] m4]| |]; [|done|done].
      by destruct (store_entry _ _ _ m4) as [[[] m5]| |].
    + intros Hall. rewrite set_bitmap_id. by apply wp_ret, wp_ret, HF.
  - assert (table_present m D p = true) as Hpre by (unfold table_present, present; by rewrite Hpres).
    apply wp_ret. cbn [negb]. destruct (Hsep Hpre) as [Hsd Hsb].
    pose proof (tk_ne _ _ Hok p Hp' Hpre) as Hne.
    apply (wp_map_old_table m d k D p i (map_entry pa flags)); try done. by apply HQ.
Qed.

(** Virtual addresses below the 4 MiB that hold the bounce pages. *)
Definition BOUNCE_AREA : Z := 0xFF800000.

(** The tables of [D] below the bounce area are neither the current directory
    nor the table of the bounce window (which [D] may share). *)
Definition separate (m : machine_t) (d D : Z) : Prop :=
  forall q, 0 <= q < 1022 -> table_present m D q = true ->
    table_frame m D q <> d /\ table_frame m D q <> bounce_table m d.

Lemma below_bounce va : 0 <= va < BOUNCE_AREA -> 0 <= pde_index va < 1022.
Proof. intros. unfold BOUNCE_AREA in *. rewrite pde_index_div by lia. unfold PAGE_SIZE. zlia. Qed.

Lemma od_pse m d k D : open_dir m d k D -> pse m = false.
Proof. by intros [[[[] _] _ _] _ _ _ _]. Qed.

(** C21: Mapping in another space.  With the directory [D] open in a bounce page,
    a second bounce page free and both spaces well-formed,
    [memory_paging_map] of an address below the bounce area either succeeds, and
    then under [D] the processor translates exactly that page to the requested
    frame and every other address as before, while [D] stays open and both
    spaces well-formed with the same bounce pages in use; or it finds no memory
    for a page table and changes nothing. *)
Theorem memory_paging_map_spec m d k D pa va flags :
  open_dir m d k D -> bounce_pages_used m <> replicate 16 true -> tables_ok m D ->
  separate m d D -> 0 <= va < BOUNCE_AREA -> 0 <= flags < 4096 ->
  wp (memory_paging_map (bounce_vp k * PAGE_SIZE) pa va flags)
     (fun r m' =>
        (r = MEMORY_PAGING_RESULT_OK /\ open_dir m' d k D /\ tables_ok m' D /\
         bounce_pages_used m' = bounce_pages_used m /\
         forall va', 0 <= va' < BOUNCE_AREA ->
           walk m' (D * PAGE_SIZE) va' =
             if va' / PAGE_SIZE =? va / PAGE_SIZE
             then Some ((pa / PAGE_SIZE) mod 2 ^ 20 * PAGE_SIZE + va' mod PAGE_SIZE)
             else walk m (D * PAGE_SIZE) va') \/
        (r = MEMORY_PAGING_RESULT_ALLOCATION_ERROR /\ m' = m /\
         forall q, 0 <= q < pages (memory_bitmap m) -> page_used (memory_bitmap m) q = true)) m.
Proof.
  intros Ho Hfree Hok Hsep Hva Hfl. pose proof (below_bounce va Hva) as Hp.
  pose proof (pte_index_range va) as Hi.
  apply (wp_memory_paging_map m d k D); [done|done|done|lia| | |by right].
  { intros. by apply Hsep. }
  intros t m' Ho' Hstep. left. assert (0 <= pde_index va < 1023) as Hp' by lia.
  split; [done|]. split; [done|]. split; [by eapply map_step_tables|].
  split; [apply (sr_bounce _ _ (ms_regs _ _ _ _ _ _ _ _ Hstep))|].
  intros va' Hva'. unfold BOUNCE_AREA in *.
  rewrite !walk_vpage by (done || lia || by eapply od_pse).
  assert (0 <= va' / PAGE_SIZE / 1024 < 1022) as Hq by (unfold PAGE_SIZE; zlia).
  rewrite (map_step_vpage _ _ _ _ _ _ _ _ _ Hok Hp' Hi Hstep);
    [|unfold PAGE_SIZE; zlia|right; by apply Hsep].
  rewrite map_entry_present, map_entry_frame by done.
  rewrite pde_index_div, pte_index_div by lia.
  destruct (Z.eqb_spec (va' / PAGE_SIZE) (va / PAGE_SIZE)) as [E|E].
  - by rewrite bool_decide_eq_true_2 by zlia.
  - by rewrite bool_decide_eq_false_2 by zlia.
Qed.

(** ** [memory_paging_unmap] *)

Lemma wp_memory_paging_unmap m d k D va Q :
  open_dir m d k D -> bounce_pages_used m <> replicate 16 true -> tables_ok m D ->
  pde_index va <> 1023 ->
  (table_present m D (pde_index va) = true ->
   table_frame m D (pde_index va) <> d /\ table_frame m D (pde_index va) <> bounce_table m d) ->
  (forall m', open_dir m' d k D -> same_regs m m' -> memory_bitmap m' = memory_bitmap m ->
     (forall j, 0 <= j < 1024 -> frame_word m' D j = frame_word m D j) ->
     (forall f j, 0 <= j < 1024 -> f <> bounce_table m d ->
        frame_word m' f j =
          if bool_decide (table_present m D (pde_index va) = true /\
                          f = table_frame m D (pde_index va) /\ j = pte_index va)
          then 0 else frame_word m f j) ->
     Q MEMORY_PAGING_RESULT_OK m') ->
  wp (memory_paging_unmap (bounce_vp k * PAGE_SIZE) va) Q m.
Proof.
  intros Ho Hfree Hok Hp Hsep HQ. unfold memory_paging_unmap.
  pose proof (pde_index_range va) as Hpr. pose proof (pte_index_range va) as Hir.
  set (p := pde_index va) in *. set (i := pte_index va) in *. clearbody p i.
  wp_run. apply (wp_load_open m d k D); [done|done|].
  destruct (Z.land (frame_word m D p) PAGE_PRESENT =? 0) eqn:Hpres.
  - assert (table_present m D p = false) as Habs by (unfold table_present, present; by rewrite Hpres).
    apply wp_ret, wp_ret, HQ; [done|done|done|done|]. intros f j Hj Hf.
    rewrite bool_decide_eq_false_2; [done|]. intros []. congruence.
  - assert (table_present m D p = true) as Hpre by (unfold table_present, present; by rewrite Hpres).
    destruct (Hsep Hpre) as [Hsd Hsb].
    do 2 apply wp_bind. apply (wp_load_open m d k D); [done|done|]. rewrite frame_of_mask.
    fold (table_frame m D p).
    apply (wp_store_bounced m d k D); [done|done|apply frame_of_range|done|done|done|].
    intros m' Ho' [Hr Hb Hw] Ht. pose proof (od_nb _ _ _ _ Ho) as HDb.
    apply wp_ret, HQ; [done|done|done| |].
    + intros j Hj. apply Hw; [done| |done]. intros E. symmetry in E. revert E.
      apply (tk_ne _ _ Hok); [lia|done].
    + intros f j Hj Hf. destruct (decide (f = table_frame m D p)) as [->|Hft].
      * rewrite Ht by done. destruct (Z.eqb_spec j i).
        -- by rewrite bool_decide_eq_true_2.
        -- by rewrite bool_decide_eq_false_2 by (by intros (_ & _ & ?)).
      * rewrite Hw by done. by rewrite bool_decide_eq_false_2 by (by intros (_ & ? & _)).
Qed.

(** Unmapping in another space.  With the directory [D] open in a bounce
    page and a second bounce page free, [memory_paging_unmap] answers OK; under
    [D] the processor then faults on the page and translates every other address
    below the bounce area as before; the bounce pages in use, the bitmap and the
    directory itself are unchanged. *)
Theorem memory_paging_unmap_spec m d k D va :
  open_dir m d k D -> bounce_pages_used m <> replicate 16 true -> tables_ok m D ->
  separate m d D -> 0 <= va < BOUNCE_AREA ->
  wp (memory_paging_unmap (bounce_vp k * PAGE_SIZE) va)
     (fun r m' =>
        r = MEMORY_PAGING_RESULT_OK /\ open_dir m' d k D /\
        memory_bitmap m' = memory_bitmap m /\ bounce_pages_used m' = bounce_pages_used m /\
        (forall j, 0 <= j < 1024 -> frame_word m' D j = frame_word m D j) /\
        forall va', 0 <= va' < BOUNCE_AREA ->
          walk m' (D * PAGE_SIZE) va' =
            if va' / PAGE_SIZE =? va / PAGE_SIZE then None else walk m (D * PAGE_SIZE) va') m.
Proof.
  intros Ho Hfree Hok Hsep Hva. pose proof (below_bounce va Hva) as Hp.
  apply (wp_memory_paging_unmap m d k D); [done|done|done|lia| |].
  { intros. by apply Hsep. }
  intros m' Ho' Hr Hb HD Hw. split_and!; [done|done|done|apply (sr_bounce _ _ Hr)|done|].
  intros va' Hva'. unfold BOUNCE_AREA in *. rewrite !walk_vpage by (done || lia || by eapply od_pse).
  rewrite pde_index_div, pte_index_div in Hw by lia. rewrite pde_index_div in Hp by lia.
  unfold vpage_frame, table_present, table_frame in *.
  assert (0 <= va' / PAGE_SIZE / 1024 < 1022) as Hq by (unfold PAGE_SIZE; zlia).
  rewrite HD by lia.
  destruct (present (frame_word m D (va' / PAGE_SIZE / 1024))) eqn:Hpr.
  2: { destruct (Z.eqb_spec (va' / PAGE_SIZE) (va / PAGE_SIZE)); done. }
  rewrite Hw; [|apply Z.mod_pos_bound; lia|by apply Hsep].
  destruct (Z.eqb_spec (va' / PAGE_SIZE) (va / PAGE_SIZE)) as [E|E].
  - rewrite E in *. by rewrite bool_decide_eq_true_2.
  - rewrite bool_decide_eq_false_2; [done|]. intros (Hpr' & Hf & Hm). apply E.
    assert (va' / PAGE_SIZE / 1024 = va / PAGE_SIZE / 1024) as Hd.
    { destruct (decide (va' / PAGE_SIZE / 1024 = va / PAGE_SIZE / 1024)) as [|Hne]; [done|exfalso].
      revert Hf. apply (tk_inj _ _ Hok); [lia|lia|done|done|done]. }
    zlia.
Qed.

(** ** A concrete machine

    Frame 1 is the current directory (self map, and the bounce table in frame
    2), frame 3 another directory with one table in frame 4 that maps page
    0x400000 to frame 9; it is open in bounce page 0.  Frames 0-4 and 9 of 40
    are used. *)
Definition small_machine : machine_t :=
  mk_machine
    {[ 1 * 1024 + 1022 := 0x2003; 1 * 1024 + 1023 := 0x1003; 2 * 1024 + 768 := 0x3003;
       3 * 1024 + 1 := 0x4007; 3 * 1024 + 1023 := 0x3003; 4 * 1024 + 0 := 0x9007 ]}
    0x1000 false (mk_memory_bitmap {[ 0 := 0x21F; 1 := 0 ]} 40 5)
    (true :: replicate 15 false) 0xC0001000 0x1000.

Definition only_table (m : machine_t) (d p0 : Z) : bool :=
  forallb (fun p => negb (table_present m d p) || (p =? p0)) (Z.of_nat <$> seq 0 1023).

Lemma only_table_spec m d p0 p :
  only_table m d p0 = true -> 0 <= p < 1023 -> table_present m d p = true -> p = p0.
Proof.
  unfold only_table. rewrite forallb_forall. intros H Hp Hpr.
  specialize (H p). rewrite Hpr in H. apply Z.eqb_eq, H, list_elem_of_In, list_elem_of_fmap.
  exists (Z.to_nat p). split; [lia|]. apply elem_of_seq. lia.
Qed.

Lemma tables_ok_single m d p0 :
  only_table m d p0 = true -> 0 <= d < 2 ^ 20 -> bitmap_ok (memory_bitmap m) ->
  page_used (memory_bitmap m) 0 = true -> page_used (memory_bitmap m) d = true ->
  table_frame m d p0 <> d -> page_used (memory_bitmap m) (table_frame m d p0) = true ->
  tables_ok m d.
Proof.
  intros H Hd Hb H0 Hu Hne Hpu. split; [done| | |done|done|done|].
  - intros p Hp Hpr. by rewrite (only_table_spec m d p0 p).
  - intros p q Hp Hq Hpq Hpr Hqr.
    exfalso. apply Hpq. by rewrite (only_table_spec m d p0 p), (only_table_spec m d p0 q).
  - intros p Hp Hpr. by rewrite (only_table_spec m d p0 p).
Qed.

Lemma small_machine_bitmap : bitmap_ok (memory_bitmap small_machine).
Proof.
  split; simpl; [lia|lia|]. intros p Hp. split; [lia|]. unfold BITMAP_ENTRY_SIZE_IN_BITS.
  assert (p / 32 = 0 \/ p / 32 = 1) as [-> | ->] by zlia; vm_compute; eauto.
Qed.
Lemma small_machine_current : dir_wf small_machine 1.
Proof.
  split; [by split|].
  apply (tables_ok_single _ _ 1022); [by vm_compute|lia|apply small_machine_bitmap|done|done|done|done].
Qed.
Lemma small_machine_other : tables_ok small_machine 3.
Proof.
  apply (tables_ok_single _ _ 1); [by vm_compute|lia|apply small_machine_bitmap|done|done|done|done].
Qed.
Lemma small_machine_ready : bounce_ready small_machine 1.
Proof. split; [apply small_machine_current|done|done]. Qed.
Lemma small_machine_open : open_dir small_machine 1 0 3.
Proof. split; [apply small_machine_ready|done|done|done|done]. Qed.
Lemma small_machine_separate : separate small_machine 1 3.
Proof.
  intros q Hq Hpr. rewrite (only_table_spec small_machine 3 1 q); [done|by vm_compute|lia|done].
Qed.

Lemma memory_paging_map_current_spec_witness :
  wp (memory_paging_map_current 0x7000 0x12345000 6)
     (fun r m' =>
        (r = MEMORY_PAGING_RESULT_OK /\ dir_wf m' 1 /\
         forall va', 0 <= va' < RECURSIVE_WINDOW ->
           translate m' va' =
             if va' / PAGE_SIZE =? 0x12345000 / PAGE_SIZE
             then Some ((0x7000 / PAGE_SIZE) mod 2 ^ 20 * PAGE_SIZE + va' mod PAGE_SIZE)
             else translate small_machine va') \/
        (r = MEMORY_PAGING_RESULT_ALLOCATION_ERROR /\ m' = small_machine /\
         forall q, 0 <= q < pages (memory_bitmap small_machine) ->
           page_used (memory_bitmap small_machine) q = true)) small_machine.
Proof.
  apply memory_paging_map_current_spec;
    [exact small_machine_current|split; vm_compute; congruence|lia].
Defined.

Lemma memory_paging_unmap_current_spec_witness :
  wp (memory_paging_unmap_current 0x12345000)
     (fun r m' =>
        r = MEMORY_PAGING_RESULT_OK /\ dir_wf m' 1 /\
        forall va', 0 <= va' < RECURSIVE_WINDOW ->
          translate m' va' =
            if va' / PAGE_SIZE =? 0x12345000 / PAGE_SIZE then None
            else translate small_machine va') small_machine.
Proof.
  apply memory_paging_unmap_current_spec;
    [exact small_machine_current|split; vm_compute; congruence].
Defined.

Lemma bounce_alloc_free_witness :
  wp (bounce_alloc 0x7000)
     (fun window m1 =>
        window <> 0 /\
        (forall off, 0 <= off < PAGE_SIZE ->
           translate m1 (window + off) = Some ((0x7000 / PAGE_SIZE) mod 2 ^ 20 * PAGE_SIZE + off)) /\
        wp (bounce_free window)
           (fun _ m2 =>
              bounce_ready m2 1 /\ bounce_pages_used m2 = bounce_pages_used small_machine /\
              forall va, 0 <= va < RECURSIVE_WINDOW ->
                translate m2 va =
                  if va / PAGE_SIZE =? window / PAGE_SIZE then None
                  else translate small_machine va) m1) small_machine.
Proof. apply bounce_alloc_free; [exact small_machine_ready|vm_compute; congruence]. Defined.

Lemma memory_paging_virtual_to_physical_spec_witness :
  walk small_machine (3 * PAGE_SIZE) 0x400010 = Some 0x9010 /\
  wp (memory_paging_virtual_to_physical (3 * PAGE_SIZE) 0x400010)
     (fun r m' =>
        bounce_ready m' 1 /\ memory_bitmap m' = memory_bitmap small_machine /\
        (forall f i, 0 <= i < 1024 -> f <> bounce_table small_machine 1 ->
           frame_word m' f i = frame_word small_machine f i) /\
        match walk small_machine (3 * PAGE_SIZE) 0x400010 with
        | Some pa => r = pa /\ bounce_pages_used m' = bounce_pages_used small_machine
        | None => r = 0 /\ exists k, bounce_pages_used small_machine !! k = Some false /\
                     bounce_pages_used m' = <[k := true]> (bounce_pages_used small_machine)
        end) small_machine.
Proof.
  split; [reflexivity|]. apply (memory_paging_virtual_to_physical_spec _ 1);
    [exact small_machine_ready|vm_compute; congruence|lia|vm_compute; congruence..|lia].
Defined.

Lemma memory_paging_map_spec_witness :
  wp (memory_paging_map (bounce_vp 0 * PAGE_SIZE) 0x7000 0x12345000 6)
     (fun r m' =>
        (r = MEMORY_PAGING_RESULT_OK /\ open_dir m' 1 0 3 /\ tables_ok m' 3 /\
         bounce_pages_used m' = bounce_pages_used small_machine /\
         forall va', 0 <= va' < BOUNCE_AREA ->
           walk m' (3 * PAGE_SIZE) va' =
             if va' / PAGE_SIZE =? 0x12345000 / PAGE_SIZE
             then Some ((0x7000 / PAGE_SIZE) mod 2 ^ 20 * PAGE_SIZE + va' mod PAGE_SIZE)
             else walk small_machine (3 * PAGE_SIZE) va') \/
        (r = MEMORY_PAGING_RESULT_ALLOCATION_ERROR /\ m' = small_machine /\
         forall q, 0 <= q < pages (memory_bitmap small_machine) ->
           page_used (memory_bitmap small_machine) q = true)) small_machine.
Proof.
  apply memory_paging_map_spec;
    [exact small_machine_open|vm_compute; congruence|exact small_machine_other
    |exact small_machine_separate|split; vm_compute; congruence|lia].
Defined.

Lemma memory_paging_unmap_spec_witness :
  wp (memory_paging_unmap (bounce_vp 0 * PAGE_SIZE) 0x400000)
     (fun r m' =>
        r = MEMORY_PAGING_RESULT_OK /\ open_dir m' 1 0 3 /\
        memory_bitmap m' = memory_bitmap small_machine /\
        bounce_pages_used m' = bounce_pages_used small_machine /\
        (forall j, 0 <= j < 1024 -> frame_word m' 3 j = frame_word small_machine 3 j) /\
        forall va', 0 <= va' < BOUNCE_AREA ->
          walk m' (3 * PAGE_SIZE) va' =
            if va' / PAGE_SIZE =? 0x400000 / PAGE_SIZE then None
            else walk small_machine (3 * PAGE_SIZE) va') small_machine.
Proof.
  apply memory_paging_unmap_spec;
    [exact small_machine_open|vm_compute; congruence|exact small_machine_other
    |exact small_machine_separate|split; vm_compute; congruence].
Defined.

(** The leak of [memory_paging_virtual_to_physical]: fifteen lookups of an
    unmapped address use up the bounce pages left, and the next operation that needs
    one faults. *)
Example virtual_to_physical_leaks :
  match for_range 0 15 (fun _ =>
          do! memory_paging_virtual_to_physical (3 * PAGE_SIZE) 0x80000000 in ret tt) small_machine with
  | Ret (_, m) => bounce_pages_used m = replicate 16 true /\
                  memory_paging_virtual_to_physical (3 * PAGE_SIZE) 0x400000 m = Fault
  | _ => False
  end.
Proof. vm_compute. split; reflexivity. Qed.
