(* ===== verification/Boot.v ===== *)
(** * The first page directory (src/bootstrap.c)

    Before paging is on, an address is a physical one.  The directory maps the
    first 64 MB twice with 4 MB pages: where they are, so that the boot code goes
    on running, and at the start of the kernel's half.  Its address is the
    linker's. *)
From S2P Require Import Prelude Bitmap Paging.

Definition BOOTSTRAP_4MB_PAGES : Z := 16.

Section boot.
(** [bootstrap_page_directory] *)
Variable bootstrap_page_directory : Z.

Definition store_physical (pa w : Z) : M machine_t unit := modify (set_phys (fun ph => <[pa / 4 := w]> ph)).

Definition reset_entry (entry : Z) : M machine_t unit :=
  for_range 0 (PAGE_SIZE / 4) (fun i => store_physical (entry + 4 * i) 0).

Definition bootstrap_entry (i : Z) : Z :=
  Z.lor (Z.lor (Z.lor (u32 (i * 0x400000)) PAGE_PRESENT) PAGE_READ_WRITE) PAGE_4MB.

Definition map_pages : M machine_t unit :=
  for_range 0 BOOTSTRAP_4MB_PAGES (fun i =>
    do! store_physical (bootstrap_page_directory + 4 * i) (bootstrap_entry i) in
    store_physical (bootstrap_page_directory + 4 * (768 + i)) (bootstrap_entry i)).

(** The directory is in cr3 when CR0.PG is set. *)
Definition setup_bootstrap_paging : M machine_t unit :=
  do! reset_entry bootstrap_page_directory in
  do! map_pages in
  do! modify (set_pse true) in
  modify (set_cr3 bootstrap_page_directory).

(** ** What is mapped *)

(** Entry [j] of the directory after the first [n] pages are mapped. *)
Definition mapped_entry (n j : Z) : Z :=
  if j <? n then bootstrap_entry j
  else if (768 <=? j) && (j <? 768 + n) then bootstrap_entry (j - 768) else 0.

Definition bootstrap_translation (va : Z) : option Z :=
  if va <? 0x4000000 then Some va
  else if (0xC0000000 <=? va) && (va <? 0xC4000000) then Some (va - 0xC0000000) else None.

Variable f : Z.
Hypothesis Hdir : bootstrap_page_directory = f * PAGE_SIZE.

(** The words of the directory; all others are those of [m]. *)
Record directory_words (m : machine_t) (e : Z -> Z) (m' : machine_t) : Prop := {
  dw_entries : forall j, 0 <= j < 1024 -> phys m' !! (f * 1024 + j) = Some (e j);
  dw_others : forall w, w / 1024 <> f -> phys m' !! w = phys m !! w;
}.

Lemma word_of_entry j : (bootstrap_page_directory + 4 * j) / 4 = f * 1024 + j.
Proof using Hdir. rewrite Hdir. unfold PAGE_SIZE. zlia. Qed.

Lemma wp_reset_directory m Q :
  (forall m', directory_words m (fun _ => 0) m' -> Q tt m') -> wp (reset_entry bootstrap_page_directory) Q m.
Proof using Hdir.
  intros HQ. unfold reset_entry. change (PAGE_SIZE / 4) with 1024.
  apply (wp_for_range _ _ _ (fun i m' => (forall j, 0 <= j < i -> phys m' !! (f * 1024 + j) = Some 0) /\
    (forall w, w / 1024 <> f -> phys m' !! w = phys m !! w))).
  - split; [lia|done].
  - intros i m' Hi [H1 H2]. unfold store_physical. wp_step. simpl. rewrite word_of_entry. split.
    + intros j Hj. destruct (decide (j = i)) as [->|]; [by rewrite lookup_insert_eq|].
      rewrite lookup_insert_ne by lia. apply H1. lia.
    + intros w Hw. rewrite lookup_insert_ne; [by apply H2|]. intros <-. apply Hw. zlia.
  - intros m' [H1 H2]. apply HQ. split; [|done]. intros j Hj. apply H1. lia.
Qed.

Lemma wp_map_pages m m0 Q :
  directory_words m0 (fun _ => 0) m ->
  (forall m', directory_words m0 (mapped_entry 16) m' -> Q tt m') -> wp map_pages Q m.
Proof using Hdir.
  intros H0 HQ. unfold map_pages. change BOOTSTRAP_4MB_PAGES with 16.
  apply (wp_for_range _ _ _ (fun n m' => directory_words m0 (mapped_entry n) m')).
  - destruct H0 as [H1 H2]. split; [|done]. intros j Hj. rewrite H1 by done. unfold mapped_entry.
    destruct (Z.ltb_spec j 0), (Z.leb_spec 768 j), (Z.ltb_spec j (768 + 0)); done || lia.
  - intros n m' Hn [H1 H2]. unfold store_physical. wp_step. wp_step. wp_step. simpl. rewrite !word_of_entry. split.
    + intros j Hj. simpl. destruct (decide (j = 768 + n)) as [->|Hj1].
      { rewrite lookup_insert_eq. unfold mapped_entry.
        destruct (Z.ltb_spec (768 + n) (n + 1)), (Z.leb_spec 768 (768 + n)), (Z.ltb_spec (768 + n) (768 + (n + 1))); try lia.
        simpl. do 2 f_equal. lia. }
      rewrite lookup_insert_ne by lia. destruct (decide (j = n)) as [->|Hj2].
      { rewrite lookup_insert_eq. unfold mapped_entry. by destruct (Z.ltb_spec n (n + 1)); [|lia]. }
      rewrite lookup_insert_ne, H1 by lia. f_equal. unfold mapped_entry.
      destruct (Z.ltb_spec j n), (Z.ltb_spec j (n + 1)), (Z.leb_spec 768 j), (Z.ltb_spec j (768 + n)), (Z.ltb_spec j (768 + (n + 1)));
        done || lia.
    + intros w Hw. simpl. rewrite !lookup_insert_ne; [by apply H2|intros <-; apply Hw; zlia..].
  - exact HQ.
Qed.

(** An entry of the loop is present, a 4 MB page, and holds its address. *)
Lemma bootstrap_entry_parts i : 0 <= i < 16 ->
  present (bootstrap_entry i) = true /\ (Z.land (bootstrap_entry i) PAGE_4MB =? 0) = false /\
  Z.land (bootstrap_entry i) 0xFFC00000 = i * 2 ^ 22.
Proof using Type.
  intros Hi. assert (forallb (fun i => present (bootstrap_entry i) && negb (Z.land (bootstrap_entry i) PAGE_4MB =? 0)
    && (Z.land (bootstrap_entry i) 0xFFC00000 =? i * 2 ^ 22)) (seqZ 0 16) = true) as H by (vm_compute; reflexivity).
  rewrite forallb_forall in H. specialize (H i ltac:(apply list_elem_of_In, elem_of_seqZ; lia)).
  apply andb_prop in H as [H H3]. apply andb_prop in H as [H1 H2].
  split_and!; [done|by apply negb_true_iff|lia].
Qed.

Lemma walk_bootstrap m0 m va :
  directory_words m0 (mapped_entry 16) m -> pse m = true -> 0 <= va < 2 ^ 32 ->
  walk m bootstrap_page_directory va = bootstrap_translation va.
Proof using Hdir.
  intros [H1 _] Hpse Hva. unfold walk. rewrite Hpse, pde_index_div by done. rewrite Hdir.
  assert (0 <= va / PAGE_SIZE / 1024 < 1024) as Hj by (unfold PAGE_SIZE; zlia).
  rewrite phys_word_frame by done. unfold frame_word. rewrite H1 by done. cbn [default from_option id].
  change 0x3FFFFF with (Z.ones 22). rewrite Z.land_ones by lia.
  assert (va / PAGE_SIZE / 1024 = va / 2 ^ 22) as Hdiv by (unfold PAGE_SIZE; zlia). rewrite Hdiv in *.
  set (j := va / 2 ^ 22) in *. assert (va = j * 2 ^ 22 + va mod 2 ^ 22) as Hva' by (unfold j; zlia).
  pose proof (Z.mod_pos_bound va (2 ^ 22) ltac:(lia)) as Hmod. unfold mapped_entry, bootstrap_translation.
  destruct (Z.ltb_spec j 16).
  - destruct (bootstrap_entry_parts j) as (-> & -> & ->); [lia|]. simpl negb. cbv iota. simpl andb. cbv iota.
    destruct (Z.ltb_spec va 0x4000000); [|lia]. f_equal. lia.
  - destruct (Z.ltb_spec va 0x4000000); [lia|].
    destruct (Z.leb_spec 768 j), (Z.ltb_spec j (768 + 16)); cbn [andb].
    + destruct (bootstrap_entry_parts (j - 768)) as (-> & -> & ->); [lia|]. simpl negb. cbv iota. simpl andb. cbv iota.
      destruct (Z.leb_spec 0xC0000000 va), (Z.ltb_spec va 0xC4000000); try lia. simpl andb. cbv iota. f_equal. lia.
    + destruct (Z.leb_spec 0xC0000000 va), (Z.ltb_spec va 0xC4000000); try lia. done.
    + destruct (Z.leb_spec 0xC0000000 va); [lia|]. done.
    + lia.
Qed.

(** C35: The first address space.  From any contents of memory, once paging is on
    the processor finds the first 64 MB at their own addresses and again at the
    start of the kernel's half, faults everywhere else, and no word outside the
    page of the directory has changed. *)
Theorem setup_bootstrap_paging_spec m :
  wp setup_bootstrap_paging
     (fun _ m' =>
        (forall va, 0 <= va < 2 ^ 32 -> translate m' va = bootstrap_translation va) /\
        (forall w, w / 1024 <> f -> phys m' !! w = phys m !! w)) m.
Proof using Hdir.
  unfold setup_bootstrap_paging. wp_step. apply wp_reset_directory. intros m1 H1.
  wp_step. apply (wp_map_pages m1 m); [done|]. intros m2 H2. wp_run. split.
  - intros va Hva. unfold translate. simpl. apply (walk_bootstrap m); [|done|done]. by destruct H2.
  - apply (dw_others _ _ _ H2).
Qed.
End boot.

Lemma setup_bootstrap_paging_spec_witness :
  wp (setup_bootstrap_paging 0x103000)
     (fun _ m' => translate m' 0xC0101234 = Some 0x101234 /\ translate m' 0x5000000 = None)
     (mk_machine ∅ 0 false (mk_memory_bitmap ∅ 0 0) [] 0 0).
Proof.
  eapply wp_mono; [apply (setup_bootstrap_paging_spec 0x103000 0x103 eq_refl)|].
  intros _ m' [H _]. split; rewrite H by lia; reflexivity.
Defined.
