(* ===== verification/KernelHeap.v ===== *)
(** * Kernel heap (src/kernel_heap.c) and the queue of page directories to
    destroy (src/memory_paging.c)

    The heap is a circular list of free blocks kept in the heap's own memory:
    a block starts with a header of two 32-bit words, [next] and [size] (in
    headers of 8 bytes).  [heap_words] is that memory, by the byte address of
    the word; a word outside the mapped heap and the static header [base] is not
    accessible.  The address of [base] is the linker's. *)
From S2P Require Import Prelude Bitmap Paging.

(** ** Data *)

Definition KERNEL_HEAP_VIRTUAL_START : Z := 0xF0000000.
Definition KERNEL_HEAP_VIRTUAL_END : Z := 0xF7FFFFFF.
Definition KERNEL_HEAP_MINIMUM_HEADERS_TO_ALLOCATE : Z := 1024.
(** [sizeof(kernel_heap_header_t)] *)
Definition HEADER_SIZE : Z := 8.

Record kernel_heap_t : Type := mk_heap {
  free_headers_head : Z;
  heap_start : Z;
  heap_end : Z;
  heap_break : Z;
}.

Record kernel_t : Type := mk_kernel {
  kernel_heap : kernel_heap_t;
  heap_words : gmap Z Z;
  machine : machine_t;
  page_directories_to_destroy : Z;
  page_directories_to_destroy_tail : Z;
}.

Definition set_heap (f : kernel_heap_t -> kernel_heap_t) (k : kernel_t) : kernel_t :=
  mk_kernel (f (kernel_heap k)) (heap_words k) (machine k)
    (page_directories_to_destroy k) (page_directories_to_destroy_tail k).
Definition set_words (f : gmap Z Z -> gmap Z Z) (k : kernel_t) : kernel_t :=
  mk_kernel (kernel_heap k) (f (heap_words k)) (machine k)
    (page_directories_to_destroy k) (page_directories_to_destroy_tail k).
Definition set_machine (m : machine_t) (k : kernel_t) : kernel_t :=
  mk_kernel (kernel_heap k) (heap_words k) m
    (page_directories_to_destroy k) (page_directories_to_destroy_tail k).
Definition set_queue (head tail : Z) (k : kernel_t) : kernel_t :=
  mk_kernel (kernel_heap k) (heap_words k) (machine k) head tail.
Definition set_head (x : Z) (h : kernel_heap_t) : kernel_heap_t :=
  mk_heap x (heap_start h) (heap_end h) (heap_break h).
Definition set_break (x : Z) (h : kernel_heap_t) : kernel_heap_t :=
  mk_heap (free_headers_head h) (heap_start h) (heap_end h) x.

Definition on_machine {A} (op : M machine_t A) : M kernel_t A := zoom machine set_machine op.

Section kernel_heap.
(** [&kernel_heap.base], and the number of rounds the list walks may take. *)
Variable base : Z.
Variable fuel : nat.

Definition heap_mapped (k : kernel_t) (a : Z) : bool :=
  (a =? base) || (a =? base + 4)
  || (heap_start (kernel_heap k) <=? a) && (a <? heap_break (kernel_heap k)).

Definition word (k : kernel_t) (a : Z) : Z := default 0 (heap_words k !! a).

Definition load_word (a : Z) : M kernel_t Z :=
  let! k := get in if heap_mapped k a then ret (word k a) else fault.
Definition store_word (a w : Z) : M kernel_t unit :=
  let! k := get in if heap_mapped k a then modify (set_words <[a := w]>) else fault.

(** Header fields. *)
Definition get_next (h : Z) : M kernel_t Z := load_word h.
Definition get_size (h : Z) : M kernel_t Z := load_word (h + 4).
Definition put_next (h w : Z) : M kernel_t unit := store_word h w.
Definition put_size (h w : Z) : M kernel_t unit := store_word (h + 4) w.
Definition get_head : M kernel_t Z := gets (fun k => free_headers_head (kernel_heap k)).
Definition put_head (h : Z) : M kernel_t unit := modify (set_heap (set_head h)).

(** [memset(address, 0, size)] on heap memory; the last word may be covered in
    part. *)
Definition memset_zero (address size : Z) : M kernel_t unit :=
  do! for_range 0 (size / 4) (fun i => store_word (address + 4 * i) 0) in
  if size mod 4 =? 0 then ret tt
  else
    let! w := load_word (address + 4 * (size / 4)) in
    store_word (address + 4 * (size / 4)) (w / 2 ^ (8 * (size mod 4)) * 2 ^ (8 * (size mod 4))).

(** ** kernel_heap.c *)

(** One round of the mapping loop; the locals are the round and [address]. *)
Definition kernel_heap_allocate_physical_memory (bytes page_directory flags : Z)
  : M kernel_t Z :=
  let bytes_to_allocate := ALIGN_UP bytes in
  let pages_to_allocate := bytes_to_allocate / PAGE_SIZE in
  let! k := get in
  if heap_end (kernel_heap k) <? u32 (heap_break (kernel_heap k) + bytes_to_allocate) then ret 0
  else
    let! mapped := loop (S (Z.to_nat pages_to_allocate)) (fun '(i, address) =>
      if i <? pages_to_allocate then
        let! physical_allocated := on_machine (on_bitmap memory_bitmap_allocate) in
        if physical_allocated =? 0 then ret (inr false)
        else
          do! on_machine (memory_paging_map page_directory physical_allocated address flags) in
          ret (inl (i + 1, u32 (address + PAGE_SIZE)))
      else ret (inr true)) (0, heap_break (kernel_heap k)) in
    if negb mapped then ret 0
    else
      let! k := get in
      let allocated_address := heap_break (kernel_heap k) in
      do! modify (set_heap (fun h => set_break (u32 (heap_break h + bytes_to_allocate)) h)) in
      ret allocated_address.

Definition kernel_heap_free (address : Z) : M kernel_t unit :=
  if address =? 0 then ret tt
  else
    let freed_block_header := address - HEADER_SIZE in
    let! start := get_head in
    let! location := loop fuel (fun location =>
      let! next := get_next location in
      let freed_block_after_current := location <? freed_block_header in
      let freed_block_before_next := freed_block_header <? next in
      if freed_block_after_current && freed_block_before_next then ret (inr location)
      else if (next <=? location) && (freed_block_after_current || freed_block_before_next)
      then ret (inr location)
      else ret (inl next)) start in
    (* merge with next if adjacent *)
    let! size := get_size freed_block_header in
    let! next := get_next location in
    do! (if freed_block_header + HEADER_SIZE * size =? next then
           let! next_size := get_size next in
           do! put_size freed_block_header (u32 (size + next_size)) in
           let! next_next := get_next next in
           put_next freed_block_header next_next
         else put_next freed_block_header next) in
    (* merge with previous if adjacent *)
    let! location_size := get_size location in
    do! (if location + HEADER_SIZE * location_size =? freed_block_header then
           let! size := get_size freed_block_header in
           do! put_size location (u32 (location_size + size)) in
           let! next := get_next freed_block_header in
           put_next location next
         else put_next location freed_block_header) in
    put_head location.

Definition kernel_heap_allocate_more_headers (headers_to_allocate page_directory flags : Z)
  : M kernel_t Z :=
  let bytes := u32 (headers_to_allocate * HEADER_SIZE) in
  let bytes_to_allocate :=
    if bytes <? KERNEL_HEAP_MINIMUM_HEADERS_TO_ALLOCATE * HEADER_SIZE
    then KERNEL_HEAP_MINIMUM_HEADERS_TO_ALLOCATE * HEADER_SIZE else bytes in
  let! header := kernel_heap_allocate_physical_memory bytes_to_allocate page_directory flags in
  if header =? 0 then ret 0
  else
    do! put_size header (bytes_to_allocate / HEADER_SIZE) in
    do! put_next header header in
    do! kernel_heap_free (header + HEADER_SIZE) in
    get_head.

(** The block of [headers_to_allocate] headers carved out of the free block
    [current], whose predecessor is [previous]. *)
Definition kernel_heap_take (previous current headers_to_allocate : Z) : M kernel_t Z :=
  let! size := get_size current in
  let! block :=
    if size =? headers_to_allocate then
      let! next := get_next current in
      do! put_next previous next in ret current
    else
      do! put_size current (size - headers_to_allocate) in
      let block := current + HEADER_SIZE * (size - headers_to_allocate) in
      do! put_size block headers_to_allocate in ret block in
  do! put_head previous in
  ret (block + HEADER_SIZE).

Definition headers_needed (size : Z) : Z :=
  u32 (u32 (size + HEADER_SIZE - 1) / HEADER_SIZE + 1).

Definition kernel_heap_malloc_into_page_directory (size page_directory flags : Z)
  : M kernel_t Z :=
  if size =? 0 then ret 0
  else
    let headers_to_allocate := headers_needed size in
    let! head := get_head in
    let! first := get_next head in
    loop fuel (fun '(previous_header, current_header) =>
      let! current_size := get_size current_header in
      if headers_to_allocate <=? current_size then
        let! allocated := kernel_heap_take previous_header current_header headers_to_allocate in
        ret (inr allocated)
      else
        let! head := get_head in
        let! grown :=
          if current_header =? head
          then kernel_heap_allocate_more_headers headers_to_allocate page_directory flags
          else ret head in
        if (current_header =? head) && (grown =? 0) then ret (inr 0)
        else let! next := get_next current_header in ret (inl (current_header, next)))
      (head, first).

Definition kernel_heap_calloc_into_page_directory (size page_directory flags : Z)
  : M kernel_t Z :=
  let! memory := kernel_heap_malloc_into_page_directory size page_directory flags in
  if memory =? 0 then ret 0
  else do! memset_zero memory size in ret memory.

Definition kernel_heap_malloc (size : Z) : M kernel_t Z :=
  let! k := get in
  kernel_heap_malloc_into_page_directory size (kernel_page_directory (machine k)) PAGE_READ_WRITE.
Definition kernel_heap_calloc (size : Z) : M kernel_t Z :=
  let! k := get in
  kernel_heap_calloc_into_page_directory size (kernel_page_directory (machine k)) PAGE_READ_WRITE.

Definition kernel_heap_module_init : M kernel_t unit :=
  do! put_next base base in
  do! put_size base 0 in
  modify (set_heap (fun _ =>
    mk_heap base (ALIGN_UP KERNEL_HEAP_VIRTUAL_START) (ALIGN_DOWN KERNEL_HEAP_VIRTUAL_END)
      (ALIGN_UP KERNEL_HEAP_VIRTUAL_START))).

(** ** The destruction queue of memory_paging.c

    A [page_directory_node_t] is a heap block of two words: the directory and
    the next node. *)
Definition memory_paging_queue_to_destroy (page_directory : Z)
  : M kernel_t memory_paging_result_t :=
  let! k := get in
  if page_directory =? kernel_page_directory_phys (machine k) then ret MEMORY_PAGING_RESULT_OK
  else
    let! node := kernel_heap_malloc 8 in
    do! store_word (node + 4) 0 in
    do! store_word node page_directory in
    let! k := get in
    if page_directories_to_destroy k =? 0 then
      do! modify (set_queue node node) in ret MEMORY_PAGING_RESULT_OK
    else
      do! store_word (page_directories_to_destroy_tail k + 4) node in
      do! modify (set_queue (page_directories_to_destroy k) node) in
      ret MEMORY_PAGING_RESULT_OK.

Definition memory_paging_destroy_queued : M kernel_t unit :=
  let! k := get in
  do! loop fuel (fun head =>
    if head =? 0 then ret (inr tt)
    else
      let! next := load_word (head + 4) in
      let! directory := load_word head in
      let! page_directory := on_machine (bounce_alloc directory) in
      do! on_machine (memory_paging_free_page_directory page_directory) in
      do! on_machine (bounce_free page_directory) in
      do! on_machine (on_bitmap (memory_bitmap_free directory)) in
      do! kernel_heap_free head in
      ret (inl next)) (page_directories_to_destroy k) in
  modify (set_queue 0 0).

(** ** The free list

    [path k a cells z]: following [next] from [a] visits exactly the headers of
    [cells], (address, size) pairs, and arrives at [z]. *)
Fixpoint path (k : kernel_t) (a : Z) (cells : list (Z * Z)) (z : Z) : Prop :=
  match cells with
  | [] => a = z
  | (b, n) :: rest => a = b /\ word k (b + 4) = n /\ path k (word k b) rest z
  end.

(** Free blocks lie in the mapped heap above [lo], in address order, with a gap
    after each. *)
Fixpoint blocks_ok (lo hi : Z) (blocks : list (Z * Z)) : Prop :=
  match blocks with
  | [] => True
  | (b, n) :: rest => lo <= b /\ 1 <= n /\ b + HEADER_SIZE * n <= hi /\
                      blocks_ok (b + HEADER_SIZE * n + 1) hi rest
  end.

(** The free list of a consistent heap: [base] (size 0) and then [blocks]; the
    search starts at one of them. *)
Record free_list (k : kernel_t) (blocks : list (Z * Z)) : Prop := {
  fl_base : 0 < base /\ base + HEADER_SIZE <= heap_start (kernel_heap k);
  fl_break : heap_start (kernel_heap k) <= heap_break (kernel_heap k) < 2 ^ 32;
  fl_path : path k base ((base, 0) :: blocks) base;
  fl_blocks : blocks_ok (heap_start (kernel_heap k)) (heap_break (kernel_heap k)) blocks;
  fl_head : exists n, (free_headers_head (kernel_heap k), n) ∈ (base, 0) :: blocks;
}.

(** [address] lies in one of the blocks. *)
Definition in_blocks (blocks : list (Z * Z)) (address : Z) : Prop :=
  Exists (fun '(b, n) => b <= address < b + HEADER_SIZE * n) blocks.

(** Returning the block of [n] headers at [a]: it goes to its place in address
    order and joins the neighbours it touches. *)
Definition merge_next (a n : Z) (rest : list (Z * Z)) : Z * list (Z * Z) :=
  match rest with
  | (q, m) :: rest' => if a + HEADER_SIZE * n =? q then (n + m, rest') else (n, rest)
  | [] => (n, [])
  end.
Definition join (p pn a n : Z) (rest : list (Z * Z)) : list (Z * Z) :=
  let '(n', rest') := merge_next a n rest in
  if p + HEADER_SIZE * pn =? a then (p, pn + n') :: rest' else (p, pn) :: (a, n') :: rest'.
Fixpoint release (a n : Z) (cells : list (Z * Z)) : list (Z * Z) :=
  match cells with
  | [] => []
  | (p, pn) :: rest =>
      match rest with
      | (q, _) :: _ => if q <? a then (p, pn) :: release a n rest else join p pn a n rest
      | [] => join p pn a n []
      end
  end.

(** The block of [n] headers at [a] overlaps none of the blocks. *)
Definition apart (a n : Z) (blocks : list (Z * Z)) : Prop :=
  Forall (fun '(b, m) => b + HEADER_SIZE * m <= a \/ a + HEADER_SIZE * n <= b) blocks.

Lemma path_app k a l1 l2 z :
  path k a (l1 ++ l2) z <-> exists y, path k a l1 y /\ path k y l2 z.
Proof using Type.
  revert a. induction l1 as [|[b n] l1 IH]; intros a; simpl.
  - split; [by exists a|]. by intros (y & -> & ?).
  - rewrite IH. split.
    + intros (-> & Hn & y & H1 & H2). exists y. done.
    + intros (y & (-> & Hn & H1) & H2). split_and!; [done|done|]. by exists y.
Qed.

Definition same_cells (k k' : kernel_t) (cells : list (Z * Z)) : Prop :=
  forall b n, (b, n) ∈ cells -> word k' b = word k b /\ word k' (b + 4) = word k (b + 4).

Lemma release_split pre p pn post a n :
  (forall b m, (b, m) ∈ pre -> b < a) -> p < a -> (forall q m, head post = Some (q, m) -> a < q) ->
  release a n (pre ++ (p, pn) :: post) = pre ++ join p pn a n post.
Proof using Type.
  intros Hpre Hp Hpost. induction pre as [|[b m] pre IH]; simpl.
  - destruct post as [|[q m] post]; [done|]. specialize (Hpost q m eq_refl).
    destruct (Z.ltb_spec q a); [lia|done].
  - rewrite IH by (intros; eapply Hpre; by right).
    destruct pre as [|[c o] pre]; simpl.
    + destruct (Z.ltb_spec p a); [done|lia].
    + destruct (Z.ltb_spec c a); [done|]. specialize (Hpre c o). rewrite !elem_of_cons in Hpre.
      specialize (Hpre ltac:(auto)). lia.
Qed.

Lemma blocks_ok_bounds lo hi blocks b n :
  blocks_ok lo hi blocks -> (b, n) ∈ blocks -> lo <= b /\ 1 <= n /\ b + HEADER_SIZE * n <= hi.
Proof using Type.
  revert lo. induction blocks as [|[c m] blocks IH]; intros lo; simpl; [by intros _ ?%not_elem_of_nil|].
  intros (H1 & H2 & H3 & H4) [[= <- <-]|Hin]%elem_of_cons; [done|].
  destruct (IH _ H4 Hin). unfold HEADER_SIZE in *. lia.
Qed.

Lemma blocks_ok_lo lo lo' hi blocks :
  blocks_ok lo hi blocks -> (forall b n, (b, n) ∈ blocks -> lo' <= b) -> blocks_ok lo' hi blocks.
Proof using Type.
  destruct blocks as [|[b n] blocks]; [done|]. intros (_ & H2 & H3 & H4) Hlo.
  split; [by apply (Hlo b n); left|done].
Qed.

Lemma join_ok p pn a n rest hi :
  p + HEADER_SIZE * pn <= a -> 0 <= pn -> 1 <= n -> a + HEADER_SIZE * n <= hi ->
  blocks_ok (a + HEADER_SIZE * n) hi rest ->
  exists pn' rest', join p pn a n rest = (p, pn') :: rest' /\
    blocks_ok (p + HEADER_SIZE * pn' + 1) hi rest' /\
    (pn' = pn \/ p + HEADER_SIZE * pn = a /\ pn <= pn' /\ p + HEADER_SIZE * pn' <= hi) /\
    (forall b m, (b, m) ∈ rest' -> b = a \/ (b, m) ∈ rest) /\
    forall x, in_blocks (join p pn a n rest) x <->
      a <= x < a + HEADER_SIZE * n \/ in_blocks ((p, pn) :: rest) x.
Proof using Type.
  intros Hp Hpn Hn Hhi Hok. unfold join, merge_next, in_blocks, HEADER_SIZE in *.
  destruct rest as [|[q m] rest]; simpl in Hok.
  - destruct (Z.eqb_spec (p + 8 * pn) a); eexists _, _; split_and!; try done.
    + right. lia.
    + intros b m []%not_elem_of_nil.
    + intros x. rewrite !Exists_cons, Exists_nil. lia.
    + simpl. unfold HEADER_SIZE. lia.
    + by left.
    + intros b m [[= -> ->]|[]%not_elem_of_nil]%elem_of_cons. by left.
    + intros x. rewrite !Exists_cons, Exists_nil. lia.
  - destruct Hok as (H1 & H2 & H3 & H4). unfold HEADER_SIZE in *.
    destruct (Z.eqb_spec (a + 8 * n) q), (Z.eqb_spec (p + 8 * pn) a); eexists _, _; split_and!; try done.
    + eapply blocks_ok_lo; [exact H4|]. intros b o Hb.
      destruct (blocks_ok_bounds _ _ _ _ _ H4 Hb). unfold HEADER_SIZE in *. lia.
    + right. lia.
    + intros b o Hb. right. by right.
    + intros x. rewrite !Exists_cons. intuition lia.
    + simpl. unfold HEADER_SIZE in *. split_and!; try lia. by replace (a + 8 * (n + m) + 1) with (q + 8 * m + 1) by lia.
    + by left.
    + intros b o [[= -> ->]|Hb]%elem_of_cons; [by left|right; by right].
    + intros x. rewrite !Exists_cons. intuition lia.
    + simpl. unfold HEADER_SIZE in *. split_and!; try lia. done.
    + right. lia.
    + intros b o Hb. by right.
    + intros x. rewrite !Exists_cons. intuition lia.
    + simpl. unfold HEADER_SIZE in *. split_and!; try lia. done.
    + by left.
    + intros b o [[= -> ->]|Hb]%elem_of_cons; [by left|by right].
    + intros x. rewrite !Exists_cons. intuition lia.
Qed.

Lemma path_frame k k' a cells z : same_cells k k' cells -> path k a cells z -> path k' a cells z.
Proof using Type.
  revert a. induction cells as [|[b n] cells IH]; intros a Hs; simpl; [done|].
  intros (-> & <- & Hp). destruct (Hs b (word k (b + 4))) as [E1 E2]; [by left|].
  rewrite E1, E2. split_and!; [done|done|]. apply IH; [|done]. intros c m Hc. by eapply Hs; right.
Qed.

Lemma blocks_ok_app lo hi l1 l2 :
  blocks_ok lo hi (l1 ++ l2) ->
  blocks_ok lo hi l1 /\ blocks_ok lo hi l2 /\
  forall b n c m, (b, n) ∈ l1 -> (c, m) ∈ l2 -> b + HEADER_SIZE * n < c.
Proof using Type.
  revert lo. induction l1 as [|[b n] l1 IH]; intros lo; simpl.
  - intros H. split_and!; [done|done|]. by intros ? ? ? ? ?%not_elem_of_nil.
  - intros (H1 & H2 & H3 & H4). destruct (IH _ H4) as (K1 & K2 & K3). split_and!; try done.
    + clear -K2 H1 H2. destruct l2 as [|[c m] l2]; [done|]. simpl in *. unfold HEADER_SIZE in *.
      destruct K2 as (? & ? & ? & ?). split_and!; [lia|done..].
    + intros b' n' c m [[= -> ->]|Hin]%elem_of_cons Hc; [|by eapply K3].
      destruct (blocks_ok_bounds _ _ _ _ _ K2 Hc). lia.
Qed.

Lemma blocks_ok_join lo hi l1 l2 :
  blocks_ok lo hi l1 -> blocks_ok lo hi l2 ->
  (forall b n c m, (b, n) ∈ l1 -> (c, m) ∈ l2 -> b + HEADER_SIZE * n < c) ->
  blocks_ok lo hi (l1 ++ l2).
Proof using Type.
  revert lo. induction l1 as [|[b n] l1 IH]; intros lo; simpl; [done|].
  intros (H1 & H2 & H3 & H4) H5 H6. split_and!; try done. apply IH; [done| |].
  - destruct l2 as [|[c m] l2]; [done|]. simpl in *. destruct H5 as (? & ? & ? & ?).
    split_and!; try done. assert (b + HEADER_SIZE * n < c) by (apply (H6 b n c m); left). lia.
  - intros. eapply H6; [right|]; done.
Qed.

(** Walking the list: the header at position [i] and where it points. *)
Lemma path_lookup k a cells z i b n :
  path k a cells z -> cells !! i = Some (b, n) ->
  word k (b + 4) = n /\ word k b = default z (fst <$> cells !! S i).
Proof using Type.
  revert a i. induction cells as [|[c m] cells IH]; intros a i; simpl; [done|].
  intros (-> & Hm & Hp). destruct i as [|i]; simpl.
  - intros [= -> ->]. split; [done|]. destruct cells as [|[d o] cells]; simpl in *; [done|].
    by destruct Hp.
  - intros Hi. by apply (IH (word k c)).
Qed.

(** Words of the heap memory under symbolic execution. *)
Lemma word_store k a w x : word (set_words <[a := w]> k) x = if decide (a = x) then w else word k x.
Proof using Type. unfold word; simpl. rewrite lookup_insert. by case_decide. Qed.

Lemma wp_load_word k a Q : heap_mapped k a = true -> Q (word k a) k -> wp (load_word a) Q k.
Proof using Type. intros Hm HQ. unfold load_word. by wp_run. Qed.

Lemma wp_store_word k a w Q :
  heap_mapped k a = true -> Q tt (set_words <[a := w]> k) -> wp (store_word a w) Q k.
Proof using Type. intros Hm HQ. unfold store_word. by wp_run. Qed.

Lemma mapped_in_heap k a :
  heap_start (kernel_heap k) <= a < heap_break (kernel_heap k) -> heap_mapped k a = true.
Proof using Type.
  intros. unfold heap_mapped. apply orb_true_iff. right.
  apply andb_true_iff. rewrite Z.leb_le, Z.ltb_lt. lia.
Qed.

(** States that differ in the heap memory only. *)
Record words_only (k k' : kernel_t) : Prop := {
  wo_heap : kernel_heap k' = kernel_heap k;
  wo_machine : machine k' = machine k;
  wo_queue : page_directories_to_destroy k' = page_directories_to_destroy k;
  wo_tail : page_directories_to_destroy_tail k' = page_directories_to_destroy_tail k;
}.
#[local] Instance words_only_preorder : PreOrder words_only.
Proof using Type. split; [by split|]. intros ? ? ? [] []. split; congruence. Qed.

Lemma words_only_mapped k k' a : words_only k k' -> heap_mapped k' a = heap_mapped k a.
Proof using Type. intros [H _ _ _]. unfold heap_mapped. by rewrite H. Qed.

Definition next_of (rest : list (Z * Z)) : Z := default base (fst <$> head rest).

(** Linking the block [a] in front of [post], merging the two if adjacent. *)
Lemma wp_link_next k a n post Q :
  word k (a + 4) = n -> heap_mapped k a = true -> heap_mapped k (a + 4) = true ->
  1 <= n -> base < a + HEADER_SIZE * n -> path k (next_of post) post base ->
  (forall b m, (b, m) ∈ post ->
     heap_mapped k b = true /\ heap_mapped k (b + 4) = true /\
     a + HEADER_SIZE * n <= b /\ 0 <= m /\ b + HEADER_SIZE * m < 2 ^ 32) -> 0 <= a ->
  (forall k1 n' post', words_only k k1 ->
     merge_next a n post = (n', post') ->
     word k1 (a + 4) = n' -> word k1 a = next_of post' -> path k (next_of post') post' base ->
     (forall x, x <> a -> x <> a + 4 -> word k1 x = word k x) ->
     (forall c, c ∈ post' -> c ∈ post) -> Q tt k1) ->
  wp (if a + HEADER_SIZE * n =? next_of post then
        let! next_size := get_size (next_of post) in
        do! put_size a (u32 (n + next_size)) in
        let! next_next := get_next (next_of post) in
        put_next a next_next
      else put_next a (next_of post)) Q k.
Proof using Type.
  intros Hn Hm1 Hm2 Hn1 Hbase Hpath Hpost Ha HQ.
  unfold get_size, get_next, put_size, put_next, merge_next in *.
  destruct post as [|[q m] post]; unfold next_of in *; cbn [head fmap option_fmap option_map default from_option id fst] in *.
  - destruct (Z.eqb_spec (a + HEADER_SIZE * n) base); [lia|].
    apply wp_store_word; [done|]. apply (HQ _ n []); try done.
    + rewrite word_store. by case_decide; [lia|].
    + rewrite word_store. by case_decide.
    + intros x Hx _. rewrite word_store. by case_decide; [congruence|].
  - destruct (Hpost q m) as (Hq1 & Hq2 & Hq3 & Hq4 & Hq5); [by left|].
    destruct Hpath as (_ & Hqm & Hrest). unfold HEADER_SIZE in *.
    destruct (Z.eqb_spec (a + 8 * n) q) as [Haq|Haq].
    + wp_step. apply wp_load_word; [done|]. wp_step.
      apply wp_store_word; [done|]. wp_step. apply wp_load_word; [done|].
      apply wp_store_word; [done|]. rewrite word_store. case_decide; [lia|].
      rewrite Hqm, u32_small by lia.
      assert (path k (next_of post) post base) as Hp.
      { destruct post as [|[r o] post]; [done|]. destruct Hrest as (E & ? & ?). done. }
      assert (word k q = next_of post) as Hnext.
      { destruct post as [|[r o] post]; [done|]. by destruct Hrest. }
      apply (HQ _ (n + m) post); try done.
      * rewrite !word_store. case_decide; [lia|]. by case_decide.
      * rewrite !word_store. by case_decide.
      * intros x Hx1 Hx2. rewrite !word_store. by repeat case_decide; try congruence.
      * intros c Hc. by right.
    + apply wp_store_word; [done|]. apply (HQ _ n ((q, m) :: post)); try done.
      * rewrite word_store. by case_decide; [lia|].
      * rewrite word_store. by case_decide.
      * intros x Hx _. rewrite word_store. by case_decide; [congruence|].
Qed.

Section walk.
Variables (k : kernel_t) (blocks : list (Z * Z)).
Hypothesis Hfl : free_list k blocks.
#[local] Abbreviation cells := ((base, 0) :: blocks).

Lemma cell_mapped b n : (b, n) ∈ cells -> heap_mapped k b = true /\ heap_mapped k (b + 4) = true.
Proof using Hfl.
  destruct Hfl as [_ _ _ Hb _]. intros [[= -> ->]|Hin]%elem_of_cons; unfold heap_mapped.
  - rewrite !Z.eqb_refl. split; [done|]. by rewrite orb_true_r.
  - destruct (blocks_ok_bounds _ _ _ _ _ Hb Hin) as (? & ? & ?). unfold HEADER_SIZE in *.
    split; apply orb_true_iff; right; apply andb_true_iff; rewrite Z.leb_le, Z.ltb_lt; lia.
Qed.

Lemma cell_fields i b n :
  cells !! i = Some (b, n) ->
  word k (b + 4) = n /\ word k b = default base (fst <$> cells !! S i).
Proof using Hfl. intros. eapply path_lookup; [apply Hfl|done]. Qed.

(** Headers are strictly ordered by address. *)
Lemma cells_sorted i j b n c m :
  cells !! i = Some (b, n) -> cells !! j = Some (c, m) -> (i < j)%nat -> b + HEADER_SIZE * n < c.
Proof using Hfl.
  destruct Hfl as [Hbase _ _ Hb _]. intros Hi Hj Hij.
  destruct i as [|i], j as [|j]; try lia; simpl in *.
  - simplify_eq. destruct (blocks_ok_bounds _ _ _ _ _ Hb (list_elem_of_lookup_2 _ _ _ Hj)).
    unfold HEADER_SIZE in *. lia.
  - pose proof (take_drop (S i) blocks) as Ht. rewrite <- Ht in Hb.
    apply blocks_ok_app in Hb as (_ & _ & Hlt). eapply Hlt.
    + apply list_elem_of_lookup. exists i. rewrite lookup_take_lt by lia. done.
    + apply list_elem_of_lookup. exists (j - S i)%nat. rewrite lookup_drop.
      replace (S i + (j - S i))%nat with j by lia. done.
Qed.

(** The list as a ring of positions. *)
Definition ring (i : nat) : Z * Z := default (base, 0) (cells !! (i mod length cells)%nat).

Lemma ring_lookup i : cells !! (i mod length cells)%nat = Some (ring i).
Proof using Type.
  unfold ring. destruct (lookup_lt_is_Some_2 cells (i mod length cells)%nat) as [c ->]; [|done].
  apply Nat.mod_upper_bound. done.
Qed.

Lemma ring_in i : ring i ∈ cells.
Proof using Type. eapply list_elem_of_lookup_2, ring_lookup. Qed.

Lemma ring_small i c : cells !! i = Some c -> ring i = c.
Proof using Type.
  intros Hi. pose proof (lookup_lt_Some _ _ _ Hi). unfold ring.
  by rewrite Nat.mod_small, Hi by done.
Qed.

Lemma ring_fields i :
  word k (fst (ring i) + 4) = snd (ring i) /\ word k (fst (ring i)) = fst (ring (S i)).
Proof using Hfl.
  pose proof (ring_lookup i) as Hi. destruct (ring i) as [b n].
  destruct (cell_fields _ _ _ Hi) as [H1 H2]. split; [done|]. simpl. rewrite H2.
  pose proof (lookup_lt_Some _ _ _ Hi) as Hlt. unfold ring.
  set (N := length cells) in *. assert (N <> 0)%nat as HN by (unfold N; simpl; lia).
  assert (S i mod N = S (i mod N) mod N)%nat as ->.
  { replace (S (i mod N)) with (i mod N + 1)%nat by lia.
    rewrite Nat.Div0.add_mod_idemp_l. f_equal. lia. }
  set (j := (i mod N)%nat) in *. destruct (decide (S j = N)) as [E|E].
  - rewrite E, Nat.Div0.mod_same. rewrite lookup_ge_None_2 by (fold N; lia). done.
  - rewrite (Nat.mod_small (S j)) by lia.
    destruct (lookup_lt_is_Some_2 cells (S j)) as [c ->]; [fold N; lia|done].
Qed.

Lemma wp_ring_next i Q : Q (fst (ring (S i))) k -> wp (get_next (fst (ring i))) Q k.
Proof using Hfl.
  intros HQ. unfold get_next, load_word. wp_run. destruct (ring i) as [b n] eqn:E. cbn [fst snd] in *.
  destruct (cell_mapped b n) as [-> _]; [rewrite <- E; apply ring_in|].
  apply wp_ret. destruct (ring_fields i) as [_ H]. rewrite E in H. simpl in *. by rewrite H.
Qed.

Lemma wp_ring_size i Q : Q (snd (ring i)) k -> wp (get_size (fst (ring i))) Q k.
Proof using Hfl.
  intros HQ. unfold get_size, load_word. wp_run. destruct (ring i) as [b n] eqn:E. cbn [fst snd] in *.
  destruct (cell_mapped b n) as [_ ->]; [rewrite <- E; apply ring_in|].
  apply wp_ret. destruct (ring_fields i) as [H _]. rewrite E in H. simpl in *. by rewrite H.
Qed.

(** From position [j] the walk reaches position [i] in fewer than [length cells]
    steps. *)
Lemma ring_reach i j :
  (i < length cells)%nat -> (j < length cells)%nat ->
  exists n, (n < length cells)%nat /\ ((j + n) mod length cells = i)%nat /\
    forall o, (o < n)%nat -> ((j + o) mod length cells <> i)%nat.
Proof using Type.
  clear. intros Hi Hj. set (N := length cells) in *. clearbody N.
  destruct (decide (j <= i)%nat).
  - exists (i - j)%nat. split_and!; [lia|rewrite Nat.mod_small; lia|].
    intros o Ho. rewrite Nat.mod_small; lia.
  - exists (i + N - j)%nat. split_and!; [lia| |].
    + replace (j + (i + N - j))%nat with (i + 1 * N)%nat by lia.
      rewrite Nat.Div0.mod_add. apply Nat.mod_small. lia.
    + intros o Ho. destruct (decide (j + o < N)%nat).
      * rewrite Nat.mod_small; lia.
      * replace (j + o)%nat with (j + o - N + 1 * N)%nat by lia.
        rewrite Nat.Div0.mod_add, Nat.mod_small; lia.
Qed.

Lemma ring_mod i : ring (i mod length cells) = ring i.
Proof using Type. unfold ring. by rewrite Nat.Div0.mod_mod. Qed.

Lemma head_position : exists j, (j < length cells)%nat /\ fst (ring j) = free_headers_head (kernel_heap k).
Proof using Hfl.
  destruct Hfl as [_ _ _ _ [n Hin]]. apply list_elem_of_lookup in Hin as [j Hj].
  exists j. split; [by eapply lookup_lt_Some|]. by rewrite (ring_small _ _ Hj).
Qed.

(** ** [kernel_heap_free] *)

Lemma position_below (l : list (Z * Z)) p0 n0 a :
  p0 < a -> (forall b n, (b, n) ∈ l -> b <> a) ->
  exists i p n, ((p0, n0) :: l) !! i = Some (p, n) /\ p < a /\
    forall q m, ((p0, n0) :: l) !! S i = Some (q, m) -> a < q.
Proof using Type.
  revert p0 n0. induction l as [|[b n] l IH]; intros p0 n0 Hp Hne.
  - exists 0%nat, p0, n0. split_and!; [done|done|]. intros q m H. done.
  - destruct (Z.lt_ge_cases b a) as [Hlt|Hge].
    + destruct (IH b n Hlt) as (i & p & m & H1 & H2 & H3).
      { intros. eapply Hne. by right. }
      exists (S i), p, m. done.
    + exists 0%nat, p0, n0. split_and!; [done|done|]. simpl. intros q m [= <- <-].
      specialize (Hne b n ltac:(by left)). lia.
Qed.

Lemma cell_bounds i b n : cells !! i = Some (b, n) -> 0 <= n /\ base <= b.
Proof using Hfl.
  destruct Hfl as [Hbase _ _ Hb _]. intros Hi%list_elem_of_lookup_2.
  apply elem_of_cons in Hi as [[= -> ->]|Hin]; [lia|].
  destruct (blocks_ok_bounds _ _ _ _ _ Hb Hin). unfold HEADER_SIZE in *. lia.
Qed.

Lemma cells_lt i j b n c m :
  cells !! i = Some (b, n) -> cells !! j = Some (c, m) -> (i < j)%nat -> b < c.
Proof using Hfl.
  intros Hi Hj Hij. pose proof (cells_sorted i j b n c m Hi Hj Hij).
  pose proof (cell_bounds i b n Hi). unfold HEADER_SIZE in *. lia.
Qed.

Lemma cells_le i j b n c m :
  cells !! i = Some (b, n) -> cells !! j = Some (c, m) -> (i <= j)%nat -> b <= c.
Proof using Hfl.
  intros Hi Hj Hij. destruct (decide (i = j)) as [->|].
  - assert ((b, n) = (c, m)) as [= -> ->] by congruence. lia.
  - pose proof (cells_lt i j b n c m Hi Hj ltac:(lia)). lia.
Qed.

Definition free_location (a location : Z) : M kernel_t (Z + Z) :=
  let! next := get_next location in
  let freed_block_after_current := location <? a in
  let freed_block_before_next := a <? next in
  if freed_block_after_current && freed_block_before_next then ret (inr location)
  else if (next <=? location) && (freed_block_after_current || freed_block_before_next)
  then ret (inr location)
  else ret (inl next).

(** The test of the walk fails at every cell but the last one below [a] ... *)
Lemma walk_goes_on a i b m i0 p0 n0 :
  base < a -> cells !! i = Some (b, m) -> cells !! i0 = Some (p0, n0) -> i <> i0 -> p0 < a -> b <> a ->
  (forall q m, cells !! S i0 = Some (q, m) -> a < q) ->
  let nx := default base (fst <$> cells !! S i) in
  (b <? a) && (a <? nx) = false /\ (nx <=? b) && ((b <? a) || (a <? nx)) = false.
Proof using Hfl.
  intros Ha Hr Hi0 Hne Hp0 Hba Hq0. cbv zeta. rewrite !ltb_decide, leb_decide. pose proof (cell_bounds _ _ _ Hr) as [_ Hbb].
  assert (i < i0 \/ i0 < i)%nat as [Hlt|Hge] by lia.
  - destruct (lookup_lt_is_Some_2 cells (S i)) as [[q m'] Hq]; [apply lookup_lt_Some in Hi0; lia|]. rewrite Hq. simpl.
    pose proof (cells_lt i (S i) b m q m' Hr Hq ltac:(lia)).
    pose proof (cells_le (S i) i0 q m' p0 n0 Hq Hi0 ltac:(lia)).
    by rewrite (bool_decide_eq_true_2 (b < a)), !bool_decide_eq_false_2 by lia.
  - destruct (lookup_lt_is_Some_2 cells (S i0)) as [[q0 m0] Hq0']; [apply lookup_lt_Some in Hr; lia|].
    pose proof (Hq0 _ _ Hq0'). pose proof (cells_le (S i0) i q0 m0 b m Hq0' Hr ltac:(lia)).
    rewrite (bool_decide_eq_false_2 (b < a)) by lia. split; [done|].
    destruct (cells !! S i) as [[q m']|] eqn:Hq; simpl.
    + pose proof (cells_lt i (S i) b m q m' Hr Hq ltac:(lia)). by rewrite (bool_decide_eq_false_2 (q <= b)) by lia.
    + rewrite (bool_decide_eq_false_2 (a < base)) by lia. by rewrite andb_false_r.
Qed.
(** ... and holds there. *)
Lemma walk_stops a i0 p0 n0 :
  base < a -> cells !! i0 = Some (p0, n0) -> p0 < a -> (forall q m, cells !! S i0 = Some (q, m) -> a < q) ->
  let nx := default base (fst <$> cells !! S i0) in
  (p0 <? a) && (a <? nx) = true \/ (p0 <? a) && (a <? nx) = false /\ (nx <=? p0) && ((p0 <? a) || (a <? nx)) = true.
Proof using Hfl.
  intros Ha Hi0 Hp0 Hq0. cbv zeta. rewrite !ltb_decide, leb_decide, (bool_decide_eq_true_2 (p0 < a)) by done.
  destruct (cells !! S i0) as [[q m']|] eqn:Hq; simpl.
  - pose proof (Hq0 _ _ eq_refl). left. by rewrite bool_decide_eq_true_2.
  - right. pose proof (cell_bounds _ _ _ Hi0). by rewrite bool_decide_eq_false_2, bool_decide_eq_true_2 by lia.
Qed.

Lemma wp_free_walk a Q :
  base < a -> (forall b n, (b, n) ∈ blocks -> b <> a) -> (length cells <= fuel)%nat ->
  (forall i p n, cells !! i = Some (p, n) -> p < a ->
     (forall q m, cells !! S i = Some (q, m) -> a < q) -> Q p k) ->
  wp (loop fuel (free_location a) (free_headers_head (kernel_heap k))) Q k.
Proof using Hfl.
  intros Ha Hne Hfuel HQ.
  destruct (position_below blocks base 0 a Ha Hne) as (i0 & p0 & n0 & Hi0 & Hp0 & Hq0).
  destruct head_position as (j & Hj & <-).
  destruct (ring_reach i0 j) as (n & Hn & Hji & Hbefore); [by eapply lookup_lt_Some|done|].
  pose proof (HQ _ _ _ Hi0 Hp0 Hq0) as HQ0. clear HQ.
  assert (fst (ring j) = fst (ring (j + 0))) as -> by (by rewrite Nat.add_0_r).
  apply (wp_loop_steps _ _ (fun o => fst (ring (j + o))) n); [lia| |].
  - intros o Ho. specialize (Hbefore o Ho). rewrite <- Nat.add_succ_comm.
    unfold free_location. wp_step. apply wp_ring_next.
    pose proof (ring_lookup (j + o)) as Hr. destruct (ring_fields (j + o)) as [_ Hnext].
    replace (S j + o)%nat with (S (j + o)) by lia. rewrite <- Hnext.
    destruct (ring (j + o)) as [b m]. cbn [fst] in *.
    destruct (cell_fields _ _ _ Hr) as [_ Hw]. rewrite Hw. clear Hnext Hw.
    assert (b <> a) as Hba.
    { intros ->. apply list_elem_of_lookup_2 in Hr.
      apply elem_of_cons in Hr as [[=]|Hr]; [lia|by apply (Hne _ _ Hr)]. }
    destruct (walk_goes_on a _ b m i0 p0 n0 Ha Hr Hi0 Hbefore Hp0 Hba Hq0) as [E1 E2].
    rewrite E1, E2. by apply wp_ret.
  - rewrite <- (ring_mod (j + n)), Hji. rewrite (ring_small _ _ Hi0). cbn [fst].
    unfold free_location. wp_step.
    pose proof (wp_ring_next i0) as Hn0. destruct (ring_fields i0) as [_ Hf0].
    rewrite <- Hf0, (ring_small _ _ Hi0) in Hn0. apply Hn0. cbn [fst].
    destruct (cell_fields _ _ _ Hi0) as [_ ->].
    destruct (walk_stops a i0 p0 n0 Ha Hi0 Hp0 Hq0) as [->|[-> ->]]; by apply wp_ret.
Qed.

Lemma cell_end i b n c m j :
  cells !! i = Some (b, n) -> cells !! j = Some (c, m) -> (i < j)%nat ->
  b + HEADER_SIZE <= c.
Proof using Hfl.
  intros Hi Hj Hij. pose proof (cells_sorted i j b n c m Hi Hj Hij) as Hs.
  destruct Hfl as [Hbase _ _ Hb _]. destruct i as [|i], j as [|j]; try lia; simpl in *.
  - injection Hi as <- <-. pose proof (blocks_ok_bounds _ _ _ _ _ Hb (list_elem_of_lookup_2 _ _ _ Hj)). lia.
  - pose proof (blocks_ok_bounds _ _ _ _ _ Hb (list_elem_of_lookup_2 _ _ _ Hi)).
    unfold HEADER_SIZE in *. lia.
Qed.

Lemma cell_base i n : cells !! i = Some (base, n) -> n = 0.
Proof using Hfl.
  intros Hi%list_elem_of_lookup_2. apply elem_of_cons in Hi as [[= ->]|Hin]; [done|].
  pose proof (blocks_ok_bounds _ _ _ _ _ (fl_blocks _ _ Hfl) Hin).
  pose proof (fl_base _ _ Hfl). unfold HEADER_SIZE in *. lia.
Qed.

Lemma cell_in_blocks c o x :
  (c, o) ∈ cells -> c <> base -> 1 <= o /\ (c <= x < c + HEADER_SIZE * o -> in_blocks blocks x).
Proof using Hfl.
  intros [[= -> ->]|Hin]%elem_of_cons Hne; [done|]. split.
  - by destruct (blocks_ok_bounds _ _ _ _ _ (fl_blocks _ _ Hfl) Hin) as (_ & ? & _).
  - intros Hx. apply Exists_exists. exists (c, o). split; [by apply list_elem_of_In|done].
Qed.

(** Replacing the part of the list from [p] on: the new list is consistent. *)
Lemma free_list_replace k' i p pn pn' post post' :
  cells !! i = Some (p, pn) -> drop (S i) cells = post ->
  heap_start (kernel_heap k') = heap_start (kernel_heap k) ->
  heap_break (kernel_heap k') = heap_break (kernel_heap k) ->
  free_headers_head (kernel_heap k') = p ->
  same_cells k k' (take i cells) ->
  path k' p ((p, pn') :: post') base ->
  (p = base -> pn' = 0) -> pn <= pn' -> p + HEADER_SIZE * pn' <= heap_break (kernel_heap k) ->
  blocks_ok (p + HEADER_SIZE * pn' + 1) (heap_break (kernel_heap k)) post' ->
  (forall b m, (b, m) ∈ post' -> heap_start (kernel_heap k) <= b) ->
  exists blocks', (base, 0) :: blocks' = take i cells ++ (p, pn') :: post' /\ free_list k' blocks'.
Proof using Hfl.
  intros Hi Hpost Hhs Hhb Hhd Hsame Hpath Hpbase Hpn Hhi Hok Hlo.
  pose proof (take_drop_middle _ _ _ Hi) as Hsplit. rewrite Hpost in Hsplit.
  pose proof (cell_bounds _ _ _ Hi) as [Hpn0 _].
  destruct Hfl as [Hbase Hbreak Hp Hb Hh]. rewrite <- Hsplit in Hp.
  apply path_app in Hp as (y & Hp1 & Hp2). destruct Hp2 as (-> & _ & _).
  assert (path k' base (take i cells ++ (p, pn') :: post') base) as Hnew.
  { apply path_app. exists p. split; [by eapply path_frame|done]. }
  destruct i as [|i].
  - injection Hi as <- <-. rewrite (Hpbase eq_refl) in *. exists post'. split; [done|]. split.
    + by rewrite Hhs.
    + by rewrite Hhs, Hhb.
    + exact Hnew.
    + rewrite Hhs, Hhb. by eapply blocks_ok_lo.
    + exists 0. rewrite Hhd. by left.
  - simpl in Hi. exists (take i blocks ++ (p, pn') :: post'). split; [done|].
    simpl in Hsplit. injection Hsplit as Hsplit. rewrite <- Hsplit in Hb.
    apply blocks_ok_app in Hb as (K1 & K2 & K3). simpl in K2. destruct K2 as (K4 & K5 & K6 & _).
    split.
    + by rewrite Hhs.
    + by rewrite Hhs, Hhb.
    + exact Hnew.
    + rewrite Hhs, Hhb. apply blocks_ok_join; [done|simpl; split_and!; lia || done|].
      intros b n c m Hbn Hcm. assert (b + HEADER_SIZE * n < p) as Hbp by (eapply K3; [done|left]).
      apply elem_of_cons in Hcm as [[= -> ->]|Hcm]; [done|].
      pose proof (blocks_ok_bounds _ _ _ _ _ Hok Hcm). unfold HEADER_SIZE in *. lia.
    + exists pn'. rewrite Hhd. right. apply elem_of_app. right. by left.
Qed.

Lemma release_at i p pn a n :
  cells !! i = Some (p, pn) -> p < a -> (forall q m, cells !! S i = Some (q, m) -> a < q) ->
  release a n cells = take i cells ++ join p pn a n (drop (S i) cells).
Proof using Hfl.
  intros Hi Hp Hq. rewrite <- (take_drop_middle _ _ _ Hi) at 1. apply release_split; [|done|].
  - intros b m [j Hj]%list_elem_of_lookup. apply lookup_take_Some in Hj as [Hj Hji].
    pose proof (cells_lt j i b m p pn Hj Hi Hji). lia.
  - intros q m. rewrite head_lookup, lookup_drop, Nat.add_0_r. apply Hq.
Qed.

(** The block being freed, relative to its place [i] in the list. *)
Section place.
Variables (a n : Z) (i : nat) (p pn : Z).
Hypothesis Ha : heap_start (kernel_heap k) <= a.
Hypothesis Hn : 1 <= n.
Hypothesis Hend : a + HEADER_SIZE * n <= heap_break (kernel_heap k).
Hypothesis Hapart : apart a n blocks.
Hypothesis Hi : cells !! i = Some (p, pn).
Hypothesis Hp : p < a.
Hypothesis Hq : forall q m, cells !! S i = Some (q, m) -> a < q.
#[local] Abbreviation post := (drop (S i) cells).

Lemma place_previous : p + HEADER_SIZE * pn <= a /\ p + HEADER_SIZE <= a.
Proof using All.
  destruct Hfl as [Hbase _ _ Hb _]. destruct i as [|i']; simpl in Hi.
  - injection Hi as <- <-. unfold HEADER_SIZE in *. lia.
  - pose proof (list_elem_of_lookup_2 _ _ _ Hi) as Hin.
    pose proof (blocks_ok_bounds _ _ _ _ _ Hb Hin).
    pose proof (proj1 (List.Forall_forall _ _) Hapart (p, pn) (proj1 (list_elem_of_In _ _) Hin)) as Hd.
    simpl in Hd. unfold HEADER_SIZE in *. lia.
Qed.

Lemma place_post b m : (b, m) ∈ post ->
  (b, m) ∈ blocks /\ a + HEADER_SIZE * n <= b /\ 1 <= m /\ b + HEADER_SIZE * m <= heap_break (kernel_heap k).
Proof using All.
  intros [j Hj]%list_elem_of_lookup. rewrite lookup_drop in Hj. change (S i + j)%nat with (S (i + j)) in Hj.
  assert (a < b) as Hab.
  { destruct (lookup_lt_is_Some_2 cells (S i)) as [[q o] Hqo]; [apply lookup_lt_Some in Hj; lia|].
    pose proof (Hq _ _ Hqo). pose proof (cells_le (S i) (S (i + j)) q o b m Hqo Hj ltac:(lia)). lia. }
  simpl in Hj. pose proof (list_elem_of_lookup_2 _ _ _ Hj) as Hin.
  pose proof (blocks_ok_bounds _ _ _ _ _ (fl_blocks _ _ Hfl) Hin).
  pose proof (proj1 (List.Forall_forall _ _) Hapart (b, m) (proj1 (list_elem_of_In _ _) Hin)) as Hd.
  simpl in Hd. split; [done|]. unfold HEADER_SIZE in *. lia.
Qed.

Lemma place_post_ok : blocks_ok (a + HEADER_SIZE * n) (heap_break (kernel_heap k)) post.
Proof using All.
  apply (blocks_ok_lo (heap_start (kernel_heap k))).
  - change post with (drop i blocks).
    pose proof (fl_blocks _ _ Hfl) as Hb. rewrite <- (take_drop i blocks) in Hb.
    by apply blocks_ok_app in Hb as (_ & ? & _).
  - intros b m Hb. by destruct (place_post b m Hb) as (_ & ? & _).
Qed.

Lemma place_path : path k (next_of post) post base /\ word k p = next_of post.
Proof using All.
  pose proof (fl_path _ _ Hfl) as Hpath. rewrite <- (take_drop_middle _ _ _ Hi) in Hpath.
  apply path_app in Hpath as (y & _ & -> & _ & Hpath). unfold next_of.
  destruct post as [|[q m] rest]; [done|]. destruct Hpath as (E & ? & ?). simpl. done.
Qed.

(** Linking the block behind its predecessor, once its own header is written. *)
Lemma wp_link_previous k1 n' post' Q :
  word k (a + 4) = n -> merge_next a n post = (n', post') -> words_only k k1 ->
  word k1 (a + 4) = n' -> word k1 a = next_of post' -> path k (next_of post') post' base ->
  (forall x, x <> a -> x <> a + 4 -> word k1 x = word k x) ->
  (forall c, c ∈ post' -> c ∈ post) ->
  (forall k2 pn' rest', words_only k k2 -> join p pn a n post = (p, pn') :: rest' ->
     path k2 p ((p, pn') :: rest') base ->
     (forall x, x <> a -> x <> a + 4 -> x <> p -> (x = p + 4 -> p + HEADER_SIZE * pn <> a) ->
        word k2 x = word k x) -> Q tt k2) ->
  wp (if p + HEADER_SIZE * pn =? a then
        let! size := get_size a in
        do! put_size p (u32 (pn + size)) in
        let! next := get_next a in
        put_next p next
      else put_next p a) Q k1.
Proof using All.
  intros Hw Hmerge Hwo Hw1 Hn1 Hpath1 Hrest Hsub HQ.
  destruct place_previous as [Hpa Hph].
  destruct (cell_fields _ _ _ Hi) as [Hpw _]. destruct (cell_bounds _ _ _ Hi) as [Hpn Hpb].
  destruct (cell_mapped p pn) as [Hm1 Hm2]; [by eapply list_elem_of_lookup_2|].
  rewrite <- !(words_only_mapped k k1) in Hm1, Hm2 by done.
  assert (heap_mapped k1 a = true /\ heap_mapped k1 (a + 4) = true) as [Ha1 Ha2].
  { rewrite !(words_only_mapped k k1) by done.
    split; apply mapped_in_heap; unfold HEADER_SIZE in *; lia. }
  assert (1 <= n' /\ a + HEADER_SIZE * n' <= heap_break (kernel_heap k)) as [Hn' Hend'].
  { unfold merge_next in Hmerge. destruct post as [|[q m] rest] eqn:E; [simplify_eq; lia|].
    destruct (place_post q m) as (_ & ? & ? & ?); [rewrite E; by left|].
    unfold HEADER_SIZE in *. destruct (Z.eqb_spec (a + 8 * n) q); simplify_eq; lia. }
  pose proof (fl_break _ _ Hfl) as Hbr. pose proof (fl_base _ _ Hfl) as Hbs.
  assert (forall k2, (forall x, x <> a -> x <> a + 4 -> x <> p -> x <> p + 4 -> word k2 x = word k x) ->
            path k2 (next_of post') post' base) as Hpath2.
  { intros k2 H2. eapply path_frame; [|exact Hpath1]. intros b m Hb%Hsub.
    destruct (place_post b m Hb) as (_ & ? & _). unfold HEADER_SIZE in *.
    split; apply H2; lia. }
  unfold get_size, get_next, put_size, put_next, join in *. rewrite Hmerge in HQ.
  unfold HEADER_SIZE in *. destruct (Z.eqb_spec (p + 8 * pn) a) as [E|E].
  - wp_step. apply wp_load_word; [done|]. wp_step. apply wp_store_word; [done|].
    wp_step. apply wp_load_word; [done|]. apply wp_store_word; [done|].
    rewrite Hw1, word_store, u32_small by lia. case_decide; [lia|]. rewrite Hn1.
    apply (HQ _ (pn + n') post'); [by etransitivity; [exact Hwo|]|done| |].
    + simpl. rewrite !word_store. case_decide; [lia|]. case_decide; [|lia]. split_and!; [done|done|].
      case_decide; [|lia]. apply Hpath2. intros x Hx1 Hx2 Hx3 Hx4. rewrite !word_store.
      repeat case_decide; try congruence. by apply Hrest.
    + intros x Hx1 Hx2 Hx3 Hx4. rewrite !word_store. repeat case_decide; try congruence; [|by apply Hrest].
      exfalso. by apply Hx4.
  - apply wp_store_word; [done|].
    apply (HQ _ pn ((a, n') :: post')); [by etransitivity; [exact Hwo|]|done| |].
    + simpl. rewrite !word_store. repeat case_decide; try lia. split_and!; try done.
      * rewrite Hrest by lia. done.
      * rewrite Hn1. apply Hpath2. intros x Hx1 Hx2 Hx3 Hx4. rewrite !word_store.
        repeat case_decide; try congruence. by apply Hrest.
    + intros x Hx1 Hx2 Hx3 Hx4. rewrite !word_store. repeat case_decide; try congruence. by apply Hrest.
Qed.
End place.

(** The base header covers no byte. *)
Lemma in_blocks_base (l : list (Z * Z)) x : in_blocks ((base, 0) :: l) x <-> in_blocks l x.
Proof using Type. unfold in_blocks, HEADER_SIZE. rewrite Exists_cons. intuition lia. Qed.

(** The bytes of the free list after a release, and that the cell written to lies
    within them. *)
Lemma release_bytes i p pn a n blocks' x :
  cells !! i = Some (p, pn) -> p < a -> (forall q m, cells !! S i = Some (q, m) -> a < q) ->
  (in_blocks (join p pn a n (drop (S i) cells)) x <->
     a <= x < a + HEADER_SIZE * n \/ in_blocks ((p, pn) :: drop (S i) cells) x) ->
  release a n cells = (base, 0) :: blocks' ->
  in_blocks blocks' x <-> a <= x < a + HEADER_SIZE * n \/ in_blocks blocks x.
Proof using Hfl.
  intros Hi Hp Hq Hjoin Hrel.
  rewrite <- (in_blocks_base blocks'), <- (in_blocks_base blocks), <- Hrel, (release_at i p pn a n) by done.
  rewrite <- (take_drop_middle _ _ _ Hi) at 3. unfold in_blocks in *. rewrite !Exists_app, Hjoin. tauto.
Qed.

Lemma release_frame i p pn a n x :
  cells !! i = Some (p, pn) -> 1 <= n -> x <> base ->
  ~ (a <= x < a + HEADER_SIZE * n \/ in_blocks blocks x) ->
  x <> a /\ x <> a + 4 /\ x <> p /\ (x = p + 4 -> p + HEADER_SIZE * pn <> a).
Proof using Hfl.
  intros Hi Hn Hxb Hx. pose proof (list_elem_of_lookup_2 _ _ _ Hi) as Hc.
  assert (p <> base -> 1 <= pn /\ forall y, p <= y < p + HEADER_SIZE * pn -> in_blocks blocks y) as Hpin.
  { intros Hpb. split; [by apply (cell_in_blocks p pn 0 Hc)|]. intros y. by apply (cell_in_blocks p pn y Hc). }
  unfold HEADER_SIZE in *. split_and!.
  - intros ->. apply Hx. left. lia.
  - intros ->. apply Hx. left. lia.
  - intros ->. apply Hx. right. apply Hpin; [done|]. destruct (Hpin Hxb). lia.
  - intros -> E. apply Hx. right.
    assert (p <> base) as Hpb by (intros ->; pose proof (cell_base i pn Hi); lia).
    apply Hpin; [done|]. destruct (Hpin Hpb). lia.
Qed.

(** The list after the second join. *)
Lemma released a n i p pn k2 pn' rest' :
  heap_start (kernel_heap k) <= a -> 1 <= n -> a + HEADER_SIZE * n <= heap_break (kernel_heap k) ->
  apart a n blocks -> cells !! i = Some (p, pn) -> p < a ->
  (forall q m, cells !! S i = Some (q, m) -> a < q) ->
  p + HEADER_SIZE * pn <= a -> p + HEADER_SIZE <= a ->
  words_only k k2 -> join p pn a n (drop (S i) cells) = (p, pn') :: rest' -> path k2 p ((p, pn') :: rest') base ->
  (forall x, x <> a -> x <> a + 4 -> x <> p -> (x = p + 4 -> p + HEADER_SIZE * pn <> a) -> word k2 x = word k x) ->
  let k' := set_heap (set_head p) k2 in
  exists blocks', release a n cells = (base, 0) :: blocks' /\ free_list k' blocks' /\
    kernel_heap k' = set_head (free_headers_head (kernel_heap k')) (kernel_heap k) /\
    machine k' = machine k /\
    (forall x, in_blocks blocks' x <-> a <= x < a + HEADER_SIZE * n \/ in_blocks blocks x) /\
    (forall x, ~ in_blocks blocks' x -> x <> base -> word k' x = word k x).
Proof using Hfl fuel.
  intros Ha Hn Hend Hapart Hi Hp Hq Hpa Hph Hwo2 Hjoin Hpath2 Hrest2 k'.
  destruct (fl_base _ _ Hfl) as [Hb0 Hb1]. destruct (cell_bounds _ _ _ Hi) as [Hpn _].
  destruct (join_ok p pn a n (drop (S i) cells) (heap_break (kernel_heap k)))
    as (pn1 & rest1 & J1 & J2 & J3 & J4 & J5); try done.
  { eapply place_post_ok; done. }
  rewrite Hjoin in J1. injection J1 as <- <-. rewrite Hjoin in J5.
  assert (forall b m, (b, m) ∈ rest' -> heap_start (kernel_heap k) <= b) as Hlo.
  { intros b m [->|Hin]%J4; [done|]. destruct (place_post a n i p pn Ha Hn Hend Hapart Hi Hp Hq b m Hin).
    unfold HEADER_SIZE in *. lia. }
  assert (forall x, x <> a -> x <> a + 4 -> x <> p -> (x = p + 4 -> p + HEADER_SIZE * pn <> a) ->
            word (set_heap (set_head p) k2) x = word k x) as Hrest3 by done.
  destruct (free_list_replace (set_heap (set_head p) k2) i p pn pn' (drop (S i) cells) rest')
    as (blocks' & Hcells & Hnew); try done.
  - simpl. by rewrite (wo_heap _ _ Hwo2).
  - simpl. by rewrite (wo_heap _ _ Hwo2).
  - intros b m [j Hj]%list_elem_of_lookup. apply lookup_take_Some in Hj as [Hj Hji].
    pose proof (cell_end j b m p pn i Hj Hi Hji). unfold HEADER_SIZE in *.
    split; apply Hrest3; lia.
  - by apply (path_frame k2).
  - intros ->. pose proof (cell_base i pn Hi) as ->. unfold HEADER_SIZE in *. lia.
  - lia.
  - destruct J3 as [->|]; unfold HEADER_SIZE in *; lia.
  - rewrite <- Hjoin in Hcells. rewrite <- (release_at i p pn a n) in Hcells by done.
    assert (forall x, in_blocks blocks' x <-> a <= x < a + HEADER_SIZE * n \/ in_blocks blocks x) as Hin.
    { intros x. apply (release_bytes i p pn); try done. rewrite Hjoin. apply J5. }
    exists blocks'. split_and!; [done|done| |by apply Hwo2|done|].
    + simpl. by rewrite (wo_heap _ _ Hwo2).
    + intros x Hx Hxb. rewrite Hin in Hx. by apply Hrest3; apply (release_frame i p pn a n x Hi Hn Hxb Hx).
Qed.

Lemma wp_kernel_heap_free a n Q :
  heap_start (kernel_heap k) <= a -> 1 <= n -> a + HEADER_SIZE * n <= heap_break (kernel_heap k) ->
  apart a n blocks -> word k (a + 4) = n -> (length cells <= fuel)%nat ->
  (forall k' blocks', release a n cells = (base, 0) :: blocks' -> free_list k' blocks' ->
     kernel_heap k' = set_head (free_headers_head (kernel_heap k')) (kernel_heap k) ->
     machine k' = machine k ->
     (forall x, in_blocks blocks' x <-> a <= x < a + HEADER_SIZE * n \/ in_blocks blocks x) ->
     (forall x, ~ in_blocks blocks' x -> x <> base -> word k' x = word k x) ->
     Q tt k') ->
  wp (kernel_heap_free (a + HEADER_SIZE)) Q k.
Proof using Hfl.
  intros Ha Hn Hend Hapart Hw Hfuel HQ. destruct (fl_base _ _ Hfl) as [Hb0 Hb1].
  unfold kernel_heap_free.
  destruct (Z.eqb_spec (a + HEADER_SIZE) 0); [unfold HEADER_SIZE in *; lia|].
  replace (a + HEADER_SIZE - HEADER_SIZE) with a by lia.
  unfold get_head. wp_run.
  apply wp_free_walk; [unfold HEADER_SIZE in *; lia| |done|].
  { intros b m Hin ->. pose proof (blocks_ok_bounds _ _ _ _ _ (fl_blocks _ _ Hfl) Hin).
    pose proof (proj1 (List.Forall_forall _ _) Hapart (a, m) (proj1 (list_elem_of_In _ _) Hin)) as Hd.
    simpl in Hd. unfold HEADER_SIZE in *. lia. }
  intros i p pn Hi Hp Hq.
  assert (heap_mapped k a = true /\ heap_mapped k (a + 4) = true) as [Hm1 Hm2]
    by (split; apply mapped_in_heap; unfold HEADER_SIZE in *; lia).
  destruct (cell_mapped p pn) as [Hp1 Hp2]; [by eapply list_elem_of_lookup_2|].
  destruct (place_path a n i p pn) as [Hpost Hnext]; try done.
  destruct (place_previous a n i p pn) as [Hpa Hph]; try done.
  wp_step. apply wp_load_word; [done|]. wp_step. apply wp_load_word; [done|]. rewrite Hw, Hnext.
  wp_step. eapply (wp_link_next k a n); try done; [unfold HEADER_SIZE in *; lia| |unfold HEADER_SIZE in *; lia|].
  { intros b m Hbm. destruct (place_post a n i p pn Ha Hn Hend Hapart Hi Hp Hq b m Hbm) as (Hin & ? & ? & ?).
    destruct (cell_mapped b m) as [? ?]; [by right|]. pose proof (fl_break _ _ Hfl).
    split_and!; [done|done|lia..]. }
  intros k1 n' post' Hwo Hmerge Hk1 Hk1n Hpath1 Hrest1 Hsub.
  destruct (cell_fields _ _ _ Hi) as [Hpw _].
  wp_step. apply wp_load_word; [by rewrite (words_only_mapped k k1)|].
  rewrite Hrest1, Hpw by (unfold HEADER_SIZE in *; lia).
  wp_step. apply (wp_link_previous a n i p pn Ha Hn Hend Hapart Hi Hp Hq k1 n' post'); try done.
  intros k2 pn' rest' Hwo2 Hjoin Hpath2 Hrest2. unfold put_head. wp_run.
  destruct (released a n i p pn k2 pn' rest') as (blocks' & J1 & J2 & J3 & J4 & J5 & J6); try done.
  by apply (HQ _ blocks').
Qed.

(** ** [kernel_heap_malloc] from the free list *)

(** The list once [need] headers are carved from the end of block [i]. *)
Definition carved (i : nat) (b m need : Z) : list (Z * Z) :=
  take i blocks ++ (if m =? need then [] else [(b, m - need)]) ++ drop (S i) blocks.

Lemma ring_succ_mod x : (S x mod length cells)%nat <> 0%nat ->
  (S x mod length cells)%nat = S (x mod length cells).
Proof using Type.
  clear. set (N := length cells). assert (N <> 0)%nat as HN by done. clearbody N.
  replace (S x) with (x + 1)%nat by lia. rewrite <- Nat.Div0.add_mod_idemp_l.
  pose proof (Nat.mod_upper_bound x N HN).
  destruct (decide (S (x mod N) = N)) as [E|E].
  - replace (x mod N + 1)%nat with N by lia. rewrite Nat.Div0.mod_same. done.
  - intros _. rewrite Nat.mod_small; lia.
Qed.

Lemma ring_inj x y : fst (ring x) = fst (ring y) -> (x mod length cells = y mod length cells)%nat.
Proof using Hfl.
  pose proof (ring_lookup x) as Hx. pose proof (ring_lookup y) as Hy.
  destruct (ring x) as [b n], (ring y) as [c m]. simpl in *. intros ->.
  destruct (Nat.lt_trichotomy (x mod length cells) (y mod length cells)) as [H|[H|H]]; [|done|].
  - pose proof (cells_lt _ _ _ _ _ _ Hx Hy H). lia.
  - pose proof (cells_lt _ _ _ _ _ _ Hy Hx H). lia.
Qed.

Lemma blocks_after i b m :
  blocks !! i = Some (b, m) ->
  path k (word k b) (drop (S i) blocks) base /\
  blocks_ok (b + HEADER_SIZE * m + 1) (heap_break (kernel_heap k)) (drop (S i) blocks).
Proof using Hfl.
  intros Hb. pose proof (take_drop_middle _ _ _ Hb) as Hsplit. split.
  - pose proof (fl_path _ _ Hfl) as Hpath. simpl in Hpath. rewrite <- Hsplit in Hpath.
    destruct Hpath as (_ & _ & Hpath). by apply path_app in Hpath as (y & _ & -> & _ & Hpath).
  - pose proof (fl_blocks _ _ Hfl) as Hok. rewrite <- Hsplit in Hok.
    apply blocks_ok_app in Hok as (_ & Hok & _). by destruct Hok as (_ & _ & _ & Hok).
Qed.

(** The common end of the two ways a block is taken: the chain from the previous
    cell on is replaced and the head moves to that cell. *)
Lemma take_finish i pp ppn b m need k' w rest' (Q : Z -> kernel_t -> Prop) :
  cells !! i = Some (pp, ppn) -> blocks !! i = Some (b, m) -> 1 <= need <= m ->
  words_only k k' -> word k' pp = w -> path k' w rest' base -> word k' (pp + 4) = ppn ->
  rest' = (if m =? need then [] else [(b, m - need)]) ++ drop (S i) blocks ->
  (forall x, x <> pp -> x <> b + 4 -> x <> b + HEADER_SIZE * (m - need) + 4 -> word k' x = word k x) ->
  blocks_ok (pp + HEADER_SIZE * ppn + 1) (heap_break (kernel_heap k)) rest' ->
  word k' (b + HEADER_SIZE * (m - need) + 4) = need ->
  (forall k', free_list k' (carved i b m need) -> machine k' = machine k ->
     word k' (b + HEADER_SIZE * (m - need) + 4) = need ->
     kernel_heap k' = set_head (free_headers_head (kernel_heap k')) (kernel_heap k) ->
     (forall x, ~ in_blocks blocks x -> x <> base -> word k' x = word k x) ->
     Q (b + HEADER_SIZE * (m - need) + HEADER_SIZE) k') ->
  Q (b + HEADER_SIZE * (m - need) + HEADER_SIZE) (set_heap (set_head pp) k').
Proof using Hfl.
  intros Hpp Hb Hneed Hwo Hw Hp Hs Hrest Hframe Hrok Hsize HQ.
  assert (cells !! S i = Some (b, m)) as Hb' by done.
  pose proof (cell_end i pp ppn b m (S i) Hpp Hb' ltac:(lia)) as Hgap.
  pose proof (blocks_ok_bounds _ _ _ _ _ (fl_blocks _ _ Hfl) (list_elem_of_lookup_2 _ _ _ Hb)) as (Hlo & Hm & Hhi).
  pose proof (cells_sorted i (S i) pp ppn b m Hpp Hb' ltac:(lia)) as Hsort.
  destruct (cell_bounds _ _ _ Hpp) as [Hppn0 Hppb].
  destruct (free_list_replace (set_heap (set_head pp) k') i pp ppn ppn (drop (S i) cells) rest')
    as (blocks' & Hcells & Hnew); try done; simpl.
  - by rewrite (wo_heap _ _ Hwo).
  - by rewrite (wo_heap _ _ Hwo).
  - intros c o [j Hj]%list_elem_of_lookup. apply lookup_take_Some in Hj as [Hj Hji].
    pose proof (cell_end j c o pp ppn i Hj Hpp Hji). unfold HEADER_SIZE in *.
    split; apply Hframe; lia.
  - split_and!; [done|exact Hs|]. change (path (set_heap (set_head pp) k') (word k' pp) rest' base).
    rewrite Hw. by apply (path_frame k').
  - intros ->. by apply (cell_base i).
  - unfold HEADER_SIZE in *. lia.
  - intros c o Hc. subst rest'. apply elem_of_app in Hc as [Hc|Hc].
    + destruct (m =? need); [by apply not_elem_of_nil in Hc|].
      apply list_elem_of_singleton in Hc as [= -> ->]. done.
    + assert ((c, o) ∈ blocks) as Hc'
        by (rewrite <- (take_drop_middle _ _ _ Hb); apply elem_of_app; right; by right).
      by destruct (blocks_ok_bounds _ _ _ _ _ (fl_blocks _ _ Hfl) Hc').
  - assert (blocks' = carved i b m need) as ->.
    { unfold carved. subst rest'. rewrite cons_middle, app_assoc in Hcells.
      rewrite <- (take_S_r _ _ _ Hpp) in Hcells. simpl in Hcells. by injection Hcells. }
    apply HQ; [done|by apply Hwo|exact Hsize|simpl; by rewrite (wo_heap _ _ Hwo)|].
    intros x Hx Hxb. change (word k' x = word k x). apply Hframe; intros ->; apply Hx.
    + pose proof (list_elem_of_lookup_2 _ _ _ Hpp) as Hc.
      destruct (cell_in_blocks pp ppn pp Hc Hxb) as [Ho Hin]. apply Hin. unfold HEADER_SIZE. lia.
    + apply (cell_in_blocks b m); [by eapply list_elem_of_lookup_2| |]; unfold HEADER_SIZE in *; lia.
    + apply (cell_in_blocks b m); [by eapply list_elem_of_lookup_2| |]; unfold HEADER_SIZE in *; lia.
Qed.

Lemma wp_kernel_heap_take i pp ppn b m need Q :
  cells !! i = Some (pp, ppn) -> blocks !! i = Some (b, m) -> 1 <= need <= m ->
  (forall k', free_list k' (carved i b m need) -> machine k' = machine k ->
     word k' (b + HEADER_SIZE * (m - need) + 4) = need ->
     kernel_heap k' = set_head (free_headers_head (kernel_heap k')) (kernel_heap k) ->
     (forall x, ~ in_blocks blocks x -> x <> base -> word k' x = word k x) ->
     Q (b + HEADER_SIZE * (m - need) + HEADER_SIZE) k') ->
  wp (kernel_heap_take pp b need) Q k.
Proof using Hfl.
  intros Hpp Hb Hneed HQ.
  assert (cells !! S i = Some (b, m)) as Hb' by done.
  destruct (cell_fields _ _ _ Hb') as [Hbm Hbn]. destruct (cell_fields _ _ _ Hpp) as [Hppn Hppw].
  rewrite Hb' in Hppw. simpl in Hppw.
  destruct (cell_mapped b m) as [Hm1 Hm2]; [by eapply list_elem_of_lookup_2|].
  destruct (cell_mapped pp ppn) as [Hm3 Hm4]; [by eapply list_elem_of_lookup_2|].
  pose proof (blocks_ok_bounds _ _ _ _ _ (fl_blocks _ _ Hfl) (list_elem_of_lookup_2 _ _ _ Hb)) as (Hlo & Hm & Hhi).
  pose proof (cell_end i pp ppn b m (S i) Hpp Hb' ltac:(lia)) as Hgap.
  pose proof (cells_sorted i (S i) pp ppn b m Hpp Hb' ltac:(lia)) as Hsort.
  destruct (cell_bounds _ _ _ Hpp) as [Hppn0 Hppb]. destruct (blocks_after i b m Hb) as [Hpath Hok].
  unfold kernel_heap_take, get_size, get_next, put_size, put_next, put_head.
  wp_step. apply wp_load_word; [done|]. rewrite Hbm.
  destruct (Z.eqb_spec m need) as [E|E].
  - subst need. wp_run. apply wp_load_word; [done|]. wp_run. apply wp_store_word; [done|]. wp_run.
    replace (b + HEADER_SIZE) with (b + HEADER_SIZE * (m - m) + HEADER_SIZE) by (unfold HEADER_SIZE; lia).
    apply (take_finish i pp ppn b m m _ (word k b) (drop (S i) blocks)); try done; unfold HEADER_SIZE in *.
    + rewrite word_store. by case_decide.
    + eapply path_frame; [|exact Hpath]. intros c o Hc.
      destruct (blocks_ok_bounds _ _ _ _ _ Hok Hc). split; rewrite word_store; by case_decide; [lia|].
    + rewrite word_store. by case_decide; [lia|].
    + by rewrite Z.eqb_refl.
    + intros x Hx _ _. rewrite word_store. by case_decide; [congruence|].
    + eapply blocks_ok_lo; [exact Hok|]. intros c o Hc. destruct (blocks_ok_bounds _ _ _ _ _ Hok Hc). lia.
    + replace (b + 8 * (m - m) + 4) with (b + 4) by lia.
      rewrite word_store. case_decide; [lia|done].
  - wp_step. apply wp_bind. apply wp_store_word; [done|]. wp_step.
    apply wp_store_word. { apply mapped_in_heap. simpl. unfold HEADER_SIZE in *. lia. }
    wp_run. apply (take_finish i pp ppn b m need _ b ((b, m - need) :: drop (S i) blocks)); try done; unfold HEADER_SIZE in *.
    + rewrite !word_store. repeat case_decide; lia || done.
    + simpl. rewrite !word_store. repeat case_decide; try lia. split_and!; [done|done|].
      eapply path_frame; [|exact Hpath]. intros c o Hc.
      destruct (blocks_ok_bounds _ _ _ _ _ Hok Hc).
      split; rewrite !word_store; repeat case_decide; done || lia.
    + rewrite !word_store. repeat case_decide; lia || done.
    + by destruct (Z.eqb_spec m need).
    + intros x Hx1 Hx2 Hx3. rewrite !word_store. repeat case_decide; done || congruence.
    + simpl. unfold HEADER_SIZE. split_and!; try lia.
      eapply blocks_ok_lo; [exact Hok|]. intros c o Hc.
      destruct (blocks_ok_bounds _ _ _ _ _ Hok Hc). lia.
    + rewrite word_store. by case_decide.
Qed.

Lemma first_index (P : nat -> bool) n :
  P n = true -> exists i, (i <= n)%nat /\ P i = true /\ forall o, (o < i)%nat -> P o = false.
Proof using Type.
  clear. induction n as [n IH] using lt_wf_ind. intros Hn.
  destruct (existsb P (seq 0 n)) eqn:E.
  - apply existsb_exists in E as (o & Ho & HPo). apply in_seq in Ho.
    destruct (IH o ltac:(lia) HPo) as (i & ? & ? & ?). exists i. split_and!; [lia|done|done].
  - exists n. split_and!; [done|done|]. intros o Ho. destruct (P o) eqn:Eo; [|done].
    assert (existsb P (seq 0 n) = true); [|congruence].
    apply existsb_exists. exists o. split; [apply in_seq; lia|done].
Qed.

Lemma headers_needed_pos size : 1 <= headers_needed size.
Proof using Type.
  unfold headers_needed, HEADER_SIZE. pose proof (u32_range (size + 8 - 1)).
  set (y := u32 (size + 8 - 1)) in *. unfold u32. rewrite Z.mod_small; zlia.
Qed.

Lemma wp_kernel_heap_malloc size page_directory flags Q :
  size <> 0 -> (length cells <= fuel)%nat ->
  (exists b m, (b, m) ∈ blocks /\ headers_needed size <= m) ->
  (forall i b m k', blocks !! i = Some (b, m) -> headers_needed size <= m ->
     free_list k' (carved i b m (headers_needed size)) -> machine k' = machine k ->
     word k' (b + HEADER_SIZE * (m - headers_needed size) + 4) = headers_needed size ->
     kernel_heap k' = set_head (free_headers_head (kernel_heap k')) (kernel_heap k) ->
     (forall x, ~ in_blocks blocks x -> x <> base -> word k' x = word k x) ->
     Q (b + HEADER_SIZE * (m - headers_needed size) + HEADER_SIZE) k') ->
  wp (kernel_heap_malloc_into_page_directory size page_directory flags) Q k.
Proof using Hfl.
  intros Hsize Hfuel (b0 & m0 & Hin & Hfit) HQ. unfold kernel_heap_malloc_into_page_directory.
  pose proof (headers_needed_pos size) as Hneed. set (need := headers_needed size) in *. clearbody need.
  destruct (Z.eqb_spec size 0) as [|_]; [done|]. unfold get_head at 1. wp_run.
  destruct head_position as (j & Hj & Hhead). rewrite <- Hhead. apply wp_ring_next.
  apply list_elem_of_lookup in Hin as [i0 Hi0].
  destruct (ring_reach (S i0) (S j mod length cells)) as (n0 & Hn0 & Hreach & _).
  { apply lookup_lt_Some in Hi0. simpl. lia. }
  { by apply Nat.mod_upper_bound. }
  rewrite Nat.Div0.add_mod_idemp_l in Hreach.
  destruct (first_index (fun o => need <=? snd (ring (S j + o))) n0) as (n & Hn & HPn & Hbefore).
  { unfold ring. rewrite Hreach. simpl. rewrite Hi0. simpl. by apply Z.leb_le. }
  assert (fst (ring j) = fst (ring (j + 0))) as -> by (by rewrite Nat.add_0_r).
  assert (fst (ring (S j)) = fst (ring (S j + 0))) as -> by (by rewrite Nat.add_0_r).
  apply (wp_loop_steps _ _ (fun o => (fst (ring (j + o)), fst (ring (S j + o)))) n); [lia| |].
  - intros o Ho. wp_step. apply wp_ring_size. rewrite (Hbefore o Ho).
    unfold get_head. wp_run. rewrite <- Hhead.
    destruct (Z.eqb_spec (fst (ring (S j + o))) (fst (ring j))) as [E|E].
    { exfalso. apply ring_inj in E. clear -E Ho Hn Hn0 Hj.
      set (N := length cells) in *. rewrite (Nat.mod_small j) in E by done.
      destruct (decide (S j + o < N)%nat).
      - rewrite Nat.mod_small in E; lia.
      - replace (S j + o)%nat with (S j + o - N + 1 * N)%nat in E by lia.
        rewrite Nat.Div0.mod_add, Nat.mod_small in E; lia. }
    wp_run. cbn [andb]. wp_run. apply wp_ring_next. wp_run. split; [|done]. do 2 f_equal; do 2 f_equal; lia.
  - wp_step. apply wp_ring_size. rewrite HPn. apply Z.leb_le in HPn.
    change (S j + n)%nat with (S (j + n)) in *. pose proof (ring_lookup (S (j + n))) as Hr.
    assert (S (j + n) mod length cells <> 0)%nat as Hne.
    { intros E. rewrite E in Hr. simpl in Hr. injection Hr as Hr. rewrite <- Hr in HPn. simpl in HPn. lia. }
    rewrite ring_succ_mod in Hr by done.
    pose proof (ring_lookup (j + n)) as Hprev. simpl in Hr.
    destruct (ring (S (j + n))) as [b m]. destruct (ring (j + n)) as [pp ppn]. cbn [fst snd] in *.
    wp_run. eapply (wp_kernel_heap_take _ pp ppn b m); [exact Hprev|exact Hr|lia|].
    intros k' H1 H2 H3 H4 H5. wp_run. by apply (HQ _ b m k' Hr HPn).
Qed.
End walk.

(** C6: Freeing.  In a consistent heap, with a block of [n] headers that
    overlaps no free block and enough fuel for one turn of the list,
    [kernel_heap_free] of its payload returns; the free list is then [release],
    the old list with the block in its address-ordered place and joined with the
    free neighbours it touches, and the heap is consistent again.  The free
    memory is exactly the old free memory and the block, and no other word of
    memory changes. *)
Theorem kernel_heap_free_spec k blocks a n :
  free_list k blocks -> (length blocks < fuel)%nat ->
  heap_start (kernel_heap k) <= a -> 1 <= n -> a + HEADER_SIZE * n <= heap_break (kernel_heap k) ->
  apart a n blocks -> word k (a + 4) = n ->
  wp (kernel_heap_free (a + HEADER_SIZE))
     (fun _ k' => exists blocks',
        release a n ((base, 0) :: blocks) = (base, 0) :: blocks' /\ free_list k' blocks' /\
        machine k' = machine k /\
        (forall x, in_blocks blocks' x <-> a <= x < a + HEADER_SIZE * n \/ in_blocks blocks x) /\
        (forall x, ~ in_blocks blocks' x -> x <> base -> word k' x = word k x)) k.
Proof using Type.
  intros Hfl Hfuel Ha Hn Hend Hap Hw.
  apply (wp_kernel_heap_free k blocks Hfl a n); try done.
  intros k' blocks' H1 H2 _ H3 H4 H5. by exists blocks'.
Qed.

(** C12: Allocation from the free list.  In a consistent heap with a free block
    large enough, [kernel_heap_malloc] never asks for more pages: it answers
    the payload of a block of exactly the rounded-up size (its header included)
    carved from the end of one free block, and the heap is consistent with that
    block shortened or, if it fits exactly, removed.  No word outside the free
    memory changes. *)
Theorem kernel_heap_malloc_spec k blocks size page_directory flags :
  free_list k blocks -> (length blocks < fuel)%nat -> 0 < size < 2 ^ 32 - 7 ->
  (exists b m, (b, m) ∈ blocks /\ (size + 7) / 8 + 1 <= m) ->
  wp (kernel_heap_malloc_into_page_directory size page_directory flags)
     (fun r k' => exists i b m n,
        n = (size + 7) / 8 + 1 /\ n <= m /\ blocks !! i = Some (b, m) /\
        r = b + HEADER_SIZE * (m - n) + HEADER_SIZE /\
        word k' (r - HEADER_SIZE + 4) = n /\
        free_list k' (carved blocks i b m n) /\
        machine k' = machine k /\
        (forall x, ~ in_blocks blocks x -> x <> base -> word k' x = word k x)) k.
Proof using Type.
  intros Hfl Hfuel Hsize Hfit.
  assert (headers_needed size = (size + 7) / 8 + 1) as Hneed.
  { unfold headers_needed, HEADER_SIZE. replace (size + 8 - 1) with (size + 7) by lia.
    rewrite (u32_small (size + 7)) by lia. rewrite u32_small; zlia. }
  apply (wp_kernel_heap_malloc k blocks Hfl); [lia|done|by rewrite Hneed|].
  intros i b m k' H1 H2 H3 H4 H5 _ H6. rewrite Hneed in *. exists i, b, m, ((size + 7) / 8 + 1).
  split_and!; try done. rewrite <- H5. f_equal. lia.
Qed.

(** Giving back what was carved from a block restores the list. *)
Lemma release_carved lo hi blocks i b m need p pn :
  blocks_ok lo hi blocks -> p + HEADER_SIZE * pn < lo -> blocks !! i = Some (b, m) -> 1 <= need <= m ->
  release (b + HEADER_SIZE * (m - need)) need ((p, pn) :: carved blocks i b m need) = (p, pn) :: blocks.
Proof using Type.
  revert lo p pn i. induction blocks as [|[c o] blocks IH]; intros lo p pn i; [done|].
  simpl. intros (H1 & H2 & H3 & H4) Hp Hi Hneed. unfold HEADER_SIZE in *. destruct i as [|i].
  - injection Hi as -> ->. unfold carved. simpl. rewrite drop_0.
    destruct (Z.eqb_spec m need) as [->|E]; simpl.
    + replace (b + 8 * (need - need)) with b by lia.
      assert (join p pn b need blocks = (p, pn) :: (b, need) :: blocks) as Hj.
      { unfold join, merge_next, HEADER_SIZE. destruct blocks as [|[q r] blocks]; simpl in *.
        - by destruct (Z.eqb_spec (p + 8 * pn) b); [lia|].
        - destruct (Z.eqb_spec (b + 8 * need) q); [lia|]. by destruct (Z.eqb_spec (p + 8 * pn) b); [lia|]. }
      destruct blocks as [|[q r] blocks]; [done|]. simpl in H4. by destruct (Z.ltb_spec q b); [lia|].
    + destruct (Z.ltb_spec b (b + 8 * (m - need))); [|lia]. f_equal.
      assert (join b (m - need) (b + 8 * (m - need)) need blocks = (b, m) :: blocks) as Hj.
      { unfold join, merge_next, HEADER_SIZE. destruct blocks as [|[q r] blocks]; simpl in *.
        - rewrite Z.eqb_refl. do 2 f_equal. lia.
        - destruct (Z.eqb_spec (b + 8 * (m - need) + 8 * need) q); [lia|].
          rewrite Z.eqb_refl. do 2 f_equal. lia. }
      destruct blocks as [|[q r] blocks]; [done|]. simpl in H4.
      by destruct (Z.ltb_spec q (b + 8 * (m - need))); [lia|].
  - simpl in Hi. unfold carved. simpl.
    pose proof (blocks_ok_bounds _ _ _ _ _ H4 (list_elem_of_lookup_2 _ _ _ Hi)) as (Hb & _).
    unfold HEADER_SIZE in *. destruct (Z.ltb_spec c (b + 8 * (m - need))); [|lia]. f_equal.
    apply (IH (c + 8 * o + 1)); [done|lia|done|done].
Qed.

Lemma carved_apart lo hi blocks i b m need :
  blocks_ok lo hi blocks -> blocks !! i = Some (b, m) -> 1 <= need <= m ->
  apart (b + HEADER_SIZE * (m - need)) need (carved blocks i b m need).
Proof using Type.
  intros Hok Hi Hneed. pose proof (take_drop_middle _ _ _ Hi) as Hsplit. rewrite <- Hsplit in Hok.
  apply blocks_ok_app in Hok as (_ & Hok & Hlt). simpl in Hok. destruct Hok as (_ & _ & _ & Hok).
  unfold apart, carved, HEADER_SIZE in *. apply Forall_app. split; [|apply Forall_app; split].
  - apply Forall_forall. intros [c o] Hc%list_elem_of_In.
    pose proof (Hlt c o b m Hc ltac:(by left)). unfold HEADER_SIZE in *. lia.
  - destruct (m =? need); [done|]. constructor; [lia|done].
  - apply Forall_forall. intros [c o] Hc%list_elem_of_In.
    destruct (blocks_ok_bounds _ _ _ _ _ Hok Hc). unfold HEADER_SIZE in *. lia.
Qed.

(** Allocation round trip.  Allocating from the free list of a consistent
    heap and freeing the block at once returns the heap to exactly the same free
    list, and changes no word outside the free memory. *)
Theorem kernel_heap_malloc_free k blocks size page_directory flags :
  free_list k blocks -> (length blocks + 1 < fuel)%nat -> 0 < size < 2 ^ 32 - 7 ->
  (exists b m, (b, m) ∈ blocks /\ (size + 7) / 8 + 1 <= m) ->
  wp (let! address := kernel_heap_malloc_into_page_directory size page_directory flags in
      do! kernel_heap_free address in ret address)
     (fun address k' => address <> 0 /\ free_list k' blocks /\ machine k' = machine k /\
        (forall x, ~ in_blocks blocks x -> x <> base -> word k' x = word k x)) k.
Proof using Type.
  intros Hfl Hfuel Hsize Hfit.
  assert (headers_needed size = (size + 7) / 8 + 1) as Hneed.
  { unfold headers_needed, HEADER_SIZE. replace (size + 8 - 1) with (size + 7) by lia.
    rewrite (u32_small (size + 7)) by lia. rewrite u32_small; zlia. }
  pose proof (headers_needed_pos size) as Hpos. rewrite <- Hneed in Hfit.
  wp_step. apply (wp_kernel_heap_malloc k blocks Hfl); [lia|simpl; lia|done|].
  intros i b m k1 Hi Hm Hfl1 Hmach Hw Hheap Hframe. set (need := headers_needed size) in *. clearbody need.
  destruct (fl_base _ _ Hfl) as [Hb0 Hb1].
  destruct (blocks_ok_bounds _ _ _ _ _ (fl_blocks _ _ Hfl) (list_elem_of_lookup_2 _ _ _ Hi)) as (B1 & B2 & B3).
  assert (heap_start (kernel_heap k1) = heap_start (kernel_heap k) /\
          heap_break (kernel_heap k1) = heap_break (kernel_heap k)) as [Hs Hbr] by (by rewrite Hheap).
  wp_step. apply (wp_kernel_heap_free k1 (carved blocks i b m need) Hfl1 _ need); rewrite ?Hs, ?Hbr.
  - unfold HEADER_SIZE in *. lia.
  - lia.
  - unfold HEADER_SIZE in *. lia.
  - eapply carved_apart; [apply Hfl|done|lia].
  - done.
  - simpl. unfold carved. rewrite !length_app, length_take, length_drop.
    pose proof (lookup_lt_Some _ _ _ Hi). destruct (m =? need); simpl; lia.
  - intros k2 blocks' Hrel Hfl2 _ Hmach2 Hin2 Hframe2.
    rewrite (release_carved (heap_start (kernel_heap k)) (heap_break (kernel_heap k)) blocks) in Hrel;
      [|apply Hfl|unfold HEADER_SIZE in *; lia|done|lia].
    injection Hrel as <-. wp_run. split_and!; [unfold HEADER_SIZE in *; lia|done|congruence|].
    intros x Hx Hxb. rewrite Hframe2, Hframe by done. done.
Qed.
End kernel_heap.

(** ** A concrete heap

    Base at 0xC0100000, one free block of 1024 headers at the heap start but for
    a block of 4 headers at 0xF0000100 that is in use. *)
Definition small_kernel : kernel_t :=
  mk_kernel (mk_heap 0xF0000000 0xF0000000 0xF7FFF000 0xF0002000)
    {[ 0xC0100000 := 0xF0000000; 0xC0100004 := 0;
       0xF0000000 := 0xF0000120; 0xF0000004 := 32;
       0xF0000104 := 4;
       0xF0000120 := 0xC0100000; 0xF0000124 := 988 ]}
    small_machine 0 0.
Definition small_blocks : list (Z * Z) := [(0xF0000000, 32); (0xF0000120, 988)].

Lemma small_kernel_free_list : free_list 0xC0100000 small_kernel small_blocks.
Proof.
  split; [unfold HEADER_SIZE; simpl; lia|simpl; lia|vm_compute; tauto| |].
  - unfold HEADER_SIZE; simpl; unfold HEADER_SIZE; lia.
  - exists 32. right. left.
Qed.

Lemma kernel_heap_free_spec_witness :
  wp (kernel_heap_free 0xC0100000 3 (0xF0000100 + HEADER_SIZE))
     (fun _ k' => exists blocks',
        release 0xF0000100 4 ((0xC0100000, 0) :: small_blocks) = (0xC0100000, 0) :: blocks' /\
        free_list 0xC0100000 k' blocks' /\ machine k' = machine small_kernel /\
        (forall x, in_blocks blocks' x <->
           0xF0000100 <= x < 0xF0000100 + HEADER_SIZE * 4 \/ in_blocks small_blocks x) /\
        (forall x, ~ in_blocks blocks' x -> x <> 0xC0100000 -> word k' x = word small_kernel x))
     small_kernel.
Proof.
  apply kernel_heap_free_spec;
    [exact small_kernel_free_list|simpl; lia|simpl; lia|lia|unfold HEADER_SIZE; simpl; lia
    |unfold apart, HEADER_SIZE; repeat constructor; lia|reflexivity].
Defined.

Lemma kernel_heap_malloc_spec_witness :
  wp (kernel_heap_malloc_into_page_directory 0xC0100000 3 100 0xC0001000 2)
     (fun r k' => exists i b m n,
        n = (100 + 7) / 8 + 1 /\ n <= m /\ small_blocks !! i = Some (b, m) /\
        r = b + HEADER_SIZE * (m - n) + HEADER_SIZE /\
        word k' (r - HEADER_SIZE + 4) = n /\
        free_list 0xC0100000 k' (carved small_blocks i b m n) /\
        machine k' = machine small_kernel /\
        (forall x, ~ in_blocks small_blocks x -> x <> 0xC0100000 -> word k' x = word small_kernel x))
     small_kernel.
Proof.
  apply kernel_heap_malloc_spec; [exact small_kernel_free_list|simpl; lia|lia|].
  exists 0xF0000120, 988. split; [right; left|vm_compute; congruence].
Defined.

Lemma kernel_heap_malloc_free_witness :
  wp (let! address := kernel_heap_malloc_into_page_directory 0xC0100000 4 100 0xC0001000 2 in
      do! kernel_heap_free 0xC0100000 4 address in ret address)
     (fun address k' => address <> 0 /\ free_list 0xC0100000 k' small_blocks /\
        machine k' = machine small_kernel /\
        (forall x, ~ in_blocks small_blocks x -> x <> 0xC0100000 -> word k' x = word small_kernel x))
     small_kernel.
Proof.
  apply kernel_heap_malloc_free; [exact small_kernel_free_list|simpl; lia|lia|].
  exists 0xF0000120, 988. split; [right; left|vm_compute; congruence].
Defined.

(** A request of almost 4 GiB wraps in the rounding and is answered with a block
    that has no payload at all. *)
Example malloc_size_wraps : headers_needed 0xFFFFFFFA = 1.
Proof. reflexivity. Qed.
