(* ===== verification/Tasks.v ===== *)
(** * Tasks, their resources and the state of the running kernel
    (include/task_manager.h, include/resourse.h)

    Objects that the kernel allocates live in typed stores, keyed by the address
    [kernel_heap_malloc] answered; 0 is [NULL] and an access through a pointer
    that is in no store is a [Fault].  [os_t] holds these stores next to the
    heap, the address spaces and the page bitmap below them. *)
From S2P Require Import Prelude Bitmap Paging KernelHeap.

(** ** Data *)

Definition TASK_MANAGER_QUEUE_LEVELS : Z := 4.
Definition TASK_MANAGER_DEFAULT_TIME_SLICE : Z := 5.
Definition TASK_MANAGER_QUEUE_INDEX_BLOCKED : Z := TASK_MANAGER_QUEUE_LEVELS.
Definition TASK_MANAGER_QUEUE_INDEX_ZOMBIE : Z := TASK_MANAGER_QUEUE_LEVELS + 1.
Definition TIMER_PHASE : Z := 1000.
Definition TASK_MANAGER_PRIORITY_BOOST_INTERVAL : Z := 5 * TIMER_PHASE.
Definition TASK_MAX_RESOURCES : Z := 512.
Definition SYSCALL_NSIG : Z := 32.

Inductive task_manager_result_t : Type :=
| TASK_MANAGER_RESULT_OK
| TASK_MANAGER_RESULT_QUEUE_TASK_NOT_FOUND
| TASK_MANAGER_RESULT_OUT_OF_MEMORY
| TASK_MANAGER_RESULT_CHILD_NOT_FOUND
| TASK_MANAGER_RESULT_ARGS_TOO_LARGE.

Inductive task_state_t : Type :=
| TASK_STATE_READY
| TASK_STATE_RUNNING
| TASK_STATE_BLOCKED
| TASK_STATE_ZOMBIE
| TASK_STATE_TERMINATED.

Inductive task_wait_reason_t : Type :=
| TASK_WAIT_REASON_NONE
| TASK_WAIT_REASON_CHILD
| TASK_WAIT_REASON_IO.

#[export] Instance task_manager_result_eq_dec : EqDecision task_manager_result_t.
Proof. solve_decision. Defined.
#[export] Instance task_state_eq_dec : EqDecision task_state_t.
Proof. solve_decision. Defined.
#[export] Instance task_wait_reason_eq_dec : EqDecision task_wait_reason_t.
Proof. solve_decision. Defined.

Record task_node_t : Type := mk_task_node {
  node_task : Z;
  node_next : Z;
  node_previous : Z;
}.

(** The registers the interrupt stubs save, from the lowest address on. *)
Record register_interrupt_data_t : Type := mk_registers {
  reg_gs : Z;
  reg_fs : Z;
  reg_es : Z;
  reg_ds : Z;
  reg_edi : Z;
  reg_esi : Z;
  reg_ebp : Z;
  reg_ebx : Z;
  reg_edx : Z;
  reg_ecx : Z;
  reg_eax : Z;
  interrupt_index : Z;
  error_code : Z;
  reg_eip : Z;
  reg_cs : Z;
  reg_eflags : Z;
  reg_useresp : Z;
  reg_ss : Z;
}.

Record syscall_execution_t : Type := mk_execution {
  execution_index : Z;
  parameters : list Z;            (* SYSCALL_MAX_PARAMETERS words *)
}.

Record task_t : Type := mk_task {
  task_id : Z;
  task_esp : Z;
  task_cr3 : Z;
  task_state : task_state_t;
  task_time_slice : Z;
  task_queue_level : Z;
  stack_base : Z;
  stack_top : Z;
  task_is_user : bool;
  next : Z;
  syscall_retry : bool;
  resources : gmap Z Z;           (* the non-NULL slots of resources[] *)
  task_init_eip : Z;
  parent : Z;
  children : Z;
  children_tail : Z;
  return_code : Z;
  yield : bool;
  wait_reason : task_wait_reason_t;
  wait_object : Z;
  heap_start : Z;
  heap_break : Z;
  ticks_user : Z;
  ticks_system : Z;
  child_ticks_user : Z;
  child_ticks_system : Z;
  signal_handlers : gmap Z Z;     (* the non-zero slots *)
  in_signal_handler : bool;
  syscall_execution : syscall_execution_t;
  write_offset : Z;               (* syscall_execution_state.write.offset *)
  saved_signal_frame : register_interrupt_data_t;
  saved_syscall_retry : bool;
}.

Record task_manager_t : Type := mk_task_manager {
  task_current : Z;
  task_next : Z;
  task_needs_switching : bool;
  task_idle : Z;
  task_queues : list Z;           (* heads; blocked and zombies are the last two *)
  last_priority_boost_at_ticks : Z;
  task_init : Z;
}.

(** A resource; [res_operations] identifies the operation table. *)
Inductive resource_type_t : Type :=
| RESOURCE_TYPE_FILE
| RESOURCE_TYPE_KEYBOARD
| RESOURCE_TYPE_TERMINAL
| RESOURCE_TYPE_FRAMEBUFFER.

Inductive resource_result_t : Type :=
| RESOURCE_RESULT_OK
| RESOURCE_RESULT_INVALID
| RESOURCE_RESULT_NOT_FOUND
| RESOURCE_RESULT_BAD_PARAMETER
| RESOURCE_RESULT_ALREADY_PRESENT
| RESOURCE_RESULT_STILL_IN_USE
| RESOURCE_RESULT_ALLOCATION_ERROR
| RESOURCE_RESULT_NO_FREE_SLOTS
| RESOURCE_RESULT_WILL_BLOCK.

#[export] Instance resource_type_eq_dec : EqDecision resource_type_t.
Proof. solve_decision. Defined.
#[export] Instance resource_result_eq_dec : EqDecision resource_result_t.
Proof. solve_decision. Defined.

Record resource_t : Type := mk_resource {
  res_type : resource_type_t;
  res_data : Z;
  res_operations : Z;
  res_ref_count : Z;
  res_offset : Z;
  res_flags : Z;
}.

Record os_t : Type := mk_os {
  kernel : kernel_t;
  tasks : gmap Z task_t;
  task_nodes : gmap Z task_node_t;
  resource_store : gmap Z resource_t;
  task_manager : task_manager_t;
  next_task_id : Z;               (* static uint32_t task_id *)
  timer_ticks : Z;
}.

#[export] Instance task_node_fields : Fields task_node_t := fun n =>
  mk_task_node (node_task n) (node_next n) (node_previous n).
#[export] Instance task_fields : Fields task_t := fun t =>
  mk_task (task_id t) (task_esp t) (task_cr3 t) (task_state t) (task_time_slice t)
    (task_queue_level t) (stack_base t) (stack_top t) (task_is_user t) (next t)
    (syscall_retry t) (resources t) (task_init_eip t) (parent t) (children t)
    (children_tail t) (return_code t) (yield t) (wait_reason t) (wait_object t)
    (heap_start t) (heap_break t) (ticks_user t) (ticks_system t)
    (child_ticks_user t) (child_ticks_system t) (signal_handlers t) (in_signal_handler t)
    (syscall_execution t) (write_offset t) (saved_signal_frame t) (saved_syscall_retry t).
#[export] Instance registers_fields : Fields register_interrupt_data_t := fun r =>
  mk_registers (reg_gs r) (reg_fs r) (reg_es r) (reg_ds r) (reg_edi r) (reg_esi r) (reg_ebp r)
    (reg_ebx r) (reg_edx r) (reg_ecx r) (reg_eax r) (interrupt_index r) (error_code r)
    (reg_eip r) (reg_cs r) (reg_eflags r) (reg_useresp r) (reg_ss r).
#[export] Instance execution_fields : Fields syscall_execution_t := fun e =>
  mk_execution (execution_index e) (parameters e).

(** What [kernel_heap_calloc] leaves in a new task. *)
Definition no_registers : register_interrupt_data_t := mk_registers 0 0 0 0 0 0 0 0 0 0 0 0 0 0 0 0 0 0.
Definition no_execution : syscall_execution_t := mk_execution 0 [0; 0; 0; 0; 0; 0].
Definition zero_task : task_t :=
  mk_task 0 0 0 TASK_STATE_READY 0 0 0 0 false 0 false ∅ 0 0 0 0 0 false TASK_WAIT_REASON_NONE 0
    0 0 0 0 0 0 ∅ false no_execution 0 no_registers false.
#[export] Instance task_manager_fields : Fields task_manager_t := fun m =>
  mk_task_manager (task_current m) (task_next m) (task_needs_switching m) (task_idle m)
    (task_queues m) (last_priority_boost_at_ticks m) (task_init m).
#[export] Instance resource_fields : Fields resource_t := fun r =>
  mk_resource (res_type r) (res_data r) (res_operations r) (res_ref_count r) (res_offset r)
    (res_flags r).
#[export] Instance os_fields : Fields os_t := fun s =>
  mk_os (kernel s) (tasks s) (task_nodes s) (resource_store s) (task_manager s)
    (next_task_id s) (timer_ticks s).

(** ** Accesses through pointers *)

Definition load_task (p : Z) : M os_t task_t := let! s := get in of_option (tasks s !! p).
Definition update_task (p : Z) (f : task_t -> task_t) : M os_t unit :=
  let! t := load_task p in modify (fun s => s <| tasks := <[p := f t]> (tasks s) |>).
Definition load_node (p : Z) : M os_t task_node_t :=
  let! s := get in of_option (task_nodes s !! p).
Definition update_node (p : Z) (f : task_node_t -> task_node_t) : M os_t unit :=
  let! n := load_node p in modify (fun s => s <| task_nodes := <[p := f n]> (task_nodes s) |>).
Definition load_resource (p : Z) : M os_t resource_t :=
  let! s := get in of_option (resource_store s !! p).
Definition update_resource (p : Z) (f : resource_t -> resource_t) : M os_t unit :=
  let! r := load_resource p in
  modify (fun s => s <| resource_store := <[p := f r]> (resource_store s) |>).

Definition manager : M os_t task_manager_t := gets task_manager.
Definition update_manager (f : task_manager_t -> task_manager_t) : M os_t unit :=
  modify (fun s => s <| task_manager := f (task_manager s) |>).

(** [task_queues[i]]; an index outside the array is a [Fault]. *)
Definition load_queue (i : Z) : M os_t Z :=
  let! m := manager in of_option (task_queues m !! Z.to_nat i).
Definition store_queue (i p : Z) : M os_t unit :=
  update_manager (fun m => m <| task_queues := <[Z.to_nat i := p]> (task_queues m) |>).

Definition on_kernel {A} (op : M kernel_t A) : M os_t A :=
  zoom kernel (fun k s => s <| kernel := k |>) op.
Definition in_machine {A} (op : M machine_t A) : M os_t A := on_kernel (on_machine op).

Section rules.
Variable s : os_t.

Lemma wp_load_task p t Q : tasks s !! p = Some t -> Q t s -> wp (load_task p) Q s.
Proof using Type. intros Hp HQ. unfold load_task. by wp_run. Qed.
Lemma wp_update_task p t f Q :
  tasks s !! p = Some t -> Q tt (s <| tasks := <[p := f t]> (tasks s) |>) -> wp (update_task p f) Q s.
Proof using Type. intros Hp HQ. unfold update_task. wp_step. eapply wp_load_task; [done|]. by wp_run. Qed.
Lemma wp_load_node p n Q : task_nodes s !! p = Some n -> Q n s -> wp (load_node p) Q s.
Proof using Type. intros Hp HQ. unfold load_node. by wp_run. Qed.
Lemma wp_update_node p n f Q :
  task_nodes s !! p = Some n -> Q tt (s <| task_nodes := <[p := f n]> (task_nodes s) |>) ->
  wp (update_node p f) Q s.
Proof using Type. intros Hp HQ. unfold update_node. wp_step. eapply wp_load_node; [done|]. by wp_run. Qed.
Lemma wp_load_resource p r Q : resource_store s !! p = Some r -> Q r s -> wp (load_resource p) Q s.
Proof using Type. intros Hp HQ. unfold load_resource. by wp_run. Qed.
Lemma wp_update_resource p r f Q :
  resource_store s !! p = Some r ->
  Q tt (s <| resource_store := <[p := f r]> (resource_store s) |>) -> wp (update_resource p f) Q s.
Proof using Type.
  intros Hp HQ. unfold update_resource. wp_step. eapply wp_load_resource; [done|]. by wp_run.
Qed.
Lemma wp_load_queue i p Q : task_queues (task_manager s) !! Z.to_nat i = Some p -> Q p s -> wp (load_queue i) Q s.
Proof using Type. intros Hp HQ. unfold load_queue, manager. by wp_run. Qed.
Lemma wp_store_queue i p Q :
  Q tt (s <| task_manager := (task_manager s) <| task_queues := <[Z.to_nat i := p]> (task_queues (task_manager s)) |> |>) ->
  wp (store_queue i p) Q s.
Proof using Type. done. Qed.
End rules.
