(* ===== verification/TaskManager.v ===== *)
(** * Task manager (src/task_manager.c)

    The scheduler's queues are intrusive singly linked lists through [next]; the
    children of a task are a doubly linked list of heap-allocated nodes.  [fuel]
    bounds the list walks; every theorem says how much is enough. *)
From S2P Require Import Prelude Bitmap Paging KernelHeap Tasks.

(** What a block of the heap holds when it becomes a node: [kernel_heap_malloc]
    does not clear it. *)
Class OldNodes := old_node : os_t -> Z -> task_node_t.

Section task_manager.
Context {old : OldNodes}.
(** [&kernel_heap.base], for the allocator, and the bound of the list walks. *)
Variable base : Z.
Variable fuel : nat.

(** ** Queues *)

Definition set_next (p q : Z) : M os_t unit := update_task p (fun t => t <| next := q |>).

Definition task_manager_enqueue_task (queue_index task : Z) : M os_t unit :=
  let! m := manager in
  if task =? task_idle m then ret tt
  else
    do! set_next task 0 in
    do! update_task task (fun t => t <| task_queue_level := queue_index |>) in
    let! head := load_queue queue_index in
    if head =? 0 then store_queue queue_index task
    else
      let! last := loop fuel (fun head =>
        let! t := load_task head in
        if next t =? 0 then ret (inr head) else ret (inl (next t))) head in
      set_next last task.

Definition task_manager_dequeue_task (queue_index : Z) : M os_t Z :=
  let! head := load_queue queue_index in
  if head =? 0 then ret 0
  else
    let! t := load_task head in
    do! store_queue queue_index (next t) in
    do! set_next head 0 in
    ret head.

Definition task_manager_remove_task_from_queue (queue_index task : Z)
  : M os_t task_manager_result_t :=
  let! head := load_queue queue_index in
  if head =? 0 then ret TASK_MANAGER_RESULT_QUEUE_TASK_NOT_FOUND
  else if head =? task then
    let! t := load_task task in
    do! store_queue queue_index (next t) in
    do! set_next task 0 in
    ret TASK_MANAGER_RESULT_OK
  else
    loop fuel (fun head =>
      let! h := load_task head in
      if next h =? 0 then ret (inr TASK_MANAGER_RESULT_QUEUE_TASK_NOT_FOUND)
      else if next h =? task then
        let! t := load_task task in
        do! set_next head (next t) in
        do! set_next task 0 in
        ret (inr TASK_MANAGER_RESULT_OK)
      else ret (inl (next h))) head.

(** ** Scheduling *)

Definition timer_get_ticks : M os_t Z := gets timer_ticks.

Definition task_manager_calculate_time_slice (queue_level : Z) : Z :=
  u32 (TASK_MANAGER_QUEUE_INDEX_BLOCKED * Z.shiftl 1 queue_level).

Definition task_manager_requeue_task (task : Z) (used_time_slice : bool) : M os_t unit :=
  let! m := manager in
  if task =? task_idle m then ret tt
  else
    let! t := load_task task in
    do! (if used_time_slice && (task_queue_level t <? TASK_MANAGER_QUEUE_LEVELS - 1)
         then update_task task (fun t => t <| task_queue_level := u32 (task_queue_level t + 1) |>)
         else ret tt) in
    do! update_task task (fun t => t <| task_state := TASK_STATE_READY |>) in
    let! t := load_task task in
    task_manager_enqueue_task (task_queue_level t) task.

Definition task_manager_boost_priority_of_all_tasks : M os_t unit :=
  do! for_range 1 TASK_MANAGER_QUEUE_LEVELS (fun i =>
    loop fuel (fun _ : unit =>
      let! head := load_queue i in
      if head =? 0 then ret (inr tt)
      else
        let! task := task_manager_dequeue_task i in
        do! update_task task (fun t => t <| task_queue_level := 0 |>) in
        do! task_manager_enqueue_task 0 task in
        ret (inl tt)) tt) in
  let! ticks := timer_get_ticks in
  update_manager (fun m => m <| last_priority_boost_at_ticks := ticks |>).

(** The test after the dequeue compares the state with two different values, so
    it always holds. *)
Fixpoint task_manager_pick_from (n : nat) (queue_index : Z) : M os_t Z :=
  match n with
  | O =>
      let! m := manager in
      do! update_task (task_idle m)
            (fun t => t <| task_time_slice := task_manager_calculate_time_slice 0 |>) in
      ret (task_idle m)
  | S n' =>
      let! head := load_queue queue_index in
      if head =? 0 then task_manager_pick_from n' (queue_index + 1)
      else
        let! task := task_manager_dequeue_task queue_index in
        let! t := load_task task in
        if bool_decide (task_state t <> TASK_STATE_READY)
           || bool_decide (task_state t <> TASK_STATE_RUNNING)
        then
          do! update_task task
                (fun t => t <| task_time_slice := task_manager_calculate_time_slice queue_index |>) in
          ret task
        else task_manager_pick_from n' (queue_index + 1)
  end.
Definition task_manager_pick_task : M os_t Z :=
  task_manager_pick_from (Z.to_nat TASK_MANAGER_QUEUE_LEVELS) 0.

(** The part of the schedule step for a current task whose slice is over. *)
Definition task_manager_switch (old_task : Z) : M os_t unit :=
  do! update_task old_task (fun t => t <| yield := false |>) in
  let! m := manager in
  let! old := load_task old_task in
  do! (if negb (old_task =? task_idle m) && bool_decide (task_state old = TASK_STATE_RUNNING)
       then task_manager_requeue_task old_task true else ret tt) in
  let! new_task := task_manager_pick_task in
  do! update_task new_task (fun t => t <| task_state := TASK_STATE_RUNNING |>) in
  if negb (new_task =? old_task) then
    update_manager (fun m => m <| task_next := new_task |> <| task_needs_switching := true |>)
  else
    update_task new_task (fun t =>
      t <| task_time_slice := task_manager_calculate_time_slice (task_queue_level t) |>).

(** The time slice is unsigned: [<= 0] holds only for 0. *)
Definition task_manager_schedule : M os_t unit :=
  do! on_kernel (memory_paging_destroy_queued base fuel) in
  let! ticks := timer_get_ticks in
  let! m := manager in
  do! (if TASK_MANAGER_PRIORITY_BOOST_INTERVAL <=? u64 (ticks - last_priority_boost_at_ticks m)
       then task_manager_boost_priority_of_all_tasks else ret tt) in
  if task_current m =? 0 then ret tt
  else
    do! update_task (task_current m)
          (fun t => t <| task_time_slice := u32 (task_time_slice t - 1) |>) in
    let! t := load_task (task_current m) in
    if (task_time_slice t =? 0) || yield t then task_manager_switch (task_current m)
    else ret tt.

Definition task_manager_yield_current : M os_t task_manager_result_t :=
  let! m := manager in
  do! (if task_current m =? 0 then ret tt
       else do! update_task (task_current m) (fun t => t <| yield := true |>) in
            task_manager_schedule) in
  ret TASK_MANAGER_RESULT_OK.

(** timer.c: the tick handler; [kernel_mode] is [data->cs ==
    TASK_MANAGER_KERNEL_CODE_SELECTOR]. *)
Definition timer_irq_handler (kernel_mode : bool) : M os_t unit :=
  do! modify (fun s => s <| timer_ticks := u64 (timer_ticks s + 1) |>) in
  let! m := manager in
  do! (if task_current m =? 0 then ret tt
       else if kernel_mode
       then update_task (task_current m) (fun t => t <| ticks_system := u64 (ticks_system t + 1) |>)
       else update_task (task_current m) (fun t => t <| ticks_user := u64 (ticks_user t + 1) |>)) in
  task_manager_schedule.

(** ** Blocking *)

Definition task_manager_block_task (task : Z) (reason : task_wait_reason_t) (object : Z)
  : M os_t task_manager_result_t :=
  let! t := load_task task in
  if decide (task_state t = TASK_STATE_BLOCKED) then ret TASK_MANAGER_RESULT_OK
  else
    do! update_task task (fun t => t <| task_state := TASK_STATE_BLOCKED |>) in
    do! update_task task (fun t => t <| wait_object := object |>) in
    do! update_task task (fun t => t <| wait_reason := reason |>) in
    do! task_manager_remove_task_from_queue (task_queue_level t) task in
    do! task_manager_enqueue_task TASK_MANAGER_QUEUE_INDEX_BLOCKED task in
    ret TASK_MANAGER_RESULT_OK.

Definition task_manager_unblock_task (task : Z) : M os_t task_manager_result_t :=
  let! t := load_task task in
  if decide (task_state t <> TASK_STATE_BLOCKED) then ret TASK_MANAGER_RESULT_OK
  else
    do! update_task task (fun t => t <| task_state := TASK_STATE_READY |>) in
    do! task_manager_remove_task_from_queue (task_queue_level t) task in
    do! task_manager_enqueue_task 0 task in
    ret TASK_MANAGER_RESULT_OK.

Definition task_manager_wake_blocked_on (reason : task_wait_reason_t) (object : Z)
  : M os_t unit :=
  let! head := load_queue TASK_MANAGER_QUEUE_INDEX_BLOCKED in
  loop fuel (fun head =>
    if head =? 0 then ret (inr tt)
    else
      let! t := load_task head in
      do! (if bool_decide (wait_reason t = reason) && (wait_object t =? object)
           then do! task_manager_unblock_task head in ret tt else ret tt) in
      ret (inl (next t))) head.

(** ** Children *)

(** [sizeof(task_node_t)] *)
Definition TASK_NODE_SIZE : Z := 12.

(** [kernel_heap_malloc(sizeof(task_node_t))]: a node at the answered address,
    with whatever fields the memory held. *)
Definition malloc_task_node : M os_t Z :=
  let! node := on_kernel (kernel_heap_malloc base fuel TASK_NODE_SIZE) in
  if node =? 0 then ret 0
  else
    do! modify (fun s => s <| task_nodes := <[node := old_node s node]> (task_nodes s) |>) in
    ret node.
Definition free_task_node (node : Z) : M os_t unit :=
  do! on_kernel (kernel_heap_free base fuel node) in
  modify (fun s => s <| task_nodes := delete node (task_nodes s) |>).

Definition task_manager_add_child_to_task (parent_ child : Z) : M os_t task_manager_result_t :=
  let! node := malloc_task_node in
  do! update_node node (fun n => n <| node_task := child |>) in
  do! update_node node (fun n => n <| node_next := 0 |>) in
  let! p := load_task parent_ in
  do! update_node node (fun n => n <| node_previous := children_tail p |>) in
  if children p =? 0 then
    do! update_task parent_ (fun t => t <| children := node |>) in
    do! update_task parent_ (fun t => t <| children_tail := node |>) in
    ret TASK_MANAGER_RESULT_OK
  else
    do! update_node (children_tail p) (fun n => n <| node_next := node |>) in
    do! update_task parent_ (fun t => t <| children_tail := node |>) in
    ret TASK_MANAGER_RESULT_OK.

Definition task_manager_remove_child_from_task (parent_ child : Z)
  : M os_t task_manager_result_t :=
  let! p := load_task parent_ in
  loop fuel (fun head =>
    if head =? 0 then ret (inr TASK_MANAGER_RESULT_CHILD_NOT_FOUND)
    else
      let! h := load_node head in
      if node_task h =? child then
        do! (if negb (node_previous h =? 0)
             then update_node (node_previous h) (fun n => n <| node_next := node_next h |>)
             else update_task parent_ (fun t => t <| children := node_next h |>)) in
        do! (if negb (node_next h =? 0)
             then update_node (node_next h) (fun n => n <| node_previous := node_previous h |>)
             else update_task parent_ (fun t => t <| children_tail := node_previous h |>)) in
        do! free_task_node head in
        ret (inr TASK_MANAGER_RESULT_OK)
      else ret (inl (node_next h))) (children p).

Definition task_manager_find_child (parent_ pid : Z) : M os_t Z :=
  let! p := load_task parent_ in
  loop fuel (fun head =>
    if head =? 0 then ret (inr 0)
    else
      let! h := load_node head in
      let! c := load_task (node_task h) in
      if task_id c =? pid then ret (inr (node_task h)) else ret (inl (node_next h)))
    (children p).

Definition task_manager_find_zombie_child (parent_ : Z) : M os_t Z :=
  let! p := load_task parent_ in
  loop fuel (fun head =>
    if head =? 0 then ret (inr 0)
    else
      let! h := load_node head in
      let! c := load_task (node_task h) in
      if decide (task_state c = TASK_STATE_ZOMBIE) then ret (inr (node_task h))
      else ret (inl (node_next h))) (children p).

(** The search of the task tree; [depth] bounds the recursion. *)
Fixpoint task_manager_find_task_recursive (depth : nat) (root pid : Z) : M os_t Z :=
  match depth with
  | O => fun _ => NoFuel
  | S depth' =>
      let! r := load_task root in
      if task_id r =? pid then ret root
      else
        loop fuel (fun head =>
          if head =? 0 then ret (inr 0)
          else
            let! h := load_node head in
            let! found := task_manager_find_task_recursive depth' (node_task h) pid in
            if negb (found =? 0) then ret (inr found) else ret (inl (node_next h)))
          (children r)
  end.
Definition task_manager_find_task (pid : Z) : M os_t Z :=
  let! m := manager in task_manager_find_task_recursive fuel (task_init m) pid.

(** ** Exit *)

(** The children of an exiting task become children of [init]; [previous] of
    the new nodes and [init]'s [children_tail] are left alone. *)
Definition task_manager_reparent (first : Z) : M os_t bool :=
  loop fuel (fun head =>
    if head =? 0 then ret (inr true)
    else
      let! h := load_node head in
      let! m := manager in
      do! update_task (node_task h) (fun t => t <| parent := task_init m |>) in
      let! node := malloc_task_node in
      if node =? 0 then ret (inr false)
      else
        do! update_node node (fun n => n <| node_task := node_task h |>) in
        let! init := load_task (task_init m) in
        do! update_node node (fun n => n <| node_next := children init |>) in
        do! update_task (task_init m) (fun t => t <| children := node |>) in
        do! free_task_node head in
        ret (inl (node_next h))) first.

Definition task_manager_exit_task (task code : Z) : M os_t task_manager_result_t :=
  let! t := load_task task in
  do! (if decide (task_state t = TASK_STATE_READY)
       then do! task_manager_remove_task_from_queue (task_queue_level t) task in ret tt
       else if decide (task_state t = TASK_STATE_BLOCKED)
       then do! task_manager_remove_task_from_queue TASK_MANAGER_QUEUE_INDEX_BLOCKED task in ret tt
       else ret tt) in
  do! update_task task (fun t => t <| task_state := TASK_STATE_ZOMBIE |>) in
  do! update_task task (fun t => t <| return_code := code |>) in
  let! t := load_task task in
  let! reparented := task_manager_reparent (children t) in
  if negb reparented then ret TASK_MANAGER_RESULT_OUT_OF_MEMORY
  else
    do! update_task task (fun t => t <| children := 0 |>) in
    let! t := load_task task in
    do! (if parent t =? 0 then ret tt
         else
           let! p := load_task (parent t) in
           if bool_decide (task_state p = TASK_STATE_BLOCKED)
              && bool_decide (wait_reason p = TASK_WAIT_REASON_CHILD)
              && ((wait_object p =? task_id t) || (wait_object p =? u32 (-1)))
           then do! task_manager_unblock_task (parent t) in ret tt
           else ret tt) in
    do! task_manager_enqueue_task TASK_MANAGER_QUEUE_INDEX_ZOMBIE task in
    ret TASK_MANAGER_RESULT_OK.

(** ** Queues as lists

    [seg ts p l q]: following [next] from [p] visits the tasks [l] and arrives at
    [q]. *)
Fixpoint seg (ts : gmap Z task_t) (p : Z) (l : list Z) (q : Z) : Prop :=
  match l with
  | [] => p = q
  | x :: l' => p = x /\ x <> 0 /\ exists t, ts !! x = Some t /\ seg ts (next t) l' q
  end.

(** What a task is apart from its place in a queue, and what the system is apart
    from tasks and queues. *)
Definition core (t : task_t) : task_t := t <| next := 0 |>.
Definition cores (s : os_t) : gmap Z task_t := core <$> tasks s.
Definition rest_of (s : os_t) : os_t :=
  s <| tasks := ∅ |> <| task_manager := (task_manager s) <| task_queues := [] |> |>.

(** [qs] are the queues of [s]: NULL-terminated lists, no task in two places and
    the idle task in none, every task carrying the index of its queue. *)
Record queues (s : os_t) (qs : list (list Z)) : Prop := {
  qs_length : length qs = 6%nat;
  qs_lists : Forall2 (fun p q => seg (tasks s) p q 0) (task_queues (task_manager s)) qs;
  qs_nodup : NoDup (concat qs);
  qs_idle : task_idle (task_manager s) ∉ concat qs;
  qs_levels : forall i q x t, qs !! i = Some q -> x ∈ q -> cores s !! x = Some t ->
    task_queue_level t = Z.of_nat i;
}.

Lemma seg_app ts p l1 l2 q : seg ts p (l1 ++ l2) q <-> exists y, seg ts p l1 y /\ seg ts y l2 q.
Proof using Type.
  revert p. induction l1 as [|x l1 IH]; intros p; simpl.
  - split; [by exists p|]. by intros (y & -> & ?).
  - split.
    + intros (-> & Hx & t & Ht & (y & H1 & H2)%IH). exists y. split; [|done].
      split_and!; [done|done|]. by exists t.
    + intros (y & (-> & Hx & t & Ht & H1) & H2). split_and!; [done|done|]. exists t. split; [done|].
      apply IH. by exists y.
Qed.

Lemma seg_frame ts ts' p l q :
  (forall x, x ∈ l -> next <$> ts' !! x = next <$> ts !! x) -> seg ts p l q -> seg ts' p l q.
Proof using Type.
  revert p. induction l as [|x l IH]; intros p Hx; simpl; [done|].
  intros (-> & Hne & t & Ht & Hl). pose proof (Hx x ltac:(by left)) as E. rewrite Ht in E.
  destruct (ts' !! x) as [t'|] eqn:Ht'; [|done]. injection E as E.
  split_and!; [done|done|]. exists t'. split; [done|]. rewrite E.
  apply IH; [|done]. intros y Hy. apply Hx. by right.
Qed.

Lemma seg_insert ts p l q x t : x ∉ l -> seg ts p l q -> seg (<[x := t]> ts) p l q.
Proof using Type.
  intros Hx. apply seg_frame. intros y Hy. rewrite lookup_insert_ne; [done|]. by intros ->.
Qed.

Lemma seg_in ts p l q x : seg ts p l q -> x ∈ l -> x <> 0 /\ exists t, ts !! x = Some t.
Proof using Type.
  revert p. induction l as [|y l IH]; intros p; simpl; [by intros _ ?%not_elem_of_nil|].
  intros (-> & Hne & t & Ht & Hl) [->|Hx]%elem_of_cons; [by eauto|by eapply IH].
Qed.

(** Relinking the last task of a list. *)
Lemma seg_relink ts p l z q q' t :
  seg ts p (l ++ [z]) q -> z ∉ l -> ts !! z = Some t ->
  seg (<[z := t <| next := q' |>]> ts) p (l ++ [z]) q'.
Proof using Type.
  intros (y & H1 & H2)%seg_app Hz Ht. apply seg_app. exists y.
  split; [by apply seg_insert|]. destruct H2 as (-> & Hne & _). split_and!; [done|done|].
  exists (t <| next := q' |>). by rewrite lookup_insert_eq.
Qed.

(** The walk to the last task of a queue. *)
Lemma wp_find_last s l z p n Q :
  seg (tasks s) p (l ++ [z]) 0 -> (length l < n)%nat -> Q z s ->
  wp (loop n (fun head =>
        let! t := load_task head in
        if next t =? 0 then ret (inr head) else ret (inl (next t))) p) Q s.
Proof using Type.
  intros Hseg Hn HQ. revert p n Hseg Hn. induction l as [|x l IH]; intros p n Hseg Hn; simpl in *;
    destruct n as [|n]; try lia; cbn [loop]; destruct Hseg as (-> & Hne & t & Ht & Hseg);
    wp_step; wp_step; (eapply wp_load_task; [done|]).
  - rewrite Hseg. simpl. by wp_run.
  - destruct (Z.eqb_spec (next t) 0) as [E|E].
    + exfalso. rewrite E in Hseg. destruct l; destruct Hseg as (Hz & Hne' & _); by apply Hne'.
    + wp_run. apply IH; [done|lia].
Qed.

(** ** The list queues of a state *)

Section ops.
Variables (s : os_t) (qs : list (list Z)).
Hypothesis Hq : queues s qs.

Lemma queue_at i q :
  qs !! i = Some q -> exists p, task_queues (task_manager s) !! i = Some p /\ seg (tasks s) p q 0.
Proof using Hq.
  intros Hi. destruct (Forall2_lookup_r _ _ _ _ _ (qs_lists _ _ Hq) Hi) as (p & ? & ?). by exists p.
Qed.

Lemma in_queue i q x : qs !! i = Some q -> x ∈ q -> x ∈ concat qs.
Proof using Type.
  intros Hi Hx. apply list_elem_of_In, in_concat. exists q.
  split; apply list_elem_of_In; [by eapply list_elem_of_lookup_2|done].
Qed.

Lemma concat_split i q : qs !! i = Some q ->
  concat qs = concat (take i qs) ++ q ++ concat (drop (S i) qs).
Proof using Type.
  intros Hi. rewrite <- (take_drop_middle _ _ _ Hi) at 1. rewrite concat_app. done.
Qed.

Lemma concat_insert i q q' : qs !! i = Some q ->
  concat (<[i := q']> qs) = concat (take i qs) ++ q' ++ concat (drop (S i) qs).
Proof using Type.
  intros Hi. rewrite insert_take_drop by (by eapply lookup_lt_Some). by rewrite concat_app.
Qed.

Lemma other_queue i j q q' x :
  qs !! i = Some q -> qs !! j = Some q' -> i <> j -> x ∈ q -> x ∉ q'.
Proof using Hq.
  intros Hi Hj Hij Hx Hx'. pose proof (qs_nodup _ _ Hq) as Hnd.
  rewrite (concat_split _ _ Hi) in Hnd. apply list.NoDup_app in Hnd as (_ & H1 & Hnd).
  apply list.NoDup_app in Hnd as (_ & H2 & _).
  assert (q' ∈ take i qs \/ q' ∈ drop (S i) qs) as [Hin|Hin].
  { rewrite !list_elem_of_lookup. destruct (decide (j < i)%nat).
    - left. exists j. by rewrite lookup_take_lt.
    - right. exists (j - S i)%nat. rewrite lookup_drop. by replace (S i + (j - S i))%nat with j by lia. }
  - apply (H1 x); [|apply elem_of_app; by left].
    apply list_elem_of_In, in_concat. exists q'. by split; apply list_elem_of_In.
  - apply (H2 x); [done|]. apply list_elem_of_In, in_concat. exists q'. by split; apply list_elem_of_In.
Qed.

(** Replacing queue [i] by [q'], when only tasks of [q] and [q'] and the head of
    the queue changed. *)
Lemma queues_replace s' i q q' p' :
  qs !! i = Some q ->
  task_manager s' = (task_manager s) <| task_queues := <[i := p']> (task_queues (task_manager s)) |> ->
  seg (tasks s') p' q' 0 ->
  (forall x, x ∉ q -> x ∉ q' -> tasks s' !! x = tasks s !! x) ->
  (forall x, x ∈ q' -> x ∉ q -> (x ∉ concat qs) /\ x <> task_idle (task_manager s)) ->
  NoDup q' ->
  (forall x t, x ∈ q' -> cores s' !! x = Some t -> task_queue_level t = Z.of_nat i) ->
  queues s' (<[i := q']> qs).
Proof using Hq.
  intros Hi Htm Hseg Hfr Hnew Hnd Hlev. destruct Hq as [K1 K2 K3 K4 K5].
  assert (forall j r x, qs !! j = Some r -> j <> i -> x ∈ r -> (x ∉ q) /\ x ∉ q') as Hother.
  { intros j r x Hj Hji Hx. assert (x ∉ q) as Hxq by (by eapply (other_queue j i)).
    split; [done|]. intros Hx'. destruct (Hnew x Hx' Hxq) as [Hc _]. by apply Hc, (in_queue j r). }
  split.
  - by rewrite length_insert.
  - rewrite Htm. simpl. apply Forall2_same_length_lookup_2.
    { rewrite !length_insert. by eapply Forall2_length. }
    intros j p r. destruct (decide (j = i)) as [->|Hji].
    + destruct (Forall2_lookup_r _ _ _ _ _ K2 Hi) as (p0 & Hp0 & _).
      rewrite !list_lookup_insert_eq by (by eapply lookup_lt_Some). by intros [= ->] [= ->].
    + rewrite !list_lookup_insert_ne by done. intros Hp Hr.
      eapply seg_frame; [|exact (Forall2_lookup_lr _ _ _ _ _ _ K2 Hp Hr)]. intros x Hx.
      destruct (Hother j r x Hr Hji Hx). by rewrite Hfr.
  - rewrite (concat_insert _ _ _ Hi). rewrite (concat_split _ _ Hi) in K3, Hnew.
    apply list.NoDup_app in K3 as (N1 & N2 & N3). apply list.NoDup_app in N3 as (N4 & N5 & N6).
    apply list.NoDup_app. split_and!; [done| |apply list.NoDup_app; split_and!; [done| |done]].
    + intros x Hx. specialize (N2 x Hx). specialize (Hnew x). rewrite !elem_of_app in *.
      destruct (decide (x ∈ q)); tauto.
    + intros x Hx. specialize (N5 x). specialize (Hnew x). rewrite !elem_of_app in *.
      destruct (decide (x ∈ q)); tauto.
  - rewrite Htm. simpl. rewrite (concat_insert _ _ _ Hi). rewrite (concat_split _ _ Hi) in K4, Hnew.
    intros Hin. specialize (Hnew (task_idle (task_manager s))). rewrite !elem_of_app in *.
    destruct (decide (task_idle (task_manager s) ∈ q)); tauto.
  - intros j r x t Hj Hx Hc. destruct (decide (j = i)) as [->|Hji].
    + rewrite list_lookup_insert_eq in Hj by (by eapply lookup_lt_Some). injection Hj as <-. by eapply Hlev.
    + rewrite list_lookup_insert_ne in Hj by done. destruct (Hother j r x Hj Hji Hx).
      apply (K5 j r x t Hj Hx). rewrite <- Hc. unfold cores. by rewrite !lookup_fmap, Hfr.
Qed.

Lemma queue_nodup i q : qs !! i = Some q -> NoDup q.
Proof using Hq.
  intros Hi. pose proof (qs_nodup _ _ Hq) as Hnd. rewrite (concat_split _ _ Hi) in Hnd.
  apply list.NoDup_app in Hnd as (_ & _ & Hnd). by apply list.NoDup_app in Hnd as (? & _ & _).
Qed.

Lemma queue_index i : 0 <= i < 6 -> exists q, qs !! Z.to_nat i = Some q.
Proof using Hq.
  intros Hi. destruct (lookup_lt_is_Some_2 qs (Z.to_nat i)) as [q Hqi]; [rewrite (qs_length _ _ Hq); lia|].
  by exists q.
Qed.

Lemma cores_relink x t q :
  tasks s !! x = Some t -> core <$> <[x := t <| next := q |>]> (tasks s) = cores s.
Proof using Type.
  intros Hx. rewrite fmap_insert. apply insert_id. unfold cores. rewrite lookup_fmap, Hx. done.
Qed.

(** Taking the head [x] off a queue. *)
Lemma wp_pop {A} (a : A) i x q' Q :
  0 <= i -> qs !! Z.to_nat i = Some (x :: q') ->
  (forall s', queues s' (<[Z.to_nat i := q']> qs) ->
     cores s' = cores s -> rest_of s' = rest_of s -> Q a s') ->
  wp (let! t := load_task x in do! store_queue i (next t) in do! set_next x 0 in ret a) Q s.
Proof using Hq.
  intros Hi0 Hi HQ. destruct (queue_at _ _ Hi) as (p & Hp & -> & Hx & t & Ht & Hseg).
  wp_step. eapply wp_load_task; [done|]. wp_step. apply wp_store_queue. wp_step.
  unfold set_next. eapply wp_update_task; [done|]. wp_run.
  pose proof (queue_nodup _ _ Hi) as Hnd. apply list.NoDup_cons in Hnd as [Hxq Hnd].
  apply HQ; [|by apply cores_relink|done].
  apply (queues_replace _ _ (x :: q') q' (next t)); [done|done| | | |done|].
  - simpl. by apply seg_insert.
  - intros y Hy _. simpl. rewrite lookup_insert_ne; [done|]. intros ->. apply Hy. by left.
  - intros y Hy Hy'. exfalso. apply Hy'. by right.
  - intros y u Hy. intros Hu. apply (qs_levels _ _ Hq _ (x :: q') y); [done|by right|].
    rewrite <- Hu. symmetry. simpl. unfold cores at 1. simpl. f_equal. by apply cores_relink.
Qed.

Lemma wp_dequeue i q Q :
  0 <= i -> qs !! Z.to_nat i = Some q ->
  (q = [] -> Q 0 s) ->
  (forall x q' s', q = x :: q' -> x <> 0 -> queues s' (<[Z.to_nat i := q']> qs) ->
     cores s' = cores s -> rest_of s' = rest_of s -> Q x s') ->
  wp (task_manager_dequeue_task i) Q s.
Proof using Hq.
  intros Hi0 Hi HN HQ. unfold task_manager_dequeue_task.
  destruct (queue_at _ _ Hi) as (p & Hp & Hseg). wp_step. eapply wp_load_queue; [done|].
  destruct q as [|x q']; simpl in Hseg.
  - subst p. simpl. wp_run. by apply HN.
  - destruct Hseg as (-> & Hx & _). destruct (Z.eqb_spec x 0); [done|].
    eapply wp_pop; [done|done|]. intros s' K1 K2 K3. by apply (HQ x q').
Qed.

(** What an append to queue [i] of the task [x], now [enqueued i t], leaves. *)
Definition enqueued (i : Z) (t : task_t) : task_t := t <| next := 0 |> <| task_queue_level := i |>.

Lemma cores_enqueued i x t (ts : gmap Z task_t) :
  core <$> <[x := enqueued i t]> ts = <[x := core t <| task_queue_level := i |>]> (core <$> ts).
Proof using Type. by rewrite fmap_insert. Qed.

Lemma enqueued_levels i x t q y u :
  0 <= i -> qs !! Z.to_nat i = Some q -> x ∉ concat qs -> y ∈ q ++ [x] ->
  <[x := core t <| task_queue_level := i |>]> (cores s) !! y = Some u ->
  task_queue_level u = Z.of_nat (Z.to_nat i).
Proof using Hq.
  intros Hi0 Hi Hxq [Hy| ->%list_elem_of_singleton]%elem_of_app.
  - rewrite lookup_insert_ne; [by apply (qs_levels _ _ Hq _ q y)|].
    intros ->. by apply Hxq, (in_queue (Z.to_nat i) q).
  - rewrite lookup_insert_eq. intros [= <-]. simpl. lia.
Qed.

Lemma enqueue_empty i x t s' :
  0 <= i -> qs !! Z.to_nat i = Some [] -> x <> 0 -> x ∉ concat qs ->
  x <> task_idle (task_manager s) -> tasks s' = <[x := enqueued i t]> (tasks s) ->
  task_manager s' =
    (task_manager s) <| task_queues := <[Z.to_nat i := x]> (task_queues (task_manager s)) |> ->
  queues s' (<[Z.to_nat i := [x]]> qs).
Proof using Hq.
  intros Hi0 Hi Hx Hxq Hidle Hts Htm.
  apply (queues_replace _ _ [] [x] x); rewrite ?Hts; [done|done| | | |apply NoDup_singleton|].
  - split_and!; [done|done|]. exists (enqueued i t). by rewrite lookup_insert_eq.
  - intros y _ Hy. rewrite lookup_insert_ne; [done|]. intros ->. apply Hy. by left.
  - by intros y ->%list_elem_of_singleton _.
  - intros y u Hy Hu. apply (enqueued_levels i x t [] y u Hi0 Hi Hxq Hy).
    rewrite <- Hu. unfold cores. by rewrite Hts, cores_enqueued.
Qed.

Lemma enqueue_last i x t l z tz s' :
  0 <= i -> qs !! Z.to_nat i = Some (l ++ [z]) -> x <> 0 -> x ∉ concat qs ->
  x <> task_idle (task_manager s) -> tasks s !! z = Some tz ->
  tasks s' = <[x := enqueued i t]> (<[z := tz <| next := x |>]> (tasks s)) ->
  task_manager s' = task_manager s ->
  queues s' (<[Z.to_nat i := (l ++ [z]) ++ [x]]> qs).
Proof using Hq.
  intros Hi0 Hi Hx Hxq Hidle Htz Hts Htm. destruct (queue_at _ _ Hi) as (p & Hp & Hseg).
  pose proof (queue_nodup _ _ Hi) as Hnd. assert (x ∉ l ++ [z]) as Hxl by (intros Hin; by apply Hxq, (in_queue (Z.to_nat i) (l ++ [z]))).
  apply (queues_replace _ _ (l ++ [z]) ((l ++ [z]) ++ [x]) p); rewrite ?Hts; [done| | | | | |].
  - rewrite Htm, (list_insert_id _ _ _ Hp). by destruct (task_manager s).
  - apply seg_app. exists x. split.
    + apply seg_insert; [done|]. eapply seg_relink; [done| |done].
      apply list.NoDup_app in Hnd as (_ & Hd & _). intros Hin. by apply (Hd z Hin), list_elem_of_singleton.
    + split_and!; [done|done|]. exists (enqueued i t). by rewrite lookup_insert_eq.
  - intros y Hy1 Hy2. rewrite elem_of_app, list_elem_of_singleton in Hy2.
    rewrite elem_of_app, list_elem_of_singleton in Hy1.
    rewrite !lookup_insert_ne; [done| |]; intros ->; tauto.
  - intros y Hy1 Hy2. apply elem_of_app in Hy1 as [| ->%list_elem_of_singleton]; done.
  - apply list.NoDup_app. split_and!; [done| |apply NoDup_singleton].
    intros y Hy ->%list_elem_of_singleton. done.
  - intros y u Hy Hu. apply (enqueued_levels i x t (l ++ [z]) y u Hi0 Hi Hxq Hy).
    rewrite <- Hu. unfold cores at 2. rewrite Hts, cores_enqueued. by rewrite cores_relink.
Qed.

Lemma wp_enqueue i x t q Q :
  0 <= i < 6 -> qs !! Z.to_nat i = Some q -> x <> 0 -> x ∉ concat qs ->
  x <> task_idle (task_manager s) -> tasks s !! x = Some t -> (length q < fuel)%nat ->
  (forall s', queues s' (<[Z.to_nat i := q ++ [x]]> qs) ->
     cores s' = <[x := core t <| task_queue_level := i |>]> (cores s) ->
     rest_of s' = rest_of s -> Q tt s') ->
  wp (task_manager_enqueue_task i x) Q s.
Proof using Hq.
  intros Hi0 Hi Hx Hxq Hidle Ht Hfuel HQ. unfold task_manager_enqueue_task, manager. wp_run.
  destruct (Z.eqb_spec x (task_idle (task_manager s))); [done|]. unfold set_next.
  destruct (queue_at _ _ Hi) as (p & Hp & Hseg).
  wp_step. eapply wp_update_task; [done|]. wp_step.
  eapply wp_update_task; [simpl; by rewrite lookup_insert_eq|].
  match goal with |- wp _ _ ?st => remember st as s1 eqn:Hs1 end.
  assert (tasks s1 = <[x := enqueued i t]> (tasks s)) as Hts1 by (rewrite Hs1; by apply insert_insert_eq).
  assert (task_manager s1 = task_manager s) as Htm1 by (by rewrite Hs1).
  assert (rest_of s1 = rest_of s) as Hrest1 by (by rewrite Hs1). clear Hs1.
  wp_step. eapply wp_load_queue; [by rewrite Htm1|]. destruct (Z.eqb_spec p 0) as [->|Hp0].
  - assert (q = []) as -> by (destruct q; [done|]; destruct Hseg as (Hz & Hne & _); by destruct Hne).
    apply wp_store_queue. apply HQ; [|unfold cores at 1; simpl; by rewrite Hts1, cores_enqueued|by rewrite <- Hrest1].
    apply (enqueue_empty i x t); try done; [lia|simpl; by rewrite Htm1].
  - destruct (exists_last (l := q)) as (l & z & ->); [by intros ->|].
    assert (x ∉ l ++ [z]) as Hxl by (intros Hin; by apply Hxq, (in_queue (Z.to_nat i) (l ++ [z]))).
    assert (z <> x) as Hzx by (intros ->; apply Hxl, elem_of_app; right; by left).
    destruct (seg_in _ _ _ _ z Hseg) as (Hz & tz & Htz); [apply elem_of_app; right; by left|].
    wp_step. apply (wp_find_last _ l z p); [rewrite Hts1; by apply seg_insert| |].
    { rewrite length_app in Hfuel; simpl in *; lia. }
    eapply wp_update_task; [by rewrite Hts1, lookup_insert_ne|].
    match goal with |- Q tt ?st => remember st as s2 eqn:Hs2 end.
    assert (tasks s2 = <[x := enqueued i t]> (<[z := tz <| next := x |>]> (tasks s))) as Hts
      by (rewrite Hs2; cbn; rewrite Hts1; by apply insert_insert_ne).
    apply HQ; [|unfold cores at 1; by rewrite Hts, cores_enqueued, cores_relink|by rewrite Hs2, <- Hrest1].
    apply (enqueue_last i x t l z tz); try done; [lia|by rewrite Hs2].
Qed.

(** Unlinking [x] behind [h]. *)
Lemma wp_unlink i l0 h x l2 p th tx Q :
  qs !! i = Some (l0 ++ h :: x :: l2) -> task_queues (task_manager s) !! i = Some p ->
  tasks s !! h = Some th -> tasks s !! x = Some tx ->
  (forall s', queues s' (<[i := (l0 ++ [h]) ++ l2]> qs) -> cores s' = cores s ->
     rest_of s' = rest_of s -> Q tt s') ->
  wp (do! set_next h (next tx) in set_next x 0) Q s.
Proof using Hq.
  intros Hi Hp Hh Hx HQ. unfold set_next.
  pose proof (queue_nodup _ _ Hi) as Hnd.
  destruct (queue_at _ _ Hi) as (p' & Hp' & Hseg). simplify_eq.
  assert ((x ∉ l0 ++ h :: l2) /\ NoDup ((l0 ++ [h]) ++ l2) /\ (h ∉ l0) /\ (h ∉ l2)) as (Hxn & Hnd' & Hh0 & Hh2).
  { apply list.NoDup_app in Hnd as (N1 & N2 & N3).
    apply list.NoDup_cons in N3 as [N4 N5]. apply list.NoDup_cons in N5 as [N5 N6].
    split_and!.
    - rewrite elem_of_app, elem_of_cons. intros [H|[->|H]]; [|by apply N4; left|done].
      apply (N2 x H). right. by left.
    - rewrite <- app_assoc. apply list.NoDup_app. split_and!; [done| |].
      + intros y Hy. specialize (N2 y Hy). rewrite !elem_of_cons in *. simpl. rewrite elem_of_cons. tauto.
      + simpl. apply list.NoDup_cons. split; [|done]. intros H. apply N4. by right.
    - intros H. apply (N2 h H). by left.
    - intros H. apply N4. by right. }
  assert (h <> x) as Hhx by (intros ->; apply Hxn, elem_of_app; right; by left).
  wp_step. eapply wp_update_task; [done|].
  eapply wp_update_task; [cbn; by rewrite lookup_insert_ne|].
  match goal with |- Q tt ?st => remember st as s2 eqn:Hs2 end.
  assert (tasks s2 = <[x := tx <| next := 0 |>]> (<[h := th <| next := next tx |>]> (tasks s))) as Hts
    by (by rewrite Hs2).
  assert (task_manager s2 = task_manager s) as Htm by (by rewrite Hs2).
  assert (rest_of s2 = rest_of s) as Hrest by (by rewrite Hs2).
  clear Hs2.
  assert (cores s2 = cores s) as Hcores.
  { unfold cores at 1. rewrite Hts, fmap_insert, cores_relink by done. apply insert_id.
    unfold cores. rewrite lookup_fmap, Hx. done. }
  apply HQ; [|done|done].
  apply (queues_replace _ _ (l0 ++ h :: x :: l2) ((l0 ++ [h]) ++ l2) p); rewrite ?Hts; try done.
  - rewrite Htm, (list_insert_id _ _ _ Hp). by destruct (task_manager s).
  - replace (l0 ++ h :: x :: l2) with ((l0 ++ [h]) ++ x :: l2) in Hseg by (by rewrite <- app_assoc).
    apply seg_app in Hseg as (y & H1 & -> & Hx0 & tx' & Htx' & H2). simplify_eq.
    apply seg_insert; [rewrite <- app_assoc; exact Hxn|].
    apply seg_app. exists (next tx). split; [by eapply seg_relink|]. by apply seg_insert.
  - intros y Hy1 Hy2. rewrite !lookup_insert_ne; [done| |]; intros ->; apply Hy1, elem_of_app; right;
      [by left|right; by left].
  - intros y Hy1 Hy2. exfalso. apply Hy2. rewrite <- app_assoc in Hy1.
    rewrite elem_of_app in *. simpl in *. rewrite !elem_of_cons in *. tauto.
  - intros y u Hy Hu. rewrite Hcores in Hu. apply (qs_levels _ _ Hq _ _ y _ Hi); [|done].
    rewrite <- app_assoc in Hy. rewrite elem_of_app in *. simpl in *. rewrite !elem_of_cons in *. tauto.
Qed.

Lemma wp_remove_walk i x q p Q :
  qs !! i = Some q -> task_queues (task_manager s) !! i = Some p -> x <> 0 ->
  (forall l1 l2 s', q = l1 ++ x :: l2 -> queues s' (<[i := l1 ++ l2]> qs) -> cores s' = cores s ->
     rest_of s' = rest_of s -> Q TASK_MANAGER_RESULT_OK s') ->
  (x ∉ q -> Q TASK_MANAGER_RESULT_QUEUE_TASK_NOT_FOUND s) ->
  forall l h l0 n, q = l0 ++ h :: l -> x ∉ l0 -> h <> x -> (length l < n)%nat ->
  wp (loop n (fun head =>
      let! h := load_task head in
      if next h =? 0 then ret (inr TASK_MANAGER_RESULT_QUEUE_TASK_NOT_FOUND)
      else if next h =? x then
        let! t := load_task x in
        do! set_next head (next t) in
        do! set_next x 0 in
        ret (inr TASK_MANAGER_RESULT_OK)
      else ret (inl (next h))) h) Q s.
Proof using Hq.
  intros Hi Hp Hx0 HQ HN. induction l as [|y l IH]; intros h l0 n Hql Hx Hhx Hn;
    (destruct n as [|n]; [simpl in Hn; lia|]); cbn [loop];
    destruct (queue_at _ _ Hi) as (p' & Hp' & Hseg); rewrite Hql in Hseg;
    apply seg_app in Hseg as (z & H1 & -> & Hz & th & Hth & H2).
  - wp_step. wp_step. eapply wp_load_task; [done|]. rewrite H2. simpl. wp_run. apply HN.
    rewrite Hql, elem_of_app, list_elem_of_singleton. by intros [?| ->].
  - destruct H2 as (Hy & Hy0 & ty & Hty & H2). wp_step. wp_step. eapply wp_load_task; [done|].
    rewrite Hy. destruct (Z.eqb_spec y 0); [done|]. destruct (Z.eqb_spec y x) as [->|Hyx].
    + wp_step. eapply wp_load_task; [done|].
      assert (wp (do! set_next h (next ty) in set_next x 0) (fun _ s' => Q TASK_MANAGER_RESULT_OK s') s) as Hu.
      { eapply (wp_unlink i l0 h x l p th ty); [by rewrite <- Hql|done|done|done|].
        intros s' K1 K2 K3. apply (HQ (l0 ++ [h]) l); [by rewrite <- app_assoc|done|done|done]. }
      revert Hu. unfold wp, bind. destruct (set_next h (next ty) s) as [[[] s1]| |]; [|done|done].
      by destruct (set_next x 0 s1) as [[[] s2]| |].
    + wp_run. apply (IH y (l0 ++ [h])); [by rewrite <- app_assoc| |done|simpl in Hn; lia].
      rewrite elem_of_app, list_elem_of_singleton. by intros [?| ->].
Qed.

Lemma wp_remove i x q Q :
  0 <= i -> qs !! Z.to_nat i = Some q -> x <> 0 -> (length q < fuel)%nat ->
  (forall l1 l2 s', q = l1 ++ x :: l2 -> queues s' (<[Z.to_nat i := l1 ++ l2]> qs) ->
     cores s' = cores s -> rest_of s' = rest_of s -> Q TASK_MANAGER_RESULT_OK s') ->
  (x ∉ q -> Q TASK_MANAGER_RESULT_QUEUE_TASK_NOT_FOUND s) ->
  wp (task_manager_remove_task_from_queue i x) Q s.
Proof using Hq.
  intros Hi0 Hi Hx Hfuel HQ HN. unfold task_manager_remove_task_from_queue.
  destruct (queue_at _ _ Hi) as (p & Hp & Hseg). wp_step. eapply wp_load_queue; [done|].
  destruct q as [|h l]; simpl in Hseg.
  { subst p. simpl. wp_run. apply HN, not_elem_of_nil. }
  destruct Hseg as (-> & Hh & th & Hth & Hseg). destruct (Z.eqb_spec h 0); [done|].
  destruct (Z.eqb_spec h x) as [->|Hhx].
  - eapply wp_pop; [done|done|]. intros s' K1 K2 K3. by apply (HQ [] l).
  - apply (wp_remove_walk (Z.to_nat i) x (h :: l) h Q Hi Hp Hx HQ HN l h []);
      [done|apply not_elem_of_nil|done|simpl in Hfuel; lia].
Qed.
End ops.

Lemma cores_lookup s x c : cores s !! x = Some c -> exists t, tasks s !! x = Some t /\ core t = c.
Proof using Type.
  unfold cores. rewrite lookup_fmap. destruct (tasks s !! x) as [t|]; [|done]. intros [= <-]. by exists t.
Qed.

(** Changing fields of a task other than [next]. *)
Lemma wp_update_core s qs x c f Q :
  queues s qs -> cores s !! x = Some c ->
  (forall t, next (f t) = next t) -> (forall t, core (f t) = f (core t)) ->
  ((forall t, task_queue_level (f t) = task_queue_level t) \/ x ∉ concat qs) ->
  (forall s', queues s' qs -> cores s' = <[x := f c]> (cores s) -> rest_of s' = rest_of s ->
     task_manager s' = task_manager s -> Q tt s') ->
  wp (update_task x f) Q s.
Proof using Type.
  intros Hq Hc Hnext Hcore Hlev HQ. destruct (cores_lookup s x c Hc) as (t & Ht & <-).
  eapply wp_update_task; [done|]. rewrite <- Hcore in HQ.
  match goal with |- Q tt ?st => remember st as s' eqn:Hs' end.
  assert (tasks s' = <[x := f t]> (tasks s)) as Hts by (by rewrite Hs').
  assert (cores s' = <[x := core (f t)]> (cores s)) as Hcores by (unfold cores; by rewrite Hts, fmap_insert).
  destruct Hq as [K1 K2 K3 K4 K5].
  apply HQ; [|done|by rewrite Hs'|by rewrite Hs'].
  split; [done| |done|by rewrite Hs'|].
  - assert (task_manager s' = task_manager s) as -> by (by rewrite Hs').
    rewrite Hts. eapply list.Forall2_impl; [exact K2|]. intros p q Hseg.
    eapply seg_frame; [|exact Hseg]. intros y Hy.
    destruct (decide (y = x)) as [->|].
    + rewrite lookup_insert_eq, Ht. cbn. by rewrite Hnext.
    + by rewrite lookup_insert_ne.
  - intros i q y u Hi Hy Hu. rewrite Hcores in Hu. destruct (decide (y = x)) as [->|].
    + rewrite lookup_insert_eq in Hu. injection Hu as <-. rewrite Hcore.
      destruct Hlev as [Hlev|Hx]; [|by destruct Hx; eapply in_queue].
      rewrite Hlev. by apply (K5 i q x).
    + rewrite lookup_insert_ne in Hu by done. by apply (K5 i q y).
Qed.

(** ** Properties *)

(** Enqueue.  A task that is in no queue (and is not the idle task) goes to
    the end of the given queue and takes that queue's index as its level;
    nothing else about it, no other task and no other queue changes. *)
Theorem task_manager_enqueue_task_spec s qs i x c :
  queues s qs -> 0 <= i < 6 -> x <> 0 -> x ∉ concat qs -> x <> task_idle (task_manager s) ->
  cores s !! x = Some c -> (length (concat qs) < fuel)%nat ->
  wp (task_manager_enqueue_task i x)
     (fun _ s' => exists q, qs !! Z.to_nat i = Some q /\
        queues s' (<[Z.to_nat i := q ++ [x]]> qs) /\
        cores s' = <[x := c <| task_queue_level := i |>]> (cores s) /\
        rest_of s' = rest_of s) s.
Proof using Type.
  intros Hq Hi Hx Hxq Hidle Hc Hfuel. destruct (cores_lookup s x c Hc) as (t & Ht & <-).
  destruct (queue_index s qs Hq i Hi) as (q & Hqi).
  eapply (wp_enqueue s qs Hq i x t q); try done.
  - rewrite (concat_split qs _ _ Hqi), !length_app in Hfuel. lia.
  - intros s' K1 K2 K3. by exists q.
Qed.

(** Dequeue.  The head of the queue is removed and answered, or NULL for an
    empty queue; no task changes but for its link and the other queues stay. *)
Theorem task_manager_dequeue_task_spec s qs i :
  queues s qs -> 0 <= i < 6 ->
  wp (task_manager_dequeue_task i)
     (fun r s' => exists q, qs !! Z.to_nat i = Some q /\ r = default 0 (head q) /\
        queues s' (<[Z.to_nat i := tail q]> qs) /\ cores s' = cores s /\ rest_of s' = rest_of s) s.
Proof using Type.
  intros Hq Hi. destruct (queue_index s qs Hq i Hi) as (q & Hqi).
  apply (wp_dequeue s qs Hq i q); [lia|done| |].
  - intros ->. exists []. split_and!; try done. simpl. by rewrite list_insert_id.
  - intros x q' s' -> Hx K1 K2 K3. by exists (x :: q').
Qed.

(** Removal.  A task that is in the queue is unlinked from it, wherever it
    stands, and the order of the others is kept; for a task that is not, the
    state is unchanged and the answer says so. *)
Theorem task_manager_remove_task_from_queue_spec s qs i x :
  queues s qs -> 0 <= i < 6 -> x <> 0 -> (length (concat qs) < fuel)%nat ->
  wp (task_manager_remove_task_from_queue i x)
     (fun r s' => exists q, qs !! Z.to_nat i = Some q /\
        (r = TASK_MANAGER_RESULT_OK /\ x ∈ q /\
         queues s' (<[Z.to_nat i := filter (fun y : Z => y <> x) q]> qs) /\
         cores s' = cores s /\ rest_of s' = rest_of s
         \/ r = TASK_MANAGER_RESULT_QUEUE_TASK_NOT_FOUND /\ (x ∉ q) /\ s' = s)) s.
Proof using Type.
  intros Hq Hi Hx Hfuel. destruct (queue_index s qs Hq i Hi) as (q & Hqi).
  apply (wp_remove s qs Hq i x q); [lia|done|done| | |].
  - rewrite (concat_split qs _ _ Hqi), !length_app in Hfuel. lia.
  - intros l1 l2 s' -> K1 K2 K3. exists (l1 ++ x :: l2). split; [done|]. left.
    pose proof (queue_nodup s qs Hq _ _ Hqi) as Hnd.
    apply list.NoDup_app in Hnd as (_ & N1 & N2). apply list.NoDup_cons in N2 as [N2 _].
    assert (forall l : list Z, x ∉ l -> filter (fun y : Z => y <> x) l = l) as Hf.
    { induction l as [|y l IH]; intros Hl; [done|]. rewrite not_elem_of_cons in Hl. destruct Hl as [Hy Hl].
      rewrite filter_cons_True by (by intros ->). by rewrite IH. }
    split_and!; [done|apply elem_of_app; right; by left| |done|done].
    rewrite list.filter_app, filter_cons_False by (by intros H). rewrite !Hf; [done|done|].
    intros Hin. apply (N1 x Hin). by left.
  - intros Hn. exists q. split; [done|]. by right.
Qed.

(** ** Picking the next task *)

(** The task picked from [qs]: the head of the first queue that is not empty. *)
Fixpoint first_ready (i : Z) (qs : list (list Z)) : option (Z * Z) :=
  match qs with
  | [] => None
  | [] :: qs' => first_ready (i + 1) qs'
  | (x :: _) :: _ => Some (i, x)
  end.

Lemma wp_pick_from s qs n i Q :
  queues s qs -> (Z.to_nat i + n = 4)%nat -> 0 <= i -> is_Some (cores s !! task_idle (task_manager s)) ->
  (forall j x q c s', first_ready i (take n (drop (Z.to_nat i) qs)) = Some (j, x) ->
     i <= j < 4 -> qs !! Z.to_nat j = Some (x :: q) -> cores s !! x = Some c ->
     queues s' (<[Z.to_nat j := q]> qs) ->
     cores s' = <[x := c <| task_time_slice := task_manager_calculate_time_slice j |>]> (cores s) ->
     rest_of s' = rest_of s -> Q x s') ->
  (forall c s', first_ready i (take n (drop (Z.to_nat i) qs)) = None ->
     cores s !! task_idle (task_manager s) = Some c -> queues s' qs ->
     cores s' = <[task_idle (task_manager s) :=
                    c <| task_time_slice := task_manager_calculate_time_slice 0 |>]> (cores s) ->
     rest_of s' = rest_of s -> Q (task_idle (task_manager s)) s') ->
  wp (task_manager_pick_from n i) Q s.
Proof using Type.
  intros Hq. revert i. induction n as [|n IH]; intros i Hn Hi [ci Hci] HQ HN; cbn [task_manager_pick_from].
  - unfold manager. wp_run. eapply (wp_update_core s qs); [done|done|done|done|by left|].
    intros s' K1 K2 K3 K4. wp_run. by apply (HN ci).
  - destruct (queue_index s qs Hq i) as (q & Hqi); [lia|].
    destruct (queue_at s qs Hq _ _ Hqi) as (p & Hp & Hseg).
    rewrite (drop_S _ _ _ Hqi) in HQ, HN. simpl in HQ, HN.
    replace (S (Z.to_nat i)) with (Z.to_nat (i + 1)) in HQ, HN by lia.
    wp_step. eapply wp_load_queue; [done|]. destruct q as [|x q]; simpl in Hseg.
    + subst p. simpl. apply IH; [lia|lia|by exists ci| |done].
      intros j x q c s' K1 K2. apply HQ; [done|lia].
    + destruct Hseg as (-> & Hx & t & Ht & Hseg). destruct (Z.eqb_spec x 0); [done|].
      wp_step. apply (wp_dequeue s qs Hq i (x :: q)); [lia|done|done|].
      intros x' q' s1 [= <- <-] _ K1 K2 K3.
      assert (cores s !! x = Some (core t)) as Hcx by (unfold cores; by rewrite lookup_fmap, Ht).
      rewrite <- K2 in Hcx. destruct (cores_lookup s1 x _ Hcx) as (t1 & Ht1 & Hc1).
      wp_step. eapply wp_load_task; [done|].
      assert (bool_decide (task_state t1 <> TASK_STATE_READY)
              || bool_decide (task_state t1 <> TASK_STATE_RUNNING) = true) as ->
        by (destruct (task_state t1); done).
      wp_step. eapply (wp_update_core s1 _ x (core t)); [exact K1|done|done|done|by left|].
      intros s2 K4 K5 K6 K7. wp_run. rewrite K2 in Hcx.
      apply (HQ i x q (core t)); [done|lia|done|done|done|by rewrite K5, K2|by rewrite K6].
Qed.

(** Picking.  [task_manager_pick_task] takes the head of the first of the
    four ready queues that is not empty, with a time slice that doubles per
    level (4, 8, 16, 32 ticks), and leaves the other queues alone; when all four
    are empty it answers the idle task.  The state of the picked task plays no
    role. *)
Theorem task_manager_pick_task_spec s qs :
  queues s qs -> is_Some (cores s !! task_idle (task_manager s)) ->
  wp task_manager_pick_task
     (fun r s' => exists c, cores s !! r = Some c /\ rest_of s' = rest_of s /\
        match first_ready 0 (take 4 qs) with
        | Some (i, x) => r = x /\ 0 <= i < 4 /\
            queues s' (<[Z.to_nat i := tail (default [] (qs !! Z.to_nat i))]> qs) /\
            cores s' = <[x := c <| task_time_slice := 4 * 2 ^ i |>]> (cores s)
        | None => r = task_idle (task_manager s) /\ queues s' qs /\
            cores s' = <[r := c <| task_time_slice := 4 |>]> (cores s)
        end) s.
Proof using Type.
  intros Hq Hidle. unfold task_manager_pick_task.
  change (Z.to_nat TASK_MANAGER_QUEUE_LEVELS) with 4%nat.
  assert (forall i, 0 <= i < 4 -> task_manager_calculate_time_slice i = 4 * 2 ^ i) as Hslice.
  { intros i Hi. unfold task_manager_calculate_time_slice, TASK_MANAGER_QUEUE_INDEX_BLOCKED, TASK_MANAGER_QUEUE_LEVELS.
    rewrite Z.shiftl_1_l. assert (i = 0 \/ i = 1 \/ i = 2 \/ i = 3) as [->|[->|[->| ->]]] by lia; done. }
  apply (wp_pick_from s qs); [done|done|lia|done| |].
  - intros j x q c s' H1 H2 H3 H4 H5 H6 H7. simpl in H1. rewrite drop_0 in H1. exists c.
    rewrite H1, H3, <- Hslice by lia. done.
  - intros c s' H1 H2 H3 H4 H5. simpl in H1. rewrite drop_0 in H1. exists c. rewrite H1. done.
Qed.

(** ** The priority boost *)

(** The tasks of [l] get level 0. *)
Definition lowered (l : list Z) (cs cs' : gmap Z task_t) : Prop :=
  forall x, cs' !! x =
    if bool_decide (x ∈ l) then (fun c => c <| task_queue_level := 0 |>) <$> cs !! x else cs !! x.

Lemma lowered_trans l1 l2 cs1 cs2 cs3 :
  lowered l1 cs1 cs2 -> lowered l2 cs2 cs3 -> lowered (l1 ++ l2) cs1 cs3.
Proof using Type.
  intros H1 H2 x. rewrite H2, H1. specialize (H1 x). clear H2.
  destruct (decide (x ∈ l1)), (decide (x ∈ l2)).
  - rewrite !bool_decide_eq_true_2 by (done || (apply elem_of_app; by left)). by destruct (cs1 !! x).
  - rewrite bool_decide_eq_false_2 by done.
    by rewrite !bool_decide_eq_true_2 by (done || (apply elem_of_app; by left)).
  - rewrite bool_decide_eq_true_2 by done. rewrite bool_decide_eq_false_2 by done.
    by rewrite bool_decide_eq_true_2 by (apply elem_of_app; by right).
  - rewrite !bool_decide_eq_false_2; [done| |done|done]. rewrite elem_of_app. tauto.
Qed.

Definition boost_loop (n : nat) (i : Z) : M os_t unit :=
  loop n (fun _ : unit =>
      let! head := load_queue i in
      if head =? 0 then ret (inr tt)
      else
        let! task := task_manager_dequeue_task i in
        do! update_task task (fun t => t <| task_queue_level := 0 |>) in
        do! task_manager_enqueue_task 0 task in
        ret (inl tt)) tt.

Lemma total_length (qs : list (list Z)) i q : qs !! i = Some q -> (length q <= length (concat qs))%nat.
Proof using Type. intros Hi. rewrite (concat_split qs _ _ Hi), !length_app. lia. Qed.

(** The first task of a queue is nowhere else. *)
Lemma head_once s qs i x q :
  queues s qs -> qs !! i = Some (x :: q) -> x ∉ concat (<[i := q]> qs).
Proof using Type.
  intros Hq Hqi. pose proof (qs_nodup _ _ Hq) as Hnd. rewrite (concat_split qs _ _ Hqi) in Hnd.
  rewrite (concat_insert qs _ _ _ Hqi). apply list.NoDup_app in Hnd as (_ & N1 & N2).
  apply list.NoDup_app in N2 as (N2 & N3 & _). apply list.NoDup_cons in N2 as [N2 _].
  rewrite !elem_of_app. intros [Hin|[Hin|Hin]]; [|done|].
  - apply (N1 x Hin), elem_of_app. left. by left.
  - apply (N3 x); [by left|done].
Qed.

(** One task goes from queue [i] to the end of the top queue. *)
Lemma wp_boost_one i s qs q0 x qi (Q : unit + unit -> os_t -> Prop) :
  queues s qs -> 1 <= i < 6 -> qs !! 0%nat = Some q0 -> qs !! Z.to_nat i = Some (x :: qi) -> (length q0 < fuel)%nat ->
  (forall s', queues s' (<[0%nat := q0 ++ [x]]> (<[Z.to_nat i := qi]> qs)) ->
     lowered [x] (cores s) (cores s') -> rest_of s' = rest_of s -> Q (inl tt) s') ->
  wp (let! task := task_manager_dequeue_task i in
      do! update_task task (fun t => t <| task_queue_level := 0 |>) in
      do! task_manager_enqueue_task 0 task in
      ret (inl tt)) Q s.
Proof using Type.
  intros Hq Hi H0 Hqi Hf HQ. destruct (queue_at s qs Hq _ _ Hqi) as (p & Hp & -> & Hx & t & Ht & _).
  wp_step. apply (wp_dequeue s qs Hq i (x :: qi)); [lia|done|done|].
  intros y q' s1 [= <- <-] _ K1 K2 K3.
  assert (cores s1 !! x = Some (core t)) as Hcx by (rewrite K2; unfold cores; by rewrite lookup_fmap, Ht).
  pose proof (head_once s qs _ x qi Hq Hqi) as Hxc.
  assert (x <> task_idle (task_manager s1)) as Hidle.
  { assert (task_idle (task_manager s1) = task_idle (task_manager s)) as ->
      by (change (task_idle (task_manager (rest_of s1)) = task_idle (task_manager (rest_of s))); by rewrite K3).
    intros ->. apply (qs_idle _ _ Hq). apply (in_queue qs (Z.to_nat i) _ _ Hqi). by left. }
  wp_step. eapply (wp_update_core s1 _ x (core t)); [exact K1|done|done|done|by right|].
  intros s2 K4 K5 K6 K7. assert (cores s2 !! x = Some (core t <| task_queue_level := 0 |>)) as Hc2
    by (by rewrite K5, lookup_insert_eq).
  destruct (cores_lookup s2 x _ Hc2) as (t2 & Ht2 & Hct2).
  wp_step. apply (wp_enqueue s2 _ K4 0 x t2 q0); try done; [by rewrite list_lookup_insert_ne by lia|by rewrite K7|].
  intros s3 K8 K9 K10. wp_run. apply HQ; [exact K8| |congruence]. intros y. rewrite K9, K5.
  destruct (decide (y = x)) as [->|Hyx].
  - rewrite bool_decide_eq_true_2 by (by left). rewrite lookup_insert_eq, <- K2, Hcx.
    transitivity (Some ((core t2) <| task_queue_level := 0 |>)); [done|]. by rewrite Hct2.
  - rewrite bool_decide_eq_false_2 by (by rewrite list_elem_of_singleton).
    rewrite !lookup_insert_ne by done. by rewrite K2.
Qed.

Lemma wp_boost_loop n i s qs q0 qi Q :
  queues s qs -> 1 <= i < 6 -> qs !! 0%nat = Some q0 -> qs !! Z.to_nat i = Some qi ->
  (length q0 + length qi < fuel)%nat -> (length qi < n)%nat ->
  (forall s', queues s' (<[Z.to_nat i := []]> (<[0%nat := q0 ++ qi]> qs)) ->
     lowered qi (cores s) (cores s') -> rest_of s' = rest_of s -> Q tt s') ->
  wp (boost_loop n i) Q s.
Proof using Type.
  intros Hq Hi. unfold boost_loop.
  revert n s qs q0 Hq. induction qi as [|x qi IH]; intros n s qs q0 Hq H0 Hqi Hf Hn HQ;
    (destruct n as [|n]; [simpl in Hn; lia|]); cbn [loop].
  all: destruct (queue_at s qs Hq _ _ Hqi) as (p & Hp & Hseg); wp_step; wp_step; (eapply wp_load_queue; [done|]).
  - simpl in Hseg. subst p. simpl. wp_run. apply HQ; [|by intros x|done].
    rewrite app_nil_r, (list_insert_id qs 0) by done. by rewrite list_insert_id.
  - destruct Hseg as (-> & Hx & _). destruct (Z.eqb_spec x 0); [done|].
    apply (wp_boost_one i s qs q0 x qi); try done; [lia|]. intros s1 K1 K2 K3.
    apply (IH n s1 (<[0%nat := q0 ++ [x]]> (<[Z.to_nat i := qi]> qs)) (q0 ++ [x])); try done.
    + rewrite list_lookup_insert_eq; [done|]. rewrite length_insert, (qs_length _ _ Hq). lia.
    + rewrite list_lookup_insert_ne, list_lookup_insert_eq; [done| |lia]. rewrite (qs_length _ _ Hq). lia.
    + rewrite length_app. simpl in *. lia.
    + simpl in Hn. lia.
    + intros s2 L1 L2 L3. apply HQ; [|by eapply (lowered_trans [x] qi)|congruence].
      rewrite <- app_assoc in L1. simpl in L1. rewrite list_insert_insert_eq in L1.
      rewrite (list_insert_insert_ne qs 0) in L1 by lia. by rewrite list_insert_insert_eq in L1.
Qed.

Definition at_boost (s : os_t) : os_t :=
  s <| task_manager := (task_manager s) <| last_priority_boost_at_ticks := timer_ticks s |> |>.

(** Boost.  [task_manager_boost_priority_of_all_tasks] moves every ready
    task to the top queue, keeping the order within each queue and the higher
    queues in front, gives each moved task level 0, leaves the blocked and
    zombie queues and every other field alone, and records the current tick. *)
Theorem task_manager_boost_priority_of_all_tasks_spec s q0 q1 q2 q3 q4 q5 :
  queues s [q0; q1; q2; q3; q4; q5] -> (length (q0 ++ q1 ++ q2 ++ q3) < fuel)%nat ->
  wp task_manager_boost_priority_of_all_tasks
     (fun _ s' => queues s' [q0 ++ q1 ++ q2 ++ q3; []; []; []; q4; q5] /\
        lowered (q1 ++ q2 ++ q3) (cores s) (cores s') /\
        last_priority_boost_at_ticks (task_manager s') = timer_ticks s /\
        rest_of s' = rest_of (at_boost s)) s.
Proof using Type.
  intros Hq Hf. unfold task_manager_boost_priority_of_all_tasks. rewrite !length_app in Hf.
  change (for_range 1 TASK_MANAGER_QUEUE_LEVELS _) with
    (do! boost_loop fuel 1 in do! boost_loop fuel 2 in do! boost_loop fuel 3 in ret tt : M os_t unit).
  wp_step. wp_step. apply (wp_boost_loop fuel 1 s [q0; q1; q2; q3; q4; q5] q0 q1); [exact Hq|lia|done|done|lia|lia|].
  intros s1 K1 L1 R1. simpl in K1.
  wp_step. eapply (wp_boost_loop fuel 2 s1 _ (q0 ++ q1) q2); [exact K1|lia|done|done|rewrite length_app; lia|lia|].
  intros s2 K2 L2 R2. simpl in K2.
  wp_step. eapply (wp_boost_loop fuel 3 s2 _ ((q0 ++ q1) ++ q2) q3);
    [exact K2|lia|done|done|rewrite !length_app; lia|lia|].
  intros s3 K3 L3 R3. simpl in K3. rewrite <- !app_assoc in K3.
  assert (rest_of s3 = rest_of s) as R by congruence.
  assert (timer_ticks s3 = timer_ticks s) as Ht
    by (change (timer_ticks (rest_of s3) = timer_ticks (rest_of s)); by rewrite R).
  unfold timer_get_ticks, update_manager. wp_run. split_and!; [| |exact Ht|].
  - by destruct K3.
  - rewrite app_assoc. eapply lowered_trans; [eapply lowered_trans; [exact L1|exact L2]|exact L3].
  - change (rest_of (at_boost s3) = rest_of (at_boost s)).
    assert (forall x, rest_of (at_boost x) = at_boost (rest_of x)) as E by done.
    by rewrite !E, R.
Qed.

(** ** Blocking and waking *)

(** The queues without task [x]. *)
Definition purge (x : Z) (qs : list (list Z)) : list (list Z) :=
  (fun q => filter (fun y : Z => y <> x) q) <$> qs.

Lemma filter_absent (x : Z) (l : list Z) : x ∉ l -> filter (fun y : Z => y <> x) l = l.
Proof using Type.
  induction l as [|y l IH]; intros Hl; [done|]. rewrite not_elem_of_cons in Hl. destruct Hl as [Hy Hl].
  rewrite filter_cons_True by (by intros ->). by rewrite IH.
Qed.

Lemma purge_absent x qs : x ∉ concat qs -> purge x qs = qs.
Proof using Type.
  intros Hx. unfold purge. rewrite <- (list_fmap_id qs) at 2. apply list_fmap_ext.
  intros i q Hi. apply filter_absent. intros Hin. by apply Hx, (in_queue qs i q).
Qed.

Lemma not_in_purge x qs : x ∉ concat (purge x qs).
Proof using Type.
  intros Hin. apply list_elem_of_In, in_concat in Hin as (l & Hl1 & Hl2).
  apply list_elem_of_In in Hl1, Hl2. apply list_elem_of_fmap in Hl1 as (l' & -> & _).
  by apply list_elem_of_filter in Hl2 as [? _].
Qed.

Lemma purge_present s qs i x l1 l2 :
  queues s qs -> qs !! i = Some (l1 ++ x :: l2) -> <[i := l1 ++ l2]> qs = purge x qs.
Proof using Type.
  intros Hq Hi. apply list_eq. intros j. unfold purge. rewrite list_lookup_fmap.
  pose proof (queue_nodup s qs Hq _ _ Hi) as Hnd.
  apply list.NoDup_app in Hnd as (_ & N1 & N2). apply list.NoDup_cons in N2 as [N2 _].
  destruct (decide (j = i)) as [->|Hji].
  - rewrite list_lookup_insert_eq by (by eapply lookup_lt_Some). rewrite Hi. simpl. f_equal.
    rewrite list.filter_app, filter_cons_False by (by intros H).
    rewrite !filter_absent; [done|done|]. intros Hin. apply (N1 x Hin). by left.
  - rewrite list_lookup_insert_ne by done. destruct (qs !! j) as [q|] eqn:Hj; [|done]. simpl. f_equal.
    symmetry. apply filter_absent. apply (other_queue s qs Hq i j (l1 ++ x :: l2)); [done|done|done|].
    apply elem_of_app. right. by left.
Qed.

(** A task leaves the queue of its level, if it is in one, for queue [j]. *)
Lemma wp_move s qs j x c Q :
  queues s qs -> 0 <= j < 6 -> x <> 0 -> x <> task_idle (task_manager s) ->
  cores s !! x = Some c -> 0 <= task_queue_level c < 6 -> (length (concat qs) < fuel)%nat ->
  (forall q s', purge x qs !! Z.to_nat j = Some q ->
     queues s' (<[Z.to_nat j := q ++ [x]]> (purge x qs)) ->
     cores s' = <[x := c <| task_queue_level := j |>]> (cores s) ->
     rest_of s' = rest_of s -> Q TASK_MANAGER_RESULT_OK s') ->
  wp (do! task_manager_remove_task_from_queue (task_queue_level c) x in
      do! task_manager_enqueue_task j x in ret TASK_MANAGER_RESULT_OK) Q s.
Proof using Type.
  intros Hq Hj Hx Hidle Hc Hl Hfuel HQ.
  destruct (queue_index s qs Hq (task_queue_level c) Hl) as (q & Hqi).
  assert (forall s1, queues s1 (purge x qs) -> cores s1 = cores s -> rest_of s1 = rest_of s ->
    wp (do! task_manager_enqueue_task j x in ret TASK_MANAGER_RESULT_OK) Q s1) as Hgo.
  { intros s1 K1 K2 K3. rewrite <- K2 in Hc. destruct (cores_lookup s1 x c Hc) as (t & Ht & <-).
    destruct (queue_index s1 _ K1 j Hj) as (q' & Hq'). wp_step.
    eapply (wp_enqueue s1 _ K1 j x t q'); try done.
    - intros Hin. apply list_elem_of_In in Hin.
      apply in_concat in Hin as (l & Hl1 & Hl2). apply list_elem_of_In in Hl1, Hl2.
      unfold purge in Hl1. apply list_elem_of_fmap in Hl1 as (l' & -> & _).
      by apply list_elem_of_filter in Hl2 as [? _].
    - assert (task_idle (task_manager s1) = task_idle (task_manager s)) as ->; [|done].
      change (task_idle (task_manager (rest_of s1)) = task_idle (task_manager (rest_of s))). by rewrite K3.
    - unfold purge in Hq'. rewrite list_lookup_fmap in Hq'.
      destruct (qs !! Z.to_nat j) as [q0|] eqn:E; [|done]. injection Hq' as <-.
      pose proof (total_length qs _ _ E). pose proof (length_filter (fun y : Z => y <> x) q0). lia.
    - intros s2 K4 K5 K6. wp_run. apply (HQ q'); [done|done|by rewrite K5, K2|by rewrite K6]. }
  wp_step. apply (wp_remove s qs Hq _ x q); [lia|done|done| | |].
  - pose proof (total_length qs _ _ Hqi). lia.
  - intros l1 l2 s1 -> K1 K2 K3. apply Hgo; [|done|done]. by rewrite <- (purge_present s qs (Z.to_nat (task_queue_level c)) x l1 l2).
  - intros Hn. apply Hgo; [|done|done]. rewrite purge_absent; [done|].
    intros Hin. apply list_elem_of_In, in_concat in Hin as (l & Hl1 & Hl2).
    apply list_elem_of_In in Hl1, Hl2. apply list_elem_of_lookup in Hl1 as [i Hi].
    pose proof (qs_levels _ _ Hq i l x c Hi Hl2 Hc) as E.
    apply Hn. assert (Z.to_nat (task_queue_level c) = i) by lia. by simplify_eq.
Qed.

(** Blocking.  Blocking a task that is not blocked takes it out of the
    queue it is in, if any, puts it at the end of the blocked queue and records
    the reason and the object it waits for; the order of all other tasks is
    kept.  Blocking a blocked task does nothing. *)
Theorem task_manager_block_task_spec s qs x c reason object :
  queues s qs -> x <> 0 -> x <> task_idle (task_manager s) -> cores s !! x = Some c ->
  0 <= task_queue_level c < 6 -> (length (concat qs) < fuel)%nat ->
  wp (task_manager_block_task x reason object)
     (fun r s' => r = TASK_MANAGER_RESULT_OK /\
        if decide (task_state c = TASK_STATE_BLOCKED) then s' = s
        else exists blocked, purge x qs !! 4%nat = Some blocked /\
          queues s' (<[4%nat := blocked ++ [x]]> (purge x qs)) /\
          cores s' = <[x := c <| task_state := TASK_STATE_BLOCKED |> <| wait_object := object |>
                              <| wait_reason := reason |> <| task_queue_level := 4 |>]> (cores s) /\
          rest_of s' = rest_of s) s.
Proof using Type.
  intros Hq Hx Hidle Hc Hl Hfuel. unfold task_manager_block_task.
  destruct (cores_lookup s x c Hc) as (t & Ht & <-).
  wp_step. eapply wp_load_task; [done|]. change (task_state (core t)) with (task_state t).
  destruct (decide (task_state t = TASK_STATE_BLOCKED)); [by wp_run|].
  wp_step. eapply (wp_update_core s qs); [done..|by left|]. intros s1 K1 K2 K3 K4.
  wp_step. eapply (wp_update_core s1 qs x); [done|by rewrite K2, lookup_insert_eq|done|done|by left|].
  intros s2 L1 L2 L3 L4.
  wp_step. eapply (wp_update_core s2 qs x); [done|by rewrite L2, lookup_insert_eq|done|done|by left|].
  intros s3 M1 M2 M3 M4.
  match type of M2 with _ = <[x := ?c']> _ => apply (wp_move s3 qs 4 x c') end;
    try done; [by rewrite M4, L4, K4|by rewrite M2, lookup_insert_eq|].
  intros q s4 N1 N2 N3 N4. split; [done|]. exists q. split_and!; [done|done| |congruence].
  rewrite N3, M2, L2, K2, !insert_insert_eq. done.
Qed.

Lemma wp_unblock s qs x c Q :
  queues s qs -> x <> 0 -> x <> task_idle (task_manager s) -> cores s !! x = Some c ->
  task_state c = TASK_STATE_BLOCKED ->
  0 <= task_queue_level c < 6 -> (length (concat qs) < fuel)%nat ->
  (forall q s', purge x qs !! 0%nat = Some q ->
     queues s' (<[0%nat := q ++ [x]]> (purge x qs)) ->
     cores s' = <[x := c <| task_state := TASK_STATE_READY |> <| task_queue_level := 0 |>]> (cores s) ->
     rest_of s' = rest_of s -> Q TASK_MANAGER_RESULT_OK s') ->
  wp (task_manager_unblock_task x) Q s.
Proof using Type.
  intros Hq Hx Hidle Hc Hst Hl Hfuel HQ. unfold task_manager_unblock_task.
  destruct (cores_lookup s x c Hc) as (t & Ht & <-).
  wp_step. eapply wp_load_task; [done|]. change (task_state (core t)) with (task_state t) in Hst.
  destruct (decide (task_state t <> TASK_STATE_BLOCKED)); [done|].
  wp_step. eapply (wp_update_core s qs); [done..|by left|]. intros s1 K1 K2 K3 K4.
  match type of K2 with _ = <[x := ?c']> _ => apply (wp_move s1 qs 0 x c') end;
    try done; [by rewrite K4|by rewrite K2, lookup_insert_eq|].
  intros q s4 N1 N2 N3 N4. apply (HQ q); [done|done| |congruence].
  rewrite N3, K2, !insert_insert_eq. done.
Qed.

(** Unblocking.  A blocked task leaves the blocked queue and becomes ready
    at the end of the top queue; a task that is not blocked is left alone. *)
Theorem task_manager_unblock_task_spec s qs x c :
  queues s qs -> x <> 0 -> x <> task_idle (task_manager s) -> cores s !! x = Some c ->
  0 <= task_queue_level c < 6 -> (length (concat qs) < fuel)%nat ->
  wp (task_manager_unblock_task x)
     (fun r s' => r = TASK_MANAGER_RESULT_OK /\
        if decide (task_state c = TASK_STATE_BLOCKED) then
          exists top, purge x qs !! 0%nat = Some top /\
          queues s' (<[0%nat := top ++ [x]]> (purge x qs)) /\
          cores s' = <[x := c <| task_state := TASK_STATE_READY |> <| task_queue_level := 0 |>]> (cores s) /\
          rest_of s' = rest_of s
        else s' = s) s.
Proof using Type.
  intros Hq Hx Hidle Hc Hl Hfuel. destruct (decide (task_state c = TASK_STATE_BLOCKED)) as [E|E].
  - apply (wp_unblock s qs x c); try done. intros q s' K1 K2 K3 K4. split; [done|]. by exists q.
  - destruct (cores_lookup s x c Hc) as (t & Ht & <-). unfold task_manager_unblock_task.
    wp_step. eapply wp_load_task; [done|]. change (task_state (core t)) with (task_state t) in E.
    rewrite decide_True by done. by wp_run.
Qed.

(** Task [x] waits for [object] because of [reason]. *)
Definition waits_for (cs : gmap Z task_t) (reason : task_wait_reason_t) (object x : Z) : bool :=
  match cs !! x with
  | Some c => bool_decide (wait_reason c = reason) && (wait_object c =? object)
  | None => false
  end.

(** The tasks of [l] became ready at the top level. *)
Definition readied (l : list Z) (cs cs' : gmap Z task_t) : Prop :=
  forall x, cs' !! x =
    if bool_decide (x ∈ l)
    then (fun c => c <| task_state := TASK_STATE_READY |> <| task_queue_level := 0 |>) <$> cs !! x
    else cs !! x.

Lemma seg_start ts p l : seg ts p l 0 -> p = default 0 (head l).
Proof using Type. destruct l; simpl; [done|]. by intros [-> _]. Qed.

Lemma readied_cons x c l cs cs1 cs2 :
  cs !! x = Some c -> x ∉ l ->
  cs1 = <[x := c <| task_state := TASK_STATE_READY |> <| task_queue_level := 0 |>]> cs ->
  readied l cs1 cs2 -> readied (x :: l) cs cs2.
Proof using Type.
  intros Hx Hl -> H y. rewrite H. destruct (decide (y = x)) as [->|Hyx].
  - rewrite bool_decide_eq_false_2, bool_decide_eq_true_2; [|by left|done].
    by rewrite lookup_insert_eq, Hx.
  - rewrite lookup_insert_ne by done. rewrite (bool_decide_ext (y ∈ x :: l) (y ∈ l)); [done|].
    rewrite elem_of_cons. tauto.
Qed.

(** One blocked task goes to the end of the top queue. *)
Lemma wp_wake_one s q0 q1 q2 q3 q5 kept x r c Q :
  queues s [q0; q1; q2; q3; kept ++ x :: r; q5] -> x <> 0 -> cores s !! x = Some c ->
  task_state c = TASK_STATE_BLOCKED ->
  (length (concat [q0; q1; q2; q3; kept ++ x :: r; q5]) < fuel)%nat ->
  (forall s', queues s' [q0 ++ [x]; q1; q2; q3; kept ++ r; q5] ->
     cores s' = <[x := c <| task_state := TASK_STATE_READY |> <| task_queue_level := 0 |>]> (cores s) ->
     rest_of s' = rest_of s -> Q TASK_MANAGER_RESULT_OK s') ->
  wp (task_manager_unblock_task x) Q s.
Proof using Type.
  intros Hq Hx Hc Hb Hf HQ. assert (x ∈ kept ++ x :: r) as Hin by (apply elem_of_app; right; by left).
  apply (wp_unblock s _ x c _ Hq); try done.
  - intros ->. apply (qs_idle _ _ Hq). by apply (in_queue _ 4%nat (kept ++ task_idle (task_manager s) :: r)).
  - rewrite (qs_levels _ _ Hq 4%nat (kept ++ x :: r) x c); [lia|done|done|done].
  - intros q s1 K1 K2 K3 K4. rewrite <- (purge_present s _ 4%nat x kept r Hq eq_refl) in K1, K2.
    simpl in K1, K2. injection K1 as <-. by apply HQ.
Qed.

Lemma wp_wake_walk (w : Z -> bool) reason object q1 q2 q3 q5 n r s q0 kept Q :
  queues s [q0; q1; q2; q3; kept ++ r; q5] ->
  (forall x c, x ∈ r -> cores s !! x = Some c -> task_state c = TASK_STATE_BLOCKED) ->
  (forall x, x ∈ r -> waits_for (cores s) reason object x = w x) ->
  (length (q0 ++ q1 ++ q2 ++ q3 ++ (kept ++ r) ++ q5) < fuel)%nat -> (length r < n)%nat ->
  (forall s', queues s' [q0 ++ filter (fun x => w x = true) r; q1; q2; q3;
                         kept ++ filter (fun x => w x = false) r; q5] ->
     readied (filter (fun x => w x = true) r) (cores s) (cores s') ->
     rest_of s' = rest_of s -> Q tt s') ->
  wp (loop n (fun head =>
    if head =? 0 then ret (inr tt)
    else
      let! t := load_task head in
      do! (if bool_decide (wait_reason t = reason) && (wait_object t =? object)
           then do! task_manager_unblock_task head in ret tt else ret tt) in
      ret (inl (next t))) (default 0 (head r))) Q s.
Proof using Type.
  revert n s q0 kept. induction r as [|x r IH]; intros n s q0 kept Hq Hb Hws Hf Hn HQ;
    (destruct n as [|n]; [simpl in Hn; lia|]); cbn [loop].
  - simpl. apply wp_bind, wp_ret, wp_ret. apply HQ; [by rewrite app_nil_r in *; simpl in *; rewrite ?app_nil_r|by intros x|done].
  - destruct (queue_at s _ Hq 4%nat (kept ++ x :: r) eq_refl) as (p & Hp & Hseg).
    pose proof Hseg as Hall. apply seg_app in Hseg as (y & Hs1 & -> & Hx & t & Ht & Hs2).
    simpl. destruct (Z.eqb_spec x 0); [done|]. wp_step. wp_step. eapply wp_load_task; [done|].
    assert (cores s !! x = Some (core t)) as Hcx by (unfold cores; by rewrite lookup_fmap, Ht).
    assert (waits_for (cores s) reason object x =
            bool_decide (wait_reason t = reason) && (wait_object t =? object)) as Hw
      by (unfold waits_for; by rewrite Hcx).
    rewrite Hws in Hw by (by left). rewrite (seg_start _ _ _ Hs2). rewrite <- Hw in *.
    assert (x ∉ concat [q0; q1; q2; q3; kept ++ r; q5]) as Hxc.
    { change [q0; q1; q2; q3; kept ++ r; q5] with (<[4%nat := kept ++ r]> [q0; q1; q2; q3; kept ++ x :: r; q5]).
      rewrite (purge_present s _ 4%nat x kept r Hq eq_refl). apply not_in_purge. }
    assert (forall y, y ∈ r -> y <> x) as Hrx.
    { intros y Hy ->. apply Hxc, (in_queue _ 4%nat (kept ++ r)); [done|]. apply elem_of_app. by right. }
    destruct (w x) eqn:Hwx.
    + wp_step. wp_step.
      apply (wp_wake_one s q0 q1 q2 q3 q5 kept x r (core t)); try done;
        [apply (Hb x); [by left|done]|simpl; rewrite ?app_nil_r in *; done|].
      intros s1 K1 K3 K4. wp_run.
      apply (IH n s1 (q0 ++ [x]) kept); [done| | | |simpl in Hn; lia|].
      * intros y c Hy. rewrite K3, lookup_insert_ne by (by apply not_eq_sym, Hrx).
         apply Hb. by right.
      * intros y Hy. rewrite <- Hws by (by right). unfold waits_for.
         by rewrite K3, lookup_insert_ne by (by apply not_eq_sym, Hrx).
      * rewrite !length_app in *. simpl in *. lia.
      * intros s2 L1 L2 L3. apply HQ; [| |congruence].
        -- rewrite filter_cons_True, filter_cons_False by (done || congruence).
            by rewrite <- app_assoc in L1.
        -- rewrite filter_cons_True by done. apply (readied_cons x (core t) _ _ (cores s1)); try done.
            intros [_ Hin]%list_elem_of_filter. by apply (Hrx x Hin).
    + wp_run. apply (IH n s q0 (kept ++ [x])); [by rewrite <- app_assoc| | | |simpl in Hn; lia|].
      * intros y c Hy. apply Hb. by right.
      * intros y Hy. apply Hws. by right.
      * rewrite <- (app_assoc kept). done.
      * intros s2 L1 L2 L3. apply HQ; [| |done].
        -- rewrite filter_cons_False, filter_cons_True by (done || congruence).
           by rewrite <- app_assoc in L1.
        -- by rewrite filter_cons_False by congruence.
Qed.

Lemma wp_wake_blocked_on s q0 q1 q2 q3 q4 q5 reason object Q :
  queues s [q0; q1; q2; q3; q4; q5] ->
  (forall x c, x ∈ q4 -> cores s !! x = Some c -> task_state c = TASK_STATE_BLOCKED) ->
  (length (q0 ++ q1 ++ q2 ++ q3 ++ q4 ++ q5) < fuel)%nat ->
  (forall s',
     let woken := filter (fun x => waits_for (cores s) reason object x = true) q4 in
     let others := filter (fun x => waits_for (cores s) reason object x = false) q4 in
     queues s' [q0 ++ woken; q1; q2; q3; others; q5] ->
     readied woken (cores s) (cores s') -> rest_of s' = rest_of s -> Q tt s') ->
  wp (task_manager_wake_blocked_on reason object) Q s.
Proof using Type.
  intros Hq Hb Hf HQ. unfold task_manager_wake_blocked_on.
  destruct (queue_at s _ Hq 4%nat q4 eq_refl) as (p & Hp & Hseg). wp_step.
  eapply wp_load_queue; [exact Hp|]. rewrite (seg_start _ _ _ Hseg).
  apply (wp_wake_walk (waits_for (cores s) reason object) reason object q1 q2 q3 q5 fuel q4 s q0 []);
    try done.
  rewrite !length_app in Hf. lia.
Qed.

(** C17: Waking.  [task_manager_wake_blocked_on] moves exactly the blocked tasks
    that wait for this object with this reason to the end of the top queue, in
    their order, and makes them ready; the other blocked tasks keep their place
    and every other task and queue is unchanged. *)
Theorem task_manager_wake_blocked_on_spec s q0 q1 q2 q3 q4 q5 reason object :
  queues s [q0; q1; q2; q3; q4; q5] ->
  (forall x c, x ∈ q4 -> cores s !! x = Some c -> task_state c = TASK_STATE_BLOCKED) ->
  (length (q0 ++ q1 ++ q2 ++ q3 ++ q4 ++ q5) < fuel)%nat ->
  wp (task_manager_wake_blocked_on reason object)
     (fun _ s' =>
        let woken := filter (fun x => waits_for (cores s) reason object x = true) q4 in
        let others := filter (fun x => waits_for (cores s) reason object x = false) q4 in
        queues s' [q0 ++ woken; q1; q2; q3; others; q5] /\
        readied woken (cores s) (cores s') /\ rest_of s' = rest_of s) s.
Proof using Type. intros Hq Hb Hf. by apply (wp_wake_blocked_on s q0 q1 q2 q3 q4 q5). Qed.

(** ** The schedule step *)

Lemma rest_idle s s' : rest_of s' = rest_of s -> task_idle (task_manager s') = task_idle (task_manager s).
Proof using Type.
  intros H. change (task_idle (task_manager (rest_of s')) = task_idle (task_manager (rest_of s))).
  by rewrite H.
Qed.

(** A step that changes neither tasks nor queues nor which task is idle. *)
Lemma queues_same s s' qs :
  queues s qs -> tasks s' = tasks s -> task_queues (task_manager s') = task_queues (task_manager s) ->
  task_idle (task_manager s') = task_idle (task_manager s) -> queues s' qs.
Proof using Type.
  intros [K1 K2 K3 K4 K5] Ht Hq Hi. split; [done| |done|by rewrite Hi|].
  - by rewrite Ht, Hq.
  - intros i q x t H1 H2 H3. apply (K5 i q x t); [done|done|]. unfold cores in *. by rewrite <- Ht.
Qed.

(** Where a task that used up its slice goes. *)
Definition next_level (level : Z) : Z := if level <? 3 then level + 1 else level.

Lemma wp_requeue s qs x c Q :
  queues s qs -> x <> 0 -> x <> task_idle (task_manager s) -> x ∉ concat qs ->
  cores s !! x = Some c -> 0 <= task_queue_level c < 4 -> (length (concat qs) < fuel)%nat ->
  (forall q s', qs !! Z.to_nat (next_level (task_queue_level c)) = Some q ->
     queues s' (<[Z.to_nat (next_level (task_queue_level c)) := q ++ [x]]> qs) ->
     cores s' = <[x := c <| task_queue_level := next_level (task_queue_level c) |>
                         <| task_state := TASK_STATE_READY |>]> (cores s) ->
     rest_of s' = rest_of s -> Q tt s') ->
  wp (task_manager_requeue_task x true) Q s.
Proof using Type.
  intros Hq Hx Hidle Hxq Hc Hl Hfuel HQ. unfold task_manager_requeue_task, manager.
  destruct (cores_lookup s x c Hc) as (t & Ht & Hct).
  wp_step. wp_step. destruct (Z.eqb_spec x (task_idle (task_manager s))); [done|].
  wp_step. eapply wp_load_task; [done|].
  assert (task_queue_level t = task_queue_level c) as Hlt by (by rewrite <- Hct).
  rewrite Hlt. set (lv := next_level (task_queue_level c)) in *.
  assert (0 <= lv < 4) as Hlv by (unfold lv, next_level; destruct (Z.ltb_spec (task_queue_level c) 3); lia).
  assert (forall s1, queues s1 qs -> cores s1 = <[x := c <| task_queue_level := lv |>]> (cores s) ->
    rest_of s1 = rest_of s ->
    wp (do! update_task x (fun t => t <| task_state := TASK_STATE_READY |>) in
        let! t := load_task x in task_manager_enqueue_task (task_queue_level t) x) Q s1) as Hgo.
  { intros s1 K1 K2 K3. wp_step.
    eapply (wp_update_core s1 qs x); [done|by rewrite K2, lookup_insert_eq|done|done|by left|].
    intros s2 L1 L2 L3 L4. rewrite K2, insert_insert_eq in L2.
    destruct (cores_lookup s2 x _ ltac:(rewrite L2; apply lookup_insert_eq)) as (t2 & Ht2 & Hct2).
    wp_step. eapply wp_load_task; [done|].
    assert (task_queue_level t2 = lv) as -> by (change (task_queue_level (core t2) = lv); by rewrite Hct2).
    destruct (queue_index s2 qs L1 lv ltac:(lia)) as (q & Hq2).
    assert (rest_of s2 = rest_of s) as R by congruence.
    eapply (wp_enqueue s2 qs L1 lv x t2 q); try done; [lia|by rewrite (rest_idle s s2 R)| |].
    - pose proof (total_length qs _ _ Hq2). lia.
    - intros s3 M1 M2 M3. apply (HQ q); [done|done| |congruence]. rewrite M2, L2, insert_insert_eq.
      f_equal. transitivity ((core t2) <| task_queue_level := lv |>); [done|]. by rewrite Hct2. }
  wp_step. change (true && (task_queue_level c <? TASK_MANAGER_QUEUE_LEVELS - 1))
    with (task_queue_level c <? 3). unfold next_level in lv.
  destruct (Z.ltb_spec (task_queue_level c) 3).
  - assert (u32 (task_queue_level c + 1) = lv) as Hu by (apply u32_small; lia).
    eapply (wp_update_core s qs x c (fun t => t <| task_queue_level := u32 (task_queue_level t + 1) |>));
      [done|done|done|done|by right|].
    intros s1 K1 K2 K3 K4. apply Hgo; [done| |done]. rewrite K2. cbn. by rewrite Hu.
  - wp_step. apply Hgo; [done| |done]. symmetry. apply insert_id. rewrite Hc. by destruct c.
Qed.

(** No directory waits to be destroyed. *)
Lemma wp_destroy_none k Q :
  (0 < fuel)%nat -> page_directories_to_destroy k = 0 -> Q tt (set_queue 0 0 k) ->
  wp (memory_paging_destroy_queued base fuel) Q k.
Proof using Type.
  intros Hf Hd HQ. unfold memory_paging_destroy_queued. wp_run. rewrite Hd.
  destruct fuel as [|n]; [lia|]. cbn [loop]. by wp_run.
Qed.

(** A switch to [y] is requested. *)
Definition request (y : Z) (s : os_t) : os_t :=
  s <| task_manager := (task_manager s) <| task_next := y |> <| task_needs_switching := true |> |>.

(** What one schedule step does for a task [x] whose slice is over, given the
    tasks [cs] and the queues [q] after it is put back; nothing else of [s]
    changes. *)
Definition switched (x i y : Z) (q : list (list Z)) (s s' : os_t) (cs : gmap Z task_t) : Prop :=
  queues s' (<[Z.to_nat i := tail (default [] (q !! Z.to_nat i))]> q) /\
  rest_of s' = rest_of (if decide (y = x) then s else request y s) /\
  exists c, cs !! y = Some c /\
    cores s' = <[y := c <| task_time_slice := 4 * 2 ^ i |> <| task_state := TASK_STATE_RUNNING |>]> cs.

Lemma first_ready_spec i qs j x :
  first_ready i qs = Some (j, x) -> i <= j < i + Z.of_nat (length qs) /\
  exists q, qs !! Z.to_nat (j - i) = Some (x :: q).
Proof using Type.
  revert i. induction qs as [|[|y q] qs IH]; intros i; simpl; [done| |].
  - intros H. destruct (IH _ H) as (H1 & q & H2). split; [lia|]. exists q.
    replace (Z.to_nat (j - i)) with (S (Z.to_nat (j - (i + 1)))) by lia. done.
  - intros [= <- <-]. split; [lia|]. exists q. by rewrite Z.sub_diag.
Qed.

Lemma first_ready_some i qs x : x ∈ concat qs -> first_ready i qs <> None.
Proof using Type.
  revert i. induction qs as [|[|y q] qs IH]; intros i; simpl; [by intros ?%not_elem_of_nil|apply IH|done].
Qed.

(** The part after the current task, whose [yield] flag is cleared, is back in
    its queue. *)
Lemma wp_switch_pick s qs x Q :
  queues s qs -> is_Some (cores s !! task_idle (task_manager s)) ->
  first_ready 0 (take 4 qs) <> None ->
  (forall i y s', first_ready 0 (take 4 qs) = Some (i, y) -> switched x i y qs s s' (cores s) -> Q tt s') ->
  wp (let! new_task := task_manager_pick_task in
      do! update_task new_task (fun t => t <| task_state := TASK_STATE_RUNNING |>) in
      if negb (new_task =? x) then
        update_manager (fun m => m <| task_next := new_task |> <| task_needs_switching := true |>)
      else
        update_task new_task (fun t =>
          t <| task_time_slice := task_manager_calculate_time_slice (task_queue_level t) |>)) Q s.
Proof using Type.
  intros Hq Hidle Hin HQ. wp_step. unfold task_manager_pick_task.
  change (Z.to_nat TASK_MANAGER_QUEUE_LEVELS) with 4%nat.
  assert (forall i, 0 <= i < 4 -> task_manager_calculate_time_slice i = 4 * 2 ^ i) as Hslice.
  { intros i Hi. unfold task_manager_calculate_time_slice, TASK_MANAGER_QUEUE_INDEX_BLOCKED, TASK_MANAGER_QUEUE_LEVELS.
    rewrite Z.shiftl_1_l. assert (i = 0 \/ i = 1 \/ i = 2 \/ i = 3) as [->|[->|[->| ->]]] by lia; done. }
  apply (wp_pick_from s qs); [done|done|lia|done| |].
  - intros i y q c s1 Hf Hi Hqi Hc K1 K2 K3. simpl in Hf. rewrite drop_0 in Hf.
    rewrite Hslice in K2 by lia.
    assert (task_queue_level c = i) as Hlev.
    { rewrite (qs_levels _ _ Hq _ _ _ _ Hqi ltac:(by left) Hc). lia. }
    wp_step. eapply (wp_update_core s1 _ y); [exact K1|by rewrite K2, lookup_insert_eq|done|done|by left|].
    intros s2 L1 L2 L3 L4. rewrite K2, insert_insert_eq in L2.
    destruct (Z.eqb_spec y x) as [->|Hyx]; simpl negb; cbv iota.
    + eapply (wp_update_core s2 _ x _ (fun t =>
          t <| task_time_slice := task_manager_calculate_time_slice (task_queue_level t) |>));
        [exact L1|by rewrite L2, lookup_insert_eq|done|done|by left|].
      intros s3 M1 M2 M3 M4. apply (HQ i x s3); [done|]. split; [by rewrite Hqi|].
      split; [rewrite decide_True by done; congruence|]. exists c.
      split; [done|]. rewrite M2, L2, insert_insert_eq. f_equal. cbn.
      by rewrite Hlev, Hslice by lia.
    + unfold update_manager. wp_run. apply (HQ i y); [done|]. split_and!.
      * rewrite Hqi. eapply queues_same; [exact L1|done|done|done].
      * rewrite decide_False by done. change (request y (rest_of s2) = request y (rest_of s)). congruence.
      * exists c. split; [done|]. exact L2.
  - intros c s1 Hf. simpl in Hf. by rewrite drop_0 in Hf.
Qed.

(** The switch away from a running task. *)
Lemma wp_switch_running s qs x c Q :
  queues s qs -> (length (concat qs) < fuel)%nat -> is_Some (cores s !! task_idle (task_manager s)) ->
  x <> 0 -> x <> task_idle (task_manager s) -> x ∉ concat qs -> cores s !! x = Some c ->
  task_state c = TASK_STATE_RUNNING -> 0 <= task_queue_level c < 4 ->
  (forall q i y s',
     let level := next_level (task_queue_level c) in
     let back := <[Z.to_nat level := q ++ [x]]> qs in
     let c' := c <| yield := false |> <| task_queue_level := level |> <| task_state := TASK_STATE_READY |> in
     qs !! Z.to_nat level = Some q -> first_ready 0 (take 4 back) = Some (i, y) ->
     switched x i y back s s' (<[x := c']> (cores s)) -> Q tt s') ->
  wp (task_manager_switch x) Q s.
Proof using Type.
  intros Hq Hf Hidle Hx Hxi Hxq Hc Hst Hl HQ. unfold task_manager_switch. wp_step.
  eapply (wp_update_core s qs x c); [done|done|done|done|by left|].
  intros s2 L1 L2 L3 L4. unfold manager. wp_step. wp_step.
  destruct (cores_lookup s2 x _ ltac:(rewrite L2; apply lookup_insert_eq)) as (t2 & Ht2 & Hct2).
  wp_step. eapply wp_load_task; [done|]. wp_step. rewrite L4.
  destruct (Z.eqb_spec x (task_idle (task_manager s))); [done|].
  assert (task_state t2 = TASK_STATE_RUNNING) as ->
    by (change (task_state (core t2) = TASK_STATE_RUNNING); by rewrite Hct2).
  change (negb false && bool_decide (TASK_STATE_RUNNING = TASK_STATE_RUNNING)) with true. cbv iota.
  eapply (wp_requeue s2 qs x); [done|done|by rewrite L4|done|by rewrite L2, lookup_insert_eq|done|done|].
  intros q s3 Hqlv M1 M2 M3. rewrite L2, insert_insert_eq in M2.
  change (task_queue_level (c <| yield := false |>)) with (task_queue_level c) in *.
  set (lv := next_level (task_queue_level c)) in *.
  assert (0 <= lv < 4) as Hlv by (unfold lv, next_level; destruct (Z.ltb_spec (task_queue_level c) 3); lia).
  assert (rest_of s3 = rest_of s) as R by congruence.
  apply (wp_switch_pick s3 (<[Z.to_nat lv := q ++ [x]]> qs) x); [done| | |].
  - rewrite (rest_idle s s3), M2, lookup_insert_ne by (by congruence). done.
  - apply (first_ready_some _ _ x), list_elem_of_In, in_concat. exists (q ++ [x]). split; apply list_elem_of_In.
    + apply list_elem_of_lookup. exists (Z.to_nat lv). rewrite lookup_take_lt by lia.
      apply list_lookup_insert_eq. by eapply lookup_lt_Some.
    + apply elem_of_app. right. by left.
  - intros i y s4 N1 (N2 & N3 & N4). apply (HQ q i y); [done|done|].
    rewrite M2 in N4. split_and!; [exact N2| |exact N4]. rewrite N3.
    destruct (decide (y = x)); [exact R|]. change (request y (rest_of s3) = request y (rest_of s)). congruence.
Qed.

(** C5: Round robin with levels.  At a tick at which the running task's slice
    ends (or it asked to yield), and neither a boost is due nor a directory
    waits to be destroyed, the schedule step puts the task at the end of the
    queue one level down (the last level keeps its tasks) and hands the
    processor to the head of the first queue that is not empty, running, with
    the slice of its level; a switch is requested exactly when that is another
    task, and nothing else changes. *)
Theorem task_manager_schedule_switch s qs x c :
  queues s qs -> (length (concat qs) < fuel)%nat ->
  is_Some (cores s !! task_idle (task_manager s)) ->
  page_directories_to_destroy (kernel s) = 0 ->
  u64 (timer_ticks s - last_priority_boost_at_ticks (task_manager s)) < TASK_MANAGER_PRIORITY_BOOST_INTERVAL ->
  task_current (task_manager s) = x -> x <> 0 -> x <> task_idle (task_manager s) ->
  x ∉ concat qs -> cores s !! x = Some c -> task_state c = TASK_STATE_RUNNING ->
  0 <= task_queue_level c < 4 -> task_time_slice c = 1 \/ yield c = true ->
  wp task_manager_schedule
     (fun _ s' => exists q i y c',
        let level := next_level (task_queue_level c) in
        let back := <[Z.to_nat level := q ++ [x]]> qs in
        qs !! Z.to_nat level = Some q /\
        c' = c <| task_time_slice := u32 (task_time_slice c - 1) |> <| yield := false |>
               <| task_queue_level := level |> <| task_state := TASK_STATE_READY |> /\
        first_ready 0 (take 4 back) = Some (i, y) /\
        switched x i y back (s <| kernel := set_queue 0 0 (kernel s) |>) s' (<[x := c']> (cores s))) s.
Proof using Type.
  intros Hq Hf Hidle Hd Hboost Hcur Hx Hxi Hxq Hc Hst Hl Hover. unfold task_manager_schedule.
  assert (0 < fuel)%nat as Hf0 by lia.
  wp_step. unfold on_kernel. wp_step. apply wp_destroy_none; [done|done|].
  set (s0 := s <| kernel := set_queue 0 0 (kernel s) |>).
  assert (queues s0 qs) as Hq0 by (by apply (queues_same s)).
  unfold timer_get_ticks, manager. do 4 wp_step. cbv beta. fold s0.
  change (timer_ticks s0) with (timer_ticks s). change (task_manager s0) with (task_manager s).
  wp_step. destruct (Z.leb_spec TASK_MANAGER_PRIORITY_BOOST_INTERVAL
      (u64 (timer_ticks s - last_priority_boost_at_ticks (task_manager s)))); [lia|].
  wp_step. rewrite Hcur. destruct (Z.eqb_spec x 0); [done|].
  assert (cores s0 !! x = Some c) as Hc0 by done.
  wp_step. eapply (wp_update_core s0 qs x c (fun t => t <| task_time_slice := u32 (task_time_slice t - 1) |>));
    [done|done|done|done|by left|].
  intros s1 K1 K2 K3 K4.
  destruct (cores_lookup s1 x _ ltac:(rewrite K2; apply lookup_insert_eq)) as (t1 & Ht1 & Hct1).
  wp_step. eapply wp_load_task; [done|].
  assert ((task_time_slice t1 =? 0) || yield t1 = true) as ->.
  { change (task_time_slice t1) with (task_time_slice (core t1)). change (yield t1) with (yield (core t1)).
    rewrite Hct1. cbn. destruct Hover as [->| ->]; [done|by rewrite orb_true_r]. }
  apply (wp_switch_running s1 qs x (c <| task_time_slice := u32 (task_time_slice c - 1) |>)); try done;
    [by rewrite K4, K2, lookup_insert_ne|by rewrite K4|by rewrite K2, lookup_insert_eq|].
  cbv zeta. rewrite K2. intros q i y s4 N1 N2 (N3 & N4 & N5). rewrite insert_insert_eq in N5.
  exists q, i, y. eexists. split_and!; [exact N1|reflexivity|exact N2|]. split_and!; [exact N3| |exact N5].
  rewrite N4. destruct (decide (y = x)); [exact K3|].
  change (request y (rest_of s1) = request y (rest_of s0)). congruence.
Qed.

(** ** Exit *)

(** The parent [p] waits for the child with this id, or for any child. *)
Definition parent_waits (p : task_t) (id : Z) : bool :=
  bool_decide (task_state p = TASK_STATE_BLOCKED)
  && bool_decide (wait_reason p = TASK_WAIT_REASON_CHILD)
  && ((wait_object p =? id) || (wait_object p =? u32 (-1))).

Lemma purge_sub x y qs : y ∈ concat (purge x qs) -> y ∈ concat qs.
Proof using Type.
  intros Hin. apply list_elem_of_In, in_concat in Hin as (l & Hl1 & Hl2).
  apply list_elem_of_In in Hl1, Hl2. apply list_elem_of_fmap in Hl1 as (l' & -> & Hl1).
  apply list_elem_of_filter in Hl2 as [_ Hl2].
  apply list_elem_of_In, in_concat. exists l'. by split; apply list_elem_of_In.
Qed.

Lemma purge_length x qs : (length (concat (purge x qs)) <= length (concat qs))%nat.
Proof using Type.
  induction qs as [|q qs IH]; simpl; [done|]. rewrite !length_app.
  pose proof (length_filter (fun y : Z => y <> x) q). lia.
Qed.

Lemma concat_insert_length (qs : list (list Z)) i q x :
  qs !! i = Some q -> length (concat (<[i := q ++ [x]]> qs)) = S (length (concat qs)).
Proof using Type.
  intros Hi. rewrite (concat_insert qs _ _ _ Hi), (concat_split qs _ _ Hi), !length_app. simpl. lia.
Qed.

(** Removal from the queue a task's level names, whether it is there or not. *)
Lemma wp_leave s qs i x Q :
  queues s qs -> 0 <= i < 6 -> x <> 0 -> (length (concat qs) < fuel)%nat ->
  (forall j q, qs !! j = Some q -> x ∈ q -> j = Z.to_nat i) ->
  (forall s', queues s' (purge x qs) -> cores s' = cores s -> rest_of s' = rest_of s -> Q tt s') ->
  wp (do! task_manager_remove_task_from_queue i x in ret tt) Q s.
Proof using Type.
  intros Hq Hi Hx Hf Honly HQ. destruct (queue_index s qs Hq i Hi) as (q & Hqi). wp_step.
  apply (wp_remove s qs Hq i x q); [lia|done|done|pose proof (total_length qs _ _ Hqi); lia| |].
  - intros l1 l2 s1 -> K1 K2 K3. wp_run. apply HQ; [|done|done].
    by rewrite <- (purge_present s qs (Z.to_nat i) x l1 l2).
  - intros Hn. wp_run. apply HQ; [|done|done]. rewrite purge_absent; [done|].
    intros Hin. apply list_elem_of_In, in_concat in Hin as (l & Hl1 & Hl2).
    apply list_elem_of_In in Hl1, Hl2. apply list_elem_of_lookup in Hl1 as [j Hj].
    rewrite (Honly j l Hj Hl2) in Hj. by simplify_eq.
Qed.

(** What the exit of [x] answers and leaves. *)
Definition exited (s : os_t) (qs : list (list Z)) (x code : Z) (c : task_t)
    (r : task_manager_result_t) (s' : os_t) : Prop :=
  r = TASK_MANAGER_RESULT_OK /\ rest_of s' = rest_of s /\
   exists zombies c' qs',
     c' = c <| task_state := TASK_STATE_ZOMBIE |> <| return_code := code |>
            <| children := 0 |> <| task_queue_level := 5 |> /\
     queues s' (<[5%nat := zombies ++ [x]]> qs') /\ qs' !! 5%nat = Some zombies /\
     match cores s !! parent c with
     | Some p =>
         if negb (parent c =? 0) && parent_waits p (task_id c) then
           exists top, purge (parent c) (purge x qs) !! 0%nat = Some top /\
           qs' = <[0%nat := top ++ [parent c]]> (purge (parent c) (purge x qs)) /\
           cores s' = <[x := c']> (<[parent c := p <| task_state := TASK_STATE_READY |>
                                                   <| task_queue_level := 0 |>]> (cores s))
         else qs' = purge x qs /\ cores s' = <[x := c']> (cores s)
     | None => qs' = purge x qs /\ cores s' = <[x := c']> (cores s)
     end.

Lemma parent_waits_blocked p id : parent_waits p id = true -> task_state p = TASK_STATE_BLOCKED.
Proof using Type.
  unfold parent_waits. intros Hw. do 2 apply andb_prop in Hw as [Hw _].
  by apply bool_decide_eq_true in Hw.
Qed.

Lemma not_in_moved (qs : list (list Z)) i q x y :
  purge y (purge x qs) !! i = Some q -> x <> y ->
  x ∉ concat (<[i := q ++ [y]]> (purge y (purge x qs))).
Proof using Type.
  intros Hi Hxy. rewrite (concat_insert _ _ _ _ Hi).
  assert (x ∉ concat (purge y (purge x qs))) as Hn by (intros Hin%purge_sub; by apply (not_in_purge x qs)).
  rewrite (concat_split _ _ _ Hi), !elem_of_app in Hn. rewrite !elem_of_app, list_elem_of_singleton. tauto.
Qed.

(** The three parts of the exit: out of the queue of its state, *)
Lemma wp_exit_unqueue s qs x c t :
  queues s qs -> (length (concat qs) < fuel)%nat -> x <> 0 -> cores s !! x = Some c -> core t = c ->
  0 <= task_queue_level c < 6 ->
  (task_state c = TASK_STATE_BLOCKED -> task_queue_level c = 4) ->
  (task_state c = TASK_STATE_READY \/ task_state c = TASK_STATE_BLOCKED \/ x ∉ concat qs) ->
  wp (if decide (task_state t = TASK_STATE_READY)
      then do! task_manager_remove_task_from_queue (task_queue_level t) x in ret tt
      else if decide (task_state t = TASK_STATE_BLOCKED)
      then do! task_manager_remove_task_from_queue TASK_MANAGER_QUEUE_INDEX_BLOCKED x in ret tt
      else ret tt)
     (fun _ s1 => queues s1 (purge x qs) /\ cores s1 = cores s /\ rest_of s1 = rest_of s) s.
Proof using Type.
  intros Hq Hf Hx Hc <- Hl Hbl Hst.
  change (task_state (core t)) with (task_state t) in *.
  change (task_queue_level (core t)) with (task_queue_level t) in *.
  assert (forall j q, qs !! j = Some q -> x ∈ q -> j = Z.to_nat (task_queue_level t)) as Honly.
  { intros j q Hj Hin. pose proof (qs_levels _ _ Hq j q x _ Hj Hin Hc) as E. simpl in E. lia. }
  destruct (decide (task_state t = TASK_STATE_READY)) as [E|E].
  - by apply (wp_leave s qs (task_queue_level t) x).
  - destruct (decide (task_state t = TASK_STATE_BLOCKED)) as [E'|E'].
    + rewrite (Hbl E') in Honly. by apply (wp_leave s qs TASK_MANAGER_QUEUE_INDEX_BLOCKED x); try done; lia.
    + wp_run. destruct Hst as [|[|Hn]]; [done|done|]. by rewrite purge_absent.
Qed.

(** a waiting parent woken, *)
Lemma wp_exit_wake s qs x c0 t c (Q : unit -> os_t -> Prop) :
  queues s qs -> (length (concat qs) < fuel)%nat -> cores s !! x = Some c0 ->
  parent t = parent c -> task_id t = task_id c ->
  (parent c = 0 \/ parent c <> x /\ parent c <> task_idle (task_manager s) /\
     exists p, cores s !! parent c = Some p /\ (task_state p = TASK_STATE_BLOCKED -> 0 <= task_queue_level p < 6)) ->
  (forall s', queues s' qs -> cores s' = cores s -> rest_of s' = rest_of s ->
     (forall p, cores s !! parent c = Some p -> negb (parent c =? 0) && parent_waits p (task_id c) = false) ->
     Q tt s') ->
  (forall s' p top, cores s !! parent c = Some p -> parent c <> x ->
     negb (parent c =? 0) && parent_waits p (task_id c) = true ->
     purge (parent c) qs !! 0%nat = Some top ->
     queues s' (<[0%nat := top ++ [parent c]]> (purge (parent c) qs)) ->
     cores s' = <[parent c := p <| task_state := TASK_STATE_READY |> <| task_queue_level := 0 |>]> (cores s) ->
     rest_of s' = rest_of s -> Q tt s') ->
  wp (if parent t =? 0 then ret tt
      else
        let! p := load_task (parent t) in
        if bool_decide (task_state p = TASK_STATE_BLOCKED)
           && bool_decide (wait_reason p = TASK_WAIT_REASON_CHILD)
           && ((wait_object p =? task_id t) || (wait_object p =? u32 (-1)))
        then do! task_manager_unblock_task (parent t) in ret tt
        else ret tt) Q s.
Proof using Type.
  intros Hq Hf Hc0 -> -> Hpar Hno Hyes. destruct (Z.eqb_spec (parent c) 0) as [Hp0|Hp0].
  { wp_run. by apply Hno. }
  destruct Hpar as [|(Hpx & Hpi & p & Hp & Hpl')]; [done|].
  destruct (cores_lookup s _ _ Hp) as (tp & Htp & Hctp). wp_step. eapply wp_load_task; [done|].
  assert (bool_decide (task_state tp = TASK_STATE_BLOCKED)
          && bool_decide (wait_reason tp = TASK_WAIT_REASON_CHILD)
          && ((wait_object tp =? task_id c) || (wait_object tp =? u32 (-1))) = parent_waits p (task_id c)) as ->
    by (by rewrite <- Hctp).
  destruct (parent_waits p (task_id c)) eqn:Hw.
  - pose proof (parent_waits_blocked _ _ Hw). wp_step. apply (wp_unblock s qs (parent c) p); auto.
    intros top s5 O1 O2 O3 O4. wp_run. eapply Hyes; eauto.
  - wp_run. apply Hno; try done. intros p' Hp'. simplify_eq. by rewrite Hw.
Qed.

(** and into the queue of the zombies. *)
Lemma wp_exit_enqueue s qs x c :
  queues s qs -> x <> 0 -> x <> task_idle (task_manager s) -> x ∉ concat qs ->
  (length (concat qs) < fuel)%nat -> cores s !! x = Some c ->
  wp (do! task_manager_enqueue_task TASK_MANAGER_QUEUE_INDEX_ZOMBIE x in ret TASK_MANAGER_RESULT_OK)
     (fun r s' => r = TASK_MANAGER_RESULT_OK /\ rest_of s' = rest_of s /\
        exists zombies, queues s' (<[5%nat := zombies ++ [x]]> qs) /\ qs !! 5%nat = Some zombies /\
          cores s' = <[x := c <| task_queue_level := 5 |>]> (cores s)) s.
Proof using Type.
  intros Hq Hx Hxi Hn Hf Hc. destruct (cores_lookup s x _ Hc) as (t & Ht & Hct).
  destruct (queue_index s qs Hq 5 ltac:(lia)) as (q & Hq5). wp_step.
  eapply (wp_enqueue s qs Hq 5 x t q); try done.
  - pose proof (total_length qs _ _ Hq5). lia.
  - intros s6 P1 P2 P3. wp_run. split; [done|]. split; [done|]. exists q. split_and!; [done|done|].
    rewrite P2. f_equal. transitivity ((core t) <| task_queue_level := 5 |>); [done|]. by rewrite Hct.
Qed.

Lemma wp_exit_task s qs x code c :
  queues s qs -> (length (concat qs) + 1 < fuel)%nat -> x <> 0 ->
  x <> task_idle (task_manager s) -> cores s !! x = Some c -> children c = 0 ->
  0 <= task_queue_level c < 6 ->
  (task_state c = TASK_STATE_BLOCKED -> task_queue_level c = 4) ->
  (task_state c = TASK_STATE_READY \/ task_state c = TASK_STATE_BLOCKED \/ x ∉ concat qs) ->
  (parent c = 0 \/ parent c <> x /\ parent c <> task_idle (task_manager s) /\
     exists p, cores s !! parent c = Some p /\ (task_state p = TASK_STATE_BLOCKED -> 0 <= task_queue_level p < 6)) ->
  wp (task_manager_exit_task x code) (exited s qs x code c) s.
Proof using Type.
  intros Hq Hf Hx Hxi Hc Hch Hl Hbl Hst Hpar. unfold task_manager_exit_task, exited.
  destruct (cores_lookup s x c Hc) as (t & Ht & Hct). pose proof (purge_length x qs) as Hpl.
  wp_step. eapply wp_load_task; [done|].
  wp_step. eapply wp_mono; [eapply wp_exit_unqueue; try done; lia|].
  intros [] s1 (K1 & K2 & K3).
  wp_step. eapply (wp_update_core s1 _ x); [done|by rewrite K2|done|done|by left|].
  intros s2 L1 L2 L3 _. wp_step.
  eapply (wp_update_core s2 _ x); [done|by rewrite L2, lookup_insert_eq|done|done|by left|].
  intros s3 M1 M2 M3 _. rewrite L2, insert_insert_eq, K2 in M2.
  destruct (cores_lookup s3 x _ ltac:(rewrite M2; apply lookup_insert_eq)) as (t3 & Ht3 & Hct3).
  wp_step. eapply wp_load_task; [done|].
  assert (children t3 = 0) as -> by (change (children (core t3) = 0); by rewrite Hct3).
  wp_step. apply (wp_loop_steps _ _ (fun _ => 0) 0); [lia|intros i Hi; lia|]. simpl Z.eqb. cbv iota.
  wp_step. cbn [negb].
  wp_step. eapply (wp_update_core s3 _ x); [done|by rewrite M2, lookup_insert_eq|done|done|by left|].
  intros s4 N1 N2 N3 _. rewrite M2, insert_insert_eq in N2.
  set (c4 := c <| task_state := TASK_STATE_ZOMBIE |> <| return_code := code |> <| children := 0 |>).
  change (cores s4 = <[x := c4]> (cores s)) in N2.
  assert (rest_of s4 = rest_of s) as R4 by congruence.
  destruct (cores_lookup s4 x _ ltac:(rewrite N2; apply lookup_insert_eq)) as (t4 & Ht4 & Hct4).
  wp_step. eapply wp_load_task; [done|].
  wp_step. apply (wp_exit_wake s4 (purge x qs) x c4 t4 c); try done; [lia|by rewrite N2, lookup_insert_eq| | | | |].
  - change (parent (core t4) = parent c). by rewrite Hct4.
  - change (task_id (core t4) = task_id c). by rewrite Hct4.
  - destruct Hpar as [|(? & ? & p & Hp & ?)]; [by left|right]. rewrite (rest_idle s s4 R4), N2.
    split_and!; try done. exists p. by rewrite lookup_insert_ne.
  - intros s5 O1 O2 O3 Hno. eapply wp_mono.
    { apply (wp_exit_enqueue s5 (purge x qs) x c4); try done; [by rewrite (rest_idle s s5) by congruence|
        apply not_in_purge|lia|by rewrite O2, N2, lookup_insert_eq]. }
    intros r s6 (-> & P1 & z & P2 & P3 & P4). split; [done|]. split; [congruence|].
    exists z, (c4 <| task_queue_level := 5 |>), (purge x qs). split_and!; try done.
    rewrite P4, O2, N2, insert_insert_eq. destruct (cores s !! parent c) as [p|] eqn:Hp; [|done].
    destruct (decide (parent c = 0)) as [->|]; [done|].
    destruct Hpar as [|(? & _)]; [done|]. by rewrite (Hno p) by (by rewrite N2, lookup_insert_ne).
  - intros s5 p top Hp Hpx Hw Htop O1 O2 O3. rewrite N2, lookup_insert_ne in Hp by done. eapply wp_mono.
    { apply (wp_exit_enqueue s5 _ x c4 O1); try done; [by rewrite (rest_idle s s5) by congruence|
        by apply not_in_moved| |by rewrite O2, lookup_insert_ne, N2, lookup_insert_eq].
      rewrite (concat_insert_length _ _ _ _ Htop). pose proof (purge_length (parent c) (purge x qs)). lia. }
    intros r s6 (-> & P1 & z & P2 & P3 & P4). split; [done|]. split; [congruence|].
    exists z, (c4 <| task_queue_level := 5 |>), (<[0%nat := top ++ [parent c]]> (purge (parent c) (purge x qs))).
    rewrite Hp, Hw. split_and!; try done. exists top. split_and!; try done.
    rewrite P4, O2, N2, (insert_insert_ne (cores s)) by done. by rewrite insert_insert_eq.
Qed.

(** C8: Exit of a task without children.  The task leaves whatever queue it is
    in, becomes a zombie with its return code at the end of the zombie queue,
    and a parent that is blocked waiting for it (or for any child) becomes ready
    at the top level; no other task changes, and no queue loses another task. *)
Theorem task_manager_exit_task_spec s qs x code c :
  queues s qs -> (length (concat qs) + 1 < fuel)%nat -> x <> 0 ->
  x <> task_idle (task_manager s) -> cores s !! x = Some c -> children c = 0 ->
  0 <= task_queue_level c < 6 ->
  (task_state c = TASK_STATE_BLOCKED -> task_queue_level c = 4) ->
  (task_state c = TASK_STATE_READY \/ task_state c = TASK_STATE_BLOCKED \/ x ∉ concat qs) ->
  (parent c = 0 \/ parent c <> x /\ parent c <> task_idle (task_manager s) /\
     exists p, cores s !! parent c = Some p /\ (task_state p = TASK_STATE_BLOCKED -> 0 <= task_queue_level p < 6)) ->
  wp (task_manager_exit_task x code)
     (fun r s' => r = TASK_MANAGER_RESULT_OK /\ rest_of s' = rest_of s /\
        exists zombies c' qs',
          c' = c <| task_state := TASK_STATE_ZOMBIE |> <| return_code := code |>
                 <| children := 0 |> <| task_queue_level := 5 |> /\
          queues s' (<[5%nat := zombies ++ [x]]> qs') /\ qs' !! 5%nat = Some zombies /\
          match cores s !! parent c with
          | Some p =>
              if negb (parent c =? 0) && parent_waits p (task_id c) then
                exists top, purge (parent c) (purge x qs) !! 0%nat = Some top /\
                qs' = <[0%nat := top ++ [parent c]]> (purge (parent c) (purge x qs)) /\
                cores s' = <[x := c']> (<[parent c := p <| task_state := TASK_STATE_READY |>
                                                        <| task_queue_level := 0 |>]> (cores s))
              else qs' = purge x qs /\ cores s' = <[x := c']> (cores s)
          | None => qs' = purge x qs /\ cores s' = <[x := c']> (cores s)
          end) s.
Proof using Type. exact (wp_exit_task s qs x code c). Qed.
End task_manager.

(** ** A concrete system

    The idle task at 0x100; two ready tasks 0x200 (top queue) and 0x300 (second
    queue); 0x400 blocked on the wait object 7; 0x500, its child, running on the
    last tick of its slice at level 0. *)
Definition blank_task (id : Z) : task_t :=
  mk_task id 0 0x1000 TASK_STATE_READY 5 0 0xCFFFF000 0xD0000000 true 0 false ∅ 0x400000 0 0 0 0 false
    TASK_WAIT_REASON_NONE 0 0x8000 0x9000 0 0 0 0 ∅ false no_execution 0 no_registers false.
Definition demo : os_t :=
  mk_os small_kernel
    {[ 0x100 := blank_task 0; 0x200 := blank_task 1;
       0x300 := (blank_task 2) <| task_queue_level := 1 |>;
       0x400 := (blank_task 7) <| task_queue_level := 4 |> <| task_state := TASK_STATE_BLOCKED |>
                  <| wait_reason := TASK_WAIT_REASON_CHILD |> <| wait_object := 9 |>;
       0x500 := (blank_task 9) <| task_state := TASK_STATE_RUNNING |> <| task_time_slice := 1 |>
                  <| parent := 0x400 |> ]}
    ∅ ∅ (mk_task_manager 0x500 0 false 0x100 [0x200; 0x300; 0; 0; 0x400; 0] 0 0x400) 10 77.
Definition demo_queues : list (list Z) := [[0x200]; [0x300]; []; []; [0x400]; []].
(** Memory that has been used before. *)
Definition demo_old_nodes : OldNodes := fun _ node => mk_task_node node 0xDEAD0000 0xDEAD0008.
#[local] Existing Instance demo_old_nodes.

Lemma demo_ok : queues demo demo_queues.
Proof.
  split.
  - done.
  - repeat constructor; try done; eexists; split; reflexivity.
  - apply (bool_decide_unpack (NoDup [0x200; 0x300; 0x400])). vm_compute. done.
  - apply (bool_decide_unpack (0x100 ∉ [0x200; 0x300; 0x400])). vm_compute. done.
  - intros i q x t Hi Hx Ht.
    assert ((i, q) = (0%nat, [0x200]) \/ (i, q) = (1%nat, [0x300]) \/ (i, q) = (4%nat, [0x400]) \/ q = [])
      as [[= -> ->]|[[= -> ->]|[[= -> ->]| ->]]];
      [|apply list_elem_of_singleton in Hx as ->; vm_compute in Ht; injection Ht as <-; reflexivity..
       |by apply not_elem_of_nil in Hx].
    do 6 (destruct i as [|i]; [simpl in Hi; injection Hi as <-; tauto|]). done.
Qed.

Lemma task_manager_enqueue_task_spec_witness :
  wp (task_manager_enqueue_task 8 0 0x500)
     (fun _ s' => queues s' [[0x200; 0x500]; [0x300]; []; []; [0x400]; []]) demo.
Proof.
  eapply wp_mono.
  - apply (task_manager_enqueue_task_spec 8 demo demo_queues 0 0x500
             (default (blank_task 0) (cores demo !! 0x500)));
      [exact demo_ok|lia|lia|by apply (bool_decide_unpack (0x500 ∉ [0x200; 0x300; 0x400]))|vm_compute; lia
      |reflexivity|simpl; lia].
  - intros _ s' (q & [= <-] & Hq & _). exact Hq.
Defined.

Lemma task_manager_dequeue_task_spec_witness :
  wp (task_manager_dequeue_task 1)
     (fun r s' => r = 0x300 /\ queues s' [[0x200]; []; []; []; [0x400]; []]) demo.
Proof.
  eapply wp_mono.
  - apply (task_manager_dequeue_task_spec demo demo_queues 1); [exact demo_ok|lia].
  - intros r s' (q & [= <-] & -> & Hq & _). split; [reflexivity|exact Hq].
Defined.

Lemma task_manager_remove_task_from_queue_spec_witness :
  wp (task_manager_remove_task_from_queue 8 4 0x400)
     (fun r s' => r = TASK_MANAGER_RESULT_OK /\ queues s' [[0x200]; [0x300]; []; []; []; []]) demo.
Proof.
  eapply wp_mono.
  - apply (task_manager_remove_task_from_queue_spec 8 demo demo_queues 4 0x400);
      [exact demo_ok|lia|lia|simpl; lia].
  - intros r s' (q & [= <-] & [(-> & _ & Hq & _)|(_ & Hn & _)]); [split; [reflexivity|exact Hq]|].
    destruct Hn. by left.
Defined.

Lemma task_manager_pick_task_spec_witness :
  wp task_manager_pick_task
     (fun r s' => r = 0x200 /\ queues s' [[]; [0x300]; []; []; [0x400]; []]) demo.
Proof.
  eapply wp_mono.
  - apply (task_manager_pick_task_spec demo demo_queues); [exact demo_ok|by eexists].
  - intros r s' (c & _ & _ & -> & _ & Hq & _). split; [reflexivity|exact Hq].
Defined.

Lemma task_manager_boost_priority_of_all_tasks_spec_witness :
  wp (task_manager_boost_priority_of_all_tasks 8)
     (fun _ s' => queues s' [[0x200; 0x300]; []; []; []; [0x400]; []]) demo.
Proof.
  eapply wp_mono.
  - apply (task_manager_boost_priority_of_all_tasks_spec 8 demo [0x200] [0x300] [] [] [0x400] []);
      [exact demo_ok|simpl; lia].
  - intros _ s' (Hq & _). exact Hq.
Defined.

Lemma task_manager_block_task_spec_witness :
  wp (task_manager_block_task 8 0x300 TASK_WAIT_REASON_IO 3)
     (fun _ s' => queues s' [[0x200]; []; []; []; [0x400; 0x300]; []]) demo.
Proof.
  eapply wp_mono.
  - apply (task_manager_block_task_spec 8 demo demo_queues 0x300
             (default (blank_task 0) (cores demo !! 0x300)));
      [exact demo_ok|lia|vm_compute; lia|reflexivity|vm_compute; split; congruence|simpl; lia].
  - intros r s' (_ & q & [= <-] & Hq & _). exact Hq.
Defined.

Lemma task_manager_unblock_task_spec_witness :
  wp (task_manager_unblock_task 8 0x400)
     (fun _ s' => queues s' [[0x200; 0x400]; [0x300]; []; []; []; []]) demo.
Proof.
  eapply wp_mono.
  - apply (task_manager_unblock_task_spec 8 demo demo_queues 0x400
             (default (blank_task 0) (cores demo !! 0x400)));
      [exact demo_ok|lia|vm_compute; lia|reflexivity|vm_compute; split; congruence|simpl; lia].
  - intros r s' (_ & q & [= <-] & Hq & _). exact Hq.
Defined.

Lemma task_manager_wake_blocked_on_spec_witness :
  wp (task_manager_wake_blocked_on 8 TASK_WAIT_REASON_CHILD 9)
     (fun _ s' => queues s' [[0x200; 0x400]; [0x300]; []; []; []; []]) demo.
Proof.
  eapply wp_mono.
  - apply (task_manager_wake_blocked_on_spec 8 demo [0x200] [0x300] [] [] [0x400] []);
      [exact demo_ok| |simpl; lia].
    intros x c ->%list_elem_of_singleton [= <-]. reflexivity.
  - intros _ s' (Hq & _). exact Hq.
Defined.

Lemma task_manager_schedule_switch_witness :
  wp (task_manager_schedule 0xC0100000 8)
     (fun _ s' => task_next (task_manager s') = 0x200 /\
        queues s' [[]; [0x300; 0x500]; []; []; [0x400]; []]) demo.
Proof.
  eapply wp_mono.
  - apply (task_manager_schedule_switch 0xC0100000 8 demo demo_queues 0x500
             (default (blank_task 0) (cores demo !! 0x500)));
      [exact demo_ok|simpl; lia|by eexists|reflexivity|vm_compute; reflexivity|reflexivity|lia
      |vm_compute; lia|by apply (bool_decide_unpack (0x500 ∉ [0x200; 0x300; 0x400]))
      |reflexivity|reflexivity|vm_compute; split; congruence|by left].
  - intros _ s' (q & i & y & c' & [= <-] & _ & [= <- <-] & Hq & Hsw & _).
    split; [|exact Hq]. change (task_next (task_manager (rest_of s')) = 0x200). rewrite Hsw. reflexivity.
Defined.

Lemma task_manager_exit_task_spec_witness :
  wp (task_manager_exit_task 0xC0100000 8 0x500 3)
     (fun _ s' => queues s' [[0x200; 0x400]; [0x300]; []; []; []; [0x500]]) demo.
Proof.
  eapply wp_mono.
  - apply (task_manager_exit_task_spec 0xC0100000 8 demo demo_queues 0x500 3
             (default (blank_task 0) (cores demo !! 0x500)));
      [exact demo_ok|simpl; lia|lia|vm_compute; lia|reflexivity|reflexivity|vm_compute; split; congruence
      |vm_compute; congruence| |].
    + right. right. by apply (bool_decide_unpack (0x500 ∉ [0x200; 0x300; 0x400])).
    + right. split_and!; [vm_compute; lia|vm_compute; lia|]. eexists. split; [reflexivity|].
      vm_compute. split; congruence.
  - intros r s' (_ & _ & z & c' & qs' & _ & Hq & Hz & top & [= <-] & -> & _).
    injection Hz as <-. exact Hq.
Defined.
