(* ===== verification/Allocator.v ===== *)
(** * The allocator interface

    What the rest of the kernel relies on when it calls [kernel_heap_malloc],
    [kernel_heap_calloc] and [kernel_heap_free] (include/kernel_heap.h), and the
    proof that src/kernel_heap.c keeps that promise.  [heap_inv live room h]: the
    heap is consistent, the payload addresses in [live] are allocated, distinct
    and not free, and one free block still has [room] headers, so that requests
    which need no more than [room] headers in total cannot fail. *)
From S2P Require Import Prelude Bitmap Paging KernelHeap.

(** Headers that a request of [size] bytes takes, its own header included. *)
Definition block_headers (size : Z) : Z := (size + 7) / 8 + 1.

Class Allocator (K : Type) := {
  heap_malloc : Z -> M K Z;
  heap_calloc : Z -> M K Z;
  heap_free : Z -> M K unit;
  heap_inv : gset Z -> Z -> K -> Prop;
  heap_malloc_law live room h size Q :
    heap_inv live room h -> 0 < size < 2 ^ 32 - 7 -> block_headers size <= room ->
    (forall p h', p <> 0 -> p ∉ live -> heap_inv ({[p]} ∪ live) (room - block_headers size) h' -> Q p h') ->
    wp (heap_malloc size) Q h;
  heap_calloc_law live room h size Q :
    heap_inv live room h -> 0 < size < 2 ^ 32 - 7 -> block_headers size <= room ->
    (forall p h', p <> 0 -> p ∉ live -> heap_inv ({[p]} ∪ live) (room - block_headers size) h' -> Q p h') ->
    wp (heap_calloc size) Q h;
  heap_free_law live room h p Q :
    heap_inv live room h -> p ∈ live ->
    (forall h', heap_inv (live ∖ {[p]}) room h' -> Q tt h') ->
    wp (heap_free p) Q h;
  heap_free_null_law h Q : Q tt h -> wp (heap_free 0) Q h;
  heap_inv_weaken live room room' h : room' <= room -> heap_inv live room h -> heap_inv live room' h;
}.

Section kernel_allocator.
Variable base : Z.
Variable fuel : nat.

#[local] Abbreviation free_list := (free_list base).
#[local] Abbreviation release := KernelHeap.release.

(** The block of payload [p] has [n] headers. *)
Record live_block (k : kernel_t) (blocks : list (Z * Z)) (p n : Z) : Prop := {
  lb_size : 1 <= n;
  lb_start : heap_start (kernel_heap k) <= p - HEADER_SIZE;
  lb_end : p - HEADER_SIZE + HEADER_SIZE * n <= heap_break (kernel_heap k);
  lb_apart : apart (p - HEADER_SIZE) n blocks;
  lb_word : word k (p - HEADER_SIZE + 4) = n;
}.

Record heap_state (sizes : gmap Z Z) (blocks : list (Z * Z)) (room : Z) (k : kernel_t) : Prop := {
  hs_free : free_list k blocks;
  hs_room : room <= 0 \/ exists b m, (b, m) ∈ blocks /\ room <= m;
  hs_fuel : (length blocks + size sizes + Z.to_nat room < fuel)%nat;
  hs_live : forall p n, sizes !! p = Some n -> live_block k blocks p n;
  hs_disjoint : forall p n q m, sizes !! p = Some n -> sizes !! q = Some m -> p <> q ->
                  p + HEADER_SIZE * n <= q \/ q + HEADER_SIZE * m <= p;
}.

Definition kernel_heap_inv (live : gset Z) (room : Z) (k : kernel_t) : Prop :=
  exists sizes blocks, dom sizes = live /\ heap_state sizes blocks room k.

(** ** Lists of free blocks *)

Lemma join_length p pn a n rest : (length (join p pn a n rest) <= 2 + length rest)%nat.
Proof using Type.
  unfold join, merge_next. destruct rest as [|[q m] rest]; [|destruct (_ =? _)]; destruct (_ =? _); simpl; lia.
Qed.

Lemma release_length a n cells : (length (release a n cells) <= 1 + length cells)%nat.
Proof using Type.
  induction cells as [|[p pn] [|[q m] rest] IH]; simpl in *; [lia| |].
  - pose proof (join_length p pn a n []). simpl in *. lia.
  - destruct (q <? a); simpl in *; [lia|]. pose proof (join_length p pn a n ((q, m) :: rest)). simpl in *. lia.
Qed.

(** Freeing never makes a free block smaller. *)
Lemma join_room p pn a n rest b m :
  0 <= n -> (forall c o, (c, o) ∈ (p, pn) :: rest -> 0 <= o) -> (b, m) ∈ (p, pn) :: rest ->
  exists c o, (c, o) ∈ join p pn a n rest /\ m <= o.
Proof using Type.
  intros Hn Hrest Hin. unfold join, merge_next.
  destruct rest as [|[q r] rest].
  - apply list_elem_of_singleton in Hin as [= -> ->].
    destruct (_ =? a); eexists _, _; (split; [by left|lia]).
  - assert (0 <= r /\ 0 <= pn) as Hr by (split; [apply (Hrest q); right; left|apply (Hrest p); left]).
    rewrite !elem_of_cons in Hin.
    destruct (_ =? q), (_ =? a); destruct Hin as [[= -> ->]|[[= -> ->]|Hin]].
    all: try (by eexists _, _; (split; [left|lia])).
    all: try (by eexists _, _; (split; [right; left|lia])).
    all: try (by eexists _, _; (split; [do 2 right; left|lia])).
    all: exists b, m; split; [rewrite !elem_of_cons; tauto|lia].
Qed.

Lemma release_room a n cells b m :
  0 <= n -> (forall c o, (c, o) ∈ cells -> 0 <= o) -> (b, m) ∈ cells ->
  exists c o, (c, o) ∈ release a n cells /\ m <= o.
Proof using Type.
  intros Hn. revert b m. induction cells as [|[p pn] [|[q r] rest] IH]; intros b m Hpos Hin.
  - by apply not_elem_of_nil in Hin.
  - apply (join_room p pn a n [] b m); done.
  - simpl. destruct (q <? a).
    + apply elem_of_cons in Hin as [[= -> ->]|Hin]; [exists p, pn; split; [left|lia]|].
      destruct (IH b m) as (c & o & Hc & Ho); [|done|].
      { intros c o Hc. apply (Hpos c). by right. }
      exists c, o. split; [by right|done].
    + apply (join_room p pn a n ((q, r) :: rest) b m); done.
Qed.

Lemma free_list_positive k blocks c o : free_list k blocks -> (c, o) ∈ blocks -> 1 <= o.
Proof using Type.
  intros Hfl Hin. by destruct (blocks_ok_bounds _ _ _ _ _ (fl_blocks _ _ _ Hfl) Hin) as (_ & ? & _).
Qed.

Lemma in_blocks_elem blocks x :
  in_blocks blocks x <-> exists b n, (b, n) ∈ blocks /\ b <= x < b + HEADER_SIZE * n.
Proof using Type.
  unfold in_blocks. rewrite Exists_exists. split.
  - intros ([b n] & Hin & Hx). exists b, n. split; [by apply list_elem_of_In|done].
  - intros (b & n & Hin & Hx). exists (b, n). split; [by apply list_elem_of_In|done].
Qed.

Lemma apart_elem a n blocks :
  apart a n blocks <-> forall b m, (b, m) ∈ blocks -> b + HEADER_SIZE * m <= a \/ a + HEADER_SIZE * n <= b.
Proof using Type.
  unfold apart. rewrite List.Forall_forall. split.
  - intros H b m Hin. apply (H (b, m)). by apply list_elem_of_In.
  - intros H [b m] Hin. apply H. by apply list_elem_of_In.
Qed.

(** A block that shares no byte with the free memory is apart from it. *)
Lemma apart_of_bytes a n lo hi blocks :
  1 <= n -> blocks_ok lo hi blocks ->
  (forall x, a <= x < a + HEADER_SIZE * n -> ~ in_blocks blocks x) -> apart a n blocks.
Proof using Type.
  intros Hn Hok Hx. apply apart_elem. intros b m Hin.
  destruct (blocks_ok_bounds _ _ _ _ _ Hok Hin) as (_ & Hm & _).
  destruct (Z_le_gt_dec (b + HEADER_SIZE * m) a) as [|H1]; [by left|].
  destruct (Z_le_gt_dec (a + HEADER_SIZE * n) b) as [|H2]; [by right|]. exfalso.
  unfold HEADER_SIZE in *. apply (Hx (Z.max a b)); [lia|]. apply in_blocks_elem.
  exists b, m. split; [done|]. unfold HEADER_SIZE. lia.
Qed.

Lemma apart_bytes a n blocks x : apart a n blocks -> a <= x < a + HEADER_SIZE * n -> ~ in_blocks blocks x.
Proof using Type.
  intros Hap Hx Hin. apply in_blocks_elem in Hin as (b & m & Hin & Hb).
  destruct (proj1 (apart_elem _ _ _) Hap b m Hin); lia.
Qed.

(** A live block survives an operation that keeps the heap's bounds, its bytes
    out of the free memory and its size word. *)
Lemma live_block_frame k k' blocks blocks' p n :
  live_block k blocks p n -> free_list k' blocks' ->
  heap_start (kernel_heap k') = heap_start (kernel_heap k) ->
  heap_break (kernel_heap k') = heap_break (kernel_heap k) ->
  (forall x, p - HEADER_SIZE <= x < p - HEADER_SIZE + HEADER_SIZE * n -> ~ in_blocks blocks' x) ->
  word k' (p - HEADER_SIZE + 4) = word k (p - HEADER_SIZE + 4) ->
  live_block k' blocks' p n.
Proof using Type.
  intros [H1 H2 H3 H4 H5] Hfl Hs Hb Hx Hw.
  split; rewrite ?Hs, ?Hb; try done; [|congruence].
  eapply apart_of_bytes; [done|apply Hfl|done].
Qed.

Lemma set_head_bounds k k' h :
  kernel_heap k' = set_head h (kernel_heap k) ->
  heap_start (kernel_heap k') = heap_start (kernel_heap k) /\
  heap_break (kernel_heap k') = heap_break (kernel_heap k).
Proof using Type. by intros ->. Qed.

Lemma live_not_base k blocks p n : free_list k blocks -> live_block k blocks p n -> p - HEADER_SIZE + 4 <> base.
Proof using Type.
  intros Hfl [_ H2 _ _ _]. destruct (fl_base _ _ _ Hfl). unfold HEADER_SIZE in *. lia.
Qed.

(** ** Allocation *)

Lemma block_headers_needed size : 0 < size < 2 ^ 32 - 7 -> headers_needed size = block_headers size.
Proof using Type.
  intros H. unfold headers_needed, block_headers, HEADER_SIZE. replace (size + 8 - 1) with (size + 7) by lia.
  rewrite (u32_small (size + 7)) by lia. rewrite u32_small; zlia.
Qed.

Lemma carved_elem blocks i b m n c o :
  blocks !! i = Some (b, m) -> n <= m ->
  (c, o) ∈ carved blocks i b m n -> (c, o) ∈ blocks \/ (c, o) = (b, m - n) /\ n < m.
Proof using Type.
  intros Hi Hn. rewrite <- (take_drop_middle _ _ _ Hi) at 2. unfold carved.
  rewrite !elem_of_app, elem_of_cons. destruct (Z.eqb_spec m n).
  - intros [H|[H|H]]; [tauto|by apply not_elem_of_nil in H|tauto].
  - intros [H|[H|H]]; [tauto| |tauto]. apply list_elem_of_singleton in H. right. split; [done|lia].
Qed.

Lemma carved_room blocks i b m n room :
  blocks !! i = Some (b, m) -> 1 <= n <= m -> (exists c o, (c, o) ∈ blocks /\ room <= o) ->
  room - n <= 0 \/ exists c o, (c, o) ∈ carved blocks i b m n /\ room - n <= o.
Proof using Type.
  intros Hi Hn (c & o & Hc & Ho). rewrite <- (take_drop_middle _ _ _ Hi) in Hc. unfold carved.
  rewrite elem_of_app, elem_of_cons in Hc. destruct Hc as [Hc|[[= -> ->]|Hc]].
  - right. exists c, o. rewrite !elem_of_app. split; [tauto|lia].
  - destruct (Z.eqb_spec m n); [left; lia|]. right. exists b, (m - n).
    rewrite !elem_of_app. split; [right; left; left|lia].
  - right. exists c, o. rewrite !elem_of_app. split; [tauto|lia].
Qed.

Lemma carved_length blocks i b m n :
  blocks !! i = Some (b, m) -> (length (carved blocks i b m n) <= length blocks)%nat.
Proof using Type.
  intros Hi. pose proof (lookup_lt_Some _ _ _ Hi). unfold carved.
  rewrite !length_app, length_take, length_drop. destruct (m =? n); simpl; lia.
Qed.

Lemma heap_state_malloc sizes blocks room k i b m n k' :
  heap_state sizes blocks room k -> blocks !! i = Some (b, m) -> 1 <= n <= m -> n <= room ->
  free_list k' (carved blocks i b m n) ->
  word k' (b + HEADER_SIZE * (m - n) + 4) = n ->
  kernel_heap k' = set_head (free_headers_head (kernel_heap k')) (kernel_heap k) ->
  (forall x, ~ in_blocks blocks x -> x <> base -> word k' x = word k x) ->
  let r := b + HEADER_SIZE * (m - n) + HEADER_SIZE in
  sizes !! r = None /\ heap_state (<[r := n]> sizes) (carved blocks i b m n) (room - n) k'.
Proof using Type.
  intros Hst Hi Hn Hroom Hfl' Hw [Hs Hb]%set_head_bounds Hframe r.
  pose proof (hs_free _ _ _ _ Hst) as Hfl. pose proof (list_elem_of_lookup_2 _ _ _ Hi) as Hin.
  destruct (blocks_ok_bounds _ _ _ _ _ (fl_blocks _ _ _ Hfl) Hin) as (Hlo & _ & Hhi).
  assert (r - HEADER_SIZE = b + HEADER_SIZE * (m - n)) as Hr by (subst r; lia).
  assert (forall p o, sizes !! p = Some o ->
            b + HEADER_SIZE * m <= p - HEADER_SIZE \/ p - HEADER_SIZE + HEADER_SIZE * o <= b) as Hfar.
  { intros p o Hp. apply (proj1 (apart_elem _ _ _) (lb_apart _ _ _ _ (hs_live _ _ _ _ Hst p o Hp)) b m Hin). }
  assert (sizes !! r = None) as Hnew.
  { destruct (sizes !! r) as [o|] eqn:Hp; [|done]. pose proof (lb_size _ _ _ _ (hs_live _ _ _ _ Hst r o Hp)).
    destruct (Hfar r o Hp); unfold HEADER_SIZE in *; lia. }
  split; [done|]. split.
  - done.
  - apply carved_room; [done..|]. destruct (hs_room _ _ _ _ Hst); [lia|done].
  - rewrite map_size_insert_None by done. pose proof (carved_length blocks i b m n Hi).
    pose proof (hs_fuel _ _ _ _ Hst). lia.
  - intros p o [[<- <-]|[Hne Hp]]%lookup_insert_Some.
    + split; rewrite ?Hr, ?Hs, ?Hb; [lia|unfold HEADER_SIZE in *; lia..| |done].
      eapply carved_apart; [apply Hfl|done|lia].
    + pose proof (hs_live _ _ _ _ Hst p o Hp) as Hlive. pose proof (lb_size _ _ _ _ Hlive).
      eapply live_block_frame; [done..| |].
      * intros x Hx Hxin. apply (apart_bytes _ _ _ _ (lb_apart _ _ _ _ Hlive) Hx).
        apply in_blocks_elem in Hxin as (c & o' & Hc & Hxc). apply in_blocks_elem.
        destruct (carved_elem _ _ _ _ _ _ _ Hi (proj2 Hn) Hc) as [|[[= -> ->] ?]]; [by exists c, o'|].
        exists b, m. split; [done|unfold HEADER_SIZE in *; lia].
      * apply Hframe; [|by eapply live_not_base].
        apply (apart_bytes _ _ _ _ (lb_apart _ _ _ _ Hlive)). unfold HEADER_SIZE in *. lia.
  - intros p o q o' [[<- <-]|[_ Hp]]%lookup_insert_Some [[<- <-]|[_ Hq]]%lookup_insert_Some Hne; [done| | |].
    + destruct (Hfar q o' Hq); unfold HEADER_SIZE in *; lia.
    + destruct (Hfar p o Hp); unfold HEADER_SIZE in *; lia.
    + by apply (hs_disjoint _ _ _ _ Hst).
Qed.

Lemma wp_malloc live room k size page_directory flags Q :
  kernel_heap_inv live room k -> 0 < size < 2 ^ 32 - 7 -> block_headers size <= room ->
  (forall p sizes blocks k', p <> 0 -> p ∉ live -> dom sizes = {[p]} ∪ live ->
     sizes !! p = Some (block_headers size) -> heap_state sizes blocks (room - block_headers size) k' -> Q p k') ->
  wp (kernel_heap_malloc_into_page_directory base fuel size page_directory flags) Q k.
Proof using Type.
  intros (sizes & blocks & <- & Hst) Hsize Hroom HQ. pose proof (hs_free _ _ _ _ Hst) as Hfl.
  pose proof (block_headers_needed size Hsize) as Hneed. pose proof (headers_needed_pos size) as Hpos.
  apply (wp_kernel_heap_malloc base fuel k blocks Hfl); [lia| | |].
  - pose proof (hs_fuel _ _ _ _ Hst). simpl. lia.
  - destruct (hs_room _ _ _ _ Hst) as [|(b & m & Hin & Hm)]; [lia|]. exists b, m. split; [done|lia].
  - intros i b m k' Hi Hm Hfl' _ Hw Hheap Hframe. rewrite Hneed in *.
    destruct (heap_state_malloc sizes blocks room k i b m (block_headers size) k') as [Hnew Hst']; try done.
    eapply HQ; [| |apply dom_insert_L|apply lookup_insert_eq|exact Hst'].
    + destruct (fl_base _ _ _ Hfl).
      destruct (blocks_ok_bounds _ _ _ _ _ (fl_blocks _ _ _ Hfl) (list_elem_of_lookup_2 _ _ _ Hi)).
      unfold HEADER_SIZE in *. lia.
    + by apply not_elem_of_dom.
Qed.

(** ** Clearing a block *)

(** Stores into the payload of a live block leave the heap consistent. *)
Lemma heap_state_store sizes blocks room k p n x w :
  heap_state sizes blocks room k -> sizes !! p = Some n -> p <= x < p + HEADER_SIZE * (n - 1) ->
  heap_mapped base k x = true /\ heap_state sizes blocks room (set_words <[x := w]> k).
Proof using Type.
  intros Hst Hp Hx. pose proof (hs_free _ _ _ _ Hst) as Hfl. destruct (fl_base _ _ _ Hfl) as [Hb0 Hb1].
  pose proof (hs_live _ _ _ _ Hst p n Hp) as [H1 H2 H3 H4 H5].
  assert (forall y, y <> x -> word (set_words <[x := w]> k) y = word k y) as Hframe.
  { intros y Hy. rewrite word_store. by case_decide. }
  assert (forall b m, (b, m) ∈ (base, 0) :: blocks -> b <> x /\ b + 4 <> x) as Hcells.
  { intros b m [[= -> ->]|Hin]%elem_of_cons; [unfold HEADER_SIZE in *; lia|].
    pose proof (free_list_positive _ _ _ _ Hfl Hin).
    destruct (proj1 (apart_elem _ _ _) H4 b m Hin); unfold HEADER_SIZE in *; lia. }
  split; [apply mapped_in_heap; unfold HEADER_SIZE in *; lia|]. split.
  - destruct Hfl as [F1 F2 F3 F4 F5]. split; [done|done| |done|done].
    eapply path_frame; [|exact F3]. intros b m Hin. destruct (Hcells b m Hin).
    by split; apply Hframe.
  - apply Hst.
  - apply Hst.
  - intros q o Hq. destruct (hs_live _ _ _ _ Hst q o Hq) as [K1 K2 K3 K4 K5]. split; try done.
    rewrite Hframe; [done|]. destruct (decide (p = q)) as [->|Hne]; [unfold HEADER_SIZE; lia|].
    destruct (hs_disjoint _ _ _ _ Hst p n q o Hp Hq Hne); unfold HEADER_SIZE in *; lia.
  - apply Hst.
Qed.

Lemma wp_memset_zero sizes blocks room k p n size Q :
  heap_state sizes blocks room k -> sizes !! p = Some n -> 0 <= size <= HEADER_SIZE * (n - 1) ->
  (forall k', heap_state sizes blocks room k' ->
     (forall j, 0 <= j < size / 4 -> word k' (p + 4 * j) = 0) -> Q tt k') ->
  wp (memset_zero base p size) Q k.
Proof using Type.
  intros Hst Hp Hsize HQ. unfold memset_zero. wp_step.
  apply (wp_for_range _ _ _ (fun i k' => heap_state sizes blocks room k' /\
    forall j, 0 <= j < i -> word k' (p + 4 * j) = 0)); [split; [done|lia]| |].
  - intros i k1 Hi [Hst1 Hz].
    destruct (heap_state_store _ _ _ _ p n (p + 4 * i) 0 Hst1 Hp) as [Hm Hst2]; [zlia|].
    apply wp_store_word; [done|]. split; [done|]. intros j Hj. rewrite word_store.
    case_decide; [done|]. apply Hz. lia.
  - assert (0 <= size / 4) as Hs4 by zlia. rewrite Z.max_r by done.
    intros k1 [Hst1 Hz]. destruct (Z.eqb_spec (size mod 4) 0); [apply wp_ret; by apply HQ|]. wp_step.
    destruct (heap_state_store _ _ _ _ p n (p + 4 * (size / 4))
      (word k1 (p + 4 * (size / 4)) / 2 ^ (8 * (size mod 4)) * 2 ^ (8 * (size mod 4))) Hst1 Hp) as [Hm Hst2]; [zlia|].
    apply wp_load_word; [done|]. apply wp_store_word; [done|]. apply HQ; [done|]. intros j Hj. rewrite word_store.
    case_decide; [lia|by apply Hz].
Qed.

(** ** Freeing *)

Lemma wp_free_live live room k p Q :
  kernel_heap_inv live room k -> p ∈ live ->
  (forall k', kernel_heap_inv (live ∖ {[p]}) room k' -> Q tt k') ->
  wp (kernel_heap_free base fuel p) Q k.
Proof using Type.
  intros (sizes & blocks & <- & Hst) [n Hp]%elem_of_dom HQ. pose proof (hs_free _ _ _ _ Hst) as Hfl.
  pose proof (hs_live _ _ _ _ Hst p n Hp) as Hlive. destruct Hlive as [H1 H2 H3 H4 H5].
  replace p with (p - HEADER_SIZE + HEADER_SIZE) by lia.
  assert (0 < size sizes)%nat as Hsz.
  { rewrite <- (insert_delete_id _ _ _ Hp), map_size_insert_None by apply lookup_delete_eq. lia. }
  pose proof (hs_fuel _ _ _ _ Hst) as Hfuel.
  apply (wp_kernel_heap_free base fuel k blocks Hfl _ n); try done; [simpl; lia|].
  intros k' blocks' Hrel Hfl' [Hs Hb]%set_head_bounds _ Hin Hframe.
  apply HQ. exists (delete p sizes), blocks'. split; [by rewrite dom_delete_L|].
  assert (forall x q o, sizes !! q = Some o -> q <> p ->
            q - HEADER_SIZE <= x < q - HEADER_SIZE + HEADER_SIZE * o -> ~ in_blocks blocks' x) as Hout.
  { intros x q o Hq Hne Hx [Hxin|Hxin]%Hin.
    - destruct (hs_disjoint _ _ _ _ Hst q o p n Hq Hp Hne); lia.
    - pose proof (hs_live _ _ _ _ Hst q o Hq) as Hlq. by apply (apart_bytes _ _ _ x (lb_apart _ _ _ _ Hlq)). }
  split.
  - done.
  - destruct (hs_room _ _ _ _ Hst) as [|(b & m & Hbm & Hm)]; [by left|]. right.
    destruct (release_room (p - HEADER_SIZE) n ((base, 0) :: blocks) b m) as (c & o & Hc & Ho);
      [lia| |by right|].
    { intros c o [[= -> ->]|Hc]%elem_of_cons; [lia|]. pose proof (free_list_positive _ _ _ _ Hfl Hc). lia. }
    rewrite Hrel in Hc. apply elem_of_cons in Hc as [[= -> ->]|Hc]; [|exists c, o; split; [done|lia]].
    pose proof (free_list_positive _ _ _ _ Hfl Hbm). lia.
  - pose proof (release_length (p - HEADER_SIZE) n ((base, 0) :: blocks)) as Hlen. rewrite Hrel in Hlen.
    rewrite map_size_delete_Some by (by exists n). simpl in Hlen. lia.
  - intros q o [Hne Hq]%lookup_delete_Some.
    pose proof (hs_live _ _ _ _ Hst q o Hq) as Hlq. pose proof (lb_size _ _ _ _ Hlq).
    eapply live_block_frame; [done..| |].
    + intros x Hx. eapply Hout; done.
    + apply Hframe; [|apply (live_not_base _ _ _ _ Hfl Hlq)]. eapply (Hout _ q o); [done|done|]. unfold HEADER_SIZE in *. lia.
  - intros q o q' o' [_ Hq]%lookup_delete_Some [_ Hq']%lookup_delete_Some. by apply (hs_disjoint _ _ _ _ Hst).
Qed.

(** ** The kernel heap is an allocator *)

#[export] Program Instance kernel_allocator : Allocator kernel_t := {|
  heap_malloc := kernel_heap_malloc base fuel;
  heap_calloc := kernel_heap_calloc base fuel;
  heap_free := kernel_heap_free base fuel;
  heap_inv := kernel_heap_inv;
|}.
Next Obligation.
  intros live room k size Q Hinv Hsize Hroom HQ. unfold kernel_heap_malloc. wp_step. wp_step.
  eapply wp_malloc; [done..|]. intros p sizes blocks k' H1 H2 H3 H4 H5. apply HQ; [done..|].
  by exists sizes, blocks.
Qed.
Next Obligation.
  intros live room k size Q Hinv Hsize Hroom HQ. unfold kernel_heap_calloc, kernel_heap_calloc_into_page_directory.
  wp_step. wp_step. wp_step.
  eapply wp_malloc; [done..|]. intros p sizes blocks k' H1 H2 H3 H4 H5.
  destruct (Z.eqb_spec p 0); [done|]. wp_step.
  eapply wp_memset_zero; [done|done|unfold block_headers, HEADER_SIZE; zlia|].
  intros k2 H6 _. apply wp_ret, HQ; [done..|]. by exists sizes, blocks.
Qed.
Next Obligation. intros live room k p Q. apply wp_free_live. Qed.
Next Obligation. intros k Q HQ. by apply wp_ret. Qed.
Next Obligation.
  intros live room room' k Hle (sizes & blocks & H1 & [H2 H3 H4 H5 H6]). exists sizes, blocks.
  split; [done|]. split; [done| |lia|done|done].
  destruct H3 as [|(b & m & Hin & Hm)]; [left; lia|]. right. exists b, m. split; [done|lia].
Qed.

(** C11: [kernel_heap_calloc] in a heap with a set of live blocks, while one free
    block is large enough: it answers a payload that is none of the live ones,
    its block overlaps no live block (the heap stays consistent with it added),
    and every whole word of the payload is zero. *)
Theorem kernel_heap_calloc_spec sizes blocks room k size :
  heap_state sizes blocks room k -> 0 < size < 2 ^ 32 - 7 -> block_headers size <= room ->
  wp (kernel_heap_calloc base fuel size)
     (fun p k' => p <> 0 /\ sizes !! p = None /\
        (exists sizes' blocks', dom sizes' = {[p]} ∪ dom sizes /\
           sizes' !! p = Some (block_headers size) /\
           heap_state sizes' blocks' (room - block_headers size) k') /\
        (forall j, 0 <= j < size / 4 -> word k' (p + 4 * j) = 0)) k.
Proof using Type.
  intros Hst Hsize Hroom. unfold kernel_heap_calloc, kernel_heap_calloc_into_page_directory.
  do 3 wp_step. apply (wp_malloc (dom sizes) room); [by exists sizes, blocks|done..|].
  intros p sizes' blocks' k' H1 H2%not_elem_of_dom H3 H4 H5.
  destruct (Z.eqb_spec p 0); [done|]. wp_step.
  eapply wp_memset_zero; [done|done|unfold block_headers, HEADER_SIZE; zlia|].
  intros k2 H6 H7. apply wp_ret. split_and!; [done..| |done]. by exists sizes', blocks'.
Qed.

(** [kernel_heap_free] of a live block: the block leaves the live set, every
    other live block stays intact, and the room for further requests does not
    shrink. *)
Theorem kernel_heap_free_live live room k p :
  kernel_heap_inv live room k -> p ∈ live ->
  wp (kernel_heap_free base fuel p) (fun _ k' => kernel_heap_inv (live ∖ {[p]}) room k') k.
Proof using Type. intros Hinv Hp. by apply (wp_free_live live room k p). Qed.
End kernel_allocator.

(** ** Witnesses *)

Lemma small_kernel_state :
  heap_state 0xC0100000 30 {[ 0xF0000108 := 4 ]} small_blocks 20 small_kernel.
Proof.
  split.
  - exact small_kernel_free_list.
  - right. exists 0xF0000000, 32. split; [left|lia].
  - vm_compute. lia.
  - intros p n [<- <-]%lookup_singleton_Some. split; [lia|vm_compute; congruence..| |reflexivity].
    repeat constructor; unfold HEADER_SIZE; lia.
  - intros p n q m [<- <-]%lookup_singleton_Some [<- <-]%lookup_singleton_Some Hne. done.
Qed.

Lemma kernel_heap_calloc_spec_witness :
  wp (kernel_heap_calloc 0xC0100000 30 100)
     (fun p k' => p <> 0 /\ p <> 0xF0000108 /\ forall j, 0 <= j < 25 -> word k' (p + 4 * j) = 0) small_kernel.
Proof.
  eapply wp_mono; [apply (kernel_heap_calloc_spec 0xC0100000 30 _ _ _ _ 100 small_kernel_state); [lia|vm_compute; congruence]|].
  intros p k' (H1 & H2%lookup_singleton_None & _ & H3). split_and!; [done|done|exact H3].
Defined.

Lemma kernel_heap_free_live_witness :
  wp (kernel_heap_free 0xC0100000 30 0xF0000108) (fun _ k' => kernel_heap_inv 0xC0100000 30 ∅ 20 k') small_kernel.
Proof.
  eapply wp_mono.
  - apply (kernel_heap_free_live 0xC0100000 30 {[ 0xF0000108 ]} 20); [|set_solver].
    exists {[ 0xF0000108 := 4 ]}, small_blocks. split; [apply dom_singleton_L|exact small_kernel_state].
  - intros [] k' H. by rewrite difference_diag_L in H.
Defined.
