(* ===== verification/Keyboard.v ===== *)
(** * Keyboard driver (src/drivers/keyboard.c)

    A ring buffer of scancodes between the interrupt handler and the readers of
    /dev/keyboard, and the state of the modifier keys. *)
From S2P Require Import Prelude Bitmap Paging KernelHeap Tasks TaskManager.

Definition KEYBOARD_BUFFER_SIZE : Z := 256.

Record keyboard_special_state_t : Type := mk_special_state { shift : bool; ctrl : bool; alt : bool }.

Record keyboard_t : Type := mk_keyboard {
  special_state : keyboard_special_state_t;
  kb_buffer : list Z;
  buffer_head : Z;
  buffer_tail : Z;
  buffer_count : Z;
}.
#[export] Instance special_state_fields : Fields keyboard_special_state_t := fun s =>
  mk_special_state (shift s) (ctrl s) (alt s).
#[export] Instance keyboard_fields : Fields keyboard_t := fun k =>
  mk_keyboard (special_state k) (kb_buffer k) (buffer_head k) (buffer_tail k) (buffer_count k).

(** ** The ring buffer *)

Definition keyboard_buffer_write (scancode : Z) : M keyboard_t unit :=
  let! k := get in
  if buffer_count k =? KEYBOARD_BUFFER_SIZE then ret tt
  else
    modify (fun k => k <| kb_buffer := <[Z.to_nat (buffer_head k) := scancode]> (kb_buffer k) |>
                       <| buffer_head := (buffer_head k + 1) mod KEYBOARD_BUFFER_SIZE |>
                       <| buffer_count := buffer_count k + 1 |>).

(** The bytes that are copied out; [*read_bytes] is their number. *)
Definition keyboard_read (fuel : nat) (length_of_buffer : Z) : M keyboard_t (resource_result_t * list Z) :=
  let! out := loop fuel (fun out =>
    let! k := get in
    if (Z.of_nat (length out) <? length_of_buffer) && (0 <? buffer_count k) then
      let! b := of_option (kb_buffer k !! Z.to_nat (buffer_tail k)) in
      do! modify (fun k => k <| buffer_tail := (buffer_tail k + 1) mod KEYBOARD_BUFFER_SIZE |>
                             <| buffer_count := buffer_count k - 1 |>) in
      ret (inl (out ++ [b]))
    else ret (inr out)) [] in
  if bool_decide (out = []) then ret (RESOURCE_RESULT_WILL_BLOCK, [])
  else ret (RESOURCE_RESULT_OK, out).

(** ** The interrupt handler *)

(** The driver and the task manager that it wakes readers through. *)
Record keyboard_os_t : Type := mk_keyboard_os { kb_os : os_t; keyboard : keyboard_t }.
#[export] Instance keyboard_os_fields : Fields keyboard_os_t := fun s => mk_keyboard_os (kb_os s) (keyboard s).

Definition on_keyboard {A} (op : M keyboard_t A) : M keyboard_os_t A :=
  zoom keyboard (fun k s => s <| keyboard := k |>) op.

(** [scancode] is what the port 0x60 answers, [address] is [&keyboard]. *)
Definition keyboard_irq_handler (fuel : nat) (address scancode : Z) : M keyboard_os_t unit :=
  let released := negb (Z.land scancode 0x80 =? 0) in
  let key := Z.land scancode 0x7F in
  do! on_keyboard (modify (fun k =>
        if (key =? 42) || (key =? 54) then k <| special_state := (special_state k) <| shift := negb released |> |>
        else if key =? 29 then k <| special_state := (special_state k) <| ctrl := negb released |> |>
        else if key =? 56 then k <| special_state := (special_state k) <| alt := negb released |> |>
        else k)) in
  do! on_keyboard (keyboard_buffer_write scancode) in
  zoom kb_os (fun o s => s <| kb_os := o |>) (task_manager_wake_blocked_on fuel TASK_WAIT_REASON_IO address).

(** ** The buffer is a queue *)

(** The ring buffer holds the scancodes [l], oldest first. *)
Record holds (k : keyboard_t) (l : list Z) : Prop := {
  kh_size : length (kb_buffer k) = 256%nat;
  kh_tail : 0 <= buffer_tail k < KEYBOARD_BUFFER_SIZE;
  kh_count : buffer_count k = Z.of_nat (length l) /\ buffer_count k <= KEYBOARD_BUFFER_SIZE;
  kh_head : buffer_head k = (buffer_tail k + buffer_count k) mod KEYBOARD_BUFFER_SIZE;
  kh_bytes : forall i b, l !! i = Some b ->
               kb_buffer k !! Z.to_nat ((buffer_tail k + Z.of_nat i) mod KEYBOARD_BUFFER_SIZE) = Some b;
}.

Lemma holds_push k l c :
  holds k l -> Z.of_nat (length l) < KEYBOARD_BUFFER_SIZE ->
  holds (k <| kb_buffer := <[Z.to_nat (buffer_head k) := c]> (kb_buffer k) |>
           <| buffer_head := (buffer_head k + 1) mod KEYBOARD_BUFFER_SIZE |>
           <| buffer_count := buffer_count k + 1 |>) (l ++ [c]).
Proof.
  intros [H1 H2 [H3 H4] H5 H6] Hlen. unfold KEYBOARD_BUFFER_SIZE in *. split; simpl.
  - by rewrite length_insert.
  - done.
  - rewrite length_app. simpl. unfold KEYBOARD_BUFFER_SIZE. lia.
  - unfold KEYBOARD_BUFFER_SIZE. rewrite H5. rewrite Zplus_mod_idemp_l. f_equal. lia.
  - unfold KEYBOARD_BUFFER_SIZE. intros i b [Hi|[Hi Hb]]%lookup_app_Some.
    + rewrite list_lookup_insert_ne; [by apply H6|]. apply lookup_lt_Some in Hi. rewrite H5.
      intros E. apply Z2Nat.inj in E; [zlia|zlia|zlia].
    + destruct (i - length l)%nat as [|n] eqn:En; [|done]. injection Hb as <-.
      assert (i = length l) as -> by lia. rewrite H5, H3.
      apply list_lookup_insert_eq. rewrite H1. zlia.
Qed.

Lemma holds_pop k b l :
  holds k (b :: l) ->
  kb_buffer k !! Z.to_nat (buffer_tail k) = Some b /\
  holds (k <| buffer_tail := (buffer_tail k + 1) mod KEYBOARD_BUFFER_SIZE |>
           <| buffer_count := buffer_count k - 1 |>) l.
Proof.
  intros [H1 H2 [H3 H4] H5 H6]. unfold KEYBOARD_BUFFER_SIZE in *. simpl length in H3. split.
  - rewrite <- (H6 O b) by done. f_equal. zlia.
  - split; simpl; unfold KEYBOARD_BUFFER_SIZE.
    + done.
    + zlia.
    + lia.
    + rewrite H5, Zplus_mod_idemp_l. f_equal. lia.
    + intros i c Hi. rewrite <- (H6 (S i) c) by done. f_equal. f_equal.
      rewrite Zplus_mod_idemp_l. f_equal. lia.
Qed.

(** A scancode goes to the end of the queue, and is dropped when the queue
    already holds 256. *)
Theorem keyboard_buffer_write_spec k l c :
  holds k l ->
  wp (keyboard_buffer_write c)
     (fun _ k' => special_state k' = special_state k /\
        if decide (Z.of_nat (length l) = KEYBOARD_BUFFER_SIZE) then k' = k else holds k' (l ++ [c])) k.
Proof.
  intros Hk. pose proof (kh_count _ _ Hk) as [H3 H4]. unfold keyboard_buffer_write. wp_step. wp_step.
  rewrite H3. destruct (Z.eqb_spec (Z.of_nat (length l)) KEYBOARD_BUFFER_SIZE) as [E|E].
  - wp_step. by rewrite decide_True.
  - wp_step. rewrite decide_False by done. split; [done|]. apply holds_push; [done|lia].
Qed.

(** The answer for the bytes that were copied. *)
Lemma answer k0 k (out rest : list Z) :
  holds k rest -> special_state k = special_state k0 ->
  wp (if bool_decide (out = []) then ret (RESOURCE_RESULT_WILL_BLOCK, []) else ret (RESOURCE_RESULT_OK, out))
     (fun '(r, bytes) k' => bytes = out /\ holds k' rest /\ special_state k' = special_state k0 /\
        (r = RESOURCE_RESULT_WILL_BLOCK <-> bytes = []) /\ (r = RESOURCE_RESULT_OK <-> bytes <> [])) k.
Proof.
  intros Hk Hs. case_bool_decide as E; wp_step; split_and!; try done; split; congruence.
Qed.

(** C15: A read takes the oldest scancodes, at most as many as the buffer has room
    for, in the order in which they came; it asks the caller to block exactly
    when it has nothing to answer. *)
Theorem keyboard_read_spec k l n fuel :
  holds k l -> 0 <= n -> (length l < fuel)%nat ->
  wp (keyboard_read fuel n)
     (fun '(r, bytes) k' => bytes = take (Z.to_nat n) l /\ holds k' (drop (Z.to_nat n) l) /\
        special_state k' = special_state k /\
        (r = RESOURCE_RESULT_WILL_BLOCK <-> bytes = []) /\ (r = RESOURCE_RESULT_OK <-> bytes <> [])) k.
Proof.
  intros Hk Hn Hfuel. unfold keyboard_read. wp_step.
  apply (wp_loop _ _ _ (fun out k1 => exists rest, l = out ++ rest /\ holds k1 rest /\
      (length out <= Z.to_nat n)%nat /\ special_state k1 = special_state k)
    (fun out _ => (length l - length out)%nat)).
  - exists l. split_and!; [done|done|simpl; lia|done].
  - simpl. lia.
  - intros out k1 (rest & -> & Hk1 & Hlen & Hs). pose proof (kh_count _ _ Hk1) as [H3 _].
    wp_step. wp_step.
    destruct (Z.ltb_spec (Z.of_nat (length out)) n), (Z.ltb_spec 0 (buffer_count k1)); simpl andb; cbv iota.
    + destruct rest as [|b rest]; [simpl in H3; lia|]. apply holds_pop in Hk1 as [Hb Hpop].
      wp_step. eapply wp_of_option; [exact Hb|]. wp_step. wp_step. wp_step. split.
      * exists rest. split_and!; [by rewrite <- app_assoc|done|rewrite length_app; simpl; lia|done].
      * rewrite !length_app. simpl. lia.
    + destruct rest; [|simpl in H3; lia]. wp_step. rewrite app_nil_r.
      assert (take (Z.to_nat n) out = out) as Ht by (apply take_ge; lia).
      rewrite Ht, drop_ge by lia. by apply answer.
    + wp_step. assert (Z.to_nat n = length out) as Hn' by lia. rewrite Hn', take_app_length, drop_app_length.
      by apply answer.
    + wp_step. assert (Z.to_nat n = length out) as Hn' by lia. rewrite Hn', take_app_length, drop_app_length.
      by apply answer.
Qed.

(** ** Witnesses *)

(** Two scancodes that wrap around the end of the ring. *)
Definition demo_keyboard : keyboard_t :=
  mk_keyboard (mk_special_state false false false) (<[255%nat := 30]> (<[0%nat := 158]> (repeat 0 256))) 1 255 2.

Lemma demo_keyboard_holds : holds demo_keyboard [30; 158].
Proof.
  split; [reflexivity|simpl; unfold KEYBOARD_BUFFER_SIZE; lia|simpl; unfold KEYBOARD_BUFFER_SIZE; lia|reflexivity|].
  intros [|[|i]] b; [intros [= <-]; reflexivity..|done].
Qed.

Lemma keyboard_buffer_write_spec_witness :
  wp (keyboard_buffer_write 7) (fun _ k' => holds k' [30; 158; 7]) demo_keyboard.
Proof.
  eapply wp_mono; [apply (keyboard_buffer_write_spec demo_keyboard _ 7 demo_keyboard_holds)|].
  intros a k' [_ H]. exact H.
Defined.

Lemma keyboard_read_spec_witness :
  wp (keyboard_read 9 1) (fun '(r, bytes) k' => r = RESOURCE_RESULT_OK /\ bytes = [30] /\ holds k' [158]) demo_keyboard.
Proof.
  eapply wp_mono; [apply (keyboard_read_spec demo_keyboard _ 1 9 demo_keyboard_holds); simpl; lia|].
  intros [r bytes] k' (-> & H & _ & _ & Hr). split_and!; [by apply Hr|done|exact H].
Defined.
