(* ===== verification/Terminal.v ===== *)
(** * The terminal (src/terminal.c, include/terminal.h, include/text_display_driver.h)

    A grid of characters with a cursor over a text display driver.  The driver is
    the class [TextDisplay]; what the terminal relies on is [TextDisplayLaws],
    which [Framebuffer] discharges.  A character is a value of the C type [char];
    the cells of the buffer are the list of the bytes that [kernel_heap_calloc]
    answered, and an index outside it is a [Fault]. *)
From S2P Require Import Prelude Bitmap Paging KernelHeap Tasks Allocator.

(** ** The driver *)

Class TextDisplay (D : Type) := {
  put_char : Z -> Z -> Z -> M D unit;      (* character, x, y *)
  set_cursor : Z -> Z -> M D unit;
  get_dimensions : M D (Z * Z);
}.

Definition on_screen (columns rows x y : Z) : Prop := 0 <= x < columns /\ 0 <= y < rows.

(** [shows d x y c]: the cell at [x], [y] of the display shows the character [c]. *)
Class TextDisplayLaws (D : Type) {driver : TextDisplay D} := {
  display_ok : Z -> Z -> D -> Prop;
  shows : D -> Z -> Z -> Z -> Prop;
  put_char_law columns rows d c x y :
    display_ok columns rows d -> on_screen columns rows x y ->
    wp (put_char c x y)
       (fun _ d' => display_ok columns rows d' /\ shows d' x y c /\
          forall x' y' c', on_screen columns rows x' y' -> (x', y') <> (x, y) ->
            shows d x' y' c' -> shows d' x' y' c') d;
  set_cursor_law columns rows d x y :
    display_ok columns rows d -> on_screen columns rows x y ->
    wp (set_cursor x y)
       (fun _ d' => display_ok columns rows d' /\
          forall x' y' c', on_screen columns rows x' y' -> (x', y') <> (x, y) ->
            shows d x' y' c' -> shows d' x' y' c') d;
  get_dimensions_law columns rows d :
    display_ok columns rows d -> wp get_dimensions (fun r d' => r = (columns, rows) /\ d' = d) d;
}.

(** ** Data *)

Inductive terminal_overflow_t : Type :=
| TERMINAL_OVERFLOW_NONE
| TERMINAL_OVERFLOW_WRAP
| TERMINAL_OVERFLOW_NEW_LINE.

Inductive terminal_scroll_t : Type :=
| TERMINAL_SCROLL_NONE
| TERMINAL_SCROLL_VERTICAL.

Inductive terminal_result_t : Type :=
| TERMINAL_RESULT_OK
| TERMINAL_RESULT_OUT_OF_BOUNDS.

Record terminal_point_t : Type := mk_point { px : Z; py : Z }.

(** [grid] are the bytes at [buffer]; there are none at [NULL]. *)
Record terminal_t : Type := mk_terminal {
  buffer : Z;
  grid : list Z;
  cursor : terminal_point_t;
  overflow : terminal_overflow_t;
  scroll : terminal_scroll_t;
  width : Z;
  height : Z;
}.
#[export] Instance terminal_fields : Fields terminal_t := fun t =>
  mk_terminal (buffer t) (grid t) (cursor t) (overflow t) (scroll t) (width t) (height t).

(** The characters the terminal treats on their own. *)
Definition NEWLINE : Z := 10.
Definition BACKSPACE : Z := 8.
Definition SPACE : Z := 32.

Definition terminal_display_char (character : Z) : Z :=
  if character =? NEWLINE then SPACE else character.

Section terminal.
Context {D : Type} {driver : TextDisplay D}.

(** The terminal and the device its driver drives. *)
Definition console_t : Type := terminal_t * D.

Definition on_terminal {A} (op : M terminal_t A) : M console_t A :=
  zoom fst (fun t s => (t, snd s)) op.
Definition on_display {A} (op : M D A) : M console_t A := zoom snd (fun d s => (fst s, d)) op.
Definition update_terminal (f : terminal_t -> terminal_t) : M console_t unit := on_terminal (modify f).
Definition this : M console_t terminal_t := gets fst.

(** [terminal->buffer[y * terminal->width + x]] *)
Definition cell_index (t : terminal_t) (x y : Z) : Z := u32 (y * width t + x).
Definition load_cell (i : Z) : M console_t Z :=
  let! t := this in of_option (grid t !! Z.to_nat i).
Definition store_cell (i c : Z) : M console_t unit :=
  do! load_cell i in update_terminal (fun t => t <| grid := <[Z.to_nat i := c]> (grid t) |>).

(** ** Operations *)

Definition terminal_render : M console_t terminal_result_t :=
  let! t := this in
  do! for_range 0 (height t) (fun y => for_range 0 (width t) (fun x =>
        let! character := load_cell (cell_index t x y) in
        on_display (put_char (terminal_display_char character) x y))) in
  ret TERMINAL_RESULT_OK.

Definition terminal_scroll : M console_t terminal_result_t :=
  let! t := this in
  do! for_range 1 (height t) (fun y => for_range 0 (width t) (fun x =>
        let! character := load_cell (cell_index t x y) in
        store_cell (cell_index t x (y - 1)) character)) in
  do! for_range 0 (width t) (fun x => store_cell (cell_index t x (u32 (height t - 1))) 0) in
  terminal_render.

(** The second half of [terminal_set_cursor], from the corrected point on. *)
Definition terminal_move_cursor (point : terminal_point_t) : M console_t terminal_result_t :=
  let! t := this in
  let! previous_character := load_cell (cell_index t (px (cursor t)) (py (cursor t))) in
  do! on_display (put_char (terminal_display_char previous_character)
                           (u32 (px (cursor t))) (u32 (py (cursor t)))) in
  do! update_terminal (fun t => t <| cursor := point |>) in
  do! on_display (set_cursor (u32 (px point)) (u32 (py point))) in
  ret TERMINAL_RESULT_OK.

Definition terminal_set_cursor (point : terminal_point_t) : M console_t terminal_result_t :=
  let! t := this in
  if (px point <? 0) || (width t <=? u32 (px point)) || (py point <? 0) || (height t <=? u32 (py point)) then
    match overflow t with
    | TERMINAL_OVERFLOW_NONE => ret TERMINAL_RESULT_OUT_OF_BOUNDS
    | TERMINAL_OVERFLOW_WRAP => terminal_move_cursor (mk_point 0 (py point))
    | TERMINAL_OVERFLOW_NEW_LINE =>
        if height t <=? u32 (py point + 1) then
          do! terminal_scroll in
          terminal_move_cursor (mk_point 0 (i32 (height t - 1)))
        else terminal_move_cursor (mk_point 0 (py point + 1))
    end
  else terminal_move_cursor point.

Definition terminal_put_char (character : Z) : M console_t terminal_result_t :=
  let! t := this in
  let x := px (cursor t) in
  let y := py (cursor t) in
  if character =? NEWLINE then
    do! store_cell (cell_index t x y) character in
    do! terminal_set_cursor (mk_point 0 (y + 1)) in
    ret TERMINAL_RESULT_OK
  else if character =? BACKSPACE then
    if x =? 0 then ret TERMINAL_RESULT_OK
    else
      do! store_cell (cell_index t (x - 1) y) SPACE in
      do! on_display (put_char SPACE (u32 (x - 1)) (u32 y)) in
      do! terminal_set_cursor (mk_point (x - 1) y) in
      ret TERMINAL_RESULT_OK
  else
    do! store_cell (cell_index t x y) character in
    do! on_display (put_char character (u32 x) (u32 y)) in
    terminal_set_cursor (mk_point (x + 1) y).

(** The string is the characters before its terminator. *)
Fixpoint terminal_put_string (string : list Z) : M console_t terminal_result_t :=
  match string with
  | [] => ret TERMINAL_RESULT_OK
  | c :: rest =>
      let! result := terminal_put_char c in
      match result with
      | TERMINAL_RESULT_OK => terminal_put_string rest
      | _ => ret result
      end
  end.

Definition terminal_set_overflow (o : terminal_overflow_t) : M console_t terminal_result_t :=
  do! update_terminal (fun t => t <| overflow := o |>) in ret TERMINAL_RESULT_OK.
Definition terminal_set_scroll (s : terminal_scroll_t) : M console_t terminal_result_t :=
  do! update_terminal (fun t => t <| scroll := s |>) in ret TERMINAL_RESULT_OK.

(** [(char) byte] *)
Definition char_of_byte (b : Z) : Z := (b + 128) mod 256 - 128.

(** [data] are the bytes from the caller's buffer on; the answer carries
    [*written_bytes]. *)
Definition terminal_write (fuel : nat) (data : list Z) (length : Z) : M console_t (resource_result_t * Z) :=
  let! written := loop fuel (fun written =>
    if written <? length then
      let! b := of_option (data !! Z.to_nat written) in
      if b =? 0 then ret (inr written)
      else
        do! terminal_put_char (char_of_byte b) in
        ret (inl (written + 1))
    else ret (inr written)) 0 in
  ret (RESOURCE_RESULT_OK, written).

(** Runs a terminal operation on a terminal [t] that is a local of the caller. *)
Definition with_terminal {K A} (t : terminal_t) (op : M console_t A) : M (K * D) (A * terminal_t) :=
  fun s => match op (t, snd s) with
           | Ret (a, (t', d)) => Ret ((a, t'), (fst s, d))
           | Fault => Fault
           | NoFuel => NoFuel
           end.

(** [terminal_create] runs over the kernel heap too; the answer is [*out], which
    it stores last. *)
Definition terminal_create {K} {alloc : Allocator K} : M (K * D) (terminal_result_t * terminal_t) :=
  let! ' (w, h) := zoom snd (fun d s => (fst s, d)) get_dimensions in
  let size := u32 (u32 (1 * w) * h) in
  let! p := zoom fst (fun k s => (k, snd s)) (heap_calloc size) in
  let t := mk_terminal p (if p =? 0 then [] else repeat 0 (Z.to_nat size)) (mk_point 0 0)
             TERMINAL_OVERFLOW_NEW_LINE TERMINAL_SCROLL_VERTICAL w h in
  let! ' (_, t) := with_terminal t terminal_render in
  ret (TERMINAL_RESULT_OK, t).

(** ** What a typed character does

    The contents of a [w] by [h] screen in reading order and the cursor. *)
Definition page_t : Type := list Z * (Z * Z).

(** The cursor goes to [x], [y]; past the end of a line it goes on in the next
    one, and the last line scrolls. *)
Definition moved (w h : Z) (text : list Z) (x y : Z) : page_t :=
  if (x <? w) && (y <? h) then (text, (x, y))
  else if y + 1 <? h then (text, (0, y + 1))
  else (drop (Z.to_nat w) text ++ repeat 0 (Z.to_nat w), (0, h - 1)).

Definition typed (w h : Z) (page : page_t) (c : Z) : page_t :=
  let '(text, (x, y)) := page in
  let at_ x := Z.to_nat (y * w + x) in
  if c =? NEWLINE then moved w h (<[at_ x := c]> text) 0 (y + 1)
  else if c =? BACKSPACE then
    if x =? 0 then page else (<[at_ (x - 1) := SPACE]> text, (x - 1, y))
  else moved w h (<[at_ x := c]> text) (x + 1) y.

Definition page_of (t : terminal_t) : page_t := (grid t, (px (cursor t), py (cursor t))).
Definition with_page (p : page_t) (t : terminal_t) : terminal_t :=
  t <| grid := fst p |> <| cursor := mk_point (fst (snd p)) (snd (snd p)) |>.

(** ** The invariant of a terminal that wraps into new lines *)

Section laws.
Context {laws : TextDisplayLaws D}.

Record terminal_ok (t : terminal_t) : Prop := {
  ok_width : 0 < width t;
  ok_height : 0 < height t;
  ok_size : width t * height t < 2 ^ 31;
  ok_cells : length (grid t) = Z.to_nat (width t * height t);
  ok_cursor : on_screen (width t) (height t) (px (cursor t)) (py (cursor t));
  ok_overflow : overflow t = TERMINAL_OVERFLOW_NEW_LINE;
}.

(** Every cell but those in [P] shows its character of the buffer. *)
Definition shown_but (P : Z -> Z -> Prop) (s : console_t) : Prop :=
  display_ok (width (fst s)) (height (fst s)) (snd s) /\
  forall x y, on_screen (width (fst s)) (height (fst s)) x y -> ~ P x y ->
    exists c, grid (fst s) !! Z.to_nat (y * width (fst s) + x) = Some c /\
      shows (snd s) x y (terminal_display_char c).
Definition at_cursor (t : terminal_t) (x y : Z) : Prop := (x, y) = (px (cursor t), py (cursor t)).
Definition nowhere (x y : Z) : Prop := False.

(** The screen of a terminal: the cell under the cursor shows the cursor. *)
Definition screen_ok (s : console_t) : Prop := terminal_ok (fst s) /\ shown_but (at_cursor (fst s)) s.

Lemma cell_bound t x y :
  terminal_ok t -> on_screen (width t) (height t) x y -> 0 <= y * width t + x < width t * height t.
Proof using Type. intros [] [Hx Hy]. nia. Qed.

Lemma cell_index_ok t x y :
  terminal_ok t -> on_screen (width t) (height t) x y -> cell_index t x y = y * width t + x.
Proof using Type.
  intros Ht Hon. pose proof (cell_bound t x y Ht Hon). pose proof (ok_size t Ht). apply u32_small. lia.
Qed.

Lemma cell_some t i :
  terminal_ok t -> 0 <= i < width t * height t -> is_Some (grid t !! Z.to_nat i).
Proof using Type. intros Ht Hi. apply lookup_lt_is_Some. rewrite (ok_cells t Ht). lia. Qed.

Lemma same_cell t x y x' y' :
  on_screen (width t) (height t) x y -> on_screen (width t) (height t) x' y' ->
  Z.to_nat (y * width t + x) = Z.to_nat (y' * width t + x') -> (x, y) = (x', y').
Proof using Type. intros [] [] E. assert (y * width t + x = y' * width t + x') by nia. assert (y = y') by nia. f_equal; lia. Qed.

(** Accesses *)
Lemma wp_load_cell (s : console_t) i c Q :
  grid (fst s) !! Z.to_nat i = Some c -> Q c s -> wp (load_cell i) Q s.
Proof using Type. intros Hc HQ. unfold load_cell, this. by wp_run. Qed.

Lemma wp_store_cell (s : console_t) i c Q :
  is_Some (grid (fst s) !! Z.to_nat i) ->
  Q tt ((fst s) <| grid := <[Z.to_nat i := c]> (grid (fst s)) |>, snd s) -> wp (store_cell i c) Q s.
Proof using Type.
  intros [b Hb] HQ. unfold store_cell, update_terminal, on_terminal. wp_step.
  eapply wp_load_cell; [done|]. by wp_run.
Qed.

(** [put_char] of what a cell of the buffer holds makes the display show it. *)
Lemma wp_draw (P P' : Z -> Z -> Prop) (s : console_t) x y c Q :
  terminal_ok (fst s) -> shown_but P s -> on_screen (width (fst s)) (height (fst s)) x y ->
  grid (fst s) !! Z.to_nat (y * width (fst s) + x) = Some c ->
  (forall x' y', P x' y' -> P' x' y' \/ (x', y') = (x, y)) ->
  (forall d, shown_but P' (fst s, d) -> Q tt (fst s, d)) ->
  wp (on_display (put_char (terminal_display_char c) x y)) Q s.
Proof using Type.
  intros Ht [Hd Hs] Hon Hc HP HQ. unfold on_display. wp_step. destruct s as [t d]. simpl in *.
  eapply wp_mono; [by apply put_char_law|]. intros [] d' (Hd' & Hnew & Hold). apply HQ. split; [done|].
  intros x' y' Hon' HP'. simpl in *. destruct (decide ((x', y') = (x, y))) as [[= -> ->]|Hne]; [eauto|].
  destruct (Hs x' y' Hon') as (c' & Hc' & Hshow); [intros Hin; by destruct (HP _ _ Hin)|]. eauto.
Qed.

(** [terminal_render] shows the whole buffer. *)
Lemma wp_terminal_render (s : console_t) Q :
  terminal_ok (fst s) -> display_ok (width (fst s)) (height (fst s)) (snd s) ->
  (forall d, shown_but nowhere (fst s, d) -> Q TERMINAL_RESULT_OK (fst s, d)) ->
  wp terminal_render Q s.
Proof using Type.
  intros Ht Hd HQ. destruct s as [t d0]. unfold terminal_render, this. wp_go. simpl fst in *.
  apply (wp_for_range _ _ _ (fun i s' => fst s' = t /\ shown_but (fun _ y' => i <= y') s')).
  { split; [done|]. split; [done|]. intros x y [] Hn. simpl in *. lia. }
  2: { intros [t' d] [Et Hs]. simpl in Et. subst t'. wp_step. apply HQ. destruct Hs as [Hd' Hs]. split; [done|].
       intros x y Hon _. apply Hs; [done|]. simpl in *. destruct Hon. lia. }
  intros y [t' d] Hy [Et Hs]. simpl in Et. subst t'.
  apply (wp_for_range _ _ _ (fun i s' => fst s' = t /\ shown_but (fun x' y' => y < y' \/ y' = y /\ i <= x') s')).
  - split; [done|]. destruct Hs as [Hd' Hs]. split; [done|]. intros x' y' Hon Hn. apply Hs; [done|].
    destruct Hon. simpl in *. lia.
  - intros x [t' d'] Hx [Et Hs']. simpl in Et. subst t'.
    assert (on_screen (width t) (height t) x y) as Hon by done.
    destruct (cell_some t _ Ht (cell_bound t x y Ht Hon)) as [c Hc].
    wp_step. eapply wp_load_cell; [simpl; by rewrite cell_index_ok|].
    eapply wp_draw; [done|exact Hs'|done|done| |].
    + intros x' y' HP. simpl in HP. instantiate (1 := fun x' y' => y < y' \/ y' = y /\ x + 1 <= x').
      simpl. destruct (decide (x' = x)) as [->|]; [|lia]. destruct (decide (y' = y)) as [->|]; [by right|lia].
    + done.
  - intros [t' d'] [Et [Hd' Hs']]. simpl in Et. subst t'. split; [done|]. split; [done|].
    intros x' y' Hon HP. apply Hs'; [done|]. destruct Hon. simpl in *. lia.
Qed.

(** The text after the first [k] cells has moved up by one line of [w] cells. *)
Definition shifted (w k : nat) (text : list Z) : list Z := take k (drop w text) ++ drop k text.

Lemma shifted_step w k text c :
  (k + w < length text)%nat -> shifted w k text !! (k + w)%nat = Some c ->
  <[k := c]> (shifted w k text) = shifted w (S k) text.
Proof using Type.
  intros Hk Hc. unfold shifted in *.
  assert (length (take k (drop w text)) = k) as Hlen by (rewrite length_take, length_drop; lia).
  rewrite lookup_app_r, Hlen, lookup_drop in Hc by lia. replace (k + (k + w - k))%nat with (w + k)%nat in Hc by lia.
  rewrite insert_app_r_alt by lia. rewrite Hlen, Nat.sub_diag.
  destruct (lookup_lt_is_Some_2 text k) as [b Hb]; [lia|].
  rewrite (drop_S text b k Hb). simpl.
  rewrite (take_S_r _ _ c) by by rewrite lookup_drop.
  by rewrite <- app_assoc.
Qed.

Lemma shifted_lookup w k text :
  (k + w < length text)%nat -> is_Some (shifted w k text !! (k + w)%nat).
Proof using Type.
  intros Hk. apply lookup_lt_is_Some. unfold shifted. rewrite length_app, length_take, !length_drop. lia.
Qed.

Lemma insert_middle {A} (l1 l2 : list A) b c : <[length l1 := c]> (l1 ++ b :: l2) = (l1 ++ [c]) ++ l2.
Proof using Type. rewrite insert_app_r_alt, Nat.sub_diag by lia. by rewrite <- app_assoc. Qed.

Definition scrolled (t : terminal_t) : terminal_t :=
  t <| grid := drop (Z.to_nat (width t)) (grid t) ++ repeat 0 (Z.to_nat (width t)) |>.

Lemma scrolled_ok t : terminal_ok t -> terminal_ok (scrolled t).
Proof using Type.
  intros []. split; simpl; try done. rewrite length_app, length_drop, repeat_length. nia.
Qed.

(** [terminal_scroll] drops the first line and appends an empty one. *)
Lemma wp_terminal_scroll (s : console_t) Q :
  terminal_ok (fst s) -> display_ok (width (fst s)) (height (fst s)) (snd s) ->
  (forall d, shown_but nowhere (scrolled (fst s), d) -> Q TERMINAL_RESULT_OK (scrolled (fst s), d)) ->
  wp terminal_scroll Q s.
Proof using Type.
  intros Ht Hd HQ. destruct s as [t d]. unfold terminal_scroll, this. simpl in Ht, Hd, HQ. wp_go. simpl fst.
  set (w := Z.to_nat (width t)).
  set (up k := t <| grid := shifted w k (grid t) |>).
  assert (Ht' := Ht). destruct Ht' as [Hw Hh Hsz Hlen _ _].
  apply (wp_for_range _ _ _ (fun y s' => s' = (up (Z.to_nat ((y - 1) * width t)), d))).
  { unfold up, shifted. destruct t; simpl. by rewrite drop_0. }
  { intros y s' Hy ->. apply (wp_for_range _ _ _ (fun x s' => s' = (up (Z.to_nat ((y - 1) * width t + x)), d))).
    - by rewrite Z.add_0_r.
    - intros x s' Hx ->. wp_step. rewrite cell_index_ok by (done || split; lia).
      set (k := Z.to_nat ((y - 1) * width t + x)).
      assert (k + w < length (grid t))%nat as Hk by (rewrite Hlen; unfold k, w; nia).
      destruct (shifted_lookup w k (grid t) Hk) as [c Hc].
      eapply (wp_load_cell _ _ c); [simpl;
        by replace (Z.to_nat (y * width t + x)) with (k + w)%nat by (unfold k, w; nia)|].
      apply wp_store_cell; rewrite cell_index_ok by (done || split; lia); fold k; simpl.
      + apply lookup_lt_is_Some. unfold shifted. rewrite length_app, length_take, !length_drop. lia.
      + rewrite (shifted_step w k (grid t) c Hk Hc).
        by replace (Z.to_nat ((y - 1) * width t + (x + 1))) with (S k) by (unfold k; nia).
    - intros s' ->. rewrite Z.max_r by lia. do 4 f_equal. lia. }
  intros s' ->. rewrite Z.max_r by lia. wp_step. unfold up, shifted.
  set (last := Z.to_nat ((height t - 1) * width t)).
  assert (take last (drop w (grid t)) = drop w (grid t)) as ->.
  { apply take_ge. rewrite length_drop. unfold last, w. nia. }
  apply (wp_for_range _ _ _ (fun x s' => s' =
    (t <| grid := drop w (grid t) ++ repeat 0 (Z.to_nat x) ++ drop (last + Z.to_nat x) (grid t) |>, d))).
  - simpl. by rewrite Nat.add_0_r.
  - intros x s' Hx ->. replace (u32 (height t - 1)) with (height t - 1) by (rewrite u32_small by nia; done).
    rewrite cell_index_ok by (done || split; lia).
    assert (Z.to_nat ((height t - 1) * width t + x) = length (drop w (grid t) ++ repeat 0 (Z.to_nat x))) as Hi.
    { rewrite length_app, length_drop, repeat_length. unfold w. nia. }
    destruct (lookup_lt_is_Some_2 (grid t) (last + Z.to_nat x)) as [b Hb]; [unfold last; nia|].
    apply wp_store_cell; simpl; rewrite (drop_S (grid t) b (last + Z.to_nat x)) by done.
    + apply lookup_lt_is_Some. rewrite Hi, !length_app. simpl. lia.
    + rewrite Hi, app_assoc, insert_middle, <- !app_assoc.
      replace (Z.to_nat (x + 1)) with (Z.to_nat x + 1)%nat by lia. rewrite repeat_app, <- app_assoc.
      do 4 f_equal. simpl. do 2 f_equal. lia.
  - intros s' ->. rewrite Z.max_r by lia. rewrite (drop_ge (grid t) (last + _)), app_nil_r by (unfold last; nia).
    apply (wp_terminal_render (scrolled t, d)); [by apply scrolled_ok|done|done].
Qed.

Lemma screen_u32 t x y : terminal_ok t -> on_screen (width t) (height t) x y -> u32 x = x /\ u32 y = y.
Proof using Type. intros [] [Hx Hy]. split; apply u32_small; nia. Qed.

Lemma wp_move_cursor (s : console_t) point Q :
  terminal_ok (fst s) -> shown_but (at_cursor (fst s)) s ->
  on_screen (width (fst s)) (height (fst s)) (px point) (py point) ->
  (forall d, screen_ok ((fst s) <| cursor := point |>, d) ->
     Q TERMINAL_RESULT_OK ((fst s) <| cursor := point |>, d)) ->
  wp (terminal_move_cursor point) Q s.
Proof using Type.
  intros Ht Hs Hon HQ. destruct s as [t d]. simpl in Ht, Hon, HQ. unfold terminal_move_cursor, this. wp_go. simpl fst in *.
  pose proof (ok_cursor t Ht) as Hcur. destruct (screen_u32 t _ _ Ht Hcur) as [-> ->].
  destruct (screen_u32 t _ _ Ht Hon) as [-> ->].
  destruct (cell_some t _ Ht (cell_bound t _ _ Ht Hcur)) as [c Hc].
  eapply wp_load_cell; [simpl; by rewrite cell_index_ok|]. wp_step.
  eapply (wp_draw _ nowhere); [done|exact Hs|done|done|intros x y HP; by right|].
  intros d1 [Hd1 Hs1]. unfold update_terminal, on_terminal, on_display. wp_go. simpl in *.
  eapply wp_mono; [by apply set_cursor_law|]. intros [] d2 [Hd2 Hs2]. wp_go. apply HQ.
  split; [by destruct Ht|]. split; [done|].
  intros x y Hon' Hne. simpl in *. destruct (Hs1 x y Hon') as (b & Hb & Hshow); [by intros []|]. eauto.
Qed.

Lemma wp_terminal_set_cursor (s : console_t) x y Q :
  terminal_ok (fst s) -> shown_but (at_cursor (fst s)) s ->
  0 <= x <= width (fst s) -> 0 <= y <= height (fst s) ->
  (forall d, let t' := with_page (moved (width (fst s)) (height (fst s)) (grid (fst s)) x y) (fst s) in
     screen_ok (t', d) -> Q TERMINAL_RESULT_OK (t', d)) ->
  wp (terminal_set_cursor (mk_point x y)) Q s.
Proof using Type.
  intros Ht Hs Hx Hy HQ. destruct s as [t d]. simpl in Ht, Hx, Hy, HQ. unfold terminal_set_cursor, this. wp_go. simpl.
  pose proof (ok_width t Ht). pose proof (ok_height t Ht). pose proof (ok_size t Ht).
  assert (width t < 2 ^ 31 /\ height t < 2 ^ 31) as [Hw31 Hh31] by nia.
  rewrite !u32_small by lia. unfold moved, with_page in HQ.
  destruct (Z.ltb_spec x 0); [lia|]. destruct (Z.ltb_spec y 0); [lia|].
  rewrite (ok_overflow t Ht).
  destruct (Z.leb_spec (width t) x) as [Hxw|Hxw]; simpl;
    destruct (Z.ltb_spec x (width t)) as [Hxw'|Hxw']; try lia; simpl in HQ;
    [|destruct (Z.leb_spec (height t) y) as [Hyh|Hyh]; simpl;
      destruct (Z.ltb_spec y (height t)) as [Hyh'|Hyh']; try lia; simpl in HQ].
  3: { apply wp_move_cursor; [done|done|done|]. intros d' Hok. specialize (HQ d'). destruct t. by apply HQ. }
  all: destruct (Z.leb_spec (height t) (y + 1)) as [Hl|Hl];
    destruct (Z.ltb_spec (y + 1) (height t)) as [Hl'|Hl']; try lia; simpl in HQ.
  all: try (apply wp_move_cursor; [done|done|split; simpl; lia|];
            intros d' Hok; specialize (HQ d'); destruct t; by apply HQ).
  all: wp_step; (apply wp_terminal_scroll; [done|by destruct Hs|]); intros d1 [Hd1 Hs1];
    rewrite i32_small by lia;
    (apply wp_move_cursor; [by apply scrolled_ok| |split; simpl; lia|intros d2; apply HQ]);
    (split; [done|]; intros x' y' Hon _; by apply Hs1; [done|intros []]).
Qed.

(** A store to the cell under the cursor, or to one that is drawn next. *)
Definition with_cell (x y c : Z) (t : terminal_t) : terminal_t :=
  t <| grid := <[Z.to_nat (y * width t + x) := c]> (grid t) |>.

Lemma with_cell_ok t x y c : terminal_ok t -> terminal_ok (with_cell x y c t).
Proof using Type. intros []. split; simpl; try done. by rewrite length_insert. Qed.

Lemma shown_with_cell P t d x y c :
  on_screen (width t) (height t) x y -> shown_but P (t, d) ->
  shown_but (fun x' y' => P x' y' \/ (x', y') = (x, y)) (with_cell x y c t, d).
Proof using Type.
  intros Hon [Hd Hs]. split; [done|]. intros x' y' Hon' HP. simpl in *.
  destruct (Hs x' y' Hon') as (c' & Hc' & Hshow); [tauto|]. exists c'. split; [|done].
  rewrite list_lookup_insert_ne; [done|]. intros E. apply HP. right. symmetry. by eapply same_cell.
Qed.

Lemma wp_terminal_put_char (s : console_t) c Q :
  screen_ok s ->
  (forall d, let t' := with_page (typed (width (fst s)) (height (fst s)) (page_of (fst s)) c) (fst s) in
     screen_ok (t', d) -> Q TERMINAL_RESULT_OK (t', d)) ->
  wp (terminal_put_char c) Q s.
Proof using Type.
  intros [Ht Hs] HQ. destruct s as [t d]. simpl in Ht, Hs, HQ. unfold terminal_put_char, this. wp_go. simpl.
  pose proof (ok_cursor t Ht) as Hcur. destruct (screen_u32 t _ _ Ht Hcur) as [Hux Huy].
  unfold page_of, typed in HQ. set (x := px (cursor t)) in *. set (y := py (cursor t)) in *.
  rewrite (cell_index_ok t x y Ht Hcur).
  destruct (Z.eqb_spec c NEWLINE) as [->|Hnl]; [|destruct (Z.eqb_spec c BACKSPACE) as [->|Hbs]].
  - wp_step. apply wp_store_cell; [by apply cell_some, cell_bound|]. wp_go. simpl.
    change (t <| grid := _ |>) with (with_cell x y NEWLINE t).
    apply wp_terminal_set_cursor; simpl;
      [by apply with_cell_ok| |destruct Hcur; lia|destruct Hcur; lia|].
    + destruct (shown_with_cell _ t d x y NEWLINE Hcur Hs) as [Hd Hs']. split; [done|].
      intros x' y' Hon HP. apply Hs'; [done|]. intros []; by apply HP.
    + intros d1 Hok. wp_step. by apply HQ.
  - destruct (Z.eqb_spec x 0) as [Hx0|Hx0].
    + wp_step. specialize (HQ d). unfold with_page in HQ. simpl in HQ.
      destruct t as [bf cl [cx cy] ov sc w h]. by apply HQ.
    + assert (on_screen (width t) (height t) (x - 1) y) as Hon by (destruct Hcur; split; lia).
      rewrite (cell_index_ok t (x - 1) y Ht Hon).
      wp_step. apply wp_store_cell; [by apply cell_some, cell_bound|]. wp_step.
      change (t <| grid := _ |>) with (with_cell (x - 1) y SPACE t).
      destruct (screen_u32 t _ _ Ht Hon) as [-> _]. rewrite Huy.
      apply (wp_draw (fun x' y' => at_cursor t x' y' \/ (x', y') = (x - 1, y)) (at_cursor t)
               (with_cell (x - 1) y SPACE t, d) (x - 1) y SPACE);
        [by apply with_cell_ok|by apply shown_with_cell|done| |tauto|].
      { simpl. apply list_lookup_insert_eq. rewrite (ok_cells t Ht).
        pose proof (cell_bound t _ _ Ht Hon). lia. }
      intros d1 Hs1. wp_step. apply wp_terminal_set_cursor; simpl;
        [by apply with_cell_ok|done|destruct Hon; lia|destruct Hon; lia|].
      intros d2. unfold moved.
      destruct Hon. destruct (Z.ltb_spec (x - 1) (width t)); [|lia]. destruct (Z.ltb_spec y (height t)); [|lia].
      simpl. intros Hok. wp_step. by apply HQ.
  - wp_step. apply wp_store_cell; [by apply cell_some, cell_bound|]. wp_step. rewrite Hux, Huy.
    change (t <| grid := _ |>) with (with_cell x y c t).
    assert (put_char c x y = put_char (terminal_display_char c) x y) as ->.
    { unfold terminal_display_char. by destruct (Z.eqb_spec c NEWLINE). }
    apply (wp_draw (fun x' y' => at_cursor t x' y' \/ (x', y') = (x, y)) nowhere
             (with_cell x y c t, d) x y c);
      [by apply with_cell_ok|by apply shown_with_cell|done| |intros x' y' [HP|HP]; by right|].
    { simpl. apply list_lookup_insert_eq. rewrite (ok_cells t Ht).
      pose proof (cell_bound t _ _ Ht Hcur). lia. }
    intros d1 [Hd1 Hs1]. apply wp_terminal_set_cursor; simpl;
      [by apply with_cell_ok| |destruct Hcur; lia|destruct Hcur; lia|].
    + split; [done|]. intros x' y' Hon _. apply Hs1; [done|]. intros [].
    + intros d2 Hok. by apply HQ.
Qed.

(** C23: typing a character on a terminal that wraps into new lines always
    succeeds, without an access outside the buffer: the buffer and the cursor
    change as [typed] says, scrolling included, and every cell of the display but
    the one under the cursor still shows what the buffer holds there. *)
Theorem terminal_put_char_spec (s : console_t) c :
  screen_ok s ->
  wp (terminal_put_char c)
     (fun r s' => r = TERMINAL_RESULT_OK /\ screen_ok s' /\
        fst s' = with_page (typed (width (fst s)) (height (fst s)) (page_of (fst s)) c) (fst s)) s.
Proof using Type. intros Hs. by apply wp_terminal_put_char. Qed.

(** ** Strings *)

Definition typed_all (w h : Z) (page : page_t) (text : list Z) : page_t := fold_left (typed w h) text page.

Lemma with_page_idem p q t : with_page p (with_page q t) = with_page p t.
Proof using Type. done. Qed.
Lemma with_page_self t : with_page (page_of t) t = t.
Proof using Type. by destruct t as [bf cl [cx cy] ov sc w h]. Qed.
Lemma page_of_with_page p t : page_of (with_page p t) = p.
Proof using Type. by destruct p as [l [x y]]. Qed.

(** The characters before the first NUL. *)
Fixpoint until_nul (l : list Z) : list Z :=
  match l with
  | [] => []
  | c :: rest => if c =? 0 then [] else c :: until_nul rest
  end.

(** C24: a write to the terminal types the bytes of the caller's buffer up to its
    length or the first NUL, whichever comes first, and answers how many it
    typed; the loop ends and reads no byte past the length. *)
Theorem terminal_write_spec fuel (s : console_t) data n :
  screen_ok s -> 0 <= n <= Z.of_nat (length data) -> (Z.to_nat n < fuel)%nat ->
  wp (terminal_write fuel data n)
     (fun '(r, written) s' => r = RESOURCE_RESULT_OK /\ screen_ok s' /\
        let text := until_nul (take (Z.to_nat n) data) in
        written = Z.of_nat (length text) /\
        fst s' = with_page (typed_all (width (fst s)) (height (fst s)) (page_of (fst s))
                              (char_of_byte <$> text)) (fst s)) s.
Proof using Type.
  intros Hs Hn Hf. unfold terminal_write. wp_step.
  set (page := fun past => typed_all (width (fst s)) (height (fst s)) (page_of (fst s)) (char_of_byte <$> past)).
  apply (wp_loop _ _ _ (fun i s' => 0 <= i <= n /\ screen_ok s' /\
           exists past rest, take (Z.to_nat n) data = past ++ rest /\ i = Z.of_nat (length past) /\
             until_nul (past ++ rest) = past ++ until_nul rest /\
             fst s' = with_page (page past) (fst s)) (fun i _ => Z.to_nat (n - i))).
  - split_and!; [lia|lia|done|]. exists [], (take (Z.to_nat n) data). split_and!; [done..|].
    unfold page. simpl. by rewrite with_page_self.
  - lia.
  - intros i s' (Hi & Hs' & past & rest & Htake & -> & Hnul & Hpage).
    assert (length (take (Z.to_nat n) data) = Z.to_nat n) as Hlen by (rewrite length_take; lia).
    rewrite Htake, length_app in Hlen.
    destruct (Z.ltb_spec (Z.of_nat (length past)) n) as [Hlt|Hge].
    + destruct rest as [|b rest]; [simpl in Hlen; lia|].
      wp_step. wp_step.
      { rewrite Nat2Z.id, <- (take_drop (Z.to_nat n) data), Htake, <- app_assoc.
        by rewrite lookup_app_r, Nat.sub_diag by done. }
      destruct (Z.eqb_spec b 0) as [->|Hb].
      * do 2 wp_step. rewrite Htake, Hnul. simpl. rewrite app_nil_r. done.
      * wp_step. apply wp_terminal_put_char; [done|]. intros d t' Hs2. wp_step. split; [|lia].
        split; [lia|]. split; [done|]. exists (past ++ [b]), rest.
        rewrite <- app_assoc, length_app. simpl. split_and!; [done|lia| |].
        { rewrite Hnul. simpl. destruct (Z.eqb_spec b 0); [done|]. by rewrite <- app_assoc. }
        subst t'. rewrite Hpage, page_of_with_page, with_page_idem. unfold page, typed_all.
        by rewrite fmap_app, fold_left_app.
    + do 2 wp_step. destruct rest; [|simpl in Hlen; lia]. rewrite app_nil_r in Htake, Hnul.
      rewrite Htake, Hnul. simpl. by rewrite app_nil_r.
Qed.

(** A new terminal is as large as its display, empty, with the cursor in the
    upper left corner, and its whole screen is drawn; it satisfies the invariant
    the other operations keep. *)
Theorem terminal_create_spec {K} {alloc : Allocator K} live room (k : K) (d : D) w h :
  heap_inv live room k -> display_ok w h d -> 0 < w -> 0 < h -> w * h < 2 ^ 31 ->
  block_headers (w * h) <= room ->
  wp terminal_create
     (fun '(r, t) s' => r = TERMINAL_RESULT_OK /\ screen_ok (t, snd s') /\
        width t = w /\ height t = h /\ page_of t = (repeat 0 (Z.to_nat (w * h)), (0, 0)) /\
        heap_inv ({[buffer t]} ∪ live) (room - block_headers (w * h)) (fst s')) (k, d).
Proof using Type.
  intros Hk Hd Hw Hh Hsz Hroom. unfold terminal_create. do 2 wp_step. simpl.
  eapply wp_mono; [by apply get_dimensions_law|]. intros r d' [-> ->]. do 2 wp_step. simpl.
  rewrite Z.mul_1_l, (u32_small w), u32_small by nia.
  eapply heap_calloc_law; [done|nia|done|]. intros p k' Hp Hlive Hk'.
  wp_step. destruct (Z.eqb_spec p 0); [done|].
  set (t := mk_terminal _ _ _ _ _ _ _).
  assert (terminal_ok t) as Ht by (split; simpl; rewrite ?repeat_length; try done; split; simpl; lia).
  assert (wp terminal_render (fun _ s' => fst s' = t /\ shown_but nowhere s') (t, d)) as Hr.
  { apply wp_terminal_render; [done..|]. by intros d' Hs. }
  unfold wp, with_terminal in *. simpl. destruct (terminal_render (t, d)) as [[r [t' d']]| |]; [|done|done].
  simpl in Hr. destruct Hr as [-> [Hd' Hs']]. split_and!; try done. split; [done|]. split; [done|].
  intros x y Hon _. by apply Hs'; [|intros []].
Qed.
End laws.
End terminal.
Arguments console_t D : clear implicits.
