(* ===== verification/Framebuffer.v ===== *)
(** * The linear framebuffer (src/drivers/framebuffer.c, include/drivers/framebuffer.h)

    [video] holds the bytes the framebuffer is mapped to, by their virtual
    address; a store outside it is a [Fault].  Addresses and products of the
    unsigned fields wrap at 32 bits. *)
From S2P Require Import Prelude Bitmap Paging KernelHeap Tasks Allocator Terminal Font8x8.

Definition KERNEL_FRAMEBUFFER_VIRTUAL_START : Z := 0xF8000000.
Definition FBIOGET_INFO : Z := 1.

Record framebuffer_color_t : Type := mk_fb_color { red : Z; green : Z; blue : Z }.

Record framebuffer_t : Type := mk_framebuffer {
  address : Z;
  pitch : Z;
  fb_width : Z;
  fb_height : Z;
  bpp : Z;
  fb_size : Z;
  red_field_position : Z;
  green_field_position : Z;
  blue_field_position : Z;
  fb_foreground : framebuffer_color_t;
  fb_background : framebuffer_color_t;
  cursor_x : Z;
  cursor_y : Z;
  video : gmap Z Z;
}.
#[export] Instance framebuffer_fields : Fields framebuffer_t := fun f =>
  mk_framebuffer (address f) (pitch f) (fb_width f) (fb_height f) (bpp f) (fb_size f)
    (red_field_position f) (green_field_position f) (blue_field_position f)
    (fb_foreground f) (fb_background f) (cursor_x f) (cursor_y f) (video f).

Record framebuffer_sprite_t : Type := mk_sprite {
  sprite_pixels : list Z;
  sprite_width : Z;
  sprite_height : Z;
}.

Inductive framebuffer_result_t : Type := FRAMEBUFFER_RESULT_OK.

(** The fields of the boot information the driver reads. *)
Record multiboot_framebuffer_t : Type := mk_multiboot_framebuffer {
  framebuffer_addr : Z;
  framebuffer_pitch : Z;
  framebuffer_width : Z;
  framebuffer_height : Z;
  framebuffer_bpp : Z;
  framebuffer_red_field_position : Z;
  framebuffer_green_field_position : Z;
  framebuffer_blue_field_position : Z;
}.

Record fb_info : Type := mk_fb_info {
  info_width : Z;
  info_height : Z;
  info_pitch : Z;
  info_bpp : Z;
  info_size : Z;
  info_red_field_position : Z;
  info_green_field_position : Z;
  info_blue_field_position : Z;
}.

(** ** Stores to the video memory *)

Definition store_byte (p b : Z) : M framebuffer_t unit :=
  let! f := get in
  do! of_option (video f !! u32 p) in
  put (f <| video := <[u32 p := u8 b]> (video f) |>).

(** A little-endian store of [n] bytes of [w]. *)
Fixpoint store_little_endian (n : nat) (p w : Z) : M framebuffer_t unit :=
  match n with
  | O => ret tt
  | S n' => do! store_byte p w in store_little_endian n' (p + 1) (Z.shiftr w 8)
  end.

Definition pixel_color (f : framebuffer_t) (r g b : Z) : Z :=
  u32 (Z.lor (Z.lor (Z.shiftl r (red_field_position f)) (Z.shiftl g (green_field_position f)))
         (Z.shiftl b (blue_field_position f))).

Definition framebuffer_create : M framebuffer_t framebuffer_result_t :=
  do! modify (fun f => f <| fb_foreground := mk_fb_color 255 255 255 |>
                         <| fb_background := mk_fb_color 0x42 0x42 0x42 |>) in
  ret FRAMEBUFFER_RESULT_OK.

Definition framebuffer_set_color (foreground background : framebuffer_color_t)
  : M framebuffer_t framebuffer_result_t :=
  do! modify (fun f => f <| fb_foreground := foreground |> <| fb_background := background |>) in
  ret FRAMEBUFFER_RESULT_OK.

(** With 32 bits per pixel only the low byte is stored: [pixel] is a byte pointer. *)
Definition framebuffer_put_pixel (x y r g b : Z) : M framebuffer_t unit :=
  let! f := get in
  let pixel := u32 (address f + u32 (y * pitch f) + u32 (x * (bpp f / 8))) in
  let color := pixel_color f r g b in
  if bpp f =? 32 then store_byte pixel color
  else if bpp f =? 24 then
    do! store_byte pixel (Z.land color 0xFF) in
    do! store_byte (pixel + 1) (Z.land (Z.shiftr color 8) 0xFF) in
    store_byte (pixel + 2) (Z.land (Z.shiftr color 16) 0xFF)
  else if bpp f =? 16 then store_little_endian 2 pixel color
  else ret tt.

(** One pixel of a blit; the answer is the address of the next one. *)
Definition blit_pixel (f : framebuffer_t) (dest_pixel raw_color : Z) : M framebuffer_t Z :=
  let r := Z.land (Z.shiftr raw_color 16) 0xFF in
  let g := Z.land (Z.shiftr raw_color 8) 0xFF in
  let b := Z.land raw_color 0xFF in
  let color := pixel_color f r g b in
  if bpp f =? 32 then
    do! store_little_endian 4 dest_pixel color in ret (dest_pixel + 4)
  else if bpp f =? 24 then
    do! store_byte dest_pixel (Z.land color 0xFF) in
    do! store_byte (dest_pixel + 1) (Z.land (Z.shiftr color 8) 0xFF) in
    do! store_byte (dest_pixel + 2) (Z.land (Z.shiftr color 16) 0xFF) in
    ret (dest_pixel + 3)
  else if bpp f =? 16 then
    do! store_little_endian 2 dest_pixel color in ret (dest_pixel + 2)
  else ret dest_pixel.

(** The inner loop over [src_w - x] pixels; [src_row] is an index of the pixels. *)
Fixpoint blit_row (f : framebuffer_t) (pixels : list Z) (src_row : Z) (n : nat) (x dest_pixel : Z)
  : M framebuffer_t unit :=
  match n with
  | O => ret tt
  | S n' =>
      let! raw_color := of_option (pixels !! Z.to_nat (src_row + x)) in
      let! dest_pixel := blit_pixel f dest_pixel raw_color in
      blit_row f pixels src_row n' (x + 1) dest_pixel
  end.

(** The outer loop over the rows that are left. *)
Fixpoint blit_rows (f : framebuffer_t) (source : framebuffer_sprite_t) (src_w : Z) (n : nat)
  (dest_row src_row : Z) : M framebuffer_t unit :=
  match n with
  | O => ret tt
  | S n' =>
      do! blit_row f (sprite_pixels source) src_row (Z.to_nat src_w) 0 dest_row in
      blit_rows f source src_w n' (dest_row + pitch f) (src_row + sprite_width source)
  end.

Definition framebuffer_blit (dest_x dest_y : Z) (source : framebuffer_sprite_t) : M framebuffer_t unit :=
  let! f := get in
  let src_w := i32 (sprite_width source) in
  let src_h := i32 (sprite_height source) in
  if (i32 (fb_width f) <=? dest_x) || (i32 (fb_height f) <=? dest_y) then ret tt
  else if (dest_x + src_w <? 0) || (dest_y + src_h <? 0) then ret tt
  else
    let '(src_x, src_w, dest_x) :=
      if dest_x <? 0 then (- dest_x, src_w + dest_x, 0) else (0, src_w, dest_x) in
    let '(src_y, src_h, dest_y) :=
      if dest_y <? 0 then (- dest_y, src_h + dest_y, 0) else (0, src_h, dest_y) in
    let src_w := if i32 (fb_width f) <? dest_x + src_w then i32 (fb_width f - dest_x) else src_w in
    let src_h := if i32 (fb_height f) <? dest_y + src_h then i32 (fb_height f - dest_y) else src_h in
    let bytes_per_pixel := bpp f / 8 in
    let dest_row := u32 (address f + u32 (dest_y * pitch f) + u32 (dest_x * bytes_per_pixel)) in
    let src_row := u32 (src_y * sprite_width source) + src_x in
    blit_rows f source src_w (Z.to_nat src_h) dest_row src_row.

(** ** Characters *)

(** [0xRRGGBB] *)
Definition packed (c : framebuffer_color_t) : Z :=
  Z.lor (Z.lor (Z.shiftl (red c) 16) (Z.shiftl (green c) 8)) (blue c).

Definition glyph_pixel (f : framebuffer_t) (bits col : Z) : Z :=
  if Z.land bits (Z.shiftl 1 col) =? 0 then packed (fb_background f) else packed (fb_foreground f).
Definition glyph_pixels (f : framebuffer_t) (glyph : list Z) : list Z :=
  mjoin ((fun bits => glyph_pixel f bits <$> [0; 1; 2; 3; 4; 5; 6; 7]) <$> glyph).

(** The glyph of a [char]. *)
Definition glyph_code (character : Z) : Z :=
  let code := u8 character in if 128 <=? code then 63 else code.

Definition framebuffer_put_char (character x y : Z) : M framebuffer_t unit :=
  let! f := get in
  let! glyph := of_option (font8x8_basic !! Z.to_nat (glyph_code character)) in
  let sprite := mk_sprite (glyph_pixels f glyph) FONT8X8_WIDTH FONT8X8_HEIGHT in
  framebuffer_blit (i32 (u32 (x * FONT8X8_WIDTH))) (i32 (u32 (y * FONT8X8_HEIGHT))) sprite.

(** The cursor is an underscore, 95. *)
Definition framebuffer_set_cursor (x y : Z) : M framebuffer_t unit :=
  do! modify (fun f => f <| cursor_x := x |> <| cursor_y := y |>) in
  let! f := get in
  framebuffer_put_char 95 (cursor_x f) (cursor_y f).

Definition framebuffer_get_dimensions : M framebuffer_t (Z * Z) :=
  let! f := get in ret (fb_width f / FONT8X8_WIDTH, fb_height f / FONT8X8_HEIGHT).

(** ** The device *)

Definition framebuffer_is_valid_user_pointer (pointer length : Z) : bool :=
  let end_ := u32 (pointer + length) in
  if end_ <? pointer then false else end_ <=? KERNEL_VIRTUAL_SPACE_START.

(** [memcpy] to [p] of bytes of the caller's buffer. *)
Fixpoint copy_bytes (p : Z) (bytes : list Z) : M framebuffer_t unit :=
  match bytes with
  | [] => ret tt
  | b :: rest => do! store_byte p b in copy_bytes (p + 1) rest
  end.

(** [data] are the bytes from the caller's buffer on; the answer carries
    [*written_bytes]. *)
Definition framebuffer_dev_write (offset : Z) (data : list Z) (length_ : Z)
  : M framebuffer_t (resource_result_t * Z) :=
  let! f := get in
  if fb_size f <=? offset then ret (RESOURCE_RESULT_OK, 0)
  else
    let available := fb_size f - offset in
    let to_write := if length_ <? available then length_ else available in
    if Z.of_nat (length data) <? to_write then fault
    else
      do! copy_bytes (u32 (address f + offset)) (take (Z.to_nat to_write) data) in
      ret (RESOURCE_RESULT_OK, to_write).

Definition FB_INFO_SIZE : Z := 24.

(** The answer carries what is stored at the user address [argument]. *)
Definition framebuffer_dev_ioctl (command argument : Z) : M framebuffer_t (resource_result_t * option fb_info) :=
  let! f := get in
  if command =? FBIOGET_INFO then
    if framebuffer_is_valid_user_pointer (u32 argument) FB_INFO_SIZE then
      ret (RESOURCE_RESULT_OK,
           Some (mk_fb_info (fb_width f) (fb_height f) (pitch f) (bpp f) (fb_size f)
                   (red_field_position f) (green_field_position f) (blue_field_position f)))
    else ret (RESOURCE_RESULT_BAD_PARAMETER, None)
  else ret (RESOURCE_RESULT_BAD_PARAMETER, None).

(** [video] of the new framebuffer is what the mapped range holds, a parameter. *)
Definition framebuffer_driver_init (multiboot : multiboot_framebuffer_t) (mapped : gmap Z Z)
  : M (machine_t * framebuffer_t) unit :=
  let physical_address := u32 (framebuffer_addr multiboot) in
  let size := u32 (framebuffer_pitch multiboot * framebuffer_height multiboot) in
  do! zoom snd (fun f s => (fst s, f)) framebuffer_create in
  let! a := zoom fst (fun m s => (m, snd s))
              (memory_paging_map_physical_range physical_address size
                 KERNEL_FRAMEBUFFER_VIRTUAL_START PAGE_READ_WRITE) in
  zoom snd (fun f s => (fst s, f)) (modify (fun f =>
    f <| address := a |> <| pitch := framebuffer_pitch multiboot |>
      <| fb_width := framebuffer_width multiboot |> <| fb_height := framebuffer_height multiboot |>
      <| bpp := framebuffer_bpp multiboot |> <| fb_size := size |>
      <| red_field_position := framebuffer_red_field_position multiboot |>
      <| green_field_position := framebuffer_green_field_position multiboot |>
      <| blue_field_position := framebuffer_blue_field_position multiboot |>
      <| video := mapped |>)).

(** ** What is drawn *)

(** The little-endian 32-bit word at [p]. *)
Definition word_at (m : gmap Z Z) (p w : Z) : Prop :=
  forall k, 0 <= k < 4 -> m !! (p + k) = Some (u8 (Z.shiftr w (8 * k))).

(** Only the video memory changes, where [P] holds, and what was mapped stays so. *)
Record draws (P : Z -> Prop) (f f' : framebuffer_t) : Prop := {
  dr_fields : f' = f <| video := video f' |>;
  dr_frame : forall q, ~ P q -> video f' !! q = video f !! q;
  dr_mapped : forall q, is_Some (video f !! q) -> is_Some (video f' !! q);
}.

Definition mapped (f : framebuffer_t) (lo n : Z) : Prop :=
  0 <= lo /\ lo + n <= 2 ^ 32 /\ forall q, lo <= q < lo + n -> is_Some (video f !! q).

Lemma draws_refl P f : draws P f f.
Proof. split; [by destruct f|done..]. Qed.
Lemma draws_trans P f g h : draws P f g -> draws P g h -> draws P f h.
Proof.
  intros [Ef Ff Mf] [Eg Fg Mg]. split.
  - rewrite Eg, Ef. done.
  - intros q Hq. by rewrite Fg, Ff.
  - auto.
Qed.
Lemma draws_mono (P P' : Z -> Prop) f f' : (forall q, P q -> P' q) -> draws P f f' -> draws P' f f'.
Proof. intros HP [Ef Ff Mf]. split; [done| |done]. intros q Hq. apply Ff. auto. Qed.
Lemma draws_mapped P f f' lo n : draws P f f' -> mapped f lo n -> mapped f' lo n.
Proof. intros [_ _ Hm] (H1 & H2 & H3). split_and!; auto. Qed.
Lemma draws_word P f f' p w :
  draws P f f' -> (forall k, 0 <= k < 4 -> ~ P (p + k)) -> word_at (video f) p w -> word_at (video f') p w.
Proof. intros [_ Hf _] HP Hw k Hk. rewrite Hf by auto. auto. Qed.
Lemma mapped_sub f lo n lo' n' : mapped f lo n -> lo <= lo' -> lo' + n' <= lo + n -> mapped f lo' n'.
Proof. intros (H1 & H2 & H3) Hlo Hn. split_and!; [lia..|]. intros q Hq. apply H3. lia. Qed.

Lemma wp_store_byte f p b Q :
  mapped f p 1 -> Q tt (f <| video := <[p := u8 b]> (video f) |>) -> wp (store_byte p b) Q f.
Proof.
  intros (H1 & H2 & H3) HQ. unfold store_byte. destruct (H3 p) as [c Hc]; [lia|].
  rewrite u32_small by lia. wp_go; [exact Hc|]. by wp_go.
Qed.

Lemma wp_store_little_endian n f p w Q :
  mapped f p (Z.of_nat n) ->
  (forall f', draws (fun q => p <= q < p + Z.of_nat n) f f' ->
     (forall k, 0 <= k < Z.of_nat n -> video f' !! (p + k) = Some (u8 (Z.shiftr w (8 * k)))) -> Q tt f') ->
  wp (store_little_endian n p w) Q f.
Proof.
  revert f p w Q. induction n as [|n IH]; intros f p w Q Hm HQ; cbn [store_little_endian].
  - apply wp_ret, HQ; [apply draws_refl|lia].
  - wp_step. apply wp_store_byte; [apply (mapped_sub _ _ _ _ _ Hm); lia|].
    set (g := f <| video := <[p := u8 w]> (video f) |>).
    assert (draws (fun q => p <= q < p + 1) f g) as Hg.
    { split; [done| |].
      - intros q Hq. simpl. apply lookup_insert_ne. lia.
      - intros q Hq. simpl. destruct (decide (p = q)) as [<-|]; [rewrite lookup_insert_eq; eauto|].
        by rewrite lookup_insert_ne. }
    apply IH; [apply (draws_mapped _ _ _ _ _ Hg), (mapped_sub _ _ _ _ _ Hm); lia|].
    intros f' Hf' Hk. apply HQ.
    + eapply draws_trans; eapply draws_mono; [|exact Hg| |exact Hf']; simpl; lia.
    + intros k Hk0. destruct (decide (k = 0)) as [->|Hne].
      * rewrite Z.add_0_r, (dr_frame _ _ _ Hf') by lia. simpl. rewrite lookup_insert_eq.
        by rewrite Z.mul_0_r, Z.shiftr_0_r.
      * replace (p + k) with (p + 1 + (k - 1)) by lia. rewrite Hk by lia.
        rewrite Z.shiftr_shiftr by lia. do 3 f_equal. lia.
Qed.

(** The colour a source pixel is drawn in. *)
Definition color_of (f : framebuffer_t) (raw_color : Z) : Z :=
  pixel_color f (Z.land (Z.shiftr raw_color 16) 0xFF) (Z.land (Z.shiftr raw_color 8) 0xFF)
    (Z.land raw_color 0xFF).

Section blit.
Variables (f0 : framebuffer_t) (pixels : list Z).
Hypothesis deep : bpp f0 = 32.

Lemma wp_blit_row n f src_row x p Q :
  mapped f p (4 * Z.of_nat n) ->
  (forall i, (i < n)%nat -> is_Some (pixels !! Z.to_nat (src_row + x + Z.of_nat i))) ->
  (forall f', draws (fun q => p <= q < p + 4 * Z.of_nat n) f f' ->
     (forall i raw, (i < n)%nat -> pixels !! Z.to_nat (src_row + x + Z.of_nat i) = Some raw ->
        word_at (video f') (p + 4 * Z.of_nat i) (color_of f0 raw)) -> Q tt f') ->
  wp (blit_row f0 pixels src_row n x p) Q f.
Proof using deep.
  revert f x p Q. induction n as [|n IH]; intros f x p Q Hm Hpx HQ; cbn [blit_row].
  - apply wp_ret, HQ; [apply draws_refl|lia].
  - destruct (Hpx O) as [raw Hraw]; [lia|]. rewrite Z.add_0_r in Hraw.
    wp_step. eapply wp_of_option; [exact Hraw|]. wp_step. unfold blit_pixel. rewrite deep. change (32 =? 32) with true. cbv iota zeta.
    wp_step. apply wp_store_little_endian; [apply (mapped_sub _ _ _ _ _ Hm); lia|].
    intros g Hg Hword. wp_step. apply IH.
    + apply (draws_mapped _ _ _ _ _ Hg), (mapped_sub _ _ _ _ _ Hm); lia.
    + intros i Hi. destruct (Hpx (S i)) as [c Hc]; [lia|]. exists c. rewrite <- Hc. do 2 f_equal. lia.
    + intros f' Hf' Hwords. apply HQ.
      * eapply draws_trans; eapply draws_mono; [|exact Hg| |exact Hf']; simpl; lia.
      * intros [|i] c Hi Hc.
        -- rewrite Z.add_0_r in Hc. assert (c = raw) as -> by congruence.
           apply (draws_word _ _ _ _ _ Hf'); [lia|]. intros k Hk. rewrite Z.mul_0_r, Z.add_0_r. by apply Hword.
        -- replace (p + 4 * Z.of_nat (S i)) with (p + 4 + 4 * Z.of_nat i) by lia.
           apply Hwords; [lia|]. rewrite <- Hc. do 2 f_equal. lia.
Qed.

(** The bytes of [n] rows of [w] pixels from [p] on. *)
Definition in_rows (p w : Z) (n : nat) (q : Z) : Prop :=
  exists r, (r < n)%nat /\ p + pitch f0 * Z.of_nat r <= q < p + pitch f0 * Z.of_nat r + 4 * w.

Lemma wp_blit_rows n f source w p src_row Q :
  pixels = sprite_pixels source -> 0 <= w -> 4 * w <= pitch f0 ->
  (forall r, (r < n)%nat -> mapped f (p + pitch f0 * Z.of_nat r) (4 * w)) ->
  (forall r i, (r < n)%nat -> 0 <= i < w ->
     is_Some (pixels !! Z.to_nat (src_row + sprite_width source * Z.of_nat r + i))) ->
  (forall f', draws (in_rows p w n) f f' ->
     (forall r i raw, (r < n)%nat -> 0 <= i < w ->
        pixels !! Z.to_nat (src_row + sprite_width source * Z.of_nat r + i) = Some raw ->
        word_at (video f') (p + pitch f0 * Z.of_nat r + 4 * i) (color_of f0 raw)) -> Q tt f') ->
  wp (blit_rows f0 source w n p src_row) Q f.
Proof using deep.
  intros Hsrc Hw Hpitch. revert f p src_row Q. induction n as [|n IH]; intros f p src_row Q Hm Hpx HQ; cbn [blit_rows].
  - apply wp_ret, HQ; [apply draws_refl|lia].
  - wp_step. rewrite <- Hsrc. apply wp_blit_row.
    + rewrite Z2Nat.id by lia. apply (mapped_sub _ _ _ _ _ (Hm O ltac:(lia))); lia.
    + intros i Hi. destruct (Hpx O (Z.of_nat i)) as [c Hc]; [lia..|]. exists c. rewrite <- Hc. do 2 f_equal. lia.
    + rewrite Z2Nat.id by lia. intros g Hg Hrow. apply IH.
      * intros r Hr. apply (draws_mapped _ _ _ _ _ Hg).
        replace (p + pitch f0 + pitch f0 * Z.of_nat r) with (p + pitch f0 * Z.of_nat (S r)) by lia. apply Hm. lia.
      * intros r i Hr Hi. destruct (Hpx (S r) i) as [c Hc]; [lia..|]. exists c. rewrite <- Hc. do 2 f_equal. lia.
      * intros f' Hf' Hrows. apply HQ.
        -- eapply draws_trans; eapply draws_mono; [|exact Hg| |exact Hf']; intros q Hq.
           ++ cbv beta in Hq. exists O. lia.
           ++ destruct Hq as (r & Hr & Hq). exists (S r). lia.
        -- intros [|r] i raw Hr Hi Hraw.
           ++ apply (draws_word _ _ _ _ _ Hf'); [intros k Hk (r & Hr' & Hq); nia|].
              replace (p + pitch f0 * Z.of_nat 0 + 4 * i) with (p + 4 * Z.of_nat (Z.to_nat i)) by lia.
              apply Hrow; [lia|]. rewrite <- Hraw. do 2 f_equal. lia.
           ++ replace (p + pitch f0 * Z.of_nat (S r) + 4 * i) with (p + pitch f0 + pitch f0 * Z.of_nat r + 4 * i) by lia.
              apply Hrows; [lia|lia|]. rewrite <- Hraw. do 2 f_equal. lia.
Qed.
End blit.

(** ** The framebuffer is a text display *)

#[export] Instance framebuffer_driver : TextDisplay framebuffer_t := {|
  put_char := framebuffer_put_char;
  set_cursor := framebuffer_set_cursor;
  get_dimensions := framebuffer_get_dimensions;
|}.

(** The channels of a colour are bytes. *)
Definition color_bytes (c : framebuffer_color_t) : Prop :=
  0 <= red c < 256 /\ 0 <= green c < 256 /\ 0 <= blue c < 256.

Record framebuffer_ok (columns rows : Z) (f : framebuffer_t) : Prop := {
  fo_depth : bpp f = 32;
  fo_colors : color_bytes (fb_foreground f) /\ color_bytes (fb_background f);
  fo_columns : columns = fb_width f / 8;
  fo_rows : rows = fb_height f / 8;
  fo_width : 0 <= fb_width f < 2 ^ 31;
  fo_height : 0 <= fb_height f < 2 ^ 31;
  fo_pitch : 4 * fb_width f <= pitch f;
  fo_mapped : mapped f (address f) (pitch f * fb_height f);
}.

(** The address of pixel [x], [y]. *)
Definition pixel_address (f : framebuffer_t) (x y : Z) : Z := address f + pitch f * y + 4 * x.

(** The code of the glyph of a [char]: its own when it is ASCII, that of ['?'] otherwise. *)
Definition shown_code (c : Z) : Z := if c mod 256 <? 128 then c mod 256 else 63.
(** The word of a colour: each channel from its field's position on. *)
Definition color_word (f : framebuffer_t) (c : framebuffer_color_t) : Z :=
  u32 (Z.lor (Z.shiftl (red c) (red_field_position f))
         (Z.lor (Z.shiftl (green c) (green_field_position f)) (Z.shiftl (blue c) (blue_field_position f)))).

(** The 64 pixels of the cell are those of the glyph of [c]: the bits of its rows,
    the lowest leftmost, in the foreground's colour on the background's. *)
Definition framebuffer_shows (f : framebuffer_t) (x y c : Z) : Prop :=
  forall glyph row col bits,
    font8x8_basic !! Z.to_nat (shown_code c) = Some glyph ->
    0 <= row < 8 -> 0 <= col < 8 -> glyph !! Z.to_nat row = Some bits ->
    word_at (video f) (pixel_address f (8 * x + col) (8 * y + row))
      (color_word f (if Z.testbit bits col then fb_foreground f else fb_background f)).

Lemma glyph_code_shown c : glyph_code c = shown_code c.
Proof.
  unfold glyph_code, shown_code. change (c mod 256) with (u8 c). destruct (Z.leb_spec 128 (u8 c)), (Z.ltb_spec (u8 c) 128); done || lia.
Qed.

(** A channel of a packed colour. *)
Lemma packed_channels c : color_bytes c ->
  Z.land (Z.shiftr (packed c) 16) 0xFF = red c /\ Z.land (Z.shiftr (packed c) 8) 0xFF = green c /\
  Z.land (packed c) 0xFF = blue c.
Proof.
  intros (Hr & Hg & Hb). unfold packed. change 0xFF with (Z.ones 8).
  assert (forall b i, 0 <= b < 256 -> 8 <= i -> Z.testbit b i = false) as Hhigh
    by (intros b i Hb8 Hi; apply (testbit_above 8); [exact Hb8|lia]).
  split_and!; apply Z.bits_inj'; intros i Hi; rewrite Z.land_spec, ?Z.shiftr_spec, !Z.lor_spec, !Z.shiftl_spec by lia;
    (destruct (Z.ltb_spec i 8); [rewrite Z.ones_spec_low by lia|rewrite Z.ones_spec_high, andb_false_r by lia; by rewrite Hhigh]);
    rewrite andb_true_r.
  - replace (i + 16 - 16) with i by lia. by rewrite (Hhigh _ (i + 16 - 8)), (Hhigh _ (i + 16)), !orb_false_r by lia.
  - replace (i + 8 - 8) with i by lia. by rewrite (Z.testbit_neg_r _ (i + 8 - 16)), (Hhigh _ (i + 8)), orb_false_r by lia.
  - by rewrite (Z.testbit_neg_r _ (i - 16)), (Z.testbit_neg_r _ (i - 8)) by lia.
Qed.
Lemma glyph_pixel_color f bits col :
  color_bytes (fb_foreground f) -> color_bytes (fb_background f) -> 0 <= col ->
  color_of f (glyph_pixel f bits col) = color_word f (if Z.testbit bits col then fb_foreground f else fb_background f).
Proof.
  intros Hf Hb Hc. unfold glyph_pixel. rewrite land_single_bit by done. unfold color_of, pixel_color, color_word.
  destruct (Z.testbit bits col); cbn [negb];
    [destruct (packed_channels _ Hf) as (-> & -> & ->)|destruct (packed_channels _ Hb) as (-> & -> & ->)]; by rewrite Z.lor_assoc.
Qed.

Lemma glyph_pixels_lookup f glyph row col bits :
  length glyph = 8%nat -> 0 <= row < 8 -> 0 <= col < 8 -> glyph !! Z.to_nat row = Some bits ->
  glyph_pixels f glyph !! Z.to_nat (8 * row + col) = Some (glyph_pixel f bits col).
Proof.
  intros Hlen Hrow Hcol Hbits. do 9 (destruct glyph as [|? glyph]; try discriminate Hlen).
  assert (row = 0 \/ row = 1 \/ row = 2 \/ row = 3 \/ row = 4 \/ row = 5 \/ row = 6 \/ row = 7) as Hr by lia.
  assert (col = 0 \/ col = 1 \/ col = 2 \/ col = 3 \/ col = 4 \/ col = 5 \/ col = 6 \/ col = 7) as Hc by lia.
  repeat (destruct Hr as [-> |Hr]); try subst row; simpl in Hbits; injection Hbits as <-;
    repeat (destruct Hc as [-> |Hc]); try subst col; reflexivity.
Qed.

Lemma glyph_code_range c : 0 <= glyph_code c < 128.
Proof.
  unfold glyph_code. assert (0 <= u8 c) by (unfold u8; apply Z.mod_pos_bound; lia).
  destruct (Z.leb_spec 128 (u8 c)); lia.
Qed.

(** The bytes of a character cell. *)
Definition in_cell (f : framebuffer_t) (x y q : Z) : Prop :=
  exists row, 0 <= row < 8 /\ pixel_address f (8 * x) (8 * y + row) <= q < pixel_address f (8 * x + 8) (8 * y + row).

Lemma cells_apart f columns rows x y x' y' row col k :
  framebuffer_ok columns rows f -> on_screen columns rows x y -> on_screen columns rows x' y' ->
  (x', y') <> (x, y) -> 0 <= row < 8 -> 0 <= col < 8 -> 0 <= k < 4 ->
  ~ in_cell f x y (pixel_address f (8 * x' + col) (8 * y' + row) + k).
Proof.
  intros [_ _ -> -> _ _ Hp _] [Hx Hy] [Hx' Hy'] Hne Hrow Hcol Hk (r & Hr & Hq). unfold pixel_address in Hq.
  assert (8 * x + 8 <= fb_width f /\ 8 * x' + 8 <= fb_width f) as [Hw Hw'] by zlia.
  assert (8 * y' + row = 8 * y + r) by nia.
  assert (y' = y) by lia. subst y'. assert (row = r) by lia. subst r.
  apply Hne. f_equal. nia.
Qed.

(** Drawing a character in a cell of the screen. *)
Lemma wp_framebuffer_put_char columns rows f c x y Q :
  framebuffer_ok columns rows f -> on_screen columns rows x y ->
  (forall f', draws (in_cell f x y) f f' -> framebuffer_shows f' x y c -> Q tt f') ->
  wp (framebuffer_put_char c x y) Q f.
Proof.
  intros Hok [Hx Hy] HQ. destruct Hok as [Hdeep [Hfg Hbg] -> -> Hw Hh Hp Hm]. unfold framebuffer_put_char.
  destruct (font8x8_complete (glyph_code c) (glyph_code_range c)) as (glyph & Hglyph & Hlen & _).
  wp_step. wp_step. wp_step. eapply wp_of_option; [exact Hglyph|].
  unfold framebuffer_blit, FONT8X8_WIDTH, FONT8X8_HEIGHT. wp_step. wp_step. simpl.
  assert (8 * x + 8 <= fb_width f) as Hx8 by zlia. assert (8 * y + 8 <= fb_height f) as Hy8 by zlia.
  rewrite (u32_small (x * 8)), (u32_small (y * 8)), !i32_small by lia.
  destruct (Z.leb_spec (fb_width f) (x * 8)); [lia|]. destruct (Z.leb_spec (fb_height f) (y * 8)); [lia|].
  destruct (Z.ltb_spec (x * 8 + 8) 0); [lia|]. destruct (Z.ltb_spec (y * 8 + 8) 0); [lia|].
  destruct (Z.ltb_spec (x * 8) 0); [lia|]. destruct (Z.ltb_spec (y * 8) 0); [lia|].
  destruct (Z.ltb_spec (fb_width f) (x * 8 + 8)); [lia|]. destruct (Z.ltb_spec (fb_height f) (y * 8 + 8)); [lia|].
  cbv beta iota zeta delta [orb]. rewrite Hdeep. change (32 / 8) with 4. change (u32 (0 * 8) + 0) with 0.
  assert (0 <= pitch f) as Hp0 by lia.
  assert (forall row, 0 <= row < 8 -> mapped f (pixel_address f (8 * x) (8 * y + row)) 32) as Hrow.
  { intros row Hr. apply (mapped_sub _ _ _ _ _ Hm); unfold pixel_address; nia. }
  assert (u32 (address f + u32 (y * 8 * pitch f) + u32 (x * 8 * 4)) = pixel_address f (8 * x) (8 * y)) as ->.
  { destruct (Hrow 0 ltac:(lia)) as (Hlo1 & Hlo2 & _). unfold pixel_address in *. destruct Hm as (Ha & _ & _).
    rewrite Z.add_0_r in *. rewrite (u32_small (y * 8 * pitch f)), (u32_small (x * 8 * 4)), u32_small by nia. nia. }
  change (Z.to_nat 8) with 8%nat.
  apply (wp_blit_rows f (glyph_pixels f glyph) Hdeep); [done|lia|lia| | |].
  - intros r Hr. replace (pixel_address f (8 * x) (8 * y) + pitch f * Z.of_nat r)
      with (pixel_address f (8 * x) (8 * y + Z.of_nat r)) by (unfold pixel_address; lia). apply Hrow. lia.
  - intros r i Hr Hi. simpl. destruct (lookup_lt_is_Some_2 glyph r) as [bits Hbits]; [lia|].
    assert (glyph_pixels f glyph !! Z.to_nat (8 * Z.of_nat r + i) = Some (glyph_pixel f bits i)) as E
      by (apply glyph_pixels_lookup; [done|lia|done|by rewrite Nat2Z.id]).
    eexists. rewrite <- E. do 2 f_equal.
  - intros f' Hf' Hwords. apply HQ.
    + eapply draws_mono; [|exact Hf']. intros q (r & Hr & Hq). exists (Z.of_nat r).
      unfold pixel_address in *. nia.
    + destruct Hf' as [E _ _]. intros g row col bits Hg Hr Hcol Hbits. rewrite <- glyph_code_shown, Hglyph in Hg. injection Hg as <-.
      rewrite E. change (word_at (video f') (pixel_address f (8 * x + col) (8 * y + row))
        (color_word f (if Z.testbit bits col then fb_foreground f else fb_background f))).
      rewrite <- glyph_pixel_color by (done || lia). unfold pixel_address at 1.
      replace (address f + pitch f * (8 * y + row) + 4 * (8 * x + col))
        with (pixel_address f (8 * x) (8 * y) + pitch f * Z.of_nat (Z.to_nat row) + 4 * col)
        by (unfold pixel_address; rewrite Z2Nat.id by lia; lia).
      apply Hwords; [lia|lia|].
      assert (glyph_pixels f glyph !! Z.to_nat (8 * row + col) = Some (glyph_pixel f bits col)) as Epx
        by by apply glyph_pixels_lookup.
      rewrite Z2Nat.id by lia. exact Epx.
Qed.

Lemma framebuffer_ok_draws columns rows P f f' :
  draws P f f' -> framebuffer_ok columns rows f -> framebuffer_ok columns rows f'.
Proof.
  intros Hd Hok. pose proof (draws_mapped _ _ _ _ _ Hd (fo_mapped _ _ _ Hok)) as Hm.
  destruct Hd as [E _ _]. destruct Hok. rewrite E in *. by split.
Qed.

Lemma framebuffer_shows_draws f f' P x y c :
  draws P f f' ->
  (forall row col k, 0 <= row < 8 -> 0 <= col < 8 -> 0 <= k < 4 ->
     ~ P (pixel_address f (8 * x + col) (8 * y + row) + k)) ->
  framebuffer_shows f x y c -> framebuffer_shows f' x y c.
Proof.
  intros Hd HP Hs glyph row col bits Hg Hr Hc Hb. specialize (Hs glyph row col bits Hg Hr Hc Hb).
  eapply draws_word in Hs; [|exact Hd|intros; by apply HP].
  destruct Hd as [E _ _]. rewrite E in *. exact Hs.
Qed.

#[export] Instance framebuffer_laws : TextDisplayLaws framebuffer_t.
Proof.
  refine {| display_ok := framebuffer_ok; shows := framebuffer_shows |}.
  - intros columns rows f c x y Hok Hon. apply (wp_framebuffer_put_char columns rows); [done|done|].
    intros f' Hd Hs. split_and!; [by eapply framebuffer_ok_draws|done|].
    intros x' y' c' Hon' Hne. eapply framebuffer_shows_draws; [exact Hd|].
    intros row col k Hr Hc Hk. by eapply cells_apart.
  - intros columns rows f x y Hok Hon. unfold set_cursor, framebuffer_driver, framebuffer_set_cursor. wp_go.
    set (g := f <| cursor_x := x |> <| cursor_y := y |>).
    assert (framebuffer_ok columns rows g) as Hg by (destruct Hok; by split).
    apply (wp_framebuffer_put_char columns rows g); [done|done|].
    intros f' Hd _. split; [by eapply framebuffer_ok_draws|].
    intros x' y' c' Hon' Hne Hs. eapply (framebuffer_shows_draws g); [exact Hd| |exact Hs].
    intros row col k Hr Hc Hk. by eapply cells_apart.
  - intros columns rows f [Hd _ -> -> Hw Hh Hp Hm]. done.
Defined.

(** C25: with 32 bits per pixel, drawing a character in a cell of the screen makes
    the 64 pixels of that cell the glyph of the character ['?' for a code that is
    not ASCII], the bits of a row from the lowest at the left to the highest at the
    right, set ones in the foreground colour and clear ones in the background
    colour, each channel at its field's position; and it changes no byte outside
    the cell. *)
Theorem framebuffer_put_char_spec columns rows f c x y :
  framebuffer_ok columns rows f -> on_screen columns rows x y ->
  wp (framebuffer_put_char c x y)
     (fun _ f' => framebuffer_shows f' x y c /\ f' = f <| video := video f' |> /\
        forall q, ~ in_cell f x y q -> video f' !! q = video f !! q) f.
Proof.
  intros Hok Hon. apply (wp_framebuffer_put_char columns rows); [done|done|].
  intros f' [E Hf _] Hs. done.
Qed.

(** ** Writes to the device *)

Lemma wp_copy_bytes l f p Q :
  mapped f p (Z.of_nat (length l)) ->
  (forall f', draws (fun q => p <= q < p + Z.of_nat (length l)) f f' ->
     (forall i b, l !! i = Some b -> video f' !! (p + Z.of_nat i) = Some (u8 b)) -> Q tt f') ->
  wp (copy_bytes p l) Q f.
Proof.
  revert f p. induction l as [|b l IH]; intros f p Hm HQ; cbn [copy_bytes].
  - apply wp_ret, HQ; [apply draws_refl|done].
  - cbn [length] in *. wp_step. change (store_byte p b) with (store_byte p b).
    apply (wp_mono _ (fun _ g => draws (fun q => p <= q < p + 1) f g /\ video g !! p = Some (u8 b))).
    { apply wp_store_byte; [apply (mapped_sub _ _ _ _ _ Hm); lia|]. split; [|simpl; apply lookup_insert_eq].
      split; [done| |].
      - intros q Hq. simpl. apply lookup_insert_ne. lia.
      - intros q Hq. simpl. destruct (decide (p = q)) as [<-|]; [rewrite lookup_insert_eq; eauto|].
        by rewrite lookup_insert_ne. }
    intros [] g [Hg Hgp]. apply IH; [apply (draws_mapped _ _ _ _ _ Hg), (mapped_sub _ _ _ _ _ Hm); lia|].
    intros f' Hf' Hbytes. apply HQ.
    + eapply draws_trans; eapply draws_mono; [|exact Hg| |exact Hf']; simpl; lia.
    + intros [|i] c Hc; simpl in Hc.
      * injection Hc as <-. rewrite Z.add_0_r, (dr_frame _ _ _ Hf') by lia. done.
      * replace (p + Z.of_nat (S i)) with (p + 1 + Z.of_nat i) by lia. by apply Hbytes.
Qed.

(** C26: a write to /dev/framebuffer never goes past the end of the framebuffer:
    it stores the bytes that fit between the offset and the end, answers their
    number, 0 from the end on, and leaves every other byte as it was. *)
Theorem framebuffer_dev_write_spec f offset data n :
  mapped f (address f) (fb_size f) -> 0 <= fb_size f -> 0 <= offset < 2 ^ 32 ->
  0 <= n <= Z.of_nat (length data) ->
  wp (framebuffer_dev_write offset data n)
     (fun '(r, written) f' => r = RESOURCE_RESULT_OK /\
        written = Z.max 0 (Z.min n (fb_size f - offset)) /\
        (forall i b, Z.of_nat i < written -> data !! i = Some b ->
           video f' !! (address f + offset + Z.of_nat i) = Some (u8 b)) /\
        (forall q, ~ address f + offset <= q < address f + offset + written ->
           video f' !! q = video f !! q)) f.
Proof.
  intros Hm Hs Ho Hn. unfold framebuffer_dev_write. wp_go.
  destruct (Z.leb_spec (fb_size f) offset).
  { wp_step. split_and!; [done|lia|lia|done]. }
  set (k := if n <? fb_size f - offset then n else fb_size f - offset).
  assert (k = Z.min n (fb_size f - offset)) as Ek by (unfold k; destruct (Z.ltb_spec n (fb_size f - offset)); lia).
  clearbody k. destruct (Z.ltb_spec (Z.of_nat (length data)) k); [lia|].
  assert (length (take (Z.to_nat k) data) = Z.to_nat k) as Hlen by (rewrite length_take; lia).
  rewrite u32_small by (destruct Hm as (H1' & H2' & _); lia). wp_step. apply wp_copy_bytes.
  { rewrite Hlen. apply (mapped_sub _ _ _ _ _ Hm); lia. }
  rewrite Hlen. intros f' Hf' Hb. wp_step. split_and!; [done|lia| |].
  - intros i b Hi Hib. apply Hb. by rewrite lookup_take_lt by lia.
  - intros q Hq. apply (dr_frame _ _ _ Hf'). lia.
Qed.

(** ** A small framebuffer *)

Definition demo_framebuffer : framebuffer_t :=
  mk_framebuffer 0xF8000000 64 16 16 32 1024 16 8 0 (mk_fb_color 255 255 255) (mk_fb_color 66 66 66) 0 0
    (list_to_map ((fun q => (q, 0)) <$> seqZ 0xF8000000 1024)).

Lemma demo_framebuffer_mapped : mapped demo_framebuffer 0xF8000000 1024.
Proof.
  split_and!; [lia|lia|]. intros q Hq.
  assert (Forall (fun q => is_Some (video demo_framebuffer !! q)) (seqZ 0xF8000000 1024)) as Hall
    by (apply (bool_decide_unpack _); vm_compute; exact I).
  rewrite List.Forall_forall in Hall. apply Hall, list_elem_of_In, elem_of_seqZ. lia.
Qed.

Lemma demo_framebuffer_ok : framebuffer_ok 2 2 demo_framebuffer.
Proof. split; try done; try (simpl; lia). exact demo_framebuffer_mapped. Qed.

Lemma framebuffer_put_char_spec_witness :
  wp (framebuffer_put_char 65 1 1) (fun _ f' => framebuffer_shows f' 1 1 65) demo_framebuffer.
Proof.
  eapply wp_mono.
  { apply (framebuffer_put_char_spec 2 2 demo_framebuffer 65 1 1 demo_framebuffer_ok). split; lia. }
  intros [] f' [Hs _]. exact Hs.
Defined.

Lemma framebuffer_dev_write_spec_witness :
  wp (framebuffer_dev_write 1022 [7; 8; 9] 3)
     (fun '(r, written) f' => written = 2 /\ video f' !! 0xF80003FF = Some 8) demo_framebuffer.
Proof.
  eapply wp_mono.
  { apply (framebuffer_dev_write_spec demo_framebuffer 1022 [7; 8; 9] 3 demo_framebuffer_mapped); simpl; lia. }
  intros [r written] f' (_ & Hw & Hb & _). split; [exact Hw|].
  specialize (Hb 1%nat 8). simpl in Hb, Hw. apply Hb; [lia|done].
Defined.
