(* ===== verification/Files.v ===== *)
(** * Data of the file systems (include/vfs.h, include/fs/ramfs.h)

    VFS nodes, RAM file-system nodes, directory-entry names and file contents are
    heap objects in typed stores keyed by their address, as in [Tasks].  The two
    levels of the VFS node cache are linked lists that only the cache functions
    walk: they are Rocq lists, in the order of the links, that keep the address
    of every cell. *)
From S2P Require Import Prelude Bitmap Paging KernelHeap Tasks Allocator Keyboard Terminal Framebuffer.

Definition VFS_NODE_NAME_LENGTH : Z := 256.
Definition RAMFS_NODE_MAX_CHILDREN : Z := 64.

Inductive vfs_node_type : Type :=
| VFS_NODE_TYPE_FILE
| VFS_NODE_TYPE_DIRECTORY.

(** Every node copies one of the constant operation tables of the sources. *)
Inductive operations_table : Type :=
| ramfs_node_operations
| devfs_node_operations
| devfs_entries_operations (i : Z).

#[export] Instance vfs_node_type_eq_dec : EqDecision vfs_node_type.
Proof. solve_decision. Defined.
#[export] Instance operations_table_eq_dec : EqDecision operations_table.
Proof. solve_decision. Defined.

Record vfs_node_t : Type := mk_vfs_node {
  name : list Z;
  mount : Z;
  operations : operations_table;
  type : vfs_node_type;
  resource_type : resource_type_t;
  fs_data : Z;
  cache_index : Z;
  index : Z;
  ref_count : Z;
}.

(** A cell of the outer list with its inner list of (cell, node) addresses. *)
Record vfs_node_cache_t : Type := mk_cache {
  cache_cell : Z;
  cache_key : Z;
  cache_nodes : list (Z * Z);
}.

Record vfs_t : Type := mk_vfs {
  root : Z;
  cache : list vfs_node_cache_t;
  last_cache_index : Z;
}.

Record vfs_dir_t : Type := mk_dir { dir_name : list Z; dir_type : vfs_node_type }.

Record ramfs_dirent_t : Type := mk_dirent { dirent_name : Z; dirent_node : Z }.

(** [ram_children] is the used part of the [children] array: its length is
    [children_count]. *)
Record ramfs_node_t : Type := mk_ramfs_node {
  ram_id : Z;
  ram_children : list ramfs_dirent_t;
  ram_name : list Z;
  ram_type : vfs_node_type;
  ram_data : Z;
  ram_data_size : Z;
  ram_link_count : Z;
}.

(** The global device objects behind /dev. *)
Record devices_t : Type := mk_devices {
  dev_keyboard : keyboard_t;
  dev_terminal : terminal_t;
  dev_framebuffer : framebuffer_t;
}.

(** The system call in progress (include/syscall.h): the address of the registers
    the interrupt saved on the kernel stack, and the calling task. *)
Record syscall_t : Type := mk_syscall {
  current_register_data : Z;
  caller_task : Z;
}.

Record fs_t : Type := mk_fs {
  os : os_t;
  vfs_nodes : gmap Z vfs_node_t;
  ramfs_nodes : gmap Z ramfs_node_t;
  names : gmap Z (list Z);
  contents : gmap Z (list Z);
  vfs : vfs_t;
  ramfs_last_index : Z;
  ramfs_root_node : Z;
  devices : devices_t;
  syscall : syscall_t;
}.

#[export] Instance vfs_node_fields : Fields vfs_node_t := fun n =>
  mk_vfs_node (name n) (mount n) (operations n) (type n) (resource_type n) (fs_data n)
    (cache_index n) (index n) (ref_count n).
#[export] Instance cache_fields : Fields vfs_node_cache_t := fun c =>
  mk_cache (cache_cell c) (cache_key c) (cache_nodes c).
#[export] Instance vfs_fields : Fields vfs_t := fun v =>
  mk_vfs (root v) (cache v) (last_cache_index v).
#[export] Instance ramfs_node_fields : Fields ramfs_node_t := fun n =>
  mk_ramfs_node (ram_id n) (ram_children n) (ram_name n) (ram_type n) (ram_data n)
    (ram_data_size n) (ram_link_count n).
#[export] Instance fs_fields : Fields fs_t := fun s =>
  mk_fs (os s) (vfs_nodes s) (ramfs_nodes s) (names s) (contents s) (vfs s)
    (ramfs_last_index s) (ramfs_root_node s) (devices s) (syscall s).
#[export] Instance devices_fields : Fields devices_t := fun d =>
  mk_devices (dev_keyboard d) (dev_terminal d) (dev_framebuffer d).
#[export] Instance syscall_fields : Fields syscall_t := fun c =>
  mk_syscall (current_register_data c) (caller_task c).

(** The sizes the sources allocate, by the layout of the i386 ABI. *)
Definition VFS_NODE_SIZE : Z := 336.
Definition VFS_CACHE_SIZE : Z := 16.
Definition VFS_CACHE_NODE_SIZE : Z := 8.
Definition RAMFS_NODE_SIZE : Z := 796.

(** ** Accesses *)

Definition load_vnode (p : Z) : M fs_t vfs_node_t := let! s := get in of_option (vfs_nodes s !! p).
Definition update_vnode (p : Z) (f : vfs_node_t -> vfs_node_t) : M fs_t unit :=
  let! n := load_vnode p in modify (fun s => s <| vfs_nodes := <[p := f n]> (vfs_nodes s) |>).
Definition load_ram (p : Z) : M fs_t ramfs_node_t := let! s := get in of_option (ramfs_nodes s !! p).
Definition update_ram (p : Z) (f : ramfs_node_t -> ramfs_node_t) : M fs_t unit :=
  let! n := load_ram p in modify (fun s => s <| ramfs_nodes := <[p := f n]> (ramfs_nodes s) |>).
Definition load_name (p : Z) : M fs_t (list Z) := let! s := get in of_option (names s !! p).
Definition update_vfs (f : vfs_t -> vfs_t) : M fs_t unit :=
  modify (fun s => s <| vfs := f (vfs s) |>).

Definition on_os {A} (op : M os_t A) : M fs_t A := zoom os (fun o s => s <| os := o |>) op.

Section access_rules.
Variable s : fs_t.

Lemma wp_load_vnode p n Q : vfs_nodes s !! p = Some n -> Q n s -> wp (load_vnode p) Q s.
Proof using Type. intros Hp HQ. unfold load_vnode. by wp_run. Qed.
Lemma wp_update_vnode p n f Q :
  vfs_nodes s !! p = Some n -> Q tt (s <| vfs_nodes := <[p := f n]> (vfs_nodes s) |>) ->
  wp (update_vnode p f) Q s.
Proof using Type. intros Hp HQ. unfold update_vnode. wp_step. eapply wp_load_vnode; [done|]. by wp_run. Qed.
Lemma wp_load_ram p n Q : ramfs_nodes s !! p = Some n -> Q n s -> wp (load_ram p) Q s.
Proof using Type. intros Hp HQ. unfold load_ram. by wp_run. Qed.
Lemma wp_update_ram p n f Q :
  ramfs_nodes s !! p = Some n -> Q tt (s <| ramfs_nodes := <[p := f n]> (ramfs_nodes s) |>) ->
  wp (update_ram p f) Q s.
Proof using Type. intros Hp HQ. unfold update_ram. wp_step. eapply wp_load_ram; [done|]. by wp_run. Qed.
Lemma wp_load_name p l Q : names s !! p = Some l -> Q l s -> wp (load_name p) Q s.
Proof using Type. intros Hp HQ. unfold load_name. by wp_run. Qed.
End access_rules.

(** ** The heap objects of the file systems *)

Section heap_objects.
Context {alloc : Allocator kernel_t}.

Definition fs_malloc (size : Z) : M fs_t Z := on_os (on_kernel (heap_malloc size)).
Definition fs_calloc (size : Z) : M fs_t Z := on_os (on_kernel (heap_calloc size)).
Definition fs_free (p : Z) : M fs_t unit := on_os (on_kernel (heap_free p)).

Definition set_kernel (k : kernel_t) (s : fs_t) : fs_t := s <| os := (os s) <| kernel := k |> |>.

(** The addresses of the objects in the stores. *)
Definition cells (c : vfs_node_cache_t) : list Z := cache_cell c :: (cache_nodes c).*1.
Definition addresses (s : fs_t) : list Z :=
  (map_to_list (vfs_nodes s)).*1 ++ (map_to_list (ramfs_nodes s)).*1 ++
  (map_to_list (names s)).*1 ++ (map_to_list (contents s)).*1 ++
  mjoin (cells <$> cache (vfs s)) ++ (map_to_list (resource_store (os s))).*1.

(** Every object is a live heap block of its own, and the heap has [room]. *)
Definition heap_ok (room : Z) (s : fs_t) : Prop :=
  exists live, heap_inv live room (kernel (os s)) /\
    NoDup (addresses s) /\ Forall (fun p => p ∈ live) (addresses s) /\ 0 ∉ addresses s.

Lemma heap_ok_ext room s s' :
  kernel (os s') = kernel (os s) -> addresses s' ≡ₚ addresses s -> heap_ok room s -> heap_ok room s'.
Proof using Type.
  intros Hk Hp (live & H1 & H2 & H3 & H4). exists live. rewrite Hk, Hp. done.
Qed.

Lemma heap_ok_weaken room room' s : room' <= room -> heap_ok room s -> heap_ok room' s.
Proof using Type.
  intros Hle (live & H1 & H2). exists live. split; [by eapply heap_inv_weaken|done].
Qed.

(** A block that has just been allocated: it is in no store and may become the
    address of one more object. *)
Definition fresh (p : Z) (room : Z) (s : fs_t) : Prop :=
  exists live, heap_inv live room (kernel (os s)) /\
    NoDup (p :: addresses s) /\ Forall (fun q => q ∈ live) (p :: addresses s) /\ 0 ∉ p :: addresses s.

Lemma fresh_ok p room s s' :
  kernel (os s') = kernel (os s) -> addresses s' ≡ₚ p :: addresses s -> fresh p room s -> heap_ok room s'.
Proof using Type.
  intros Hk Hp (live & H1 & H2 & H3 & H4). exists live. rewrite Hk, Hp. done.
Qed.

Lemma fresh_addresses p room s : fresh p room s -> p <> 0 /\ p ∉ addresses s.
Proof using Type.
  intros (live & _ & H2 & _ & H4). split; [intros ->; apply H4; left|apply list.NoDup_cons in H2; tauto].
Qed.

Lemma wp_fs_malloc_law (op : Z -> M kernel_t Z) room s size Q :
  (forall live h Q, heap_inv live room h ->
     (forall p h', p <> 0 -> p ∉ live -> heap_inv ({[p]} ∪ live) (room - block_headers size) h' -> Q p h') ->
     wp (op size) Q h) ->
  heap_ok room s ->
  (forall p k, fresh p (room - block_headers size) (set_kernel k s) -> Q p (set_kernel k s)) ->
  wp (on_os (on_kernel (op size))) Q s.
Proof using Type.
  intros Hlaw (live & H1 & H2 & H3 & H4) HQ. unfold on_os, on_kernel. do 2 wp_step.
  eapply Hlaw; [exact H1|]. intros p k Hp Hlive Hinv. apply (HQ p k).
  exists ({[p]} ∪ live). split_and!; [exact Hinv|..].
  - apply list.NoDup_cons. split; [|done]. intros Hin. apply Hlive.
    exact (proj1 (List.Forall_forall _ _) H3 p (proj1 (list_elem_of_In _ _) Hin)).
  - constructor; [set_solver|]. eapply List.Forall_impl; [|exact H3]. set_solver.
  - rewrite elem_of_cons. intros [|]; [congruence|]. by apply H4.
Qed.

Lemma wp_fs_malloc room s size Q :
  heap_ok room s -> 0 < size < 2 ^ 32 - 7 -> block_headers size <= room ->
  (forall p k, fresh p (room - block_headers size) (set_kernel k s) -> Q p (set_kernel k s)) ->
  wp (fs_malloc size) Q s.
Proof using Type.
  intros Hok H1 H2 HQ. apply (wp_fs_malloc_law heap_malloc room); [|done|done].
  intros live h Q' Hinv HQ'. by eapply heap_malloc_law.
Qed.
Lemma wp_fs_calloc room s size Q :
  heap_ok room s -> 0 < size < 2 ^ 32 - 7 -> block_headers size <= room ->
  (forall p k, fresh p (room - block_headers size) (set_kernel k s) -> Q p (set_kernel k s)) ->
  wp (fs_calloc size) Q s.
Proof using Type.
  intros Hok H1 H2 HQ. apply (wp_fs_malloc_law heap_calloc room); [|done|done].
  intros live h Q' Hinv HQ'. by eapply heap_calloc_law.
Qed.

(** Freeing an object that has left its store. *)
Lemma wp_fs_free room p s Q :
  fresh p room s -> (forall k, heap_ok room (set_kernel k s) -> Q tt (set_kernel k s)) ->
  wp (fs_free p) Q s.
Proof using Type.
  intros (live & H1 & H2 & H3 & H4) HQ. unfold fs_free, on_os, on_kernel. do 2 wp_step.
  apply (heap_free_law live room); [done|by apply Forall_inv in H3|].
  intros h' Hinv. apply (HQ h'). exists (live ∖ {[p]}). apply list.NoDup_cons in H2 as [Hn H2].
  split_and!; [exact Hinv|done| |].
  - apply Forall_inv_tail in H3. apply List.Forall_forall. intros q Hq.
    assert (q <> p) by (intros ->; by apply Hn, list_elem_of_In).
    pose proof (proj1 (List.Forall_forall _ _) H3 q Hq). set_solver.
  - rewrite elem_of_cons in H4. tauto.
Qed.

(** How the stores' updates change the set of addresses. *)
Lemma keys_insert_new {V} (m : gmap Z V) p v :
  m !! p = None -> (map_to_list (<[p := v]> m)).*1 ≡ₚ p :: (map_to_list m).*1.
Proof using Type. intros Hp. by rewrite map_to_list_insert. Qed.
Lemma keys_insert_old {V} (m : gmap Z V) p v w :
  m !! p = Some w -> (map_to_list (<[p := v]> m)).*1 ≡ₚ (map_to_list m).*1.
Proof using Type.
  intros Hp. rewrite <- (insert_delete_id _ _ _ Hp) at 2. rewrite <- insert_delete_eq.
  by rewrite !keys_insert_new by apply lookup_delete_eq.
Qed.
Lemma keys_delete {V} (m : gmap Z V) p v :
  m !! p = Some v -> (map_to_list m).*1 ≡ₚ p :: (map_to_list (delete p m)).*1.
Proof using Type.
  intros Hp. rewrite <- (insert_delete_id _ _ _ Hp) at 1.
  by rewrite keys_insert_new by apply lookup_delete_eq.
Qed.
Lemma keys_elem {V} (m : gmap Z V) p : p ∈ (map_to_list m).*1 <-> is_Some (m !! p).
Proof using Type.
  rewrite list_elem_of_fmap. split.
  - intros ([q v] & -> & Hin%elem_of_map_to_list). by exists v.
  - intros [v Hv]. exists (p, v). split; [done|by apply elem_of_map_to_list].
Qed.

(** The three updates of a store of VFS nodes. *)
Lemma addresses_vnode_new s p n :
  vfs_nodes s !! p = None -> addresses (s <| vfs_nodes := <[p := n]> (vfs_nodes s) |>) ≡ₚ p :: addresses s.
Proof using Type. intros Hp. unfold addresses. simpl. by rewrite keys_insert_new. Qed.
Lemma addresses_vnode_old s p n m :
  vfs_nodes s !! p = Some m -> addresses (s <| vfs_nodes := <[p := n]> (vfs_nodes s) |>) ≡ₚ addresses s.
Proof using Type. intros Hp. unfold addresses. simpl. by rewrite (keys_insert_old _ _ _ m). Qed.
Lemma addresses_vnode_delete s p m :
  vfs_nodes s !! p = Some m -> addresses s ≡ₚ p :: addresses (s <| vfs_nodes := delete p (vfs_nodes s) |>).
Proof using Type. intros Hp. unfold addresses. simpl. by rewrite (keys_delete (vfs_nodes s) p m). Qed.

(** The same for file contents and names. *)
Lemma addresses_content_new s p l :
  contents s !! p = None -> addresses (s <| contents := <[p := l]> (contents s) |>) ≡ₚ p :: addresses s.
Proof using Type. intros Hp. unfold addresses. simpl. rewrite keys_insert_new by done. simpl. by rewrite <- !Permutation_middle. Qed.
Lemma addresses_content_old s p l l0 :
  contents s !! p = Some l0 -> addresses (s <| contents := <[p := l]> (contents s) |>) ≡ₚ addresses s.
Proof using Type. intros Hp. unfold addresses. simpl. by rewrite (keys_insert_old (contents s) p l l0). Qed.
Lemma addresses_content_delete s p l :
  contents s !! p = Some l -> addresses s ≡ₚ p :: addresses (s <| contents := delete p (contents s) |>).
Proof using Type.
  intros Hp. unfold addresses. simpl. rewrite (keys_delete (contents s) p l) by done. simpl.
  by rewrite <- !Permutation_middle.
Qed.
Lemma addresses_name_new s p l :
  names s !! p = None -> addresses (s <| names := <[p := l]> (names s) |>) ≡ₚ p :: addresses s.
Proof using Type. intros Hp. unfold addresses. simpl. rewrite keys_insert_new by done. simpl. by rewrite <- !Permutation_middle. Qed.
Lemma addresses_ram_new s p n :
  ramfs_nodes s !! p = None -> addresses (s <| ramfs_nodes := <[p := n]> (ramfs_nodes s) |>) ≡ₚ p :: addresses s.
Proof using Type. intros Hp. unfold addresses. simpl. rewrite keys_insert_new by done. simpl. by rewrite <- !Permutation_middle. Qed.
Lemma addresses_ram_old s p n n0 :
  ramfs_nodes s !! p = Some n0 -> addresses (s <| ramfs_nodes := <[p := n]> (ramfs_nodes s) |>) ≡ₚ addresses s.
Proof using Type. intros Hp. unfold addresses. simpl. by rewrite (keys_insert_old (ramfs_nodes s) p n n0). Qed.
Lemma addresses_ram_delete s p n :
  ramfs_nodes s !! p = Some n -> addresses s ≡ₚ p :: addresses (s <| ramfs_nodes := delete p (ramfs_nodes s) |>).
Proof using Type.
  intros Hp. unfold addresses. simpl. rewrite (keys_delete (ramfs_nodes s) p n) by done. simpl.
  by rewrite <- !Permutation_middle.
Qed.

Lemma heap_ok_fresh room s s' p :
  heap_ok room s -> kernel (os s') = kernel (os s) -> addresses s ≡ₚ p :: addresses s' -> fresh p room s'.
Proof using Type.
  intros (live & H1 & H2 & H3 & H4) Hk Hp. exists live. rewrite Hk, <- Hp. done.
Qed.

Lemma addresses_vnode s p : is_Some (vfs_nodes s !! p) -> p ∈ addresses s.
Proof using Type. intros Hp. unfold addresses. apply elem_of_app. left. by apply keys_elem. Qed.
Lemma addresses_ram s p : is_Some (ramfs_nodes s !! p) -> p ∈ addresses s.
Proof using Type. intros Hp. unfold addresses. rewrite !elem_of_app. right. left. by apply keys_elem. Qed.
Lemma addresses_name s p : is_Some (names s !! p) -> p ∈ addresses s.
Proof using Type. intros Hp. unfold addresses. rewrite !elem_of_app. do 2 right. left. by apply keys_elem. Qed.
Lemma addresses_content s p : is_Some (contents s !! p) -> p ∈ addresses s.
Proof using Type. intros Hp. unfold addresses. rewrite !elem_of_app. do 3 right. left. by apply keys_elem. Qed.

Lemma addresses_resource s p : is_Some (resource_store (os s) !! p) -> p ∈ addresses s.
Proof using Type. intros Hp. unfold addresses. rewrite !elem_of_app. do 5 right. by apply keys_elem. Qed.

Lemma fresh_none p room s :
  fresh p room s ->
  vfs_nodes s !! p = None /\ ramfs_nodes s !! p = None /\ names s !! p = None /\
  contents s !! p = None /\ resource_store (os s) !! p = None.
Proof using Type.
  intros [_ Hn]%fresh_addresses.
  split_and!; apply eq_None_not_Some; intros Hs; apply Hn;
    [by apply addresses_vnode|by apply addresses_ram|by apply addresses_name|by apply addresses_content
    |by apply addresses_resource].
Qed.

Lemma addresses_vfs s v :
  mjoin (cells <$> cache v) ≡ₚ mjoin (cells <$> cache (vfs s)) -> addresses (s <| vfs := v |>) ≡ₚ addresses s.
Proof using Type. intros Hp. unfold addresses. simpl. by rewrite Hp. Qed.
Lemma addresses_vfs_new s v p :
  mjoin (cells <$> cache v) ≡ₚ p :: mjoin (cells <$> cache (vfs s)) ->
  addresses (s <| vfs := v |>) ≡ₚ p :: addresses s.
Proof using Type. intros Hp. unfold addresses. simpl. rewrite Hp. simpl. by rewrite <- !Permutation_middle. Qed.
Lemma addresses_vfs_delete s v p :
  mjoin (cells <$> cache (vfs s)) ≡ₚ p :: mjoin (cells <$> cache v) ->
  addresses s ≡ₚ p :: addresses (s <| vfs := v |>).
Proof using Type. intros Hp. unfold addresses. simpl. rewrite Hp. simpl. by rewrite <- !Permutation_middle. Qed.
End heap_objects.

(** ** A concrete file-system state

    A kernel heap with one free block of 500 headers and eight blocks in use
    above it, 0x400 bytes apart, and a root directory in its cache. *)
Definition demo_block (i : Z) : Z := 0xF0001008 + 0x400 * i.
Definition demo_kernel : kernel_t :=
  mk_kernel (mk_heap 0xF0000000 0xF0000000 0xF7FFF000 0xF0003000)
    {[ 0xC0100000 := 0xF0000000; 0xC0100004 := 0; 0xF0000000 := 0xC0100000; 0xF0000004 := 500;
       0xF0001004 := 102; 0xF0001404 := 102; 0xF0001804 := 102; 0xF0001C04 := 102;
       0xF0002004 := 102; 0xF0002404 := 102; 0xF0002804 := 102; 0xF0002C04 := 102 ]}
    small_machine 0 0.
Definition demo_blocks : list (Z * Z) := [(0xF0000000, 500)].
Definition demo_live : list Z := demo_block <$> [0; 1; 2; 3; 4; 5; 6; 7].
Definition demo_allocator : Allocator kernel_t := kernel_allocator 0xC0100000 600.

Lemma demo_kernel_inv : heap_inv (Allocator := demo_allocator) (list_to_set demo_live) 490 demo_kernel.
Proof.
  exists (list_to_map ((fun p => (p, 102)) <$> demo_live)), demo_blocks. split; [vm_compute; reflexivity|].
  assert (forall p n, (list_to_map ((fun p => (p, 102)) <$> demo_live) : gmap Z Z) !! p = Some n ->
            n = 102 /\ exists i, 0 <= i < 8 /\ p = demo_block i /\ word demo_kernel (p - HEADER_SIZE + 4) = 102) as Hlive.
  { intros p n Hp. apply elem_of_list_to_map_2 in Hp. apply list_elem_of_fmap in Hp as (q & [= -> ->] & Hq).
    split; [done|]. apply list_elem_of_fmap in Hq as (i & -> & Hi). exists i.
    rewrite !elem_of_cons in Hi.
    repeat (destruct Hi as [-> |Hi]; [split_and!; [lia|lia|done|reflexivity]|]).
    by apply not_elem_of_nil in Hi. }
  split.
  - split; [unfold HEADER_SIZE; simpl; lia|simpl; lia|vm_compute; tauto| |].
    + unfold HEADER_SIZE; simpl; unfold HEADER_SIZE; lia.
    + exists 500. right. left.
  - right. exists 0xF0000000, 500. split; [left|lia].
  - vm_compute. lia.
  - intros p n Hp. destruct (Hlive p n Hp) as (-> & i & Hi & -> & Hw).
    unfold demo_block, HEADER_SIZE in *. split; unfold HEADER_SIZE; simpl; try lia.
    unfold apart, demo_blocks. constructor; [unfold HEADER_SIZE; lia|constructor].
  - intros p n q m Hp Hq Hne. destruct (Hlive p n Hp) as (-> & i & Hi & -> & _).
    destruct (Hlive q m Hq) as (-> & j & Hj & -> & _). unfold demo_block, HEADER_SIZE in *. lia.
Qed.

(** The file system: a root directory in the RAM file system with the file [a]
    of three bytes. *)
Definition demo_root : vfs_node_t :=
  mk_vfs_node [47] 0 ramfs_node_operations VFS_NODE_TYPE_DIRECTORY RESOURCE_TYPE_FILE (demo_block 3) 0 0 2.
(** A task that shares one resource in slot 0. *)
Definition demo_task : task_t :=
  mk_task 3 0 0 TASK_STATE_RUNNING 1 0 0 0 true 0 false {[ 0 := demo_block 7 ]} 0 0 0 0 0 false
    TASK_WAIT_REASON_NONE 0 0 0 0 0 0 0 ∅ false no_execution 0 no_registers false.
Definition demo_os : os_t :=
  mk_os demo_kernel {[ 0x500 := demo_task ]} ∅
    {[ demo_block 7 := mk_resource RESOURCE_TYPE_TERMINAL 0x600 1 2 0 1 ]} (mk_task_manager 0 0 false 0 [0; 0; 0; 0; 0; 0] 0 0) 0 0.
Definition demo_devices : devices_t :=
  mk_devices (mk_keyboard (mk_special_state false false false) (repeat 0 256) 0 0 0)
    (mk_terminal 0xF0000008 [0; 0; 0; 0] (mk_point 0 0) TERMINAL_OVERFLOW_NEW_LINE TERMINAL_SCROLL_VERTICAL 2 2)
    (mk_framebuffer 0xF8000000 64 16 16 32 1024 16 8 0 (mk_fb_color 255 255 255) (mk_fb_color 66 66 66) 0 0 ∅).
Definition demo_fs : fs_t :=
  mk_fs demo_os {[ demo_block 0 := demo_root ]}
    {[ demo_block 3 := mk_ramfs_node 0 [mk_dirent (demo_block 5) (demo_block 4)] [47] VFS_NODE_TYPE_DIRECTORY 0 0 1;
       demo_block 4 := mk_ramfs_node 1 [] [97] VFS_NODE_TYPE_FILE (demo_block 6) 3 1 ]}
    {[ demo_block 5 := [97] ]} {[ demo_block 6 := [1; 2; 3] ]}
    (mk_vfs (demo_block 0) [mk_cache (demo_block 1) 0 [(demo_block 2, demo_block 0)]] 1) 2 (demo_block 3)
    demo_devices (mk_syscall 0xCFFFFFB8 0x500).

Lemma demo_fs_heap_ok : heap_ok (alloc := demo_allocator) 490 demo_fs.
Proof.
  exists (list_to_set demo_live). split_and!; [exact demo_kernel_inv|..].
  - apply (bool_decide_unpack _). vm_compute. exact I.
  - apply (bool_decide_unpack _). vm_compute. exact I.
  - apply (bool_decide_unpack _). vm_compute. exact I.
Qed.
