(* ===== verification/VfsCache.v ===== *)
(** * VFS nodes and their cache (src/vfs.c, first part)

    Node creation, the reference counts and the node cache, which maps a file
    system's [cache_index] and a node's [index] to the one VFS node for it.
    [vfs_inv] says that the cache holds exactly the VFS nodes that exist. *)
From S2P Require Import Prelude Bitmap Paging KernelHeap Tasks Allocator Files.

Section vfs_cache.
Context {alloc : Allocator kernel_t}.

(** ** Operations *)

Definition vfs_lock_node (node : Z) : M fs_t resource_result_t :=
  if node =? 0 then ret RESOURCE_RESULT_BAD_PARAMETER
  else
    do! update_vnode node (fun n => n <| ref_count := u32 (ref_count n + 1) |>) in
    ret RESOURCE_RESULT_OK.

(** The outer list: the first cell with an index, its update and its removal. *)
Fixpoint find_cache (key : Z) (l : list vfs_node_cache_t) : option vfs_node_cache_t :=
  match l with
  | [] => None
  | c :: l' => if cache_key c =? key then Some c else find_cache key l'
  end.
Fixpoint alter_cache (key : Z) (f : list (Z * Z) -> list (Z * Z)) (l : list vfs_node_cache_t)
  : list vfs_node_cache_t :=
  match l with
  | [] => []
  | c :: l' => if cache_key c =? key then (c <| cache_nodes := f (cache_nodes c) |>) :: l'
               else c :: alter_cache key f l'
  end.
Fixpoint remove_cache (key : Z) (l : list vfs_node_cache_t) : list vfs_node_cache_t :=
  match l with
  | [] => []
  | c :: l' => if cache_key c =? key then l' else c :: remove_cache key l'
  end.

(** The walk of an inner list to the first node with index [id]. *)
Fixpoint find_entry (id : Z) (entries : list (Z * Z)) : M fs_t (option (nat * Z)) :=
  match entries with
  | [] => ret None
  | (_, p) :: rest =>
      let! n := load_vnode p in
      if index n =? id then ret (Some (O, p))
      else
        let! r := find_entry id rest in
        ret (match r with Some (i, p) => Some (S i, p) | None => None end)
  end.

(** The parameter is a [size_t]; without a cell for it the code reads through
    NULL. *)
Definition vfs_cache_query_node (cache_index id : Z) : M fs_t (resource_result_t * Z) :=
  let! s := get in
  let! c := of_option (find_cache (u32 cache_index) (cache (vfs s))) in
  let! r := find_entry id (cache_nodes c) in
  match r with
  | Some (_, p) => ret (RESOURCE_RESULT_OK, p)
  | None => ret (RESOURCE_RESULT_NOT_FOUND, 0)
  end.

Definition vfs_cache_put (node : Z) : M fs_t resource_result_t :=
  if node =? 0 then ret RESOURCE_RESULT_BAD_PARAMETER
  else
    let! n := load_vnode node in
    let! s := get in
    let! present :=
      match find_cache (cache_index n) (cache (vfs s)) with
      | Some _ => ret true
      | None =>
          let! cell := fs_calloc VFS_CACHE_SIZE in
          if cell =? 0 then ret false
          else
            do! update_vfs (fun v => v <| cache := cache v ++ [mk_cache cell (cache_index n) []] |>) in
            ret true
      end in
    if negb present then ret RESOURCE_RESULT_ALLOCATION_ERROR
    else
      let! s := get in
      let! c := of_option (find_cache (cache_index n) (cache (vfs s))) in
      let! r := find_entry (index n) (cache_nodes c) in
      match r with
      | Some _ => ret RESOURCE_RESULT_ALREADY_PRESENT
      | None =>
          let! cell := fs_calloc VFS_CACHE_NODE_SIZE in
          if cell =? 0 then ret RESOURCE_RESULT_ALLOCATION_ERROR
          else
            do! update_vfs (fun v =>
                  v <| cache := alter_cache (cache_index n) (fun l => l ++ [(cell, node)]) (cache v) |>) in
            do! vfs_lock_node node in
            ret RESOURCE_RESULT_OK
      end.

(** [strcpy] into the 256 bytes of [name] must find room; the result of
    [vfs_cache_put] is not looked at. *)
Definition vfs_create_node (parent id : Z) (node_name : list Z) (table : operations_table)
    (data : Z) (node_type : vfs_node_type) (node_resource_type : resource_type_t)
  : M fs_t (resource_result_t * Z) :=
  let! node := fs_calloc VFS_NODE_SIZE in
  if node =? 0 then ret (RESOURCE_RESULT_ALLOCATION_ERROR, 0)
  else if VFS_NODE_NAME_LENGTH <=? Z.of_nat (length node_name) then fault
  else
    let! index_of_cache :=
      if negb (parent =? 0) then let! p := load_vnode parent in ret (cache_index p)
      else
        let! s := get in
        do! update_vfs (fun v => v <| last_cache_index := i64 (last_cache_index v + 1) |>) in
        ret (last_cache_index (vfs s)) in
    do! modify (fun s => s <| vfs_nodes :=
          <[node := mk_vfs_node node_name 0 table node_type node_resource_type data
                      index_of_cache id 0]> (vfs_nodes s) |>) in
    do! vfs_cache_put node in
    ret (RESOURCE_RESULT_OK, node).

(** ** The invariant

    Every stored node is in the cell of its [cache_index], the cells hold nothing
    else, and no two nodes agree on [cache_index] and [index]. *)
Record cache_inv (nodes : gmap Z vfs_node_t) (l : list vfs_node_cache_t) : Prop := {
  vi_keys : NoDup (cache_key <$> l);
  vi_nodes : forall c cell p, c ∈ l -> (cell, p) ∈ cache_nodes c ->
               exists n, nodes !! p = Some n /\ cache_index n = cache_key c;
  vi_cached : forall p n, nodes !! p = Some n ->
                exists c cell, c ∈ l /\ cache_key c = cache_index n /\ (cell, p) ∈ cache_nodes c;
  vi_once : forall c, c ∈ l -> NoDup (cache_nodes c).*2;
  vi_unique : forall p q n m, nodes !! p = Some n -> nodes !! q = Some m ->
                cache_index n = cache_index m -> index n = index m -> p = q;
  vi_count : forall p n, nodes !! p = Some n -> 1 <= ref_count n < 2 ^ 32;
}.
Definition vfs_inv (s : fs_t) : Prop := cache_inv (vfs_nodes s) (cache (vfs s)).

(** ** The outer list *)

Lemma find_cache_split key l c :
  find_cache key l = Some c ->
  exists l1 l2, l = l1 ++ c :: l2 /\ cache_key c = key /\ Forall (fun d => cache_key d <> key) l1.
Proof using Type.
  induction l as [|d l IH]; simpl; [done|]. destruct (Z.eqb_spec (cache_key d) key).
  - intros [= <-]. by exists [], l.
  - intros (l1 & l2 & -> & Hk & Hl)%IH. exists (d :: l1), l2. split_and!; [done|done|]. by constructor.
Qed.

Lemma find_cache_none key l : find_cache key l = None <-> forall c, c ∈ l -> cache_key c <> key.
Proof using Type.
  induction l as [|d l IH]; simpl.
  - split; [|done]. intros _ c Hc. by apply not_elem_of_nil in Hc.
  - destruct (Z.eqb_spec (cache_key d) key) as [Hk|Hk].
    + split; [done|]. intros H. destruct (H d ltac:(left) Hk).
    + rewrite IH. split.
      * intros H c [->|Hc]%elem_of_cons; [done|by apply H].
      * intros H c Hc. apply H. by right.
Qed.

Lemma find_cache_in key l c :
  NoDup (cache_key <$> l) -> c ∈ l -> cache_key c = key -> find_cache key l = Some c.
Proof using Type.
  intros Hnd Hc <-. induction l as [|d l IH]; [by apply not_elem_of_nil in Hc|]. simpl in *.
  apply list.NoDup_cons in Hnd as [Hd Hnd]. apply elem_of_cons in Hc as [->|Hc]; [by rewrite Z.eqb_refl|].
  destruct (Z.eqb_spec (cache_key d) (cache_key c)) as [E|E]; [|by apply IH].
  destruct Hd. rewrite E. by apply list_elem_of_fmap_2.
Qed.

Lemma find_cache_elem key l c : find_cache key l = Some c -> c ∈ l /\ cache_key c = key.
Proof using Type.
  intros (l1 & l2 & -> & Hk & _)%find_cache_split. split; [apply elem_of_app; right; left|done].
Qed.

Lemma alter_cache_split key f l1 c l2 :
  cache_key c = key -> Forall (fun d => cache_key d <> key) l1 ->
  alter_cache key f (l1 ++ c :: l2) = l1 ++ (c <| cache_nodes := f (cache_nodes c) |>) :: l2.
Proof using Type.
  intros Hc. induction l1 as [|d l1 IH]; simpl; intros Hl.
  - by rewrite Hc, Z.eqb_refl.
  - destruct (Z.eqb_spec (cache_key d) key); [by apply Forall_inv in Hl|].
    f_equal. by apply IH, (Forall_inv_tail Hl).
Qed.

Lemma remove_cache_split key l1 c l2 :
  cache_key c = key -> Forall (fun d => cache_key d <> key) l1 -> remove_cache key (l1 ++ c :: l2) = l1 ++ l2.
Proof using Type.
  intros Hc. induction l1 as [|d l1 IH]; simpl; intros Hl.
  - by rewrite Hc, Z.eqb_refl.
  - destruct (Z.eqb_spec (cache_key d) key); [by apply Forall_inv in Hl|].
    f_equal. by apply IH, (Forall_inv_tail Hl).
Qed.

(** ** The inner list *)

(** What the walk answers on entries whose nodes are stored. *)
Lemma wp_find_entry id entries s Q :
  (forall cell p, (cell, p) ∈ entries -> is_Some (vfs_nodes s !! p)) ->
  (forall i cell p n, entries !! i = Some (cell, p) -> vfs_nodes s !! p = Some n -> index n = id ->
     Q (Some (i, p)) s) ->
  ((forall cell p n, (cell, p) ∈ entries -> vfs_nodes s !! p = Some n -> index n <> id) -> Q None s) ->
  wp (find_entry id entries) Q s.
Proof using Type.
  revert Q. induction entries as [|[cell p] rest IH]; intros Q Hin Hfound Hnone; simpl.
  - apply wp_ret, Hnone. intros ? ? ? Hc. by apply not_elem_of_nil in Hc.
  - destruct (Hin cell p ltac:(left)) as [n Hn]. wp_step. eapply wp_load_vnode; [done|].
    destruct (Z.eqb_spec (index n) id) as [E|E].
    + apply wp_ret. by apply (Hfound O cell p n).
    + wp_step. apply IH.
      * intros cell' q Hq. apply (Hin cell' q). by right.
      * intros i cell' q m Hi Hq Hid. apply wp_ret. by apply (Hfound (S i) cell' q m).
      * intros Hno. apply wp_ret, Hnone. intros cell' q m [[= -> ->]|Hq]%elem_of_cons Hm; [congruence|].
        by apply (Hno cell' q m).
Qed.

(** ** Lookup *)

(** The node of a file system and an index, if there is one. *)
Definition node_for (s : fs_t) (key id p : Z) : Prop :=
  exists n, vfs_nodes s !! p = Some n /\ cache_index n = key /\ index n = id.

Lemma vi_head s key p n :
  vfs_inv s -> vfs_nodes s !! p = Some n -> cache_index n = key ->
  exists c, find_cache key (cache (vfs s)) = Some c /\ c ∈ cache (vfs s) /\ cache_key c = key
            /\ p ∈ (cache_nodes c).*2.
Proof using Type.
  intros Hinv Hp <-. destruct (vi_cached _ _ Hinv p n Hp) as (c & cell & Hc & Hk & Hin).
  exists c. split_and!; [by apply find_cache_in; [apply Hinv|..]|done|done|].
  apply list_elem_of_fmap. by exists (cell, p).
Qed.

Lemma wp_vfs_cache_query_node s key id q m Q :
  vfs_inv s -> vfs_nodes s !! q = Some m -> cache_index m = key -> 0 <= key < 2 ^ 32 ->
  (forall p, node_for s key id p -> Q (RESOURCE_RESULT_OK, p) s) ->
  ((forall p, ~ node_for s key id p) -> Q (RESOURCE_RESULT_NOT_FOUND, 0) s) ->
  wp (vfs_cache_query_node key id) Q s.
Proof using Type.
  intros Hinv Hq Hm Hkey Hok Hno. destruct (vi_head s key q m Hinv Hq Hm) as (c & Hfind & Hc & Hk & _).
  unfold vfs_cache_query_node. wp_step. wp_step. wp_step. rewrite u32_small by done.
  eapply wp_of_option; [exact Hfind|]. wp_step. apply wp_find_entry.
  - intros cell p Hin. destruct (vi_nodes _ _ Hinv c cell p Hc Hin) as (n & Hn & _). by exists n.
  - intros i cell p n Hi Hn Hid. apply wp_ret, Hok.
    destruct (vi_nodes _ _ Hinv c cell p Hc (list_elem_of_lookup_2 _ _ _ Hi)) as (n' & Hn' & Hkn).
    exists n. split_and!; [done|congruence|done].
  - intros Hnone. apply wp_ret, Hno. intros p (n & Hn & Hkn & Hid).
    destruct (vi_cached _ _ Hinv p n Hn) as (c' & cell & Hc' & Hkc & Hin).
    assert (Some c' = Some c) as [= ->].
    { rewrite <- Hfind. symmetry. apply find_cache_in; [apply Hinv|done|congruence]. }
    by apply (Hnone cell p n).
Qed.

(** ** Insertion *)

Lemma cache_inv_add_head nodes l cell key :
  cache_inv nodes l -> find_cache key l = None -> cache_inv nodes (l ++ [mk_cache cell key []]).
Proof using Type.
  intros [H1 H2 H3 H4 H5 H6] Hnone. rewrite find_cache_none in Hnone. split; try done.
  - rewrite fmap_app. apply list.NoDup_app. split_and!; [done| |simpl; apply NoDup_singleton].
    intros k Hk Hk'. apply list_elem_of_singleton in Hk' as ->.
    apply list_elem_of_fmap in Hk as (c & Heq & Hc). by destruct (Hnone c Hc).
  - intros c cell' p [Hc|Hc]%elem_of_app; [by apply H2|].
    apply list_elem_of_singleton in Hc as ->. intros Hp. by apply not_elem_of_nil in Hp.
  - intros p n Hp. destruct (H3 p n Hp) as (c & cell' & Hc & Hk). exists c, cell'.
    split; [apply elem_of_app; by left|done].
  - intros c [Hc|Hc]%elem_of_app; [by apply H4|]. apply list_elem_of_singleton in Hc as ->.
    apply NoDup_nil_2.
Qed.

Lemma elem_of_middle {A} (x y : A) l1 l2 : x ∈ l1 ++ y :: l2 <-> x = y \/ x ∈ l1 ++ l2.
Proof using Type. rewrite !elem_of_app, elem_of_cons. tauto. Qed.

Lemma cache_inv_add_node nodes l1 c l2 cell p n :
  cache_inv nodes (l1 ++ c :: l2) -> cache_key c = cache_index n -> nodes !! p = None ->
  (forall q m, nodes !! q = Some m -> cache_index m = cache_index n -> index m <> index n) ->
  1 <= ref_count n < 2 ^ 32 ->
  cache_inv (<[p := n]> nodes) (l1 ++ (c <| cache_nodes := cache_nodes c ++ [(cell, p)] |>) :: l2).
Proof using Type.
  intros [H1 H2 H3 H4 H5 H6] Hk Hp Hnew Href.
  assert (c ∈ l1 ++ c :: l2) as Hc by (apply elem_of_middle; by left).
  split.
  - rewrite fmap_app in *. exact H1.
  - intros d cell' q Hd Hq. apply elem_of_middle in Hd as [->|Hd]; simpl in *.
    + apply elem_of_app in Hq as [Hq|Hq].
      * destruct (H2 c cell' q Hc Hq) as (m & Hm & Hmk). exists m.
        rewrite lookup_insert_ne by congruence. done.
      * apply list_elem_of_singleton in Hq as [= -> ->]. exists n. by rewrite lookup_insert_eq.
    + destruct (H2 d cell' q) as (m & Hm & Hmk); [apply elem_of_middle; by right|done|]. exists m.
      rewrite lookup_insert_ne by congruence. done.
  - intros q m [[<- <-]|[Hne Hq]]%lookup_insert_Some.
    + exists (c <| cache_nodes := cache_nodes c ++ [(cell, p)] |>), cell.
      split_and!; [apply elem_of_middle; by left|done|]. simpl. apply elem_of_app. right.
      by apply list_elem_of_singleton.
    + destruct (H3 q m Hq) as (d & cell' & Hd & Hdk & Hin). apply elem_of_middle in Hd as [->|Hd].
      * exists (c <| cache_nodes := cache_nodes c ++ [(cell, p)] |>), cell'.
        split_and!; [apply elem_of_middle; by left|done|]. simpl. apply elem_of_app. by left.
      * exists d, cell'. split_and!; [apply elem_of_middle; by right|done|done].
  - intros d [->|Hd]%elem_of_middle; [|apply H4, elem_of_middle; by right]. simpl.
    rewrite fmap_app. apply list.NoDup_app. split_and!; [by apply H4| |apply NoDup_singleton].
    intros q Hq [= ->]%list_elem_of_singleton.
    apply list_elem_of_fmap in Hq as ([cell' q'] & Heq & Hin). simpl in Heq. subst q'.
    destruct (H2 c cell' p Hc Hin) as (m & Hm & _). congruence.
  - intros q q' m m' [[<- <-]|[Hne Hq]]%lookup_insert_Some [[<- <-]|[Hne' Hq']]%lookup_insert_Some Hki Hid;
      [done| | |by eapply H5].
    + destruct (Hnew q' m' Hq'); congruence.
    + destruct (Hnew q m Hq); congruence.
  - intros q m [[<- <-]|[Hne Hq]]%lookup_insert_Some; [done|by eapply H6].
Qed.

(** ** Update and removal *)

Lemma cache_inv_update nodes l p n n' :
  cache_inv nodes l -> nodes !! p = Some n -> cache_index n' = cache_index n -> index n' = index n ->
  1 <= ref_count n' < 2 ^ 32 -> cache_inv (<[p := n']> nodes) l.
Proof using Type.
  intros [H1 H2 H3 H4 H5 H6] Hp Hk Hid Href.
  assert (forall q m, <[p := n']> nodes !! q = Some m ->
            exists m0, nodes !! q = Some m0 /\ cache_index m = cache_index m0 /\ index m = index m0) as Hold.
  { intros q m [[<- <-]|[Hne Hq]]%lookup_insert_Some; [by exists n|by exists m]. }
  split; try done.
  - intros c cell q Hc Hq. destruct (H2 c cell q Hc Hq) as (m & Hm & Hmk).
    destruct (decide (p = q)) as [->|Hne].
    + exists n'. rewrite lookup_insert_eq. split; [done|congruence].
    + exists m. by rewrite lookup_insert_ne.
  - intros q m (m0 & Hm0 & Hk0 & _)%Hold. destruct (H3 q m0 Hm0) as (c & cell & Hc & Hck & Hin).
    exists c, cell. split_and!; [done|congruence|done].
  - intros q q' m m' (m0 & Hm0 & Hk0 & Hi0)%Hold (m1 & Hm1 & Hk1 & Hi1)%Hold Hkk Hii.
    apply (H5 q q' m0 m1); congruence.
  - intros q m [[<- <-]|[Hne Hq]]%lookup_insert_Some; [done|by apply (H6 q m)].
Qed.

Lemma cache_inv_drop_head nodes l1 c l2 :
  cache_inv nodes (l1 ++ c :: l2) -> cache_nodes c = [] -> cache_inv nodes (l1 ++ l2).
Proof using Type.
  intros [H1 H2 H3 H4 H5 H6] Hc.
  assert (forall d, d ∈ l1 ++ l2 -> d ∈ l1 ++ c :: l2) as Hsub by (intros; apply elem_of_middle; by right).
  split; try done.
  - rewrite fmap_app, fmap_cons, <- Permutation_middle in H1. rewrite fmap_app.
    apply list.NoDup_cons in H1. tauto.
  - intros d cell p Hd. apply H2, Hsub, Hd.
  - intros p n Hp. destruct (H3 p n Hp) as (d & cell & Hd & Hk & Hin). exists d, cell.
    split; [|done]. apply elem_of_middle in Hd as [->|Hd]; [|done]. rewrite Hc in Hin.
    by apply not_elem_of_nil in Hin.
  - intros d Hd. by apply H4, Hsub.
Qed.

Lemma delete_perm {A} (l : list A) i x : l !! i = Some x -> l ≡ₚ x :: delete i l.
Proof using Type. apply delete_Permutation. Qed.

Lemma cache_inv_remove_node nodes l1 c l2 i cell p n :
  cache_inv nodes (l1 ++ c :: l2) -> nodes !! p = Some n -> cache_nodes c !! i = Some (cell, p) ->
  cache_inv (delete p nodes) (l1 ++ (c <| cache_nodes := delete i (cache_nodes c) |>) :: l2).
Proof using Type.
  intros [H1 H2 H3 H4 H5 H6] Hp Hi.
  assert (c ∈ l1 ++ c :: l2) as Hc by (apply elem_of_middle; by left).
  pose proof (delete_perm _ _ _ Hi) as Hperm.
  assert (forall cell', (cell', p) ∉ delete i (cache_nodes c)) as Hgone.
  { intros cell' Hin. pose proof (H4 c Hc) as Hnd. rewrite Hperm in Hnd. simpl in Hnd.
    apply list.NoDup_cons in Hnd as [Hn _]. apply Hn. apply list_elem_of_fmap. by exists (cell', p). }
  assert (forall d cell' , d ∈ l1 ++ l2 -> (cell', p) ∉ cache_nodes d) as Hother.
  { intros d cell' Hd Hin. destruct (H2 d cell' p) as (m & Hm & Hmk); [apply elem_of_middle; by right|done|].
    destruct (H2 c cell p Hc (list_elem_of_lookup_2 _ _ _ Hi)) as (m' & Hm' & Hmk').
    rewrite fmap_app, fmap_cons, <- Permutation_middle in H1. apply list.NoDup_cons in H1 as [H1 _].
    apply H1. rewrite <- fmap_app. apply list_elem_of_fmap. exists d. split; [congruence|done]. }
  split.
  - rewrite fmap_app in *. exact H1.
  - intros d cell' q [->|Hd]%elem_of_middle Hq; simpl in *.
    + destruct (H2 c cell' q Hc) as (m & Hm & Hmk); [rewrite Hperm; by right|].
      exists m. rewrite lookup_delete_ne; [done|]. intros ->. by apply (Hgone cell').
    + destruct (H2 d cell' q) as (m & Hm & Hmk); [apply elem_of_middle; by right|done|].
      exists m. rewrite lookup_delete_ne; [done|]. intros ->. by apply (Hother d cell').
  - intros q m [Hne Hq]%lookup_delete_Some. destruct (H3 q m Hq) as (d & cell' & Hd & Hk & Hin).
    apply elem_of_middle in Hd as [->|Hd].
    + exists (c <| cache_nodes := delete i (cache_nodes c) |>), cell'.
      split_and!; [apply elem_of_middle; by left|done|]. simpl. rewrite Hperm in Hin.
      apply elem_of_cons in Hin as [[= -> ->]|]; done.
    + exists d, cell'. split_and!; [apply elem_of_middle; by right|done|done].
  - intros d [->|Hd]%elem_of_middle; [|apply H4, elem_of_middle; by right]. simpl.
    pose proof (H4 c Hc) as Hnd. rewrite Hperm in Hnd. apply list.NoDup_cons in Hnd. tauto.
  - intros q q' m m' [_ Hq]%lookup_delete_Some [_ Hq']%lookup_delete_Some. by apply H5.
  - intros q m [_ Hq]%lookup_delete_Some. by apply (H6 q m).
Qed.

(** What the node operations leave alone. *)
Record fs_frame (s s' : fs_t) : Prop := {
  fr_ram : ramfs_nodes s' = ramfs_nodes s;
  fr_names : names s' = names s;
  fr_contents : contents s' = contents s;
  fr_last : ramfs_last_index s' = ramfs_last_index s;
  fr_root_node : ramfs_root_node s' = ramfs_root_node s;
  fr_root : root (vfs s') = root (vfs s);
  fr_os : exists k, os s' = (os s) <| kernel := k |>;
}.
#[export] Instance fs_frame_preorder : PreOrder fs_frame.
Proof using Type.
  split.
  - intros s. split; try done. exists (kernel (os s)). by destruct s as [[] ? ? ? ? ? ? ?].
  - intros ? ? ? [? ? ? ? ? ? [? H1]] [? ? ? ? ? ? [k H2]]. split; try congruence.
    exists k. rewrite H2, H1. done.
Qed.

Lemma mjoin_cells_middle l1 c l2 :
  mjoin (cells <$> (l1 ++ c :: l2)) ≡ₚ cells c ++ mjoin (cells <$> (l1 ++ l2)).
Proof using Type.
  rewrite !fmap_app, fmap_cons, !join_app. change (mjoin (cells c :: (cells <$> l2))) with (cells c ++ mjoin (cells <$> l2)).
  by rewrite Permutation_app_swap_app.
Qed.

Lemma wp_vfs_lock_node s p n Q :
  p <> 0 -> vfs_nodes s !! p = Some n ->
  Q RESOURCE_RESULT_OK (s <| vfs_nodes := <[p := n <| ref_count := u32 (ref_count n + 1) |>]> (vfs_nodes s) |>) ->
  wp (vfs_lock_node p) Q s.
Proof using Type.
  intros Hp Hn HQ. unfold vfs_lock_node. destruct (Z.eqb_spec p 0); [done|].
  wp_step. eapply wp_update_vnode; [done|]. by apply wp_ret.
Qed.

(** The second half of [vfs_cache_put], once the cell for the index exists. *)
Lemma wp_cache_put_entry s nodes0 p n c room Q :
  vfs_nodes s = <[p := n]> nodes0 -> nodes0 !! p = None -> cache_inv nodes0 (cache (vfs s)) ->
  (forall q m, nodes0 !! q = Some m -> cache_index m = cache_index n -> index m <> index n) ->
  p <> 0 -> ref_count n = 0 -> heap_ok room s -> 2 <= room ->
  find_cache (cache_index n) (cache (vfs s)) = Some c ->
  (forall s', vfs_nodes s' = <[p := n <| ref_count := 1 |>]> nodes0 -> vfs_inv s' ->
     heap_ok (room - 2) s' -> fs_frame s s' -> last_cache_index (vfs s') = last_cache_index (vfs s) ->
     Q RESOURCE_RESULT_OK s') ->
  wp (let! r := find_entry (index n) (cache_nodes c) in
      match r with
      | Some _ => ret RESOURCE_RESULT_ALREADY_PRESENT
      | None =>
          let! cell := fs_calloc VFS_CACHE_NODE_SIZE in
          if cell =? 0 then ret RESOURCE_RESULT_ALLOCATION_ERROR
          else
            do! update_vfs (fun v =>
                  v <| cache := alter_cache (cache_index n) (fun l => l ++ [(cell, p)]) (cache v) |>) in
            do! vfs_lock_node p in
            ret RESOURCE_RESULT_OK
      end) Q s.
Proof using Type.
  intros Hnodes Hp Hinv Hnew Hp0 Hcount Hok Hroom Hfind HQ.
  destruct (find_cache_elem _ _ _ Hfind) as [Hc Hk].
  assert (forall cell q, (cell, q) ∈ cache_nodes c -> exists m, nodes0 !! q = Some m /\
            vfs_nodes s !! q = Some m /\ cache_index m = cache_index n) as Hin.
  { intros cell q Hq. destruct (vi_nodes _ _ Hinv c cell q Hc Hq) as (m & Hm & Hmk).
    exists m. rewrite Hnodes, lookup_insert_ne by congruence. split_and!; [done|done|congruence]. }
  wp_step. apply wp_find_entry.
  - intros cell q Hq. destruct (Hin cell q Hq) as (m & _ & Hm & _). by exists m.
  - intros i cell q m Hi Hm Hid. exfalso.
    destruct (Hin cell q (list_elem_of_lookup_2 _ _ _ Hi)) as (m' & Hm' & Hs & Hmk).
    assert (m' = m) as -> by congruence. by apply (Hnew q m).
  - intros _. wp_step. apply (wp_fs_calloc room); [done|done|exact Hroom|]. intros cell k Hfresh.
    destruct (fresh_addresses _ _ _ Hfresh) as [Hcell _]. destruct (Z.eqb_spec cell 0); [done|].
    destruct (find_cache_split _ _ _ Hfind) as (l1 & l2 & Hl & _ & Hl1).
    unfold update_vfs. wp_step. wp_step. wp_step.
    match goal with |- wp _ _ ?st => set (s2 := st) end.
    assert (cache (vfs s2) = l1 ++ (c <| cache_nodes := cache_nodes c ++ [(cell, p)] |>) :: l2) as Hcache.
    { simpl. rewrite Hl. by apply alter_cache_split. }
    apply (wp_vfs_lock_node s2 p n); [done|simpl; rewrite Hnodes; apply lookup_insert_eq|].
    apply wp_ret, HQ.
    + simpl. rewrite Hnodes, insert_insert_eq, Hcount. done.
    + unfold vfs_inv. simpl vfs_nodes. change (cache (vfs _)) with (cache (vfs s2)).
      rewrite Hcache, Hnodes, insert_insert_eq, Hcount. change (u32 (0 + 1)) with 1.
      rewrite Hl in Hinv. apply cache_inv_add_node; try done.
    + eapply (fresh_ok cell); [| |exact Hfresh]; [done|].
      etransitivity; [eapply (addresses_vnode_old s2 p _ n); simpl; rewrite Hnodes; apply lookup_insert_eq|].
      apply (addresses_vfs_new (set_kernel k s) (vfs s2)). rewrite Hcache. simpl cache. rewrite Hl, !mjoin_cells_middle.
      unfold cells. simpl. rewrite fmap_app. simpl. rewrite <- app_assoc. simpl.
      rewrite <- Permutation_middle. apply perm_swap.
    + split; try done. by exists k.
    + done.
Qed.

Lemma wp_vfs_cache_put s nodes0 p n room Q :
  vfs_nodes s = <[p := n]> nodes0 -> nodes0 !! p = None -> cache_inv nodes0 (cache (vfs s)) ->
  (forall q m, nodes0 !! q = Some m -> cache_index m = cache_index n -> index m <> index n) ->
  p <> 0 -> ref_count n = 0 -> heap_ok room s -> 5 <= room ->
  (forall s', vfs_nodes s' = <[p := n <| ref_count := 1 |>]> nodes0 -> vfs_inv s' ->
     heap_ok (room - 5) s' -> fs_frame s s' -> last_cache_index (vfs s') = last_cache_index (vfs s) ->
     Q RESOURCE_RESULT_OK s') ->
  wp (vfs_cache_put p) Q s.
Proof using Type.
  intros Hnodes Hp Hinv Hnew Hp0 Hcount Hok Hroom HQ. unfold vfs_cache_put.
  destruct (Z.eqb_spec p 0); [done|]. wp_step.
  apply (wp_load_vnode s p n); [rewrite Hnodes; apply lookup_insert_eq|].
  wp_step. wp_step. wp_step. destruct (find_cache (cache_index n) (cache (vfs s))) as [c|] eqn:Hfind.
  - wp_step. cbn [negb]. wp_step. wp_step. wp_step. eapply wp_of_option; [exact Hfind|].
    eapply (wp_cache_put_entry s nodes0 p n c room); try done; [lia|].
    intros s' H1 H2 H3 H4 H5. apply HQ; try done. eapply heap_ok_weaken; [|exact H3]. lia.
  - wp_step. apply (wp_fs_calloc room); [done|done|change (block_headers VFS_CACHE_SIZE) with 3; lia|].
    intros cell k Hfresh. destruct (fresh_addresses _ _ _ Hfresh) as [Hcell _].
    destruct (Z.eqb_spec cell 0); [done|]. unfold update_vfs. do 3 wp_step. cbn [negb]. wp_step. wp_step.
    match goal with |- wp _ _ ?st => set (s2 := st) end.
    assert (cache_inv nodes0 (cache (vfs s2))) as Hinv2 by by apply cache_inv_add_head.
    assert (find_cache (cache_index n) (cache (vfs s2)) = Some (mk_cache cell (cache_index n) [])) as Hfind2.
    { apply find_cache_in; [apply Hinv2|apply elem_of_app; right; left|done]. }
    wp_step. eapply wp_of_option; [exact Hfind2|].
    eapply (wp_cache_put_entry s2 nodes0 p n _ (room - 3)); try done; [|lia|].
    + eapply (fresh_ok cell); [| |exact Hfresh]; [done|].
      apply (addresses_vfs_new (set_kernel k s) (vfs s2)). simpl. rewrite fmap_app, join_app. simpl.
      by rewrite Permutation_app_comm.
    + intros s' H1 H2 H3 H4 H5. apply HQ; try done.
      * by replace (room - 5) with (room - 3 - 2) by lia.
      * etransitivity; [|exact H4]. split; try done. by exists k.
Qed.

(** ** Creation *)

(** Headers of the heap that a node, its cache cell and a new outer cell take. *)
Definition VNODE_ROOM : Z := 48.

Definition created (node_name : list Z) (table : operations_table) (data : Z)
    (node_type : vfs_node_type) (rtype : resource_type_t) (key id : Z) : vfs_node_t :=
  mk_vfs_node node_name 0 table node_type rtype data key id 1.

(** The [cache_index] of a new node. *)
Definition key_for (s : fs_t) (parent key : Z) : Prop :=
  if parent =? 0 then key = last_cache_index (vfs s)
  else exists n, vfs_nodes s !! parent = Some n /\ cache_index n = key.

Lemma wp_vfs_create_node s parent key id node_name table data node_type rtype room Q :
  vfs_inv s -> heap_ok room s -> VNODE_ROOM <= room -> key_for s parent key ->
  (forall p, ~ node_for s key id p) -> Z.of_nat (length node_name) < VFS_NODE_NAME_LENGTH ->
  (forall p s', p <> 0 -> vfs_nodes s !! p = None ->
     vfs_nodes s' = <[p := created node_name table data node_type rtype key id]> (vfs_nodes s) ->
     vfs_inv s' -> heap_ok (room - VNODE_ROOM) s' -> fs_frame s s' ->
     last_cache_index (vfs s') = (if parent =? 0 then i64 (last_cache_index (vfs s) + 1) else last_cache_index (vfs s)) ->
     Q (RESOURCE_RESULT_OK, p) s') ->
  wp (vfs_create_node parent id node_name table data node_type rtype) Q s.
Proof using Type.
  intros Hinv Hok Hroom Hkey Hnew Hname HQ. unfold vfs_create_node, VNODE_ROOM in *. wp_step.
  apply (wp_fs_calloc room); [done|done|change (block_headers VFS_NODE_SIZE) with 43; lia|].
  intros p k Hfresh. destruct (fresh_addresses _ _ _ Hfresh) as [Hp _].
  destruct (fresh_none _ _ _ Hfresh) as (Hnone & _). destruct (Z.eqb_spec p 0); [done|].
  destruct (Z.leb_spec VFS_NODE_NAME_LENGTH (Z.of_nat (length node_name))); [lia|].
  set (Q1 := fun (r : Z) (s1 : fs_t) => r = key /\ vfs_nodes s1 = vfs_nodes s /\
    cache (vfs s1) = cache (vfs s) /\ fs_frame s s1 /\ addresses s1 = addresses s /\ kernel (os s1) = k /\
    last_cache_index (vfs s1) = (if parent =? 0 then i64 (last_cache_index (vfs s) + 1) else last_cache_index (vfs s))).
  wp_step. apply (wp_mono _ Q1).
  { unfold key_for in Hkey. destruct (Z.eqb_spec parent 0) as [->|Hpar]; simpl negb; cbv iota.
    - unfold update_vfs. wp_run. unfold Q1. simpl. split_and!; try done. split; try done. by exists k.
    - destruct Hkey as (pn & Hn & <-). wp_step. eapply wp_load_vnode; [exact Hn|]. wp_step.
      unfold Q1. simpl. split_and!; try done. split; try done. by exists k. }
  clear Hkey. intros r s1 (-> & Hn1 & Hc1 & Hf1 & Ha1 & Hk1 & Hl1). wp_step. wp_step. wp_step.
  match goal with |- wp _ _ ?st => set (s2 := st) end.
  eapply (wp_vfs_cache_put s2 (vfs_nodes s) p _ (room - 43)).
  - simpl. by rewrite Hn1.
  - exact Hnone.
  - simpl. rewrite Hc1. exact Hinv.
  - simpl. intros q m Hq Hk Hid. apply (Hnew q). by exists m.
  - done.
  - done.
  - eapply (fresh_ok p); [| |exact Hfresh]; [by rewrite <- Hk1|].
    etransitivity; [apply addresses_vnode_new; simpl; by rewrite Hn1|]. by rewrite Ha1.
  - lia.
  - intros s' H1 H2 H3 H4 H5. apply wp_ret. apply HQ; try done.
    + by replace (room - 48) with (room - 43 - 5) by lia.
    + etransitivity; [exact Hf1|]. destruct H4. by split.
    + by rewrite H5.
Qed.

(** The file systems have numbers below the next one to give out. *)
Definition systems_numbered (s : fs_t) : Prop :=
  forall p n, vfs_nodes s !! p = Some n -> 0 <= cache_index n < last_cache_index (vfs s).

(** C14: Creating a VFS node for an object that has none yet: the node is new,
    cached exactly once under the [cache_index] of its file system and the object's
    index, holds the cache's reference only, and the cache, the heap and all other
    nodes stay as they should.  With a parent the file system is the parent's.
    Without one it is a new one: no other node has its number, and the next file
    system gets the number after it. *)
Theorem vfs_create_node_spec s parent key id node_name table data node_type rtype room :
  vfs_inv s -> systems_numbered s -> 0 <= last_cache_index (vfs s) < 2 ^ 63 - 1 ->
  heap_ok room s -> VNODE_ROOM <= room -> key_for s parent key ->
  (forall p, ~ node_for s key id p) -> Z.of_nat (length node_name) < VFS_NODE_NAME_LENGTH ->
  wp (vfs_create_node parent id node_name table data node_type rtype)
     (fun '(r, p) s' => r = RESOURCE_RESULT_OK /\ vfs_nodes s !! p = None /\
        vfs_nodes s' = <[p := created node_name table data node_type rtype key id]> (vfs_nodes s) /\
        vfs_inv s' /\ heap_ok (room - VNODE_ROOM) s' /\ systems_numbered s' /\
        if parent =? 0
        then last_cache_index (vfs s') = key + 1 /\
             forall q m, vfs_nodes s !! q = Some m -> cache_index m <> key
        else last_cache_index (vfs s') = last_cache_index (vfs s)) s.
Proof using Type.
  intros Hinv Hnum Hlast Hok Hroom Hkey Hnew Hname.
  apply (wp_vfs_create_node s parent key id _ _ _ _ _ room); [done..|].
  intros p s' _ H1 H2 H3 H4 _ H5. assert (i64 (last_cache_index (vfs s) + 1) = last_cache_index (vfs s) + 1) as E
    by (unfold i64; rewrite Z.mod_small; lia). rewrite E in H5.
  split_and!; [done..| |].
  - intros q m. rewrite H2, H5. intros [[_ <-]|[_ Hq%Hnum]]%lookup_insert_Some.
    + change (cache_index _) with key. unfold key_for in Hkey. destruct (parent =? 0); [lia|].
      destruct Hkey as (n & Hn%Hnum & <-). exact Hn.
    + destruct (parent =? 0); lia.
  - unfold key_for in Hkey. destruct (parent =? 0); [|done]. split; [lia|]. intros q m Hq%Hnum. lia.
Qed.

(** The cache answers exactly the existing node of a file system and an index,
    or [NOT_FOUND] when there is none, provided the file system has a node at all. *)
Theorem vfs_cache_query_node_spec s key id q m :
  vfs_inv s -> vfs_nodes s !! q = Some m -> cache_index m = key -> 0 <= key < 2 ^ 32 ->
  wp (vfs_cache_query_node key id)
     (fun '(r, p) s' => s' = s /\
        (r = RESOURCE_RESULT_OK /\ node_for s key id p \/
         r = RESOURCE_RESULT_NOT_FOUND /\ forall p', ~ node_for s key id p')) s.
Proof using Type.
  intros Hinv Hq Hm Hkey. eapply wp_vfs_cache_query_node; [done..| |]; intros; (split; [done|]);
    [by left|by right].
Qed.
End vfs_cache.

(** ** Witnesses *)

Lemma demo_fs_vfs_inv : vfs_inv demo_fs.
Proof.
  split; simpl.
  - apply NoDup_singleton.
  - intros c cell p ->%list_elem_of_singleton [= -> ->]%list_elem_of_singleton.
    exists demo_root. split; [apply lookup_singleton_eq|done].
  - intros p n [<- <-]%lookup_singleton_Some. eexists _, _. split_and!; [by apply list_elem_of_singleton|done|].
    by apply list_elem_of_singleton.
  - intros c ->%list_elem_of_singleton. apply NoDup_singleton.
  - intros p q n m [<- _]%lookup_singleton_Some [<- _]%lookup_singleton_Some. done.
  - intros p n [_ <-]%lookup_singleton_Some. simpl. lia.
Qed.

Lemma demo_fs_node p n : vfs_nodes demo_fs !! p = Some n -> demo_block 0 = p /\ demo_root = n.
Proof. apply (lookup_singleton_Some (M := gmap Z)). Qed.

Lemma demo_fs_numbered : systems_numbered demo_fs.
Proof. intros p n [_ <-]%demo_fs_node. split; [|reflexivity]. vm_compute. congruence. Qed.

(** The root of a second file system. *)
Lemma vfs_create_node_spec_witness :
  wp (vfs_create_node (alloc := demo_allocator) 0 1 [97] ramfs_node_operations (demo_block 4)
        VFS_NODE_TYPE_FILE RESOURCE_TYPE_FILE)
     (fun '(r, p) s' => r = RESOURCE_RESULT_OK /\ p <> demo_block 0 /\ vfs_inv s' /\ last_cache_index (vfs s') = 2) demo_fs.
Proof.
  eapply wp_mono.
  - apply (vfs_create_node_spec (alloc := demo_allocator) demo_fs 0 1 1 _ _ _ _ _ 490
             demo_fs_vfs_inv demo_fs_numbered).
    + vm_compute. split; congruence.
    + exact demo_fs_heap_ok.
    + vm_compute. congruence.
    + reflexivity.
    + intros p (n & [_ <-]%demo_fs_node & Hid & _). discriminate Hid.
    + vm_compute. reflexivity.
  - intros [r p] s' (-> & Hnone & _ & Hinv & _ & _ & Hl & _). split_and!; [done| |done|exact Hl].
    intros ->. vm_compute in Hnone. discriminate Hnone.
Defined.

Lemma vfs_cache_query_node_spec_witness :
  wp (vfs_cache_query_node 0 7) (fun '(r, p) s' => s' = demo_fs /\ r = RESOURCE_RESULT_NOT_FOUND) demo_fs.
Proof.
  eapply wp_mono.
  - apply (vfs_cache_query_node_spec demo_fs 0 7 (demo_block 0) demo_root demo_fs_vfs_inv);
      [apply lookup_singleton_eq|done|lia].
  - intros [r p] s' (-> & [(_ & n & [_ <-]%demo_fs_node & _ & Hid)|[-> _]]); [discriminate Hid|done].
Defined.
