(* ===== verification/Resource.v ===== *)
(** * Resources of a task (src/resource.c)

    A task holds at most [TASK_MAX_RESOURCES] references to resources; a resource
    shared with a child is freed by the last holder. *)
From S2P Require Import Prelude Bitmap Paging KernelHeap Tasks Allocator Files.

(** [sizeof(resource_t)] *)
Definition RESOURCE_SIZE : Z := 36.

Section resource.
Context {alloc : Allocator kernel_t}.
(** The [close] entry of an operations table, [None] when it is NULL. *)
Variable close_of : Z -> option (Z -> M fs_t resource_result_t).

(** The first of [n] slots from [i] on that is NULL. *)
Fixpoint free_slot (slots : gmap Z Z) (n : nat) (i : Z) : option Z :=
  match n with
  | O => None
  | S n' => match slots !! i with None => Some i | Some _ => free_slot slots n' (i + 1) end
  end.

Definition slot_of (t : task_t) : option Z := free_slot (resources t) (Z.to_nat TASK_MAX_RESOURCES) 0.

(** The allocation is not checked: without memory the stores go through NULL. *)
Definition resource_register (task : Z) (rtype : resource_type_t) (data table flags : Z)
  : M fs_t (resource_result_t * Z) :=
  if (task =? 0) || (table =? 0) then ret (RESOURCE_RESULT_BAD_PARAMETER, 0)
  else
    let! t := on_os (load_task task) in
    match slot_of t with
    | None => ret (RESOURCE_RESULT_NO_FREE_SLOTS, 0)
    | Some free_index =>
        let! resource := fs_calloc RESOURCE_SIZE in
        if resource =? 0 then fault
        else
          do! on_os (modify (fun o => o <| resource_store :=
                <[resource := mk_resource rtype data table 1 0 (u32 flags)]> (resource_store o) |>)) in
          do! on_os (update_task task (fun t =>
                t <| resources := <[free_index := resource]> (resources t) |>)) in
          ret (RESOURCE_RESULT_OK, free_index)
    end.

(** The slot is cleared last. *)
Definition resource_remove (task slot : Z) : M fs_t resource_result_t :=
  if (task =? 0) || (TASK_MAX_RESOURCES <=? slot) then ret RESOURCE_RESULT_BAD_PARAMETER
  else
    let! t := on_os (load_task task) in
    match resources t !! slot with
    | None => ret RESOURCE_RESULT_OK
    | Some resource =>
        do! on_os (update_resource resource (fun r => r <| res_ref_count := u32 (res_ref_count r - 1) |>)) in
        let! r := on_os (load_resource resource) in
        do! (if res_ref_count r =? 0 then
               do! match close_of (res_operations r) with
                   | Some close => do! close resource in ret tt
                   | None => ret tt
                   end in
               do! on_os (modify (fun o => o <| resource_store := delete resource (resource_store o) |>)) in
               fs_free resource
             else ret tt) in
        do! on_os (update_task task (fun t => t <| resources := delete slot (resources t) |>)) in
        ret RESOURCE_RESULT_OK
    end.

(** The function has no [return]; its callers ignore the value. *)
Definition resource_share (child slot resource : Z) : M fs_t unit :=
  do! on_os (update_resource resource (fun r => r <| res_ref_count := u32 (res_ref_count r + 1) |>)) in
  on_os (update_task child (fun t => t <| resources := <[slot := resource]> (resources t) |>)).

(** ** Registration *)

Lemma free_slot_spec slots n i :
  match free_slot slots n i with
  | Some j => i <= j < i + Z.of_nat n /\ slots !! j = None /\ forall k, i <= k < j -> is_Some (slots !! k)
  | None => forall k, i <= k < i + Z.of_nat n -> is_Some (slots !! k)
  end.
Proof using Type.
  revert i. induction n as [|n IH]; intros i; simpl; [intros; lia|].
  destruct (slots !! i) as [r|] eqn:Hi.
  - specialize (IH (i + 1)). destruct (free_slot slots n (i + 1)) as [j|].
    + destruct IH as (H1 & H2 & H3). split_and!; [lia|lia|done|]. intros k Hk.
      destruct (decide (k = i)) as [->|]; [by exists r|]. apply H3. lia.
    + intros k Hk. destruct (decide (k = i)) as [->|]; [by exists r|]. apply IH. lia.
  - split_and!; [lia|lia|done|]. intros; lia.
Qed.

Lemma wp_on_os {A} (op : M os_t A) Q s :
  wp op (fun a o => Q a (s <| os := o |>)) (os s) -> wp (on_os op) Q s.
Proof using Type. intros H. unfold on_os. by apply wp_zoom. Qed.

(** Registering a resource takes the lowest free slot of the task, for a new
    resource with one holder, and changes no other slot; when all 512 slots are
    in use it changes nothing and says so. *)
Theorem resource_register_spec s task t rtype data table flags room :
  task <> 0 -> table <> 0 -> tasks (os s) !! task = Some t ->
  heap_ok room s -> block_headers RESOURCE_SIZE <= room ->
  wp (resource_register task rtype data table flags)
     (fun '(r, slot) s' =>
        match r with
        | RESOURCE_RESULT_OK =>
            exists p, 0 <= slot < TASK_MAX_RESOURCES /\ resources t !! slot = None /\
              (forall k, 0 <= k < slot -> is_Some (resources t !! k)) /\
              resource_store (os s) !! p = None /\
              resource_store (os s') = <[p := mk_resource rtype data table 1 0 (u32 flags)]> (resource_store (os s)) /\
              tasks (os s') = <[task := t <| resources := <[slot := p]> (resources t) |>]> (tasks (os s)) /\
              heap_ok (room - block_headers RESOURCE_SIZE) s'
        | _ => r = RESOURCE_RESULT_NO_FREE_SLOTS /\ s' = s /\
               forall k, 0 <= k < TASK_MAX_RESOURCES -> is_Some (resources t !! k)
        end) s.
Proof using Type.
  intros Htask Htable Ht Hok Hroom. unfold resource_register.
  destruct (Z.eqb_spec task 0); [done|]. destruct (Z.eqb_spec table 0); [done|]. simpl orb. cbv iota.
  wp_step. apply wp_on_os. eapply wp_load_task; [done|]. simpl.
  pose proof (free_slot_spec (resources t) (Z.to_nat TASK_MAX_RESOURCES) 0) as Hslot.
  unfold slot_of. destruct (free_slot _ _ _) as [slot|].
  - destruct Hslot as (Hs1 & Hs2 & Hs3). wp_step. apply (wp_fs_calloc room).
    { by destruct s. } { done. } { done. }
    intros p k Hfresh. destruct (fresh_addresses _ _ _ Hfresh) as [Hp _].
    destruct (fresh_none _ _ _ Hfresh) as (_ & _ & _ & _ & Hnone). destruct (Z.eqb_spec p 0); [done|].
    wp_step. apply wp_on_os. wp_step. wp_step. apply wp_on_os.
    eapply (wp_update_task _ task t); [exact Ht|]. apply wp_ret. exists p.
    split_and!; [lia|unfold TASK_MAX_RESOURCES in *; lia|done|done|done|done|done|].
    eapply (fresh_ok p); [| |exact Hfresh]; [done|]. unfold addresses. simpl.
    rewrite keys_insert_new by done. by rewrite <- !Permutation_middle.
  - apply wp_ret. split_and!; [done|by destruct s|exact Hslot].
Qed.

(** Removing a task's reference to a resource that others still hold: the
    resource only loses one holder, the slot is free again, nothing is closed
    and nothing else changes. *)
Theorem resource_remove_shared s task t slot p r :
  task <> 0 -> slot < TASK_MAX_RESOURCES -> tasks (os s) !! task = Some t ->
  resources t !! slot = Some p -> resource_store (os s) !! p = Some r -> 2 <= res_ref_count r < 2 ^ 32 ->
  wp (resource_remove task slot)
     (fun result s' => result = RESOURCE_RESULT_OK /\
        s' = (s <| os := ((os s)
                <| resource_store := <[p := r <| res_ref_count := res_ref_count r - 1 |>]> (resource_store (os s)) |>)
                <| tasks := <[task := t <| resources := delete slot (resources t) |>]> (tasks (os s)) |> |>)) s.
Proof using Type.
  intros Htask Hslot Ht Hp Hr Hcount. unfold resource_remove.
  destruct (Z.eqb_spec task 0); [done|]. destruct (Z.leb_spec TASK_MAX_RESOURCES slot); [lia|]. simpl orb. cbv iota.
  wp_step. apply wp_on_os. eapply wp_load_task; [done|]. rewrite Hp. wp_step. apply wp_on_os.
  eapply wp_update_resource; [exact Hr|]. wp_step. apply wp_on_os.
  eapply wp_load_resource; [apply lookup_insert_eq|].
  simpl res_ref_count. rewrite u32_small by lia. destruct (Z.eqb_spec (res_ref_count r - 1) 0); [lia|].
  wp_step. wp_step. wp_step. apply wp_on_os. eapply wp_update_task; [exact Ht|]. by apply wp_ret.
Qed.
End resource.

(** ** Witnesses *)

Lemma resource_register_spec_witness :
  wp (resource_register (alloc := demo_allocator) 0x500 RESOURCE_TYPE_FILE 0x700 1 2)
     (fun '(r, slot) s' => r = RESOURCE_RESULT_OK /\ slot = 1) demo_fs.
Proof.
  eapply wp_mono.
  - apply (resource_register_spec (alloc := demo_allocator) demo_fs 0x500 demo_task RESOURCE_TYPE_FILE 0x700 1 2 490);
      [done|done|apply lookup_singleton_eq|exact demo_fs_heap_ok|vm_compute; congruence].
  - assert (forall k, k <> 0 -> resources demo_task !! k = None) as Hfree.
    { intros k Hk. apply (lookup_singleton_ne (M := gmap Z)). congruence. }
    assert (is_Some (resources demo_task !! 1) -> False) as Hone by (rewrite Hfree by done; by intros [? [=]]).
    intros [r slot] s' H. destruct r; try (destruct H as (_ & _ & H); destruct Hone; apply H; vm_compute; split; congruence).
    destruct H as (p & Hrange & Hslot & Hlow & _). split; [done|].
    destruct (decide (slot = 0)) as [->|H0]; [discriminate Hslot|].
    destruct (decide (slot = 1)) as [->|H1]; [done|]. destruct Hone. apply Hlow. lia.
Defined.

Lemma resource_remove_shared_witness :
  wp (resource_remove (alloc := demo_allocator) (fun _ => None) 0x500 0)
     (fun result s' => result = RESOURCE_RESULT_OK /\
        resource_store (os s') !! demo_block 7 = Some (mk_resource RESOURCE_TYPE_TERMINAL 0x600 1 1 0 1)) demo_fs.
Proof.
  eapply wp_mono.
  - apply (resource_remove_shared (alloc := demo_allocator) (fun _ => None) demo_fs 0x500 demo_task 0 (demo_block 7)
      (mk_resource RESOURCE_TYPE_TERMINAL 0x600 1 2 0 1));
      [done|unfold TASK_MAX_RESOURCES; lia|apply lookup_singleton_eq|reflexivity|reflexivity|simpl; lia].
  - intros result s' [-> ->]. split; [done|]. apply lookup_insert_eq.
Defined.
