(* ===== verification/Vfs.v ===== *)
(** * The virtual file system (src/vfs.c, second part)

    Path resolution, the operations that dispatch to a node's table and the
    release of nodes.  The tables of the file systems and the devices are a
    [FileSystems] instance.  A path is the list of its characters without the
    terminator; buffers are byte lists. *)
From S2P Require Import Prelude Bitmap Paging KernelHeap Tasks Allocator Files VfsCache Resource.

(** [vfs_node_operations_t]; a NULL entry is [None].  [read] answers the bytes it
    stored, [write] takes the bytes of the caller's buffer. *)
Record vfs_node_operations_t : Type := mk_operations {
  op_lookup : option (Z -> list Z -> M fs_t (resource_result_t * Z));
  op_readdir : option (Z -> Z -> M fs_t (resource_result_t * option vfs_dir_t));
  op_read : option (Z -> Z -> Z -> M fs_t (resource_result_t * list Z));
  op_write : option (Z -> Z -> list Z -> M fs_t (resource_result_t * Z));
  op_size : option (Z -> M fs_t (resource_result_t * Z));
  op_create : option (Z -> list Z -> vfs_node_type -> M fs_t (resource_result_t * Z));
  op_truncate : option (Z -> M fs_t resource_result_t);
  op_link : option (Z -> list Z -> Z -> M fs_t resource_result_t);
  op_unlink : option (Z -> list Z -> M fs_t resource_result_t);
  op_ioctl : option (Z -> Z -> Z -> M fs_t resource_result_t);
  op_release : option (Z -> M fs_t unit);
}.

Class FileSystems := table_of : operations_table -> vfs_node_operations_t.

Definition SYSCALL_O_CREAT : Z := 0x0200.
Definition SYSCALL_O_TRUNC : Z := 0x0400.
(** The resource operations table [vfs_operations]. *)
Definition vfs_operations : Z := 1.

(** The character ['/']. *)
Definition SLASH : Z := 47.

(** ** What the VFS relies on

    The references that are held on a node besides the cache's own. *)
Definition held (s : fs_t) (p : Z) : Z :=
  match vfs_nodes s !! p with Some n => ref_count n - 1 | None => 0 end.

(** The laws of the tables: [fs_inv] is the file systems' own invariant; it does
    not depend on reference counts and survives the loss of nodes.  A lookup
    keeps every node as it is, may create unreferenced ones, and answers an
    existing one; a release gives up what the last node for an object holds. *)
Class FileSystemLaws {alloc : Allocator kernel_t} {systems : FileSystems} := {
  fs_inv : fs_t -> Prop;
  fs_inv_nodes s s' :
    fs_inv s -> ramfs_nodes s' = ramfs_nodes s -> names s' = names s -> contents s' = contents s ->
    ramfs_last_index s' = ramfs_last_index s -> ramfs_root_node s' = ramfs_root_node s ->
    (forall p n', vfs_nodes s' !! p = Some n' ->
       exists n, vfs_nodes s !! p = Some n /\ n' = n <| ref_count := ref_count n' |>) ->
    fs_inv s';
  lookup_law s d n lookup component room :
    fs_inv s -> vfs_inv s -> heap_ok room s -> VNODE_ROOM <= room ->
    vfs_nodes s !! d = Some n -> op_lookup (table_of (operations n)) = Some lookup ->
    wp (lookup d component)
       (fun '(r, p) s' => fs_inv s' /\ vfs_inv s' /\ heap_ok (room - VNODE_ROOM) s' /\
          root (vfs s') = root (vfs s) /\
          (forall q m, vfs_nodes s !! q = Some m -> vfs_nodes s' !! q = Some m) /\
          (forall q m, vfs_nodes s' !! q = Some m -> vfs_nodes s !! q = None -> ref_count m = 1 /\ mount m = 0) /\
          (r = RESOURCE_RESULT_OK -> p <> 0 /\ is_Some (vfs_nodes s' !! p))) s;
  release_law s d n release room :
    fs_inv s -> heap_ok room s -> vfs_nodes s !! d = Some n ->
    (forall q m, vfs_nodes s !! q = Some m -> cache_index m = cache_index n -> index m = index n -> q = d) ->
    op_release (table_of (operations n)) = Some release ->
    wp (release d)
       (fun _ s' => vfs_nodes s' = vfs_nodes s /\ vfs s' = vfs s /\ heap_ok room s' /\
          fs_inv (s' <| vfs_nodes := delete d (vfs_nodes s') |>)) s;
}.

Section vfs.
Context {alloc : Allocator kernel_t} {systems : FileSystems}.
Variable fuel : nat.

(** ** Release *)

Definition vfs_cache_try_evict (node : Z) : M fs_t resource_result_t :=
  if node =? 0 then ret RESOURCE_RESULT_BAD_PARAMETER
  else
    let! n := load_vnode node in
    if negb (ref_count n =? 1) then ret RESOURCE_RESULT_STILL_IN_USE
    else
      let! s := get in
      match find_cache (cache_index n) (cache (vfs s)) with
      | None => ret RESOURCE_RESULT_NOT_FOUND
      | Some cache_head =>
          let! r := find_entry (index n) (cache_nodes cache_head) in
          match r with
          | None => ret RESOURCE_RESULT_NOT_FOUND
          | Some (i, _) =>
              let! node_head := of_option (cache_nodes cache_head !! i) in
              do! update_vfs (fun v => v <| cache := alter_cache (cache_index n) (delete i) (cache v) |>) in
              do! fs_free (fst node_head) in
              do! (if bool_decide (delete i (cache_nodes cache_head) = []) then
                     do! update_vfs (fun v => v <| cache := remove_cache (cache_index n) (cache v) |>) in
                     fs_free (cache_cell cache_head)
                   else ret tt) in
              do! match op_release (table_of (operations n)) with
                  | Some release => release node
                  | None => ret tt
                  end in
              do! modify (fun s => s <| vfs_nodes := delete node (vfs_nodes s) |>) in
              do! fs_free node in
              ret RESOURCE_RESULT_OK
          end
      end.

Definition vfs_release_node (node : Z) : M fs_t resource_result_t :=
  if node =? 0 then ret RESOURCE_RESULT_BAD_PARAMETER
  else
    do! update_vnode node (fun n => n <| ref_count := u32 (ref_count n - 1) |>) in
    do! vfs_cache_try_evict node in
    ret RESOURCE_RESULT_OK.

(** ** Paths *)

Fixpoint skip_slashes (path : list Z) : list Z :=
  match path with
  | [] => []
  | c :: rest => if c =? SLASH then skip_slashes rest else path
  end.
Fixpoint split_component (path : list Z) : list Z * list Z :=
  match path with
  | [] => ([], [])
  | c :: rest =>
      if c =? SLASH then ([], path)
      else let '(component, rest) := split_component rest in (c :: component, rest)
  end.

(** [component] has 256 bytes and its length is not checked. *)
Definition vfs_resolve (path : list Z) : M fs_t (resource_result_t * Z) :=
  let! s := get in
  do! vfs_lock_node (root (vfs s)) in
  loop fuel (fun '(current, path) =>
    match skip_slashes path with
    | [] => ret (inr (RESOURCE_RESULT_OK, current))
    | path =>
        let '(component, rest) := split_component path in
        if VFS_NODE_NAME_LENGTH <=? Z.of_nat (length component) then fault
        else
          let! n := load_vnode current in
          let! current :=
            if negb (mount n =? 0) then do! vfs_lock_node (mount n) in ret (mount n)
            else ret current in
          let! n := load_vnode current in
          match op_lookup (table_of (operations n)) with
          | None => ret (inr (RESOURCE_RESULT_BAD_PARAMETER, 0))
          | Some lookup =>
              let! ' (result, next) := lookup current component in
              if negb (bool_decide (result = RESOURCE_RESULT_OK)) then ret (inr (result, 0))
              else
                do! vfs_lock_node next in
                do! vfs_release_node current in
                if next =? 0 then ret (inr (RESOURCE_RESULT_NOT_FOUND, 0))
                else ret (inl (next, rest))
          end
    end) (root (vfs s), path).

(** The last component and the path of its directory, from a copy of the path
    cut at 255 characters. *)
Fixpoint last_slash (path : list Z) : option nat :=
  match path with
  | [] => None
  | c :: rest =>
      match last_slash rest with
      | Some i => Some (S i)
      | None => if c =? SLASH then Some O else None
      end
  end.
Definition path_copy_of (path : list Z) : list Z := take (Z.to_nat (VFS_NODE_NAME_LENGTH - 1)) path.
Definition vfs_split_path (path_copy : list Z) : list Z * list Z :=
  match last_slash path_copy with
  | Some i => (drop (S i) path_copy,
               match take i path_copy with [] => [SLASH] | parent_path => parent_path end)
  | None => (path_copy, [SLASH])
  end.

Definition vfs_create (path : list Z) (node_type : vfs_node_type) : M fs_t (resource_result_t * Z) :=
  let '(name, parent_path) := vfs_split_path (path_copy_of path) in
  if bool_decide (name = []) then ret (RESOURCE_RESULT_BAD_PARAMETER, 0)
  else
    let! ' (resolve_result, parent) := vfs_resolve parent_path in
    if negb (bool_decide (resolve_result = RESOURCE_RESULT_OK)) then ret (resolve_result, 0)
    else
      let! n := load_vnode parent in
      match type n, op_create (table_of (operations n)) with
      | VFS_NODE_TYPE_DIRECTORY, Some create =>
          let! ' (create_result, child) := create parent name node_type in
          do! vfs_release_node parent in
          if negb (bool_decide (create_result = RESOURCE_RESULT_OK)) then ret (create_result, 0)
          else
            do! vfs_lock_node child in
            ret (RESOURCE_RESULT_OK, child)
      | _, _ =>
          do! vfs_release_node parent in
          ret (RESOURCE_RESULT_BAD_PARAMETER, 0)
      end.

(** ** Dispatch *)

Definition vfs_readdir (directory position : Z) : M fs_t (resource_result_t * option vfs_dir_t) :=
  if directory =? 0 then ret (RESOURCE_RESULT_INVALID, None)
  else
    let! n := load_vnode directory in
    match op_readdir (table_of (operations n)) with
    | None => ret (RESOURCE_RESULT_BAD_PARAMETER, None)
    | Some readdir => readdir directory position
    end.

Definition vfs_get_size (node : Z) : M fs_t (resource_result_t * Z) :=
  if node =? 0 then ret (RESOURCE_RESULT_BAD_PARAMETER, 0)
  else
    let! n := load_vnode node in
    match op_size (table_of (operations n)) with
    | None => ret (RESOURCE_RESULT_BAD_PARAMETER, 0)
    | Some size => size node
    end.

Definition vfs_truncate (node : Z) : M fs_t resource_result_t :=
  if node =? 0 then ret RESOURCE_RESULT_BAD_PARAMETER
  else
    let! n := load_vnode node in
    if negb (bool_decide (type n = VFS_NODE_TYPE_FILE)) then ret RESOURCE_RESULT_INVALID
    else
      match op_truncate (table_of (operations n)) with
      | None => ret RESOURCE_RESULT_BAD_PARAMETER
      | Some truncate => truncate node
      end.

(** The body of [vfs_read] for a resource whose data is [node]. *)
Definition vfs_read_node (node offset length : Z) : M fs_t (resource_result_t * list Z) :=
  if length =? 0 then ret (RESOURCE_RESULT_BAD_PARAMETER, [])
  else
    let! n := load_vnode node in
    if negb (bool_decide (type n = VFS_NODE_TYPE_FILE)) then ret (RESOURCE_RESULT_INVALID, [])
    else
      match op_read (table_of (operations n)) with
      | None => ret (RESOURCE_RESULT_BAD_PARAMETER, [])
      | Some read => read node offset length
      end.

(** The callers pass existing buffers, so only the length can be bad. *)
Definition vfs_read (resource offset length : Z) : M fs_t (resource_result_t * list Z) :=
  if (resource =? 0) || (length =? 0) then ret (RESOURCE_RESULT_BAD_PARAMETER, [])
  else
    let! r := on_os (load_resource resource) in
    vfs_read_node (res_data r) offset length.

Definition vfs_write (resource offset : Z) (buffer : list Z) : M fs_t (resource_result_t * Z) :=
  if (resource =? 0) || bool_decide (buffer = []) then ret (RESOURCE_RESULT_BAD_PARAMETER, 0)
  else
    let! r := on_os (load_resource resource) in
    let! n := load_vnode (res_data r) in
    if negb (bool_decide (type n = VFS_NODE_TYPE_FILE)) then ret (RESOURCE_RESULT_INVALID, 0)
    else
      match op_write (table_of (operations n)) with
      | None => ret (RESOURCE_RESULT_BAD_PARAMETER, 0)
      | Some write => write (res_data r) offset buffer
      end.

Definition vfs_ioctl (resource command argument : Z) : M fs_t resource_result_t :=
  if resource =? 0 then ret RESOURCE_RESULT_BAD_PARAMETER
  else
    let! r := on_os (load_resource resource) in
    let! n := load_vnode (res_data r) in
    match op_ioctl (table_of (operations n)) with
    | None => ret RESOURCE_RESULT_BAD_PARAMETER
    | Some ioctl => ioctl (res_data r) command argument
    end.

Definition vfs_close (resource : Z) : M fs_t resource_result_t :=
  let! r := on_os (load_resource resource) in
  vfs_release_node (res_data r).

(** ** Opening and names *)

Definition vfs_open_node (task node flags : Z) : M fs_t (resource_result_t * Z) :=
  let! n := load_vnode node in
  if negb (bool_decide (type n = VFS_NODE_TYPE_FILE)) then ret (RESOURCE_RESULT_BAD_PARAMETER, 0)
  else resource_register task (resource_type n) node vfs_operations flags.

Definition vfs_open (task : Z) (path : list Z) (flags : Z) : M fs_t (resource_result_t * Z) :=
  let! ' (resolve_result, node) := vfs_resolve path in
  if negb (bool_decide (resolve_result = RESOURCE_RESULT_OK)) then
    if negb (bool_decide (resolve_result = RESOURCE_RESULT_NOT_FOUND)) || (Z.land flags SYSCALL_O_CREAT =? 0)
    then ret (resolve_result, 0)
    else
      let! ' (create_result, node) := vfs_create path VFS_NODE_TYPE_FILE in
      if negb (bool_decide (create_result = RESOURCE_RESULT_OK)) then ret (create_result, 0)
      else vfs_open_node task node flags
  else if negb (Z.land flags SYSCALL_O_TRUNC =? 0) then
    let! n := load_vnode node in
    if negb (bool_decide (type n = VFS_NODE_TYPE_FILE)) then ret (RESOURCE_RESULT_BAD_PARAMETER, 0)
    else
      do! vfs_truncate node in
      vfs_open_node task node flags
  else vfs_open_node task node flags.

Definition vfs_link (old_path new_path : list Z) : M fs_t resource_result_t :=
  let! ' (resolve_result, source) := vfs_resolve old_path in
  if negb (bool_decide (resolve_result = RESOURCE_RESULT_OK)) then ret resolve_result
  else
    let! sn := load_vnode source in
    if negb (bool_decide (type sn = VFS_NODE_TYPE_FILE))
       || negb (bool_decide (resource_type sn = RESOURCE_TYPE_FILE)) then
      do! vfs_release_node source in ret RESOURCE_RESULT_BAD_PARAMETER
    else
      let '(name, parent_path) := vfs_split_path (path_copy_of new_path) in
      if bool_decide (name = []) then
        do! vfs_release_node source in ret RESOURCE_RESULT_BAD_PARAMETER
      else
        let! ' (resolve_result, parent) := vfs_resolve parent_path in
        if negb (bool_decide (resolve_result = RESOURCE_RESULT_OK)) then
          do! vfs_release_node source in ret resolve_result
        else
          let! pn := load_vnode parent in
          match type pn, op_link (table_of (operations pn)) with
          | VFS_NODE_TYPE_DIRECTORY, Some link =>
              let! link_result := link parent name source in
              do! vfs_release_node parent in
              do! vfs_release_node source in
              ret link_result
          | _, _ =>
              do! vfs_release_node parent in
              do! vfs_release_node source in
              ret RESOURCE_RESULT_BAD_PARAMETER
          end.

Definition vfs_unlink (path : list Z) : M fs_t resource_result_t :=
  let '(name, parent_path) := vfs_split_path (path_copy_of path) in
  if bool_decide (name = []) then ret RESOURCE_RESULT_BAD_PARAMETER
  else
    let! ' (resolve_result, parent) := vfs_resolve parent_path in
    if negb (bool_decide (resolve_result = RESOURCE_RESULT_OK)) then ret resolve_result
    else
      let! pn := load_vnode parent in
      match type pn, op_unlink (table_of (operations pn)) with
      | VFS_NODE_TYPE_DIRECTORY, Some unlink =>
          let! unlink_result := unlink parent name in
          do! vfs_release_node parent in
          ret unlink_result
      | _, _ => do! vfs_release_node parent in ret RESOURCE_RESULT_BAD_PARAMETER
      end.

(** The root node of the VFS stands for the root of the RAM file system. *)
Definition vfs_module_init : M fs_t unit :=
  do! update_vfs (fun v => v <| last_cache_index := 0 |>) in
  let! s := get in
  let! r := load_ram (ramfs_root_node s) in
  let! ' (result, node) := vfs_create_node 0 (ram_id r) (ram_name r) ramfs_node_operations
                             (ramfs_root_node s) (ram_type r) RESOURCE_TYPE_FILE in
  do! (if bool_decide (result = RESOURCE_RESULT_OK)
       then update_vfs (fun v => v <| root := node |>) else ret tt) in
  let! s := get in
  do! vfs_lock_node (root (vfs s)) in
  ret tt.

(** ** Splitting a path *)

Lemma last_slash_spec path :
  match last_slash path with
  | Some i => path !! i = Some SLASH /\ SLASH ∉ drop (S i) path
  | None => SLASH ∉ path
  end.
Proof using Type.
  induction path as [|c path IH]; simpl; [apply not_elem_of_nil|].
  destruct (last_slash path) as [i|]; [done|].
  destruct (Z.eqb_spec c SLASH) as [->|Hc]; [done|]. rewrite elem_of_cons. intros [|]; congruence.
Qed.

(** Splitting a path gives its last component, which has no slash, and the
    path of the directory before it, which is the root when there is none. *)
Theorem vfs_split_path_spec path :
  let '(component, parent_path) := vfs_split_path path in
  (SLASH ∉ component) /\
  ((parent_path = [SLASH] /\ (path = component \/ path = SLASH :: component)) \/
   (parent_path <> [] /\ path = parent_path ++ (SLASH :: component))).
Proof using Type.
  unfold vfs_split_path. pose proof (last_slash_spec path) as Hlast.
  destruct (last_slash path) as [i|]; [|split; [done|]; left; by split; [|left]].
  destruct Hlast as [Hi Hn]. split; [done|].
  pose proof (take_drop_middle _ _ _ Hi) as Hsplit. destruct (take i path) as [|c parent].
  - left. split; [done|]. right. by rewrite <- Hsplit at 1.
  - right. split; [done|]. by rewrite <- Hsplit at 1.
Qed.

(** ** Reference counting *)

Section references.
Context {laws : FileSystemLaws}.

Lemma addresses_delete_cell s l1 c l2 i cell p :
  cache (vfs s) = l1 ++ c :: l2 -> cache_nodes c !! i = Some (cell, p) ->
  addresses s ≡ₚ cell :: addresses (s <| vfs := (vfs s)
     <| cache := l1 ++ (c <| cache_nodes := delete i (cache_nodes c) |>) :: l2 |> |>).
Proof using Type.
  intros Hc Hi. apply addresses_vfs_delete. simpl. rewrite Hc, !mjoin_cells_middle. unfold cells. simpl.
  rewrite (delete_perm _ _ _ Hi) at 1. simpl. apply perm_swap.
Qed.

Lemma addresses_drop_head s l1 c l2 :
  cache (vfs s) = l1 ++ c :: l2 -> cache_nodes c = [] ->
  addresses s ≡ₚ cache_cell c :: addresses (s <| vfs := (vfs s) <| cache := l1 ++ l2 |> |>).
Proof using Type.
  intros Hc Hn. apply addresses_vfs_delete. simpl. rewrite Hc, !mjoin_cells_middle. unfold cells.
  by rewrite Hn.
Qed.

(** [set_kernel] only changes the heap. *)
Lemma fs_inv_kernel s k : fs_inv s -> fs_inv (set_kernel k s).
Proof using Type.
  intros H. eapply fs_inv_nodes; [exact H|done..|]. intros p n Hp. exists n. by destruct n.
Qed.

(** Two steps of the eviction.  A cache without nodes is dropped. *)
Lemma wp_drop_cache s l1 c l2 room (Q : unit -> fs_t -> Prop) :
  fs_inv s -> heap_ok room s -> cache (vfs s) = l1 ++ c :: l2 -> Forall (fun d => cache_key d <> cache_key c) l1 ->
  (forall s', fs_inv s' -> heap_ok room s' ->
     cache (vfs s') = (if bool_decide (cache_nodes c = []) then l1 ++ l2 else l1 ++ c :: l2) ->
     root (vfs s') = root (vfs s) -> vfs_nodes s' = vfs_nodes s -> Q tt s') ->
  wp (if bool_decide (cache_nodes c = []) then
        do! update_vfs (fun v => v <| cache := remove_cache (cache_key c) (cache v) |>) in
        fs_free (cache_cell c)
      else ret tt) Q s.
Proof using Type.
  intros Hfs Hok Hl Hl1 HQ. case_bool_decide as Hempty; [|by wp_step; apply HQ].
  unfold update_vfs. wp_step. wp_step. simpl cache. rewrite Hl, (remove_cache_split _ l1 c l2) by done.
  apply (wp_fs_free room).
  - eapply heap_ok_fresh; [exact Hok|done|]. by apply (addresses_drop_head s l1 c l2).
  - intros k2 Hok2. apply HQ; [|done|done|done|done]. apply fs_inv_kernel.
    eapply fs_inv_nodes; [exact Hfs|done..|]. intros q m' Hq. exists m'. by destruct m'.
Qed.

(** The node is released by its file system and freed. *)
Lemma wp_free_vnode s p n room Q :
  fs_inv s -> heap_ok room s -> vfs_nodes s !! p = Some n -> cache_inv (delete p (vfs_nodes s)) (cache (vfs s)) ->
  (forall q m, vfs_nodes s !! q = Some m -> cache_index m = cache_index n -> index m = index n -> q = p) ->
  (forall s', vfs_inv s' -> fs_inv s' -> heap_ok room s' -> vfs_nodes s' = delete p (vfs_nodes s) ->
     root (vfs s') = root (vfs s) -> Q RESOURCE_RESULT_OK s') ->
  wp (do! match op_release (table_of (operations n)) with
          | Some release => release p
          | None => ret tt
          end in
      do! modify (fun s => s <| vfs_nodes := delete p (vfs_nodes s) |>) in
      do! fs_free p in
      ret RESOURCE_RESULT_OK) Q s.
Proof using Type.
  intros Hfs Hok Hn Hinv Huniq HQ.
  wp_step. apply (wp_mono _ (fun _ s3 => vfs_nodes s3 = vfs_nodes s /\ vfs s3 = vfs s /\ heap_ok room s3 /\
    fs_inv (s3 <| vfs_nodes := delete p (vfs_nodes s3) |>))).
  { destruct (op_release (table_of (operations n))) as [release|] eqn:Hrel; [by eapply (release_law s p n release room)|].
    apply wp_ret. split_and!; try done. eapply fs_inv_nodes; [exact Hfs|done..|].
    intros q m' Hq. simpl in Hq. apply lookup_delete_Some in Hq as [_ Hq]. exists m'. by destruct m'. }
  intros [] s3 (Hn3 & Hv3 & Hok3 & Hfs3). wp_step. wp_step. wp_step. apply (wp_fs_free room).
  { eapply heap_ok_fresh; [exact Hok3|done|]. eapply addresses_vnode_delete. rewrite Hn3. exact Hn. }
  intros k4 Hok4. apply wp_ret, HQ; [|by apply fs_inv_kernel|done|simpl; by rewrite Hn3|simpl; by rewrite Hv3].
  unfold vfs_inv. simpl. by rewrite Hv3, Hn3.
Qed.

(** Taking the last reference but the cache's away: the node leaves the cache and
    the store. *)
Lemma wp_evict s p n room Q :
  vfs_inv s -> fs_inv s -> heap_ok room s -> vfs_nodes s !! p = Some n -> p <> 0 -> ref_count n = 1 ->
  (forall s', vfs_inv s' -> fs_inv s' -> heap_ok room s' -> vfs_nodes s' = delete p (vfs_nodes s) ->
     root (vfs s') = root (vfs s) -> Q RESOURCE_RESULT_OK s') ->
  wp (vfs_cache_try_evict p) Q s.
Proof using Type.
  intros Hinv Hfs Hok Hn Hp Href HQ. unfold vfs_cache_try_evict.
  destruct (Z.eqb_spec p 0); [done|]. wp_step. eapply wp_load_vnode; [done|].
  rewrite Href. change (negb (1 =? 1)) with false. cbv iota. wp_step. wp_step.
  destruct (vi_head s (cache_index n) p n Hinv Hn eq_refl) as (c & Hfind & Hc & Hk & Hpin).
  rewrite Hfind. wp_step. apply wp_find_entry.
  { intros cell q Hq. destruct (vi_nodes _ _ Hinv c cell q Hc Hq) as (m & Hm & _). by exists m. }
  2: { intros Hno. exfalso. apply list_elem_of_fmap in Hpin as ([cell q] & Hq & Hin). simpl in Hq. subst q.
       by apply (Hno cell p n Hin Hn). }
  intros i cell q m Hi Hm Hid.
  assert (q = p) as ->.
  { destruct (vi_nodes _ _ Hinv c cell q Hc (list_elem_of_lookup_2 _ _ _ Hi)) as (m' & Hm' & Hmk).
    apply (vi_unique _ _ Hinv q p m n); congruence. }
  wp_step. eapply wp_of_option; [exact Hi|].
  destruct (find_cache_split _ _ _ Hfind) as (l1 & l2 & Hl & _ & Hl1).
  pose proof Hinv as Hinv'. unfold vfs_inv in Hinv'. rewrite Hl in Hinv'.
  pose proof (cache_inv_remove_node _ _ _ _ _ _ _ _ Hinv' Hn Hi) as Hinv2.
  unfold update_vfs. wp_step. wp_step. rewrite Hl, (alter_cache_split _ _ l1 c l2) by done.
  wp_step. apply (wp_fs_free room).
  { eapply heap_ok_fresh; [exact Hok|done|]. by apply (addresses_delete_cell s l1 c l2 i cell p). }
  intros k1 Hok1. set (c2 := c <| cache_nodes := delete i (cache_nodes c) |>) in *. wp_step.
  rewrite <- Hk in *. apply (wp_drop_cache _ l1 c2 l2 room); [|exact Hok1|done|exact Hl1|].
  { eapply fs_inv_nodes; [exact Hfs|done..|]. intros q m' Hq. exists m'. by destruct m'. }
  intros s2 Hfs2 Hok2 Hc2 Hr2 Hn2. apply (wp_free_vnode s2 p n room); [done|done|by rewrite Hn2| | |].
  - rewrite Hc2, Hn2. case_bool_decide as Hempty; [by apply (cache_inv_drop_head _ _ c2)|done].
  - intros q m' Hq. rewrite Hn2 in Hq. intros. by apply (vi_unique _ _ Hinv q p m' n).
  - intros s3 H1 H2 H3 H4 H5. apply HQ; [done|done|done|by rewrite H4, Hn2|by rewrite H5, Hr2].
Qed.

(** A state in which the VFS, its file systems and the heap are consistent. *)
Record vfs_ok (room : Z) (s : fs_t) : Prop := {
  ok_vfs : vfs_inv s;
  ok_fs : fs_inv s;
  ok_heap : heap_ok room s;
}.

Lemma vfs_ok_weaken room room' s : room' <= room -> vfs_ok room s -> vfs_ok room' s.
Proof using Type. intros Hle [H1 H2 H3]. split; [done|done|by eapply heap_ok_weaken]. Qed.

Lemma vfs_ok_count room s p n r :
  vfs_ok room s -> vfs_nodes s !! p = Some n -> 1 <= r < 2 ^ 32 ->
  vfs_ok room (s <| vfs_nodes := <[p := n <| ref_count := r |>]> (vfs_nodes s) |>).
Proof using Type.
  intros [H1 H2 H3] Hn Hr. split.
  - by apply (cache_inv_update _ _ p n).
  - eapply fs_inv_nodes; [exact H2|done..|]. simpl. intros q m [[<- <-]|[_ Hq]]%lookup_insert_Some.
    + by exists n.
    + exists m. by destruct m.
  - eapply heap_ok_ext; [| |exact H3]; [done|]. by eapply addresses_vnode_old.
Qed.

Lemma held_nodes s s' p : vfs_nodes s' = vfs_nodes s -> held s' p = held s p.
Proof using Type. unfold held. by intros ->. Qed.

Lemma wp_lock s p n room Q :
  vfs_ok room s -> p <> 0 -> vfs_nodes s !! p = Some n -> ref_count n + 1 < 2 ^ 32 ->
  (forall s', vfs_ok room s' -> root (vfs s') = root (vfs s) ->
     vfs_nodes s' = <[p := n <| ref_count := ref_count n + 1 |>]> (vfs_nodes s) ->
     (forall q, held s' q = held s q + if decide (q = p) then 1 else 0) -> Q RESOURCE_RESULT_OK s') ->
  wp (vfs_lock_node p) Q s.
Proof using Type.
  intros Hok Hp Hn Href HQ. pose proof (vi_count _ _ (ok_vfs _ _ Hok) p n Hn).
  eapply wp_vfs_lock_node; [done|done|]. rewrite u32_small by lia.
  apply HQ; [apply vfs_ok_count; [done|done|lia]|done|done|].
  intros q. unfold held. simpl. case_decide as E.
  - subst q. rewrite lookup_insert_eq, Hn. simpl. lia.
  - rewrite lookup_insert_ne by congruence. lia.
Qed.

Lemma wp_release s p n room Q :
  vfs_ok room s -> p <> 0 -> vfs_nodes s !! p = Some n -> 2 <= ref_count n ->
  (forall s', vfs_ok room s' -> root (vfs s') = root (vfs s) ->
     (forall q m, vfs_nodes s' !! q = Some m -> exists m0, vfs_nodes s !! q = Some m0 /\
                    m = m0 <| ref_count := ref_count m |>) ->
     (forall q m, vfs_nodes s !! q = Some m -> (q = p -> 3 <= ref_count n) -> is_Some (vfs_nodes s' !! q)) ->
     (forall q, held s' q = held s q - if decide (q = p) then 1 else 0) -> Q RESOURCE_RESULT_OK s') ->
  wp (vfs_release_node p) Q s.
Proof using Type.
  intros Hok Hp Hn Href HQ. pose proof (vi_count _ _ (ok_vfs _ _ Hok) p n Hn) as Hcount.
  unfold vfs_release_node. destruct (Z.eqb_spec p 0); [done|]. wp_step.
  eapply wp_update_vnode; [done|]. rewrite u32_small by lia.
  pose proof (vfs_ok_count room s p n (ref_count n - 1) Hok Hn ltac:(lia)) as Hok1.
  match goal with |- wp _ _ ?st => set (s1 := st) in * end.
  assert (vfs_nodes s1 !! p = Some (n <| ref_count := ref_count n - 1 |>)) as Hn1 by apply lookup_insert_eq.
  wp_step. destruct (decide (ref_count n = 2)) as [E|E].
  - destruct Hok1 as [H1 H2 H3]. eapply (wp_evict s1 p _ room); [done..|simpl; lia|].
    intros s' K1 K2 K3 K4 K5. wp_step. simpl vfs_nodes in K4. rewrite delete_insert_eq in K4.
    apply HQ; [by split|done|..].
    + intros q m Hq. rewrite K4 in Hq. apply lookup_delete_Some in Hq as [_ Hq]. exists m. by destruct m.
    + intros q m Hq Hne. rewrite K4, lookup_delete_ne; [by exists m|]. intros ->. lia.
    + intros q. unfold held. rewrite K4. case_decide as Eq.
      * subst q. rewrite lookup_delete_eq, Hn. lia.
      * rewrite lookup_delete_ne by congruence. lia.
  - unfold vfs_cache_try_evict. destruct (Z.eqb_spec p 0); [done|]. wp_step.
    eapply wp_load_vnode; [done|]. simpl ref_count. destruct (Z.eqb_spec (ref_count n - 1) 1); [lia|].
    simpl negb. cbv iota. wp_step. wp_step. apply HQ; [done|done|..].
    + intros q m Hq. simpl in Hq. apply lookup_insert_Some in Hq as [[<- <-]|[_ Hq]]; [by exists n|].
      exists m. by destruct m.
    + intros q m Hq _. simpl. destruct (decide (p = q)) as [->|].
      * rewrite lookup_insert_eq. by eexists.
      * rewrite lookup_insert_ne by done. by exists m.
    + intros q. unfold held. simpl. case_decide as Eq.
      * subst q. rewrite lookup_insert_eq, Hn. simpl. lia.
      * rewrite lookup_insert_ne by congruence. lia.
Qed.

(** ** Path resolution *)

Lemma split_component_length path :
  (length (split_component path).2 <= length path)%nat.
Proof using Type.
  induction path as [|c path IH]; simpl; [done|]. destruct (c =? SLASH); simpl; [lia|].
  destruct (split_component path). simpl in *. lia.
Qed.

Lemma skip_slashes_length path : (length (skip_slashes path) <= length path)%nat.
Proof using Type. induction path as [|c path IH]; simpl; [done|]. destruct (c =? SLASH); simpl; lia. Qed.

Lemma skip_slashes_head path c rest : skip_slashes path = c :: rest -> c <> SLASH.
Proof using Type.
  induction path as [|d path IH]; simpl; [done|]. destruct (Z.eqb_spec d SLASH); [done|]. by intros [= <- _].
Qed.

(** No node covers another. *)
Definition no_mounts (s : fs_t) : Prop := forall p n, vfs_nodes s !! p = Some n -> mount n = 0.

(** The component names of a path that the walk can hold. *)
Definition short_components (path : list Z) : Prop :=
  Z.of_nat (length path) < VFS_NODE_NAME_LENGTH.

Lemma split_component_short path component rest :
  split_component path = (component, rest) -> (length component + length rest = length path)%nat.
Proof using Type.
  revert component rest. induction path as [|c path IH]; intros component rest; simpl.
  - by intros [= <- <-].
  - destruct (c =? SLASH); [by intros [= <- <-]|].
    destruct (split_component path) as [d r]. intros [= <- <-]. specialize (IH d r eq_refl). simpl. lia.
Qed.

Lemma held_nonneg room s q : vfs_ok room s -> 0 <= held s q.
Proof using Type.
  intros Hok. unfold held. destruct (vfs_nodes s !! q) as [n|] eqn:Hq; [|lia].
  pose proof (vi_count _ _ (ok_vfs _ _ Hok) q n Hq). lia.
Qed.

Lemma held_referenced s q : 1 <= held s q -> exists n, vfs_nodes s !! q = Some n /\ ref_count n = held s q + 1.
Proof using Type. unfold held. destruct (vfs_nodes s !! q) as [n|]; [|lia]. intros _. exists n. split; [done|lia]. Qed.

(** [held s'] is [held s] with one more reference on [d]. *)
Definition one_more (s s' : fs_t) (d : Z) : Prop :=
  forall q, held s' q = held s q + if decide (q = d) then 1 else 0.

(** Nodes that a lookup creates are held by nobody. *)
Lemma held_grown s s' :
  (forall q m, vfs_nodes s !! q = Some m -> vfs_nodes s' !! q = Some m) ->
  (forall q m, vfs_nodes s' !! q = Some m -> vfs_nodes s !! q = None -> ref_count m = 1 /\ mount m = 0) ->
  (forall q, held s' q = held s q) /\ (no_mounts s -> no_mounts s').
Proof using Type.
  intros Hold Hnew. split.
  - intros q. unfold held. destruct (vfs_nodes s !! q) as [m|] eqn:Hq; [by rewrite (Hold q m Hq)|].
    destruct (vfs_nodes s' !! q) as [m|] eqn:Hq'; [|done]. destruct (Hnew q m Hq' Hq). lia.
  - intros Hnm q m Hq'. destruct (vfs_nodes s !! q) as [m0|] eqn:Hq.
    + pose proof (Hold q m0 Hq) as Hm0. rewrite Hm0 in Hq'. injection Hq' as <-. by apply (Hnm q).
    + by destruct (Hnew q m Hq' Hq).
Qed.

(** One component of the walk: the reference moves from the directory to what the
    lookup answers. *)
Lemma wp_move_reference s0 s current next room (Q : unit -> fs_t -> Prop) :
  vfs_ok room s -> no_mounts s -> (forall q, held s0 q + 3 < 2 ^ 32) -> (forall q, 0 <= held s0 q) ->
  one_more s0 s current -> current <> 0 -> next <> 0 -> is_Some (vfs_nodes s !! next) ->
  (forall s', vfs_ok room s' -> no_mounts s' -> one_more s0 s' next -> Q tt s') ->
  wp (do! vfs_lock_node next in do! vfs_release_node current in ret tt) Q s.
Proof using Type.
  intros Hok Hnm Hbound Hpos Hone Hc Hnext [m Hm] HQ.
  assert (ref_count m = held s next + 1) as Hrm by (unfold held; rewrite Hm; lia).
  pose proof (Hbound next) as Hb. pose proof (Hone next) as Ho.
  wp_step. apply (wp_lock s next m room); [done|done|done|case_decide; lia|].
  intros s3 Hok3 _ Hn3 Hheld3. pose proof (Hheld3 current) as Hh. pose proof (Hone current) as Hoc.
  rewrite decide_True in Hoc by done. pose proof (Hpos current).
  destruct (held_referenced s3 current) as (n3 & Hn & Hr3); [case_decide; lia|].
  wp_step. apply (wp_release s3 current n3 room); [done|done|done|case_decide; lia|].
  intros s4 Hok4 _ Hsub _ Hheld4. apply wp_ret, HQ; [done| |].
  - intros q n Hq. destruct (Hsub q n Hq) as (n0 & Hq0 & ->). simpl. rewrite Hn3 in Hq0.
    apply lookup_insert_Some in Hq0 as [[<- <-]|[_ Hq0]]; [by apply (Hnm next m)|by apply (Hnm q)].
  - intros q. rewrite Hheld4, Hheld3, Hone. repeat case_decide; lia.
Qed.

(** One component of a path: the file system's lookup, and the lock that moves
    from the directory to what was found. *)
Lemma wp_resolve_component s s1 current n lookup component rest room (Q : Z * list Z + resource_result_t * Z -> fs_t -> Prop) :
  vfs_ok room s1 -> no_mounts s1 -> one_more s s1 current -> current <> 0 ->
  vfs_nodes s1 !! current = Some n -> op_lookup (table_of (operations n)) = Some lookup -> VNODE_ROOM <= room ->
  (forall q, 0 <= held s q) -> (forall q, held s q + 3 < 2 ^ 32) ->
  (forall r s', vfs_ok (room - VNODE_ROOM) s' -> no_mounts s' -> one_more s s' current ->
     is_Some (vfs_nodes s' !! current) -> r <> RESOURCE_RESULT_OK -> Q (inr (r, 0)) s') ->
  (forall next s', vfs_ok (room - VNODE_ROOM) s' -> no_mounts s' -> one_more s s' next -> next <> 0 ->
     Q (inl (next, rest)) s') ->
  wp (let! ' (result, next) := lookup current component in
      if negb (bool_decide (result = RESOURCE_RESULT_OK)) then ret (inr (result, 0))
      else
        do! vfs_lock_node next in
        do! vfs_release_node current in
        if next =? 0 then ret (inr (RESOURCE_RESULT_NOT_FOUND, 0))
        else ret (inl (next, rest))) Q s1.
Proof using Type.
  intros [K1 K2 K3] Hnm1 Hone1 Hcur Hn Hlookup Hroom Hpos Hbound HF HQ. wp_step. eapply wp_mono.
  { by eapply (lookup_law s1 current n lookup component). }
  intros [r next] s2 (H1 & H2 & H3 & _ & Hold & Hnew & Hres).
  destruct (held_grown s1 s2 Hold Hnew) as [Hheld Hnm2]. specialize (Hnm2 Hnm1).
  assert (one_more s s2 current) as Hone2 by (intros q; by rewrite Hheld, Hone1).
  assert (vfs_ok (room - VNODE_ROOM) s2) as Hok2 by (by split).
  case_bool_decide as Er; simpl negb; cbv iota.
  2: { wp_step. apply HF; try done. exists n. by apply Hold. }
  subst r. destruct (Hres eq_refl) as [Hnext Hsome].
  pose proof (wp_move_reference s s2 current next _ (fun _ s' =>
    vfs_ok (room - VNODE_ROOM) s' /\ no_mounts s' /\ one_more s s' next)
    Hok2 Hnm2 Hbound Hpos Hone2 Hcur Hnext Hsome ltac:(done)) as Hmove.
  wp_step. unfold wp in Hmove |- *. unfold bind in *.
  destruct (vfs_lock_node next s2) as [[a s3]| |]; [|done|done].
  destruct (vfs_release_node current s3) as [[b s4]| |]; [|done|done]. simpl in Hmove.
  destruct Hmove as (K4 & K5 & K6). destruct (Z.eqb_spec next 0); [done|]. by apply HQ.
Qed.

(** C3: Path resolution and reference counts, without mounts: resolving a path
    leaves the VFS consistent and changes the references held on nodes in one
    place only.  On success that is one more reference on the node it answers.
    When it fails, one reference stays on the directory where it stopped. *)
Theorem vfs_resolve_references s path room :
  vfs_ok room s -> no_mounts s -> root (vfs s) <> 0 -> is_Some (vfs_nodes s !! root (vfs s)) ->
  (forall q, held s q + 3 < 2 ^ 32) -> Z.of_nat (length path) < VFS_NODE_NAME_LENGTH ->
  Z.of_nat (length path) * VNODE_ROOM <= room -> (length path < fuel)%nat ->
  wp (vfs_resolve path)
     (fun '(r, p) s' => vfs_ok (room - Z.of_nat (length path) * VNODE_ROOM) s' /\ no_mounts s' /\
        exists d, is_Some (vfs_nodes s' !! d) /\ one_more s s' d /\
                  (r = RESOURCE_RESULT_OK -> d = p /\ p <> 0)) s.
Proof using Type.
  intros Hok Hnm Hroot [n0 Hn0] Hbound Hshort Hroom Hfuel. unfold vfs_resolve.
  assert (forall q, 0 <= held s q) as Hpos by (intros q; by eapply held_nonneg).
  wp_step. wp_step. wp_step. pose proof (Hbound (root (vfs s))) as Hb0.
  unfold held in Hb0. rewrite Hn0 in Hb0.
  apply (wp_lock s _ n0 room); [done|done|done|lia|]. intros s1 Hok1 Hr1 Hn1 Hone1.
  assert (no_mounts s1) as Hnm1.
  { intros q m Hq. rewrite Hn1 in Hq. apply lookup_insert_Some in Hq as [[<- <-]|[_ Hq]];
      [by apply (Hnm _ n0 Hn0)|by apply (Hnm q)]. }
  set (room_at := fun rest : list Z => room - (Z.of_nat (length path) - Z.of_nat (length rest)) * VNODE_ROOM).
  apply (wp_loop _ _ _ (fun '(current, rest) s' =>
     (length rest <= length path)%nat /\ vfs_ok (room_at rest) s' /\ no_mounts s' /\ one_more s s' current /\ current <> 0)
     (fun '(_, rest) _ => length rest)).
  { split_and!; try done. unfold room_at. eapply vfs_ok_weaken; [|exact Hok1]. lia. }
  { done. }
  clear s1 Hok1 Hr1 Hn1 Hone1 Hnm1. intros [current rest] s1 (Hlen & Hok1 & Hnm1 & Hone1 & Hcur).
  assert (exists n, vfs_nodes s1 !! current = Some n) as [n Hn].
  { pose proof (Hone1 current) as Ho. rewrite decide_True in Ho by done. pose proof (Hpos current).
    destruct (held_referenced s1 current) as (n & Hn & _); [lia|by exists n]. }
  pose proof (skip_slashes_length rest) as Hskip. unfold room_at, VNODE_ROOM in *.
  destruct (skip_slashes rest) as [|c path2] eqn:Hpath.
  { wp_step. split; [eapply vfs_ok_weaken; [|exact Hok1]; lia|]. split; [done|].
    exists current. split_and!; [by exists n|done|done]. }
  apply skip_slashes_head in Hpath. pose proof (split_component_short (c :: path2)) as Hsplit.
  destruct (split_component (c :: path2)) as [component rest'] eqn:Hsc. specialize (Hsplit _ _ eq_refl).
  assert (length rest' <= length path2)%nat as Hrest.
  { simpl in Hsc. destruct (Z.eqb_spec c SLASH); [done|]. pose proof (split_component_length path2).
    destruct (split_component path2). injection Hsc as _ <-. done. }
  simpl in Hskip, Hsplit. destruct (Z.leb_spec VFS_NODE_NAME_LENGTH (Z.of_nat (length component))); [lia|].
  wp_step. eapply wp_load_vnode; [exact Hn|]. wp_step. rewrite (Hnm1 _ _ Hn). simpl negb. cbv iota. wp_step.
  wp_step. eapply wp_load_vnode; [exact Hn|].
  destruct (op_lookup (table_of (operations n))) as [lookup|] eqn:Hlookup.
  2: { wp_step. split; [eapply vfs_ok_weaken; [|exact Hok1]; lia|]. split; [done|].
       exists current. split_and!; [by exists n|done|done]. }
  apply (wp_resolve_component s s1 current n lookup component rest'
    (room - (Z.of_nat (length path) - Z.of_nat (length rest)) * 48)); try done; [unfold VNODE_ROOM; lia| |].
  - intros r s' L1 L2 L3 L4 L5. split; [eapply vfs_ok_weaken; [|exact L1]; unfold VNODE_ROOM; lia|].
    split; [done|]. by exists current.
  - intros next s' L1 L2 L3 L4. split_and!; [lia| |done|done|done|lia].
    eapply vfs_ok_weaken; [|exact L1]. unfold VNODE_ROOM. lia.
Qed.
End references.
End vfs.
