(* ===== verification/Ramfs.v ===== *)
(** * The RAM file system (src/fs/ramfs.c)

    The tree of [ramfs_node_t] objects, the contents of files and the operations
    that the VFS dispatches to.  Names are character lists without terminator;
    [heap_byte p i] is whatever byte [i] of a fresh block at [p] holds. *)
From S2P Require Import Prelude Bitmap Paging KernelHeap Tasks Allocator Files VfsCache Vfs.

Inductive ramfs_result_t : Type :=
| RAMFS_RESULT_OK
| RAMFS_RESULT_MAX_CHILDREN
| RAMFS_RESULT_NOT_FOUND
| RAMFS_RESULT_ERROR.
#[export] Instance ramfs_result_eq_dec : EqDecision ramfs_result_t.
Proof. solve_decision. Defined.

Section ramfs.
Context {alloc : Allocator kernel_t}.
Variable heap_byte : Z -> nat -> Z.

(** ** Directory entries *)

(** The first entry with a name: the search loops of the file. *)
Fixpoint find_dirent (children : list ramfs_dirent_t) (path : list Z)
  : M fs_t (option (nat * ramfs_dirent_t)) :=
  match children with
  | [] => ret None
  | e :: rest =>
      let! entry_name := load_name (dirent_name e) in
      if bool_decide (entry_name = path) then ret (Some (O, e))
      else
        let! r := find_dirent rest path in
        ret (match r with Some (i, e) => Some (S i, e) | None => None end)
  end.

Definition ramfs_find_child (parent : Z) (path : list Z) : M fs_t (ramfs_result_t * Z) :=
  let! node := load_ram parent in
  let! r := find_dirent (ram_children node) path in
  match r with
  | Some (_, e) => ret (RAMFS_RESULT_OK, dirent_node e)
  | None => ret (RAMFS_RESULT_NOT_FOUND, 0)
  end.

Definition ramfs_create_node (node_name : list Z) (node_type : vfs_node_type) (data data_size : Z)
  : M fs_t (ramfs_result_t * Z) :=
  let! node := fs_calloc RAMFS_NODE_SIZE in
  if node =? 0 then ret (RAMFS_RESULT_ERROR, 0)
  else
    let! s := get in
    do! modify (fun s => s <| ramfs_last_index := i64 (ramfs_last_index s + 1) |>
                           <| ramfs_nodes := <[node := mk_ramfs_node (u64 (ramfs_last_index s)) []
                                (take (Z.to_nat (VFS_NODE_NAME_LENGTH - 1)) node_name) node_type data data_size 1]>
                                (ramfs_nodes s) |>) in
    ret (RAMFS_RESULT_OK, node).

Definition ramfs_add_child (parent : Z) (child_name : list Z) (child : Z) : M fs_t ramfs_result_t :=
  let! node := load_ram parent in
  if RAMFS_NODE_MAX_CHILDREN <=? Z.of_nat (length (ram_children node)) then ret RAMFS_RESULT_MAX_CHILDREN
  else
    let! name_copy := fs_malloc (Z.of_nat (length child_name) + 1) in
    if name_copy =? 0 then ret RAMFS_RESULT_ERROR
    else
      do! modify (fun s => s <| names := <[name_copy := child_name]> (names s) |>) in
      do! update_ram parent (fun n =>
            n <| ram_children := ram_children n ++ [mk_dirent name_copy child] |>) in
      ret RAMFS_RESULT_OK.

(** ** File contents *)

(** [kernel_heap_free(node->data)] when there is data. *)
Definition free_data (data : Z) : M fs_t unit :=
  if data =? 0 then ret tt
  else
    do! modify (fun s => s <| contents := delete data (contents s) |>) in
    fs_free data.

(** [memcpy] and [memset] into a block must stay inside it. *)
Definition store_bytes (block offset : Z) (bytes : list Z) : M fs_t unit :=
  let! s := get in
  let! l := of_option (contents s !! block) in
  let n := Z.to_nat offset in
  if (length l <? n + length bytes)%nat then fault
  else modify (fun s => s <| contents := <[block := take n l ++ bytes ++ drop (n + length bytes) l]> (contents s) |>).
Definition load_bytes (block offset length_to_read : Z) : M fs_t (list Z) :=
  let! s := get in
  let! l := of_option (contents s !! block) in
  if Z.of_nat (length l) <? offset + length_to_read then fault
  else ret (take (Z.to_nat length_to_read) (drop (Z.to_nat offset) l)).

Definition ramfs_read (file offset length_of_buffer : Z) : M fs_t (resource_result_t * list Z) :=
  let! f := load_vnode file in
  let! node := load_ram (fs_data f) in
  if ram_data_size node <=? offset then ret (RESOURCE_RESULT_OK, [])
  else
    let remaining := ram_data_size node - offset in
    let length_to_read := if length_of_buffer <? remaining then length_of_buffer else remaining in
    let! bytes := load_bytes (ram_data node) offset length_to_read in
    ret (RESOURCE_RESULT_OK, bytes).

(** The part of [ramfs_write] that replaces the data by a larger block. *)
Definition ramfs_grow (node required_size offset : Z) : M fs_t bool :=
  let! n := load_ram node in
  let! new_data := fs_malloc required_size in
  if new_data =? 0 then ret false
  else
    do! modify (fun s => s <| contents :=
          <[new_data := heap_byte new_data <$> seq 0 (Z.to_nat required_size)]> (contents s) |>) in
    do! (if ram_data_size n =? 0 then ret tt
         else
           let! old := load_bytes (ram_data n) 0 (ram_data_size n) in
           store_bytes new_data 0 old) in
    do! (if ram_data_size n <? offset
         then store_bytes new_data (ram_data_size n) (repeat 0 (Z.to_nat (offset - ram_data_size n)))
         else ret tt) in
    do! free_data (ram_data n) in
    do! update_ram node (fun n => n <| ram_data := new_data |> <| ram_data_size := required_size |>) in
    ret true.

Definition ramfs_write (file offset : Z) (buffer : list Z) : M fs_t (resource_result_t * Z) :=
  let! f := load_vnode file in
  let node := fs_data f in
  let! n := load_ram node in
  let required_size := u32 (offset + Z.of_nat (length buffer)) in
  let! enough := if ram_data_size n <? required_size then ramfs_grow node required_size offset
                 else ret true in
  if negb enough then ret (RESOURCE_RESULT_ALLOCATION_ERROR, 0)
  else
    let! n := load_ram node in
    do! store_bytes (ram_data n) offset buffer in
    ret (RESOURCE_RESULT_OK, Z.of_nat (length buffer)).

Definition ramfs_size (file : Z) : M fs_t (resource_result_t * Z) :=
  let! f := load_vnode file in
  let! n := load_ram (fs_data f) in
  ret (RESOURCE_RESULT_OK, ram_data_size n).

Definition ramfs_truncate (file : Z) : M fs_t resource_result_t :=
  let! f := load_vnode file in
  let! n := load_ram (fs_data f) in
  do! free_data (ram_data n) in
  do! update_ram (fs_data f) (fun n => n <| ram_data := 0 |> <| ram_data_size := 0 |>) in
  ret RESOURCE_RESULT_OK.

(** ** The tree *)

Definition ramfs_lookup (directory : Z) (path : list Z) : M fs_t (resource_result_t * Z) :=
  let! d := load_vnode directory in
  let! node := load_ram (fs_data d) in
  let! r := find_dirent (ram_children node) path in
  match r with
  | None => ret (RESOURCE_RESULT_NOT_FOUND, 0)
  | Some (_, e) =>
      let child := dirent_node e in
      let! c := load_ram child in
      let! ' (queue_result, cached) := vfs_cache_query_node (cache_index d) (ram_id c) in
      if bool_decide (queue_result = RESOURCE_RESULT_OK) then ret (RESOURCE_RESULT_OK, cached)
      else
        let! entry_name := load_name (dirent_name e) in
        vfs_create_node directory (ram_id c) entry_name ramfs_node_operations child (ram_type c) RESOURCE_TYPE_FILE
  end.

(** A node whose entry cannot be added stays allocated. *)
Definition ramfs_create (directory : Z) (child_name : list Z) (node_type : vfs_node_type)
  : M fs_t (resource_result_t * Z) :=
  let! d := load_vnode directory in
  let parent := fs_data d in
  let! ' (found, existing) := ramfs_find_child parent child_name in
  if bool_decide (found = RAMFS_RESULT_OK) then
    let! e := load_ram existing in
    let! ' (queue_result, cached) := vfs_cache_query_node (cache_index d) (ram_id e) in
    if bool_decide (queue_result = RESOURCE_RESULT_OK) then ret (RESOURCE_RESULT_OK, cached)
    else
      vfs_create_node directory (ram_id e) (ram_name e) ramfs_node_operations existing (ram_type e) RESOURCE_TYPE_FILE
  else
    let! ' (create_result, node) := ramfs_create_node child_name node_type 0 0 in
    if negb (bool_decide (create_result = RAMFS_RESULT_OK)) then ret (RESOURCE_RESULT_ALLOCATION_ERROR, 0)
    else
      let! add_result := ramfs_add_child parent child_name node in
      if negb (bool_decide (add_result = RAMFS_RESULT_OK)) then ret (RESOURCE_RESULT_ALLOCATION_ERROR, 0)
      else
        let! n := load_ram node in
        vfs_create_node directory (ram_id n) child_name ramfs_node_operations node (ram_type n) RESOURCE_TYPE_FILE.

Definition ramfs_link (directory : Z) (link_name : list Z) (target : Z) : M fs_t resource_result_t :=
  let! d := load_vnode directory in
  let! t := load_vnode target in
  let! ' (found, _) := ramfs_find_child (fs_data d) link_name in
  if bool_decide (found = RAMFS_RESULT_OK) then ret RESOURCE_RESULT_ALREADY_PRESENT
  else
    let! add_result := ramfs_add_child (fs_data d) link_name (fs_data t) in
    if negb (bool_decide (add_result = RAMFS_RESULT_OK)) then ret RESOURCE_RESULT_ALLOCATION_ERROR
    else
      do! update_ram (fs_data t) (fun n => n <| ram_link_count := u32 (ram_link_count n + 1) |>) in
      ret RESOURCE_RESULT_OK.

(** [free(target->data); free(target);] *)
Definition free_node (node : Z) : M fs_t unit :=
  let! n := load_ram node in
  do! free_data (ram_data n) in
  do! modify (fun s => s <| ramfs_nodes := delete node (ramfs_nodes s) |>) in
  fs_free node.

(** The last entry takes the place of the removed one. *)
Definition remove_dirent (children : list ramfs_dirent_t) (position : nat) : list ramfs_dirent_t :=
  match list.last children with
  | Some moved => take (pred (length children)) (<[position := moved]> children)
  | None => children
  end.

Definition ramfs_unlink (directory : Z) (entry_name : list Z) : M fs_t resource_result_t :=
  let! d := load_vnode directory in
  let parent := fs_data d in
  let! p := load_ram parent in
  let! r := find_dirent (ram_children p) entry_name in
  match r with
  | None => ret RESOURCE_RESULT_NOT_FOUND
  | Some (position, e) =>
      let target := dirent_node e in
      let! t := load_ram target in
      if bool_decide (ram_type t = VFS_NODE_TYPE_DIRECTORY) then ret RESOURCE_RESULT_BAD_PARAMETER
      else
        do! modify (fun s => s <| names := delete (dirent_name e) (names s) |>) in
        do! fs_free (dirent_name e) in
        do! update_ram parent (fun p => p <| ram_children := remove_dirent (ram_children p) position |>) in
        do! update_ram target (fun t => t <| ram_link_count := u32 (ram_link_count t - 1) |>) in
        let! t := load_ram target in
        if negb (ram_link_count t =? 0) then ret RESOURCE_RESULT_OK
        else
          let! ' (queue_result, _) := vfs_cache_query_node (cache_index d) (ram_id t) in
          do! (if bool_decide (queue_result = RESOURCE_RESULT_OK) then ret tt else free_node target) in
          ret RESOURCE_RESULT_OK
  end.

Definition ramfs_release (file : Z) : M fs_t unit :=
  let! f := load_vnode file in
  let! n := load_ram (fs_data f) in
  if 0 <? ram_link_count n then ret tt else free_node (fs_data f).

(** [entry->name] has 256 bytes. *)
Definition ramfs_readdir (directory position : Z) : M fs_t (resource_result_t * option vfs_dir_t) :=
  let! d := load_vnode directory in
  let! node := load_ram (fs_data d) in
  match ram_children node !! Z.to_nat position with
  | None => ret (RESOURCE_RESULT_NOT_FOUND, None)
  | Some e =>
      let! entry_name := load_name (dirent_name e) in
      if VFS_NODE_NAME_LENGTH <=? Z.of_nat (length entry_name) then fault
      else
        let! c := load_ram (dirent_node e) in
        ret (RESOURCE_RESULT_OK, Some (mk_dir entry_name (ram_type c)))
  end.

(** ** Building the tree from the archive *)

Section archive.
Variable fuel : nat.

(** The walk over the tokens of the path; a missing directory is created, and
    whether its entry could be added is not looked at. *)
Definition ramfs_get_or_create_directory (root : Z) (path : list Z) : M fs_t (ramfs_result_t * Z) :=
  loop fuel (fun '(current, path) =>
    match skip_slashes path with
    | [] => ret (inr (RAMFS_RESULT_OK, current))
    | path =>
        let '(token, rest) := split_component path in
        let! ' (result, child) := ramfs_find_child current token in
        if bool_decide (result = RAMFS_RESULT_NOT_FOUND) then
          let! ' (result, child) := ramfs_create_node token VFS_NODE_TYPE_DIRECTORY 0 0 in
          if negb (bool_decide (result = RAMFS_RESULT_OK)) then ret (inr (result, 0))
          else
            do! ramfs_add_child current token child in
            ret (inl (child, rest))
        else ret (inl (child, rest))
    end) (root, path).

Definition ramfs_create_path (root : Z) (path : list Z) (node_type : vfs_node_type)
  : M fs_t (ramfs_result_t * Z) :=
  let '(child_name, directory) :=
    match last_slash path with
    | Some i => (drop (S i) path, Some (take i path))
    | None => (path, None)
    end in
  let! ' (result, parent) :=
    match directory with
    | Some directory => ramfs_get_or_create_directory root directory
    | None => ret (RAMFS_RESULT_OK, root)
    end in
  if negb (bool_decide (result = RAMFS_RESULT_OK)) then ret (result, 0)
  else
    let! ' (result, node) := ramfs_find_child parent child_name in
    if bool_decide (result = RAMFS_RESULT_NOT_FOUND) then
      let! ' (result, node) := ramfs_create_node child_name node_type 0 0 in
      if negb (bool_decide (result = RAMFS_RESULT_OK)) then ret (result, 0)
      else
        let! result := ramfs_add_child parent child_name node in
        if negb (bool_decide (result = RAMFS_RESULT_OK)) then ret (result, 0)
        else ret (RAMFS_RESULT_OK, node)
    else ret (RAMFS_RESULT_OK, node).

End archive.

(** The table [ramfs_node_operations]. *)
Definition ramfs_operations : vfs_node_operations_t :=
  mk_operations (Some ramfs_lookup) (Some ramfs_readdir) (Some ramfs_read) (Some ramfs_write)
    (Some ramfs_size) (Some ramfs_create) (Some ramfs_truncate) (Some ramfs_link) (Some ramfs_unlink)
    None (Some ramfs_release).

(** ** Reading and writing *)

(** The VFS side, the names and the tasks are the same. *)
Record fs_vfs_same (s s' : fs_t) : Prop := {
  vs_nodes : vfs_nodes s' = vfs_nodes s;
  vs_vfs : vfs s' = vfs s;
  vs_names : names s' = names s;
  vs_resources : resource_store (os s') = resource_store (os s);
  vs_tasks : tasks (os s') = tasks (os s);
}.

(** The contents of a file. *)
Definition file_data (s : fs_t) (r : ramfs_node_t) (l : list Z) : Prop :=
  ram_data_size r = Z.of_nat (length l) /\
  if decide (ram_data r = 0) then l = [] else contents s !! ram_data r = Some l.

(** [l] with [bytes] in place of what was at [offset]. *)
Definition overlay (l : list Z) (offset : nat) (bytes : list Z) : list Z :=
  take offset l ++ bytes ++ drop (offset + length bytes) l.
(** What a file holds after a write: zeros fill a gap before [offset]. *)
Definition written (l : list Z) (offset : nat) (bytes : list Z) : list Z :=
  overlay (l ++ repeat 0 (offset + length bytes - length l)) offset bytes.

Lemma overlay_length l offset bytes :
  (offset + length bytes <= length l)%nat -> length (overlay l offset bytes) = length l.
Proof using Type. intros H. unfold overlay. rewrite !length_app, length_take, length_drop. lia. Qed.

Lemma overlay_take l offset bytes n :
  (n <= offset)%nat -> (offset <= length l)%nat -> take n (overlay l offset bytes) = take n l.
Proof using Type.
  intros H1 H2. unfold overlay. rewrite take_app_le by (rewrite length_take; lia).
  rewrite take_take. f_equal. lia.
Qed.

Lemma overlay_take_end l offset bytes :
  (offset <= length l)%nat -> take (offset + length bytes) (overlay l offset bytes) = take offset l ++ bytes.
Proof using Type.
  intros H. unfold overlay. rewrite app_assoc. rewrite take_app_le by (rewrite length_app, length_take; lia).
  apply take_ge. rewrite length_app, length_take. lia.
Qed.

Lemma written_length l offset bytes :
  length (written l offset bytes) = Nat.max (length l) (offset + length bytes).
Proof using Type. unfold written. rewrite overlay_length; rewrite length_app, repeat_length; lia. Qed.

(** The written bytes are read back. *)
Lemma written_read l offset bytes : take (length bytes) (drop offset (written l offset bytes)) = bytes.
Proof using Type.
  unfold written, overlay. set (l' := l ++ _). assert (offset <= length l')%nat as Hl.
  { subst l'. rewrite length_app, repeat_length. lia. }
  rewrite drop_app_ge by (rewrite length_take; lia). rewrite length_take, Nat.min_l by done.
  rewrite Nat.sub_diag, drop_0, take_app_le by done. by apply take_ge.
Qed.

Lemma wp_store_bytes s block offset l bytes Q :
  contents s !! block = Some l -> 0 <= offset -> offset + Z.of_nat (length bytes) <= Z.of_nat (length l) ->
  Q tt (s <| contents := <[block := overlay l (Z.to_nat offset) bytes]> (contents s) |>) ->
  wp (store_bytes block offset bytes) Q s.
Proof using Type.
  intros Hl Ho Hlen HQ. unfold store_bytes. wp_step. wp_step. wp_step.
  eapply wp_of_option; [exact Hl|].
  destruct (Nat.ltb_spec (length l) (Z.to_nat offset + length bytes)); [lia|]. by wp_step.
Qed.

Lemma wp_load_bytes s block offset n l Q :
  contents s !! block = Some l -> offset + n <= Z.of_nat (length l) ->
  Q (take (Z.to_nat n) (drop (Z.to_nat offset) l)) s -> wp (load_bytes block offset n) Q s.
Proof using Type.
  intros Hl Hn HQ. unfold load_bytes. wp_step. wp_step. wp_step. eapply wp_of_option; [exact Hl|].
  destruct (Z.ltb_spec (Z.of_nat (length l)) (offset + n)); [lia|]. by wp_step.
Qed.

Lemma set_kernel_id s : set_kernel (kernel (os s)) s = s.
Proof using Type. by destruct s as [[] ? ? ? ? ? ? ?]. Qed.

Lemma wp_free_data room s data Q :
  (data = 0 \/ is_Some (contents s !! data)) -> heap_ok room s ->
  (forall k, heap_ok room (set_kernel k (s <| contents := delete data (contents s) |>)) ->
     Q tt (set_kernel k (s <| contents := delete data (contents s) |>))) ->
  wp (free_data data) Q s.
Proof using Type.
  intros Hdata Hok HQ. unfold free_data. destruct (Z.eqb_spec data 0) as [->|Hne].
  - apply wp_ret. specialize (HQ (kernel (os s))).
    assert (contents s !! 0 = None) as Hnone.
    { apply eq_None_not_Some. intros Hs. destruct Hok as (live & _ & _ & _ & H4). apply H4.
      by apply addresses_content. }
    rewrite delete_id in HQ by done.
    replace (set_kernel (kernel (os s)) (s <| contents := contents s |>)) with s in HQ
      by (by destruct s as [[] ? ? ? ? ? ? ?]). by apply HQ.
  - destruct Hdata as [|[l Hl]]; [done|]. wp_step. wp_step. apply (wp_fs_free room); [|done].
    eapply heap_ok_fresh; [exact Hok|done|]. by eapply addresses_content_delete.
Qed.

(** The filling of a fresh block: the old contents and zeros up to [offset]. *)
Definition grown (g l : list Z) (offset : nat) : list Z :=
  let g1 := overlay g 0 l in
  if (length l <? offset)%nat then overlay g1 (length l) (repeat 0 (offset - length l)) else g1.

Lemma grown_length g l offset :
  (length l <= length g)%nat -> (offset <= length g)%nat -> length (grown g l offset) = length g.
Proof using Type.
  intros H1 H2. unfold grown. assert (length (overlay g 0 l) = length g) as Hl by (by apply overlay_length).
  destruct (Nat.ltb_spec (length l) offset); [|done]. rewrite overlay_length; [done|rewrite repeat_length; lia].
Qed.

Lemma grown_take g l offset n :
  (length l <= length g)%nat -> (offset <= length g)%nat ->
  take offset (grown g l offset) = take offset (l ++ repeat 0 (offset + n - length l)).
Proof using Type.
  intros H1 H2. unfold grown. pose proof (overlay_length g 0 l ltac:(simpl; lia)) as Hl.
  destruct (Nat.ltb_spec (length l) offset) as [Hlt|Hle].
  - pose proof (overlay_take_end (overlay g 0 l) (length l) (repeat 0 (offset - length l)) ltac:(lia)) as T.
    rewrite repeat_length in T. replace (length l + (offset - length l))%nat with offset in T by lia.
    rewrite T. clear T. pose proof (overlay_take_end g 0 l ltac:(lia)) as T. simpl in T. rewrite T.
    simpl. rewrite take_app_ge by lia. f_equal.
    replace (offset + n - length l)%nat with (offset - length l + n)%nat by lia.
    rewrite repeat_app, take_app_le by (rewrite repeat_length; lia). symmetry. apply take_ge. by rewrite repeat_length.
  - rewrite take_app_le by done. unfold overlay. simpl. by rewrite take_app_le.
Qed.

Lemma wp_ramfs_grow s node r l required offset room Q :
  ramfs_nodes s !! node = Some r -> file_data s r l -> Z.of_nat (length l) < required < 2 ^ 32 - 7 ->
  0 <= offset <= required -> heap_ok room s -> block_headers required <= room ->
  (forall s' p g, p <> 0 -> contents s !! p = None -> length g = Z.to_nat required ->
     (forall n, take (Z.to_nat offset) g = take (Z.to_nat offset) (l ++ repeat 0 (Z.to_nat offset + n - length l))) ->
     ramfs_nodes s' = <[node := r <| ram_data := p |> <| ram_data_size := required |>]> (ramfs_nodes s) ->
     contents s' = <[p := g]> (delete (ram_data r) (contents s)) -> fs_vfs_same s s' ->
     heap_ok (room - block_headers required) s' -> Q true s') ->
  wp (ramfs_grow node required offset) Q s.
Proof using Type.
  intros Hr [Hsize Hdata] Hreq Hoff Hok Hroom HQ. unfold ramfs_grow. wp_step. eapply wp_load_ram; [exact Hr|].
  wp_step. apply (wp_fs_malloc room); [done|lia|done|]. intros p k Hfresh.
  destruct (fresh_addresses _ _ _ Hfresh) as [Hp _]. destruct (fresh_none _ _ _ Hfresh) as (_ & _ & _ & Hpn & _).
  destruct (Z.eqb_spec p 0); [done|]. wp_step. wp_step.
  set (g := heap_byte p <$> seq 0 (Z.to_nat required)).
  assert (length g = Z.to_nat required) as Hg by (subst g; by rewrite length_fmap, length_seq).
  clearbody g. cbv beta.
  set (st := fun g => (set_kernel k s) <| contents := <[p := g]> (contents s) |>).
  match goal with |- wp ?m Q _ => change (wp m Q (st g)) end.
  assert (forall g1 off bytes Q, 0 <= off -> off + Z.of_nat (length bytes) <= Z.of_nat (length g1) ->
            Q tt (st (overlay g1 (Z.to_nat off) bytes)) -> wp (store_bytes p off bytes) Q (st g1)) as Hstore.
  { intros g1 off bytes Q' H1 H2 HQ'. eapply wp_store_bytes; [apply lookup_insert_eq|done|done|].
    unfold st in *. simpl in *. by rewrite insert_insert_eq. }
  wp_step. apply (wp_mono _ (fun _ s1 => s1 = st (overlay g 0 l))).
  { rewrite Hsize. destruct (Z.eqb_spec (Z.of_nat (length l)) 0) as [E|E].
    - wp_step. destruct l; [|simpl in E; lia]. unfold overlay. simpl. by rewrite drop_0.
    - case_decide as Ed; [subst l; simpl in E; lia|]. wp_step.
      apply (wp_load_bytes _ _ _ _ l); [|lia|].
      { simpl. rewrite lookup_insert_ne; [done|]. intros ->. simpl in Hpn. congruence. }
      rewrite drop_0, take_ge by lia. by apply Hstore; [lia|lia|]. }
  intros [] s1 ->. pose proof (overlay_length g 0 l ltac:(simpl; lia)) as Hg1.
  wp_step. apply (wp_mono _ (fun _ s1 => s1 = st (grown g l (Z.to_nat offset)))).
  { rewrite Hsize. unfold grown.
    destruct (Z.ltb_spec (Z.of_nat (length l)) offset), (Nat.ltb_spec (length l) (Z.to_nat offset)); try lia.
    - apply Hstore; [lia|rewrite repeat_length; lia|]. rewrite Nat2Z.id. do 3 f_equal. lia.
    - by wp_step. }
  intros [] s1 ->. set (g2 := grown g l (Z.to_nat offset)).
  assert (heap_ok (room - block_headers required) (st g2)) as Hok2.
  { eapply fresh_ok; [| |exact Hfresh]; [done|]. by apply (addresses_content_new (set_kernel k s)). }
  wp_step. apply (wp_free_data (room - block_headers required)); [|exact Hok2|].
  { case_decide as Ed; [by left|]. right. simpl. rewrite lookup_insert_ne; [by exists l|].
    intros ->. simpl in Hpn. congruence. }
  intros k2 Hok3. wp_step. eapply wp_update_ram; [exact Hr|]. wp_step.
  apply (HQ _ p g2); [done|exact Hpn|subst g2; rewrite grown_length; lia| |done| |by split|].
  - intros extra. subst g2. by rewrite (grown_take _ _ _ extra) by lia.
  - simpl. rewrite delete_insert_ne; [done|]. intros E. case_decide as Ed; [congruence|].
    simpl in Hpn. congruence.
  - eapply heap_ok_ext; [| |exact Hok3]; [done|]. eapply addresses_ram_old. exact Hr.
Qed.

(** The effect of writing [buffer] to the file that holds [l]. *)
Definition write_effect (s : fs_t) (f : vfs_node_t) (r : ramfs_node_t) (l : list Z) (offset : Z)
    (buffer : list Z) (room : Z) (s' : fs_t) : Prop :=
  fs_vfs_same s s' /\
  exists p size, ramfs_nodes s' = <[fs_data f := r <| ram_data := p |> <| ram_data_size := size |>]> (ramfs_nodes s) /\
    file_data s' (r <| ram_data := p |> <| ram_data_size := size |>) (written l (Z.to_nat offset) buffer) /\
    (forall q, q <> p -> q <> ram_data r -> contents s' !! q = contents s !! q) /\
    heap_ok (room - block_headers (offset + Z.of_nat (length buffer))) s'.

Lemma wp_ramfs_write s file f r l offset buffer room :
  vfs_nodes s !! file = Some f -> ramfs_nodes s !! fs_data f = Some r -> file_data s r l ->
  heap_ok room s -> 0 <= offset -> buffer <> [] ->
  offset + Z.of_nat (length buffer) < 2 ^ 32 - 7 ->
  block_headers (offset + Z.of_nat (length buffer)) <= room ->
  wp (ramfs_write file offset buffer)
     (fun '(result, n) s' => result = RESOURCE_RESULT_OK /\ n = Z.of_nat (length buffer) /\
        write_effect s f r l offset buffer room s') s.
Proof using Type.
  intros Hf Hr Hdata Hok Ho Hne Hlen Hroom. unfold ramfs_write. wp_step. eapply wp_load_vnode; [exact Hf|].
  wp_step. eapply wp_load_ram; [exact Hr|]. rewrite u32_small by lia.
  pose proof Hdata as [Hsize Hcontent]. set (required := offset + Z.of_nat (length buffer)) in *.
  assert (0 < Z.of_nat (length buffer)) as Hpos by (destruct buffer; [done|simpl; lia]).
  rewrite Hsize. destruct (Z.ltb_spec (Z.of_nat (length l)) required) as [Hgrow|Hfits].
  - wp_step. eapply (wp_ramfs_grow s (fs_data f) r l required offset room); try done; [lia|].
    intros s1 p g Hp Hpn Hg Htake Hnodes Hcont Hsame Hok1. simpl negb. cbv iota.
    wp_step. eapply wp_load_ram; [rewrite Hnodes; apply lookup_insert_eq|]. simpl ram_data.
    wp_step. eapply wp_store_bytes; [rewrite Hcont; apply lookup_insert_eq|done|lia|]. wp_step.
    unfold write_effect. split_and!; [done|done|destruct Hsame; by split|]. exists p, required. split_and!; [done| | |].
    + assert (written l (Z.to_nat offset) buffer = overlay g (Z.to_nat offset) buffer) as ->.
      { unfold written, overlay. rewrite (Htake (length buffer)). f_equal. f_equal.
        rewrite !drop_ge; [done|lia|rewrite length_app, repeat_length; lia]. }
      split; simpl; [rewrite overlay_length; lia|]. rewrite decide_False by done.
      rewrite Hcont. apply lookup_insert_eq.
    + intros q Hq1 Hq2. simpl. rewrite Hcont, !lookup_insert_ne by congruence. by rewrite lookup_delete_ne.
    + eapply heap_ok_ext; [| |exact Hok1]; [done|]. eapply addresses_content_old. rewrite Hcont. apply lookup_insert_eq.
  - case_decide as Ed; [subst l; simpl in Hfits; lia|].
    wp_step. wp_step. simpl negb. cbv iota. wp_step. eapply wp_load_ram; [exact Hr|].
    wp_step. eapply wp_store_bytes; [exact Hcontent|done|lia|]. wp_step.
    unfold write_effect. split_and!; [done|done|by split|]. exists (ram_data r), (ram_data_size r).
    assert (r <| ram_data := ram_data r |> <| ram_data_size := ram_data_size r |> = r) as -> by (by destruct r).
    split_and!; [simpl; by rewrite insert_id| | |].
    + assert (written l (Z.to_nat offset) buffer = overlay l (Z.to_nat offset) buffer) as ->.
      { unfold written. replace (Z.to_nat offset + length buffer - length l)%nat with 0%nat by lia.
        simpl. by rewrite app_nil_r. }
      split; [rewrite overlay_length; lia|]. rewrite decide_False by done. apply lookup_insert_eq.
    + intros q _ Hq. simpl. by rewrite lookup_insert_ne.
    + eapply heap_ok_weaken; [|eapply heap_ok_ext; [| |exact Hok]; [done|eapply addresses_content_old; exact Hcontent]].
      unfold block_headers. zlia.
Qed.

(** A read answers the part of the file that the offset and the buffer select. *)
Lemma wp_ramfs_read s file f r l offset length_of_buffer :
  vfs_nodes s !! file = Some f -> ramfs_nodes s !! fs_data f = Some r -> file_data s r l ->
  0 <= offset -> 0 <= length_of_buffer ->
  wp (ramfs_read file offset length_of_buffer)
     (fun '(result, bytes) s' => result = RESOURCE_RESULT_OK /\ s' = s /\
        bytes = take (Z.to_nat length_of_buffer) (drop (Z.to_nat offset) l)) s.
Proof using Type.
  intros Hf Hr [Hsize Hdata] Ho Hb. unfold ramfs_read. wp_step. eapply wp_load_vnode; [exact Hf|].
  wp_step. eapply wp_load_ram; [exact Hr|]. rewrite Hsize.
  destruct (Z.leb_spec (Z.of_nat (length l)) offset).
  { wp_step. split_and!; [done|done|]. rewrite drop_ge by lia. by rewrite take_nil. }
  case_decide as Ed; [subst l; simpl in *; lia|].
  wp_step. eapply wp_load_bytes; [exact Hdata| |].
  - destruct (Z.ltb_spec length_of_buffer (Z.of_nat (length l) - offset)); lia.
  - wp_step. split_and!; [done|done|].
    destruct (Z.ltb_spec length_of_buffer (Z.of_nat (length l) - offset)); [done|].
    rewrite !take_ge; [done|rewrite length_drop; lia..].
Qed.

(** C10: Writing to a file that has room on the heap: all bytes are written, the
    contents are the old ones with the new bytes in place and zeros in a gap
    before them, the size grows when the write goes past the end, every other
    file and every VFS node stay as they are and the heap stays consistent. *)
Theorem ramfs_write_spec s file f r l offset buffer room :
  vfs_nodes s !! file = Some f -> ramfs_nodes s !! fs_data f = Some r -> file_data s r l ->
  heap_ok room s -> 0 <= offset -> buffer <> [] ->
  offset + Z.of_nat (length buffer) < 2 ^ 32 - 7 ->
  block_headers (offset + Z.of_nat (length buffer)) <= room ->
  wp (ramfs_write file offset buffer)
     (fun '(result, n) s' => result = RESOURCE_RESULT_OK /\ n = Z.of_nat (length buffer) /\
        write_effect s f r l offset buffer room s') s.
Proof using Type. apply wp_ramfs_write. Qed.

(** C22: Round trip: a read of the written length at the offset of the write
    answers the written bytes, and a read from the start answers all of the new
    contents. *)
Theorem ramfs_write_read s file f r l offset buffer room :
  vfs_nodes s !! file = Some f -> ramfs_nodes s !! fs_data f = Some r -> file_data s r l ->
  heap_ok room s -> 0 <= offset -> buffer <> [] ->
  offset + Z.of_nat (length buffer) < 2 ^ 32 - 7 ->
  block_headers (offset + Z.of_nat (length buffer)) <= room ->
  wp (do! ramfs_write file offset buffer in
      let! r1 := ramfs_read file offset (Z.of_nat (length buffer)) in
      let! r2 := ramfs_read file 0 (2 ^ 32 - 1) in
      ret (r1, r2))
     (fun '(r1, r2) _ => r1 = (RESOURCE_RESULT_OK, buffer) /\
        r2 = (RESOURCE_RESULT_OK, take (Z.to_nat (2 ^ 32 - 1)) (written l (Z.to_nat offset) buffer))) s.
Proof using Type.
  intros Hf Hr Hdata Hok Ho Hne Hlen Hroom. wp_step.
  eapply wp_mono; [by eapply (wp_ramfs_write s file f r l offset buffer room)|].
  intros [result n] s1 (-> & -> & Hsame & p & size & Hnodes & Hdata1 & _ & _). wp_step.
  assert (vfs_nodes s1 !! file = Some f) as Hf1 by (by rewrite (vs_nodes _ _ Hsame)).
  assert (ramfs_nodes s1 !! fs_data f = Some (r <| ram_data := p |> <| ram_data_size := size |>)) as Hr1
    by (rewrite Hnodes; apply lookup_insert_eq).
  eapply wp_mono; [eapply (wp_ramfs_read s1); [exact Hf1|exact Hr1|exact Hdata1|done|lia]|].
  intros [res bytes] s2 (-> & -> & ->). wp_step.
  eapply wp_mono; [eapply (wp_ramfs_read s1); [exact Hf1|exact Hr1|exact Hdata1|done|lia]|].
  intros [res bytes] s2 (-> & -> & ->). wp_step. rewrite Nat2Z.id, written_read, drop_0. done.
Qed.
End ramfs.

(** ** Witnesses *)

(** The small file system with a VFS node for its file. *)
Definition demo_file : vfs_node_t :=
  mk_vfs_node [97] 0 ramfs_node_operations VFS_NODE_TYPE_FILE RESOURCE_TYPE_FILE (demo_block 4) 0 1 2.
Definition demo_file_fs : fs_t := demo_fs <| vfs_nodes := {[ demo_block 0 := demo_file ]} |>.
Definition demo_file_node : ramfs_node_t :=
  mk_ramfs_node 1 [] [97] VFS_NODE_TYPE_FILE (demo_block 6) 3 1.

Lemma demo_file_data : file_data demo_file_fs demo_file_node [1; 2; 3].
Proof. split; [done|]. apply lookup_singleton_eq. Qed.

Lemma ramfs_write_spec_witness :
  wp (ramfs_write (alloc := demo_allocator) (fun _ _ => 0) (demo_block 0) 5 [7; 8])
     (fun '(result, n) s' => result = RESOURCE_RESULT_OK /\ n = 2 /\ fs_vfs_same demo_file_fs s') demo_file_fs.
Proof.
  eapply wp_mono.
  - apply (ramfs_write_spec (alloc := demo_allocator) (fun _ _ => 0) demo_file_fs (demo_block 0) demo_file
      demo_file_node [1; 2; 3] 5 [7; 8] 490);
      [apply lookup_singleton_eq|vm_compute; reflexivity|exact demo_file_data|exact demo_fs_heap_ok|lia|done|simpl; lia
      |vm_compute; congruence].
  - intros [result n] s' (-> & -> & Hsame & _). done.
Defined.

Lemma ramfs_write_read_witness :
  wp (do! ramfs_write (alloc := demo_allocator) (fun _ _ => 0) (demo_block 0) 5 [7; 8] in
      let! r1 := ramfs_read (demo_block 0) 5 2 in
      let! r2 := ramfs_read (demo_block 0) 0 (2 ^ 32 - 1) in
      ret (r1, r2))
     (fun '(r1, _) _ => r1 = (RESOURCE_RESULT_OK, [7; 8])) demo_file_fs.
Proof.
  eapply wp_mono.
  - apply (ramfs_write_read (alloc := demo_allocator) (fun _ _ => 0) demo_file_fs (demo_block 0) demo_file
      demo_file_node [1; 2; 3] 5 [7; 8] 490);
      [apply lookup_singleton_eq|vm_compute; reflexivity|exact demo_file_data|exact demo_fs_heap_ok|lia|done|simpl; lia
      |vm_compute; congruence].
  - intros [r1 r2] s' [-> _]. done.
Defined.

Example written_gap : written [1; 2; 3] 5 [7; 8] = [1; 2; 3; 0; 0; 7; 8].
Proof. reflexivity. Qed.
