(* ===== verification/RamfsLaws.v ===== *)
(** * The RAM file system under the VFS

    The invariant of the RAM file system; its lookup and release keep the laws
    that [Vfs] asks of a file system. *)
From S2P Require Import Prelude Bitmap Paging KernelHeap Tasks Allocator Files VfsCache Resource Vfs Ramfs.

(** Every VFS node of the RAM file system has its cache index and stands for the
    node of the tree with its index; directory
    entries have names that fit and point to nodes of the tree; a node without
    links is in no directory; files do not share their data. *)
Record ramfs_inv (s : fs_t) : Prop := {
  ri_vnodes : forall p n, vfs_nodes s !! p = Some n -> operations n = ramfs_node_operations ->
                cache_index n = 0 /\
                exists r, ramfs_nodes s !! fs_data n = Some r /\ ram_id r = index n;
  ri_entries : forall p r e, ramfs_nodes s !! p = Some r -> e ∈ ram_children r ->
                 is_Some (ramfs_nodes s !! dirent_node e) /\
                 exists nm, names s !! dirent_name e = Some nm /\ Z.of_nat (length nm) < VFS_NODE_NAME_LENGTH;
  ri_links : forall p r, ramfs_nodes s !! p = Some r -> 0 <= ram_link_count r /\
               (ram_link_count r = 0 -> forall q rq e, ramfs_nodes s !! q = Some rq -> e ∈ ram_children rq -> dirent_node e <> p);
  ri_data : forall p r, ramfs_nodes s !! p = Some r -> ram_data r = 0 \/ is_Some (contents s !! ram_data r);
  ri_own : forall p q r rq, ramfs_nodes s !! p = Some r -> ramfs_nodes s !! q = Some rq ->
             ram_data r = ram_data rq -> ram_data r <> 0 -> p = q;
}.

Section laws.
Context {alloc : Allocator kernel_t}.

Lemma wp_find_dirent s children path Q :
  (forall e, e ∈ children -> is_Some (names s !! dirent_name e)) ->
  (forall i e, children !! i = Some e -> names s !! dirent_name e = Some path -> Q (Some (i, e)) s) ->
  ((forall e, e ∈ children -> names s !! dirent_name e <> Some path) -> Q None s) ->
  wp (find_dirent children path) Q s.
Proof using Type.
  revert Q. induction children as [|e rest IH]; intros Q Hin Hfound Hnone; simpl.
  - apply wp_ret, Hnone. intros e He. by apply not_elem_of_nil in He.
  - destruct (Hin e ltac:(left)) as [nm Hnm]. wp_step. eapply wp_load_name; [exact Hnm|].
    case_bool_decide as E; [subst nm; apply wp_ret; by apply (Hfound O)|].
    wp_step. apply IH.
    + intros d Hd. apply Hin. by right.
    + intros i d Hd Hn. apply wp_ret. by apply (Hfound (S i)).
    + intros Hno. apply wp_ret, Hnone. intros d [->|Hd]%elem_of_cons; [congruence|by apply Hno].
Qed.

Lemma ramfs_inv_nodes s s' :
  ramfs_inv s -> ramfs_nodes s' = ramfs_nodes s -> names s' = names s -> contents s' = contents s ->
  (forall p n', vfs_nodes s' !! p = Some n' -> exists n, vfs_nodes s !! p = Some n /\
     fs_data n' = fs_data n /\ cache_index n' = cache_index n /\ index n' = index n /\
     operations n' = operations n) ->
  ramfs_inv s'.
Proof using Type.
  intros [H1 H2 H3 H4 H5] Hr Hn Hc Hnodes. split; rewrite ?Hr, ?Hn, ?Hc; try done.
  intros p n' Hp Ho. destruct (Hnodes p n' Hp) as (n & Hn' & E1 & E2 & E3 & E4). rewrite E1, E2, E3.
  apply (H1 p); congruence.
Qed.

Lemma ramfs_lookup_law s d n component room :
  ramfs_inv s -> vfs_inv s -> heap_ok room s -> VNODE_ROOM <= room -> vfs_nodes s !! d = Some n ->
  operations n = ramfs_node_operations ->
  wp (ramfs_lookup d component)
     (fun '(r, p) s' => ramfs_inv s' /\ vfs_inv s' /\ heap_ok (room - VNODE_ROOM) s' /\
        root (vfs s') = root (vfs s) /\
        (forall q m, vfs_nodes s !! q = Some m -> vfs_nodes s' !! q = Some m) /\
        (forall q m, vfs_nodes s' !! q = Some m -> vfs_nodes s !! q = None ->
           ref_count m = 1 /\ mount m = 0 /\ operations m = ramfs_node_operations) /\
        (r = RESOURCE_RESULT_OK -> p <> 0 /\ is_Some (vfs_nodes s' !! p))) s.
Proof using Type.
  intros Hfs Hinv Hok Hroom Hd Ho. destruct (ri_vnodes _ Hfs d n Hd Ho) as (Hkey & r & Hr & Hid).
  assert (forall p, is_Some (vfs_nodes s !! p) -> p <> 0) as Hnz.
  { intros p Hp ->. destruct Hok as (live & _ & _ & _ & H0). by apply H0, addresses_vnode. }
  assert (heap_ok (room - VNODE_ROOM) s) as Hok' by (eapply heap_ok_weaken; [|exact Hok]; unfold VNODE_ROOM; lia).
  unfold ramfs_lookup. wp_step. eapply wp_load_vnode; [exact Hd|].
  wp_step. eapply wp_load_ram; [exact Hr|]. wp_step. apply wp_find_dirent.
  { intros e He. destruct (ri_entries _ Hfs _ r e Hr He) as (_ & nm & Hnm & _). by exists nm. }
  2: { intros _. wp_step. split_and!; try done. intros q m Hq Hn. congruence. }
  intros i e Hi Hpath. pose proof (list_elem_of_lookup_2 _ _ _ Hi) as He.
  destruct (ri_entries _ Hfs _ r e Hr He) as ([c Hc] & nm & Hnm & Hlen).
  wp_step. eapply wp_load_ram; [exact Hc|]. wp_step.
  apply (wp_vfs_cache_query_node s (cache_index n) (ram_id c) d n); [done|done|done|lia| |].
  - intros p (m & Hm & _). rewrite bool_decide_eq_true_2 by done. wp_step. split_and!; try done.
    + intros q m' Hq Hn. congruence.
    + intros _. split; [apply Hnz; by exists m|by exists m].
  - intros Hno. rewrite bool_decide_eq_false_2 by done. wp_step. eapply wp_load_name; [exact Hnm|].
    eapply (wp_vfs_create_node s d (cache_index n)); [done|exact Hok|done| |done|done|].
    { unfold key_for. destruct (Z.eqb_spec d 0) as [->|]; [|by exists n]. exfalso. apply (Hnz 0); [by exists n|done]. }
    intros p s' Hp Hnone Hnodes Hinv' Hok2 [F1 F2 F3 F4 F5 F6 F7] _.
    split_and!; [|done|done|done| | |].
    + destruct Hfs as [R1 R2 R3 R4 R5]. split; rewrite ?F1, ?F2, ?F3; try done.
      intros q m Hq. rewrite Hnodes in Hq. apply lookup_insert_Some in Hq as [[<- <-]|[_ Hq]]; [|by apply (R1 q)].
      intros _. simpl. split; [done|by exists c].
    + intros q m Hq. rewrite Hnodes, lookup_insert_ne; [done|congruence].
    + intros q m Hq Hn. rewrite Hnodes in Hq. apply lookup_insert_Some in Hq as [[<- <-]|[_ Hq]]; [done|congruence].
    + intros _. split; [done|]. rewrite Hnodes, lookup_insert_eq. by eexists.
Qed.

Lemma ramfs_release_law s d n room :
  ramfs_inv s -> heap_ok room s -> vfs_nodes s !! d = Some n -> operations n = ramfs_node_operations ->
  (forall q m, vfs_nodes s !! q = Some m -> cache_index m = cache_index n -> index m = index n -> q = d) ->
  wp (ramfs_release d)
     (fun _ s' => vfs_nodes s' = vfs_nodes s /\ vfs s' = vfs s /\ heap_ok room s' /\
        ramfs_inv (s' <| vfs_nodes := delete d (vfs_nodes s') |>)) s.
Proof using Type.
  intros Hfs Hok Hd Ho Honly. destruct (ri_vnodes _ Hfs d n Hd Ho) as (Hkey & r & Hr & Hid).
  unfold ramfs_release. wp_step. eapply wp_load_vnode; [exact Hd|]. wp_step. eapply wp_load_ram; [exact Hr|].
  destruct (ri_links _ Hfs _ r Hr) as [Hpos Hlinks].
  destruct (Z.ltb_spec 0 (ram_link_count r)) as [Hlt|Hge].
  { wp_step. split_and!; [done|done|done|]. eapply ramfs_inv_nodes; [exact Hfs|done..|].
    simpl. intros q m [_ Hq]%lookup_delete_Some. by exists m. }
  specialize (Hlinks ltac:(lia)). unfold free_node. wp_step. eapply wp_load_ram; [exact Hr|].
  wp_step. apply (wp_free_data room); [by eapply ri_data|done|]. intros k1 Hok1. wp_step. wp_step.
  apply (wp_fs_free room).
  { eapply heap_ok_fresh; [exact Hok1|done|]. eapply addresses_ram_delete. exact Hr. }
  intros k2 Hok2. split_and!; [done|done|done|]. destruct Hfs as [R1 R2 R3 R4 R5]. split; simpl.
  - intros q m [Hne Hq]%lookup_delete_Some Hom. destruct (R1 q m Hq Hom) as (Hk & rq & Hrq & Hiq).
    split; [done|]. exists rq. rewrite lookup_delete_ne; [done|]. intros E.
    assert (q = d); [|congruence]. rewrite <- E in Hrq. apply (Honly q m); congruence.
  - intros p rp e [_ Hp]%lookup_delete_Some He. destruct (R2 p rp e Hp He) as [Hn Hnm]. split; [|done].
    rewrite lookup_delete_ne; [done|]. intros E. by apply (Hlinks p rp e).
  - intros p rp [_ Hp]%lookup_delete_Some. destruct (R3 p rp Hp) as [Hc Hl]. split; [done|].
    intros Hz q rq e [_ Hq]%lookup_delete_Some. intros He. by apply (Hl Hz q rq e).
  - intros p rp [Hne Hp]%lookup_delete_Some. destruct (decide (ram_data rp = 0)) as [|Hdata]; [by left|].
    destruct (R4 p rp Hp) as [|Hsome]; [done|]. right. rewrite lookup_delete_ne; [done|]. intros E.
    apply Hne. apply (R5 _ _ r rp Hr Hp E). congruence.
  - intros p q rp rq [_ Hp]%lookup_delete_Some [_ Hq]%lookup_delete_Some. by apply R5.
Qed.

End laws.

(** ** Witnesses *)

Lemma demo_ramfs_nodes p r :
  ramfs_nodes demo_fs !! p = Some r ->
  (p = demo_block 3 /\ r = mk_ramfs_node 0 [mk_dirent (demo_block 5) (demo_block 4)] [47] VFS_NODE_TYPE_DIRECTORY 0 0 1) \/
  (p = demo_block 4 /\ r = mk_ramfs_node 1 [] [97] VFS_NODE_TYPE_FILE (demo_block 6) 3 1).
Proof.
  intros Hp. unfold demo_fs in Hp. cbn [ramfs_nodes] in Hp.
  apply lookup_insert_Some in Hp as [[<- <-]|[_ Hp]]; [by left|].
  apply lookup_singleton_Some in Hp as [<- <-]. by right.
Qed.

Lemma demo_fs_ramfs_inv : ramfs_inv demo_fs.
Proof.
  split.
  - intros p n [<- <-]%demo_fs_node _. split; [done|]. eexists. split; [apply lookup_insert_eq|done].
  - intros p r e [[-> ->]|[-> ->]]%demo_ramfs_nodes He; [|by apply not_elem_of_nil in He].
    apply list_elem_of_singleton in He as ->. split; [vm_compute; by eexists|].
    exists [97]. split; [apply lookup_singleton_eq|done].
  - intros p r [[-> ->]|[-> ->]]%demo_ramfs_nodes; (split; [simpl; lia|done]).
  - intros p r [[-> ->]|[-> ->]]%demo_ramfs_nodes; [by left|right]. eexists. apply lookup_singleton_eq.
  - intros p q r rq [[-> ->]|[-> ->]]%demo_ramfs_nodes [[-> ->]|[-> ->]]%demo_ramfs_nodes; done.
Qed.

