(* ===== verification/CString.v ===== *)
(** * C strings (src/libc/string.c)

    Memory is a finite map from address to byte (a value of [0..255]); an access
    outside it is a [Fault].  [char] is a byte: the sources only compare
    characters for equality, and [strcmp] orders them as unsigned.  [fuel]
    bounds the walks of a string. *)
From S2P Require Import Prelude.

Record cstate_t : Type := mk_cstate {
  bytes : gmap Z Z;
  strtok_last_pos : Z;            (* static char* last_pos of strtok *)
}.
#[export] Instance cstate_fields : Fields cstate_t := fun s => mk_cstate (bytes s) (strtok_last_pos s).

Definition rd (p : Z) : M cstate_t Z := let! s := get in of_option (bytes s !! p).
(** A store must hit existing memory. *)
Definition wr (p b : Z) : M cstate_t unit :=
  do! rd p in modify (fun s => s <| bytes := <[p := u8 b]> (bytes s) |>).

Section cstring.
Variable fuel : nat.

Definition strcmp (s1 s2 : Z) : M cstate_t Z :=
  let! ' (s1, s2) := loop fuel (fun '(s1, s2) =>
    let! a := rd s1 in
    if a =? 0 then ret (inr (s1, s2))
    else
      let! b := rd s2 in
      if a =? b then ret (inl (s1 + 1, s2 + 1)) else ret (inr (s1, s2))) (s1, s2) in
  let! a := rd s1 in
  let! b := rd s2 in
  let result := a - b in
  if result <? 0 then ret (-1) else if 0 <? result then ret 1 else ret 0.

Definition strcpy (dst src : Z) : M cstate_t Z :=
  let! output := loop fuel (fun '(output, src) =>
    let! b := rd src in
    if b =? 0 then ret (inr output)
    else do! wr output b in ret (inl (output + 1, src + 1))) (dst, src) in
  do! wr output 0 in
  ret dst.

Definition strncpy (dst src n : Z) : M cstate_t Z :=
  let! ' (d, remaining) := loop fuel (fun '(d, src, n) =>
    if n =? 0 then ret (inr (d, n))
    else
      let! b := rd src in
      if b =? 0 then ret (inr (d, n))
      else do! wr d b in ret (inl (d + 1, src + 1, n - 1))) (dst, src, n) in
  do! for_range 0 remaining (fun i => wr (d + i) 0) in
  ret dst.

Definition memcpy (dst src n : Z) : M cstate_t Z :=
  do! for_range 0 n (fun i => let! b := rd (src + i) in wr (dst + i) b) in
  ret dst.

Definition memset (dst ch size : Z) : M cstate_t Z :=
  do! for_range 0 size (fun i => wr (dst + i) ch) in
  ret dst.

Definition is_delimiter (c delimiter : Z) : M cstate_t bool :=
  loop fuel (fun delimiter =>
    let! d := rd delimiter in
    if d =? 0 then ret (inr false)
    else if c =? d then ret (inr true)
    else ret (inl (delimiter + 1))) delimiter.

Definition set_last_pos (p : Z) : M cstate_t unit := modify (fun s => s <| strtok_last_pos := p |>).

(** The walk over leading delimiters. *)
Definition strtok_skip (delimiter p : Z) : M cstate_t Z :=
  loop fuel (fun p =>
    let! c := rd p in
    if c =? 0 then ret (inr p)
    else
      let! d := is_delimiter c delimiter in
      if d then ret (inl (p + 1)) else ret (inr p)) p.

(** The walk over the token, which cuts it at the first delimiter. *)
Definition strtok_cut (delimiter p : Z) : M cstate_t unit :=
  loop fuel (fun p =>
    let! c := rd p in
    if c =? 0 then do! set_last_pos p in ret (inr tt)
    else
      let! d := is_delimiter c delimiter in
      if d then
        do! wr p 0 in
        do! set_last_pos (p + 1) in
        ret (inr tt)
      else ret (inl (p + 1))) p.

Definition strtok (str delimiter : Z) : M cstate_t Z :=
  do! (if str =? 0 then ret tt else set_last_pos str) in
  let! s := get in
  let! at_end := (if strtok_last_pos s =? 0 then ret true
                  else let! b := rd (strtok_last_pos s) in ret (b =? 0)) in
  if at_end then ret 0
  else
    let! start := strtok_skip delimiter (strtok_last_pos s) in
    do! set_last_pos start in
    let! c := rd start in
    if c =? 0 then ret 0
    else
      do! strtok_cut delimiter start in
      ret start.

Definition strrchr (str c : Z) : M cstate_t Z :=
  let target := u8 c in
  loop fuel (fun '(p, last_occurrence) =>
    let! b := rd p in
    let last_occurrence := if b =? target then p else last_occurrence in
    if b =? 0 then ret (inr last_occurrence) else ret (inl (p + 1, last_occurrence)))
    (str, 0).

Definition strlen (str : Z) : M cstate_t Z :=
  loop fuel (fun length =>
    let! b := rd (str + length) in
    if b =? 0 then ret (inr length) else ret (inl (length + 1))) 0.

(** ** Strings in memory *)

(** [l] lies at [p]; [text s p l]: [p] is the C string [l]. *)
Fixpoint at_ (m : gmap Z Z) (p : Z) (l : list Z) : Prop :=
  match l with
  | [] => True
  | b :: l' => m !! p = Some b /\ at_ m (p + 1) l'
  end.
Definition chars (l : list Z) : Prop := Forall (fun b => 0 < b < 256) l.
Definition text (s : cstate_t) (p : Z) (l : list Z) : Prop :=
  chars l /\ at_ (bytes s) p (l ++ [0]).

Lemma at_app m p l1 l2 : at_ m p (l1 ++ l2) <-> at_ m p l1 /\ at_ m (p + Z.of_nat (length l1)) l2.
Proof using Type.
  revert p. induction l1 as [|b l1 IH]; intros p; simpl.
  - rewrite Z.add_0_r. tauto.
  - rewrite IH. replace (p + Z.of_nat (S (length l1))) with (p + 1 + Z.of_nat (length l1)) by lia. tauto.
Qed.

Lemma at_frame m m' p l :
  (forall q, p <= q < p + Z.of_nat (length l) -> m' !! q = m !! q) -> at_ m p l -> at_ m' p l.
Proof using Type.
  revert p. induction l as [|b l IH]; intros p H; simpl; [done|]. intros [H1 H2].
  split; [by rewrite H by (simpl; lia)|]. apply IH; [|done]. intros q Hq. apply H. simpl. lia.
Qed.

Lemma at_lookup m p l i b : at_ m p l -> l !! i = Some b -> m !! (p + Z.of_nat i) = Some b.
Proof using Type.
  revert p i. induction l as [|c l IH]; intros p i; simpl; [done|]. intros [H1 H2].
  destruct i as [|i]; simpl.
  - intros [= ->]. by rewrite Z.add_0_r.
  - intros Hi. rewrite <- (IH (p + 1) i) by done. f_equal. lia.
Qed.

Lemma wp_rd s p b Q : bytes s !! p = Some b -> Q b s -> wp (rd p) Q s.
Proof using Type. intros Hp HQ. unfold rd. by wp_run. Qed.
Lemma wp_wr s p b Q :
  is_Some (bytes s !! p) -> Q tt (s <| bytes := <[p := u8 b]> (bytes s) |>) -> wp (wr p b) Q s.
Proof using Type. intros [c Hp] HQ. unfold wr. wp_step. eapply wp_rd; [done|]. by wp_run. Qed.

Lemma chars_lookup l i b : chars l -> l !! i = Some b -> 0 < b < 256.
Proof using Type. intros Hc Hb. exact (Forall_lookup_1 _ _ _ _ Hc Hb). Qed.
Lemma chars_cons b l : chars (b :: l) -> 0 < b < 256 /\ chars l.
Proof using Type. intros H. by inversion H. Qed.

(** The bytes of [l] stored from [p] on. *)
Fixpoint write_at (m : gmap Z Z) (p : Z) (l : list Z) : gmap Z Z :=
  match l with
  | [] => m
  | b :: l' => write_at (<[p := b]> m) (p + 1) l'
  end.

Lemma write_at_frame m p l q :
  q < p \/ p + Z.of_nat (length l) <= q -> write_at m p l !! q = m !! q.
Proof using Type.
  revert m p. induction l as [|b l IH]; intros m p Hq; simpl in *; [done|].
  rewrite IH by lia. apply lookup_insert_ne. lia.
Qed.

Lemma write_at_at m p l : at_ (write_at m p l) p l.
Proof using Type.
  revert m p. induction l as [|b l IH]; intros m p; simpl; [done|]. split; [|apply IH].
  rewrite write_at_frame by lia. apply lookup_insert_eq.
Qed.

Lemma write_at_app m p l1 l2 :
  write_at m p (l1 ++ l2) = write_at (write_at m p l1) (p + Z.of_nat (length l1)) l2.
Proof using Type.
  revert m p. induction l1 as [|b l1 IH]; intros m p; simpl; [by rewrite Z.add_0_r|].
  rewrite IH. f_equal. lia.
Qed.

Lemma write_at_is_Some m p l q : is_Some (m !! q) -> is_Some (write_at m p l !! q).
Proof using Type.
  revert m p. induction l as [|b l IH]; intros m p Hq; simpl; [done|]. apply IH.
  destruct (decide (p = q)) as [->|]; [rewrite lookup_insert_eq; by eexists|by rewrite lookup_insert_ne].
Qed.

(** Storage for [n] bytes at [p]. *)
Definition room (m : gmap Z Z) (p n : Z) : Prop := forall q, p <= q < p + n -> is_Some (m !! q).
Definition separate (p n q k : Z) : Prop := p + n <= q \/ q + k <= p.

Lemma room_write_at m p l q n : room m q n -> room (write_at m p l) q n.
Proof using Type. intros H r Hr. by apply write_at_is_Some, H. Qed.

Lemma text_write_at m p l q c :
  separate p (Z.of_nat (length l)) q (Z.of_nat (length c)) -> at_ m q c -> at_ (write_at m p l) q c.
Proof using Type. intros Ha. apply at_frame. intros r Hr. apply write_at_frame. unfold separate in Ha. lia. Qed.

Lemma wp_wr_byte s p b Q :
  room (bytes s) p 1 -> 0 <= b < 256 ->
  Q tt (s <| bytes := write_at (bytes s) p [b] |>) -> wp (wr p b) Q s.
Proof using Type.
  intros Hr Hb HQ. apply wp_wr; [apply Hr; lia|]. simpl in HQ. unfold u8. by rewrite Z.mod_small by lia.
Qed.

Lemma wp_rd_at s p l i b Q :
  at_ (bytes s) p l -> l !! i = Some b -> Q b s -> wp (rd (p + Z.of_nat i)) Q s.
Proof using Type. intros Ht Hb. apply wp_rd. by eapply at_lookup. Qed.

(** [for (i = 0; i < n; ++i) dst[i] = b;] *)
Lemma wp_fill s p n b Q :
  room (bytes s) p n -> 0 <= n -> 0 <= u8 b < 256 ->
  Q tt (s <| bytes := write_at (bytes s) p (repeat (u8 b) (Z.to_nat n)) |>) ->
  wp (for_range 0 n (fun i => wr (p + i) b)) Q s.
Proof using Type.
  intros Hr Hn Hb HQ.
  apply (wp_for_range _ _ _ (fun i s' =>
    s' = (s <| bytes := write_at (bytes s) p (repeat (u8 b) (Z.to_nat i)) |>) /\ 0 <= i)).
  - split; [by destruct s|lia].
  - intros i s' Hi [-> _]. apply wp_wr; [apply (room_write_at _ _ _ _ _ Hr); lia|].
    split; [|lia]. replace (Z.to_nat (i + 1)) with (Z.to_nat i + 1)%nat by lia.
    rewrite repeat_app, write_at_app, repeat_length, Z2Nat.id by lia. done.
  - intros s' [-> _]. by rewrite Z.max_r by lia.
Qed.

(** ** [strlen] and [strcmp] *)

(** [strlen] answers the number of characters before the terminator. *)
Lemma strlen_spec s p l :
  text s p l -> (length l < fuel)%nat -> wp (strlen p) (fun r s' => r = Z.of_nat (length l) /\ s' = s) s.
Proof using Type.
  intros [Hc Ht] Hf. unfold strlen.
  apply (wp_loop_steps _ _ (fun i => Z.of_nat i) (length l)); [done| |].
  - intros i Hi. destruct (lookup_lt_is_Some_2 l i Hi) as [b Hb].
    wp_step. eapply wp_rd.
    { apply (at_lookup _ _ (l ++ [0]) i b Ht). by rewrite lookup_app_l. }
    pose proof (chars_lookup _ _ _ Hc Hb). destruct (Z.eqb_spec b 0); [lia|]. wp_run. split; [|done]. f_equal. lia.
  - wp_step. eapply wp_rd.
    { apply (at_lookup _ _ (l ++ [0]) (length l) 0 Ht). rewrite lookup_app_r by done.
      by rewrite Nat.sub_diag. }
    by wp_run.
Qed.

(** The order of byte strings that [strcmp] decides. *)
Fixpoint compare_bytes (l1 l2 : list Z) : Z :=
  match l1, l2 with
  | [], [] => 0
  | [], _ :: _ => -1
  | _ :: _, [] => 1
  | a :: l1', b :: l2' => if a =? b then compare_bytes l1' l2' else if a <? b then -1 else 1
  end.

(** [strcmp] of two C strings answers their lexicographic order as unsigned
    bytes, -1, 0 or 1, and 0 exactly for equal strings; it writes nothing. *)
Theorem strcmp_spec s p1 p2 l1 l2 :
  text s p1 l1 -> text s p2 l2 -> (length l1 < fuel)%nat ->
  wp (strcmp p1 p2)
     (fun r s' => r = compare_bytes l1 l2 /\ (r = 0 <-> l1 = l2) /\ s' = s) s.
Proof using Type.
  intros [Hc1 Ht1] [Hc2 Ht2] Hf.
  assert (compare_bytes l1 l2 = 0 <-> l1 = l2) as Heq.
  { clear. revert l2. induction l1 as [|a l1 IH]; intros [|b l2]; simpl; [done..|].
    destruct (Z.eqb_spec a b) as [->|Hab]; [rewrite IH; by split; [intros ->|intros [=]]|].
    split; [by destruct (a <? b)|by intros [=]]. }
  apply (wp_mono _ (fun r s' => r = compare_bytes l1 l2 /\ s' = s)).
  2: { intros r s' [-> ->]. done. }
  clear Heq. unfold strcmp. wp_step.
  set (Q := fun (r : Z) (s' : cstate_t) => r = compare_bytes l1 l2 /\ s' = s).
  assert (forall r, r = compare_bytes l1 l2 -> Q r s) as HQ by (by intros r ->).
  clearbody Q. revert p1 p2 l2 HQ Hc2 Ht1 Ht2 Hf. generalize fuel as n. revert Hc1.
  induction l1 as [|a l1 IH]; intros Hc1 n p1 p2 l2 HQ Hc2 Ht1 Ht2 Hf;
    (destruct n as [|n]; [simpl in Hf; lia|]); cbn [loop]; simpl in Ht1; destruct Ht1 as [Ha Ht1].
  - wp_step. wp_step. eapply wp_rd; [done|]. wp_go. eapply wp_rd; [done|]. wp_step.
    destruct l2 as [|b l2]; simpl in Ht2; destruct Ht2 as [Hb Ht2]; (eapply wp_rd; [done|]).
    + by apply wp_ret, HQ.
    + apply chars_cons in Hc2 as [Hb0 _]. destruct (Z.ltb_spec (0 - b) 0); [|lia]. by apply wp_ret, HQ.
  - apply chars_cons in Hc1 as [Ha0 Hc1]. wp_step. wp_step. eapply wp_rd; [done|].
    destruct (Z.eqb_spec a 0); [lia|]. wp_step.
    destruct l2 as [|b l2]; simpl in Ht2; destruct Ht2 as [Hb Ht2]; (eapply wp_rd; [done|]).
    + destruct (Z.eqb_spec a 0); [lia|]. wp_go. eapply wp_rd; [done|]. wp_step. eapply wp_rd; [done|].
      destruct (Z.ltb_spec (a - 0) 0); [lia|]. destruct (Z.ltb_spec 0 (a - 0)); [|lia]. by apply wp_ret, HQ.
    + apply chars_cons in Hc2 as [Hb0 Hc2]. simpl in HQ. destruct (Z.eqb_spec a b) as [->|Hab].
      * wp_run. apply (IH Hc1 n (p1 + 1) (p2 + 1) l2); try done. simpl in Hf. lia.
      * wp_go. eapply wp_rd; [done|]. wp_step. eapply wp_rd; [done|]. destruct (Z.ltb_spec a b) as [Hlt|Hge].
        -- destruct (Z.ltb_spec (a - b) 0); [|lia]. by apply wp_ret, HQ.
        -- destruct (Z.ltb_spec (a - b) 0); [lia|]. destruct (Z.ltb_spec 0 (a - b)); [|lia]. by apply wp_ret, HQ.
Qed.

(** ** Copying *)

(** The first loop of [strncpy] copies the characters that fit; [l1] are copied. *)
Lemma wp_strncpy_copy s dst src l n Q :
  text s src l -> room (bytes s) dst n -> separate dst n src (Z.of_nat (length l) + 1) ->
  forall k l1 l2, l = l1 ++ l2 -> (length l2 < k)%nat -> (length l1 <= Z.to_nat n)%nat -> 0 <= n ->
  (let copied := take (Z.to_nat n) l in
   Q (dst + Z.of_nat (length copied), n - Z.of_nat (length copied)) (s <| bytes := write_at (bytes s) dst copied |>)) ->
  wp (loop k (fun '(d, src, n) =>
        if n =? 0 then ret (inr (d, n))
        else
          let! b := rd src in
          if b =? 0 then ret (inr (d, n))
          else do! wr d b in ret (inl (d + 1, src + 1, n - 1)))
       (dst + Z.of_nat (length l1), src + Z.of_nat (length l1), n - Z.of_nat (length l1))) Q
     (s <| bytes := write_at (bytes s) dst l1 |>).
Proof using Type.
  intros [Hc Ht] Hroom Hap. induction k as [|k IH]; intros l1 l2 Hl Hk Hlen Hn HQ; [lia|].
  cbn [loop]. wp_step. destruct (Z.eqb_spec (n - Z.of_nat (length l1)) 0) as [Hz|Hz].
  { do 2 (wp_step; cbv beta iota). revert HQ. cbv zeta. rewrite Hl, take_app_le, firstn_all2 by lia. done. }
  assert (at_ (write_at (bytes s) dst l1) src (l ++ [0])) as Ht1.
  { apply text_write_at; [|done]. unfold separate in *. rewrite length_app. simpl. lia. }
  wp_step. destruct l2 as [|b l2].
  - rewrite app_nil_r in Hl. subst l1. eapply (wp_rd_at _ _ (l ++ [0]) (length l) 0); [done| |].
    { rewrite lookup_app_r by done. by rewrite Nat.sub_diag. }
    change (0 =? 0) with true. cbv iota. do 2 (wp_step; cbv beta iota).
    revert HQ. cbv zeta. rewrite firstn_all2 by lia. done.
  - eapply (wp_rd_at _ _ (l ++ [0]) (length l1) b); [done| |].
    { rewrite Hl, <- app_assoc. by apply list_lookup_middle. }
    assert (0 < b < 256) as Hb.
    { apply (chars_lookup l (length l1)); [done|]. rewrite Hl. by apply list_lookup_middle. }
    destruct (Z.eqb_spec b 0); [lia|]. wp_step. apply wp_wr_byte; [|lia|].
    { intros q Hq. apply (room_write_at _ _ _ _ _ Hroom). lia. }
    wp_run. specialize (IH (l1 ++ [b]) l2). rewrite length_app in IH. simpl in IH, Hk.
    replace (dst + Z.of_nat (length l1) + 1) with (dst + Z.of_nat (length l1 + 1)) by lia.
    replace (src + Z.of_nat (length l1) + 1) with (src + Z.of_nat (length l1 + 1)) by lia.
    replace (n - Z.of_nat (length l1) - 1) with (n - Z.of_nat (length l1 + 1)) by lia.
    rewrite write_at_app in IH. apply IH; [by rewrite Hl, <- app_assoc|lia|lia|done|done].
Qed.

(** [strncpy] stores exactly [n] bytes at the destination, the first [n]
    characters of the source followed by zeros, so the copy is terminated only
    when the source is shorter than [n]; it changes no other byte. *)
Theorem strncpy_spec s dst src l n :
  text s src l -> 0 <= n -> room (bytes s) dst n ->
  separate dst n src (Z.of_nat (length l) + 1) -> (length l < fuel)%nat ->
  wp (strncpy dst src n)
     (fun r s' => r = dst
        /\ s' = (s <| bytes := write_at (bytes s) dst
                   (take (Z.to_nat n) l ++ repeat 0 (Z.to_nat n - length l)) |>)) s.
Proof using Type.
  intros Ht Hn Hroom Hap Hf. unfold strncpy. wp_step.
  pose proof (wp_strncpy_copy s dst src l n) as Hcopy. specialize (Hcopy (fun r s' => wp (let '(d, remaining) := r in
    do! for_range 0 remaining (fun i => wr (d + i) 0) in ret dst) (fun r s' => r = dst
        /\ s' = (s <| bytes := write_at (bytes s) dst
                   (take (Z.to_nat n) l ++ repeat 0 (Z.to_nat n - length l)) |>)) s') Ht Hroom Hap fuel [] l eq_refl Hf).
  simpl in Hcopy. rewrite !Z.add_0_r, Z.sub_0_r in Hcopy. destruct s as [bs pos].
  apply Hcopy; [lia|done|]. wp_step. rewrite length_take. apply wp_fill; [|lia|done|].
  - intros q Hq. apply (room_write_at _ _ _ _ _ Hroom). lia.
  - apply wp_ret. split; [done|]. rewrite <- (length_take l), write_at_app, length_take.
    replace (Z.to_nat (n - Z.of_nat (Z.to_nat n `min` length l))) with (Z.to_nat n - length l)%nat by lia. done.
Qed.

(** ** Searching *)

Lemma text_last l : (l ++ [0]) !! length l = Some 0.
Proof using Type. rewrite lookup_app_r by done. by rewrite Nat.sub_diag. Qed.

(** [strrchr] answers the address of the last occurrence of a character, or
    NULL when the string has none; it writes nothing. *)
Theorem strrchr_spec s p l c :
  text s p l -> u8 c <> 0 -> (length l < fuel)%nat ->
  wp (strrchr p c)
     (fun r s' => s' = s /\
        ((r = 0 /\ u8 c ∉ l) \/
         exists before after, l = before ++ (u8 c :: after) /\ u8 c ∉ after
                              /\ r = p + Z.of_nat (length before))) s.
Proof using Type.
  intros [Hc Ht] Hnz Hf. unfold strrchr.
  set (found := fun (l1 : list Z) (r : Z) =>
    (r = 0 /\ u8 c ∉ l1) \/
    exists before after, l1 = before ++ (u8 c :: after) /\ u8 c ∉ after
                         /\ r = p + Z.of_nat (length before)).
  apply (wp_loop _ _ _
    (fun '(q, last) s' => s' = s /\ exists l1 l2, l = l1 ++ l2
       /\ q = p + Z.of_nat (length l1) /\ found l1 last)
    (fun '(q, _) _ => Z.to_nat (p + Z.of_nat (length l) - q))).
  - split; [done|]. exists [], l. simpl. split; [done|]. split; [lia|]. left. split; [done|]. set_solver.
  - lia.
  - intros [q last] s' (-> & l1 & l2 & Hl & -> & Hfound). wp_step.
    destruct l2 as [|b l2].
    + rewrite app_nil_r in Hl. subst l1.
      eapply (wp_rd_at _ _ (l ++ [0]) (length l)); [done|apply text_last|].
      destruct (Z.eqb_spec 0 (u8 c)); [congruence|]. by apply wp_ret.
    + eapply (wp_rd_at _ _ (l ++ [0]) (length l1) b); [done| |].
      { subst l. rewrite <- app_assoc. by apply list_lookup_middle. }
      assert (0 < b < 256) as Hb.
      { apply (chars_lookup l (length l1)); [done|]. subst l. by apply list_lookup_middle. }
      destruct (Z.eqb_spec b 0); [lia|]. apply wp_ret. split.
      * split; [done|]. exists (l1 ++ [b]), l2. split; [by rewrite Hl, <- app_assoc|].
        split; [rewrite length_app; simpl; lia|].
        destruct (Z.eqb_spec b (u8 c)) as [->|Hne].
        -- right. exists l1, []. split; [done|]. split; [set_solver|lia].
        -- destruct Hfound as [[-> Hin]|(before & after & -> & Hin & ->)].
           ++ left. split; [done|]. set_solver.
           ++ right. exists before, (after ++ [b]). split; [by rewrite <- app_assoc|].
              split; [set_solver|done].
      * rewrite Hl, length_app. simpl. lia.
Qed.

(** ** Tokens *)

Lemma is_delimiter_spec s c d ds Q :
  text s d ds -> (length ds < fuel)%nat -> c <> 0 ->
  Q (bool_decide (c ∈ ds)) s -> wp (is_delimiter c d) Q s.
Proof using Type.
  intros [Hc Ht] Hf Hnz HQ. unfold is_delimiter. revert Hf. generalize fuel as k. intros k.
  assert (forall l2 l1 d2 k, ds = l1 ++ l2 -> d2 = d + Z.of_nat (length l1) -> c ∉ l1 ->
            (length l2 < k)%nat ->
            wp (loop k (fun delimiter =>
              let! x := rd delimiter in
              if x =? 0 then ret (inr false)
              else if c =? x then ret (inr true)
              else ret (inl (delimiter + 1))) d2) Q s) as Hgen.
  2: { intros Hk. apply (Hgen ds []); simpl; [done|lia|set_solver|done]. }
  clear k. induction l2 as [|b l2 IH]; intros l1 d2 k Hl -> Hin Hk;
    (destruct k as [|k]; [simpl in Hk; lia|]); cbn [loop]; wp_step; wp_step.
  - rewrite app_nil_r in Hl. subst l1.
    eapply (wp_rd_at _ _ (ds ++ [0]) (length ds)); [done|apply text_last|].
    change (0 =? 0) with true. wp_run. by rewrite bool_decide_eq_false_2 in HQ.
  - eapply (wp_rd_at _ _ (ds ++ [0]) (length l1) b); [done| |].
    { subst ds. rewrite <- app_assoc. by apply list_lookup_middle. }
    assert (0 < b < 256) as Hb.
    { apply (chars_lookup ds (length l1)); [done|]. subst ds. by apply list_lookup_middle. }
    destruct (Z.eqb_spec b 0); [lia|]. destruct (Z.eqb_spec c b) as [->|Hne].
    + wp_run. rewrite bool_decide_eq_true_2 in HQ; [done|]. rewrite Hl. set_solver.
    + wp_step. apply (IH (l1 ++ [b])); [by rewrite Hl, <- app_assoc|rewrite length_app; simpl; lia|
        set_solver|simpl in Hk; lia].
Qed.

(** The shape of a string as [strtok] cuts it. *)
Definition delimiters (ds l : list Z) : Prop := Forall (fun b => b ∈ ds) l.
Definition token (ds l : list Z) : Prop := Forall (fun b => b ∉ ds) l.


(** A stretch of delimiters, or of other characters, is walked over. *)
Lemma wp_walk {B} (body : Z -> M cstate_t (Z + B)) p (l : list Z) k Q s :
  (length l < k)%nat ->
  (forall i b, l !! i = Some b ->
     wp (body (p + Z.of_nat i)) (fun r s' => r = inl (p + Z.of_nat i + 1) /\ s' = s) s) ->
  wp (body (p + Z.of_nat (length l)))
     (fun r s' => match r with inl _ => False | inr b => Q b s' end) s ->
  wp (loop k body p) Q s.
Proof using Type.
  intros Hk Hstep Hlast. replace p with (p + Z.of_nat 0) by lia.
  apply (wp_loop_steps _ _ (fun i => p + Z.of_nat i) (length l)); [done| |done].
  intros i Hi. destruct (lookup_lt_is_Some_2 l i Hi) as [b Hb].
  eapply wp_mono; [by eapply Hstep|]. intros r s' [-> ->]. split; [f_equal; lia|done].
Qed.

Lemma strtok_skip_spec s p d ds skip b Q :
  text s d ds -> delimiters ds skip -> chars skip -> at_ (bytes s) p (skip ++ [b]) ->
  b <> 0 -> b ∉ ds ->
  (length ds < fuel)%nat -> (length skip < fuel)%nat ->
  Q (p + Z.of_nat (length skip)) s -> wp (strtok_skip d p) Q s.
Proof using Type.
  intros Hd Hskip Hc Ht Hb0 Hb Hfd Hf HQ. unfold strtok_skip. apply (wp_walk _ _ skip); [done| |].
  - intros i c Hi. pose proof (chars_lookup _ _ _ Hc Hi). wp_step.
    eapply wp_rd_at; [done|by apply lookup_app_l_Some|]. destruct (Z.eqb_spec c 0); [lia|].
    wp_step. eapply is_delimiter_spec; [done..|].
    rewrite bool_decide_eq_true_2 by exact (Forall_lookup_1 _ _ _ _ Hskip Hi). by apply wp_ret.
  - wp_step. eapply (wp_rd_at _ _ (skip ++ [b])); [done|by apply list_lookup_middle|].
    destruct (Z.eqb_spec b 0); [done|]. wp_step. eapply is_delimiter_spec; [done..|].
    rewrite bool_decide_eq_false_2 by done. by apply wp_ret.
Qed.

Lemma strtok_cut_spec s p d ds tok rest Q :
  text s d ds -> token ds tok -> text s p (tok ++ rest) ->
  match rest with [] => True | b :: _ => b ∈ ds end ->
  (length ds < fuel)%nat -> (length tok < fuel)%nat ->
  Q tt (match rest with
        | [] => s <| strtok_last_pos := p + Z.of_nat (length tok) |>
        | _ => (s <| bytes := write_at (bytes s) (p + Z.of_nat (length tok)) [0] |>)
                  <| strtok_last_pos := p + Z.of_nat (length tok) + 1 |>
        end) ->
  wp (strtok_cut d p) Q s.
Proof using Type.
  intros Hd Htok [Hc Ht] Hrest Hfd Hf HQ. unfold strtok_cut. apply (wp_walk _ _ tok); [done| |].
  - intros i c Hi. assert ((tok ++ rest) !! i = Some c) as Hi' by (by apply lookup_app_l_Some).
    pose proof (chars_lookup _ _ _ Hc Hi'). wp_step.
    eapply wp_rd_at; [done|by apply lookup_app_l_Some|]. destruct (Z.eqb_spec c 0); [lia|].
    wp_step. eapply is_delimiter_spec; [done..|].
    rewrite bool_decide_eq_false_2 by exact (Forall_lookup_1 _ _ _ _ Htok Hi). by apply wp_ret.
  - wp_step. destruct rest as [|b rest].
    + rewrite app_nil_r in Ht. eapply wp_rd_at; [done|apply text_last|].
      change (0 =? 0) with true. unfold set_last_pos. by wp_run.
    + assert ((tok ++ b :: rest) !! length tok = Some b) as Hb by (by apply list_lookup_middle).
      pose proof (chars_lookup _ _ _ Hc Hb).
      eapply wp_rd_at; [done|by apply lookup_app_l_Some|]. destruct (Z.eqb_spec b 0); [lia|].
      wp_step. eapply is_delimiter_spec; [done|done|lia|]. rewrite bool_decide_eq_true_2 by done.
      wp_step. apply wp_wr_byte; [|lia|unfold set_last_pos; by wp_run].
      intros q Hq. replace q with (p + Z.of_nat (length tok)) by lia.
      exists b. apply (at_lookup _ _ ((tok ++ b :: rest) ++ [0])); [done|]. by apply lookup_app_l_Some.
Qed.

(** What is left after the cut. *)
Lemma strtok_cut_texts s p l1 tok rest d ds :
  text s d ds -> text s p (l1 ++ tok ++ rest) ->
  separate p (Z.of_nat (length (l1 ++ tok ++ rest)) + 1) d (Z.of_nat (length ds) + 1) ->
  let start := p + Z.of_nat (length l1) in
  let s' := match rest with
        | [] => s <| strtok_last_pos := start + Z.of_nat (length tok) |>
        | _ => (s <| bytes := write_at (bytes s) (start + Z.of_nat (length tok)) [0] |>)
                  <| strtok_last_pos := start + Z.of_nat (length tok) + 1 |>
        end in
  text s' start tok /\ text s' (strtok_last_pos s') (tail rest) /\ text s' d ds.
Proof using Type.
  intros [Hcd Hd] [Hc Ht] Hap start s'. unfold chars in Hc. rewrite !Forall_app in Hc.
  destruct Hc as (_ & Hctok & Hcrest). rewrite <- !app_assoc in Ht.
  apply at_app in Ht as [_ Ht]. apply at_app in Ht as [Htok Ht]. fold start in Htok, Ht.
  destruct rest as [|b rest].
  - split; [split; [done|]|split; [split; [done|]|done]]; [|exact Ht].
    apply at_app. done.
  - destruct Ht as [Hb Ht]. apply Forall_inv_tail in Hcrest.
    assert (bytes s' = write_at (bytes s) (start + Z.of_nat (length tok)) [0]) as Hbs by done.
    unfold separate in Hap. rewrite !length_app in Hap. simpl in Hap.
    split; [split; [done|]|split; [split; [done|]|split; [done|]]]; rewrite Hbs.
    + apply at_app. split; [|apply write_at_at]. apply text_write_at; [right; lia|done].
    + apply text_write_at; [left; simpl; lia|done].
    + apply text_write_at; [|done]. unfold separate. rewrite length_app. simpl. lia.
Qed.

(** C16: [strtok] on a string that starts with delimiters [skip], a non-empty
    token and then either ends or goes on with a delimiter answers the token,
    terminated in place, and remembers the rest as the string of the next call;
    the delimiter string is untouched. *)
Theorem strtok_spec s p d ds skip tok rest :
  text s d ds -> text s p (skip ++ tok ++ rest) -> p <> 0 ->
  delimiters ds skip -> token ds tok -> tok <> [] ->
  match rest with [] => True | b :: _ => b ∈ ds end ->
  separate p (Z.of_nat (length (skip ++ tok ++ rest)) + 1) d (Z.of_nat (length ds) + 1) ->
  (length ds < fuel)%nat -> (length (skip ++ tok ++ rest) < fuel)%nat ->
  wp (strtok p d)
     (fun r s' => r = p + Z.of_nat (length skip) /\ text s' r tok
        /\ text s' (strtok_last_pos s') (tail rest) /\ text s' d ds) s.
Proof using Type.
  intros Hd Ht Hp Hskip Htok Hne Hrest Hap Hfd Hf. unfold strtok.
  destruct (Z.eqb_spec p 0) as [|_]; [done|]. wp_step. unfold set_last_pos at 1. wp_step.
  set (s1 := s <| strtok_last_pos := p |>).
  assert (text s1 d ds) as Hd1 by exact Hd.
  assert (text s1 p (skip ++ tok ++ rest)) as Ht1 by exact Ht.
  assert (strtok_last_pos s1 = p) as Hl1 by done. clearbody s1. clear s Hd Ht.
  destruct tok as [|b tok]; [done|]. pose proof (Forall_inv Htok) as Hb.
  destruct Ht1 as [Hc Ht]. assert (chars skip) as Hcs by (apply Forall_app in Hc; tauto).
  rewrite !length_app in Hf.
  assert (exists b0, b0 <> 0 /\ bytes s1 !! p = Some b0) as (b0 & Hb0 & Hm).
  { destruct skip as [|b0 skip]; simpl in Ht; destruct Ht as [Hm _].
    - exists b. inversion Hc; subst; split; [lia|done].
    - exists b0. inversion Hcs; subst; split; [lia|done]. }
  do 3 wp_step. rewrite Hl1. destruct (Z.eqb_spec p 0) as [|_]; [done|]. wp_step.
  eapply wp_rd; [done|]. destruct (Z.eqb_spec b0 0); [done|]. wp_step. cbv iota. wp_step.
  assert (at_ (bytes s1) p (skip ++ [b])) as Hts.
  { replace ((skip ++ (b :: tok) ++ rest) ++ [0]) with ((skip ++ [b]) ++ tok ++ rest ++ [0]) in Ht
      by (by rewrite <- !app_assoc). apply at_app in Ht. tauto. }
  assert (0 < b < 256) as Hbr.
  { unfold chars in Hc. rewrite !Forall_app in Hc. destruct Hc as (_ & Hct & _). by inversion Hct. }
  eapply strtok_skip_spec; [done..|lia|done|done|lia|]. wp_step. unfold set_last_pos at 1. wp_step.
  wp_step. eapply wp_rd; [apply at_app in Hts as [_ [Hts _]]; exact Hts|].
  destruct (Z.eqb_spec b 0); [lia|]. wp_step.
  set (s2 := s1 <| strtok_last_pos := p + Z.of_nat (length skip) |>).
  assert (text s2 p (skip ++ (b :: tok) ++ rest)) as Ht2 by (by split).
  apply (strtok_cut_spec s2 _ d ds (b :: tok) rest); [done|done| |done|done|lia|].
  - destruct Ht2 as [Hc2 Ht2]. split; [apply Forall_app in Hc2; tauto|].
    rewrite <- app_assoc in Ht2. apply at_app in Ht2. tauto.
  - apply wp_ret. split; [done|]. by apply strtok_cut_texts.
Qed.
End cstring.

(** ** Witnesses *)

(** Memory that holds a path at 100, a copy buffer at 200 and ["/"] at 300. *)
Definition small_text : cstate_t :=
  mk_cstate (write_at (write_at (write_at ∅ 100 [47; 97; 98; 47; 99; 0]) 200 [1; 2; 3; 4])
               300 [47; 0]) 0.

Lemma small_path : text small_text 100 [47; 97; 98; 47; 99].
Proof.
  split; [repeat (constructor; [lia|]); constructor|].
  cbn [at_ app]. repeat (split; [vm_compute; reflexivity|]). exact I.
Qed.
Lemma small_slash : text small_text 300 [47].
Proof.
  split; [repeat (constructor; [lia|]); constructor|].
  cbn [at_ app]. repeat (split; [vm_compute; reflexivity|]). exact I.
Qed.

Example strlen_small : wp (strlen 9 100) (fun r s' => r = 5 /\ s' = small_text) small_text.
Proof. apply (strlen_spec 9 small_text 100 _ small_path). simpl. lia. Qed.

Lemma strcmp_spec_witness :
  wp (strcmp 9 300 100) (fun r s' => r = -1 /\ s' = small_text) small_text.
Proof.
  eapply wp_mono; [apply (strcmp_spec 9 small_text 300 100 _ _ small_slash small_path); simpl; lia|].
  intros r s' (-> & _ & ->). done.
Defined.

Lemma strncpy_spec_witness :
  wp (strncpy 9 200 300 3) (fun r s' => r = 200 /\ at_ (bytes s') 200 [47; 0; 0; 4]) small_text.
Proof.
  eapply wp_mono; [apply (strncpy_spec 9 small_text 200 300 _ 3 small_slash)|].
  - lia.
  - intros q Hq. assert (q = 200 \/ q = 201 \/ q = 202) as [-> | [-> | ->]] by lia;
      vm_compute; eexists; reflexivity.
  - left. simpl. lia.
  - simpl. lia.
  - intros r s' [-> ->]. split; [done|]. cbn [at_]. repeat (split; [vm_compute; reflexivity|]). exact I.
Defined.

Lemma strrchr_spec_witness :
  wp (strrchr 9 100 47) (fun r s' => r = 103 /\ s' = small_text) small_text.
Proof.
  eapply wp_mono; [apply (strrchr_spec 9 small_text 100 _ 47 small_path); [done|simpl; lia]|].
  intros r s' (-> & [[_ Hin]|(before & after & Heq & Hin & ->)]); [by destruct Hin; left|].
  split; [|done]. change (u8 47) with 47 in *.
  do 4 (destruct before as [|? before]; [try discriminate Heq; injection Heq as <-; try (by destruct Hin; set_solver)|
    try (injection Heq as <- Heq)]); [done|].
  destruct before as [|? before]; [discriminate Heq|]. injection Heq as _ Heq. by destruct before.
Defined.

Lemma strtok_spec_witness :
  wp (strtok 9 100 300) (fun r s' => r = 101 /\ text s' 101 [97; 98] /\ text s' (strtok_last_pos s') [99])
     small_text.
Proof.
  eapply wp_mono; [apply (strtok_spec 9 small_text 100 300 [47] [47] [97; 98] [47; 99] small_slash small_path)|].
  - done.
  - repeat constructor.
  - repeat (constructor; [set_solver|]). constructor.
  - done.
  - set_solver.
  - left. simpl. lia.
  - simpl. lia.
  - simpl. lia.
  - intros r s' (-> & H1 & H2 & _). done.
Defined.
