(* ===== verification/Memory.v ===== *)
(** * Memory by bytes

    Loads and stores of bytes, strings and little-endian words at virtual
    addresses, through the translation of [Paging]: how the sources reach user
    buffers and the frames they open through bounce pages.  An access to an
    address that is not mapped is a [Fault]. *)
From S2P Require Import Prelude Bitmap Paging.

Definition word_byte (w k : Z) : Z := Z.land (Z.shiftr w (8 * k)) 0xFF.
Definition with_byte (w k b : Z) : Z :=
  Z.lor (Z.land w (Z.lnot (Z.shiftl 0xFF (8 * k)))) (Z.shiftl b (8 * k)).

Definition load8 (va : Z) : M machine_t Z :=
  let! m := get in
  let! pa := of_option (translate m (u32 va)) in ret (word_byte (phys_word m pa) (pa mod 4)).
Definition store8 (va b : Z) : M machine_t unit :=
  let! m := get in
  let! pa := of_option (translate m (u32 va)) in
  modify (set_phys (fun ph => <[pa / 4 := with_byte (phys_word m pa) (pa mod 4) (u8 b)]> ph)).

Fixpoint read_memory (va : Z) (n : nat) : M machine_t (list Z) :=
  match n with
  | O => ret []
  | S n' => let! b := load8 va in let! l := read_memory (va + 1) n' in ret (b :: l)
  end.
Fixpoint write_memory (va : Z) (l : list Z) : M machine_t unit :=
  match l with
  | [] => ret tt
  | b :: l' => do! store8 va b in write_memory (va + 1) l'
  end.

(** The bytes of a 32-bit word in memory, and back. *)
Definition word_bytes (w : Z) : list Z := [word_byte w 0; word_byte w 1; word_byte w 2; word_byte w 3].
Definition bytes_word (l : list Z) : Z :=
  match l with
  | [a; b; c; d] => Z.lor (Z.lor (Z.lor a (Z.shiftl b 8)) (Z.shiftl c 16)) (Z.shiftl d 24)
  | _ => 0
  end.
Definition load32 (va : Z) : M machine_t Z := let! l := read_memory va 4 in ret (bytes_word l).
Definition store32 (va w : Z) : M machine_t unit := write_memory va (word_bytes w).

(** [memcpy(dst, src, n)] between buffers that do not overlap. *)
Definition copy_memory (dst src n : Z) : M machine_t unit :=
  let! l := read_memory src (Z.to_nat n) in write_memory dst l.

(** The characters of the C string at [va], without the terminator. *)
Fixpoint read_string (fuel : nat) (va : Z) : M machine_t (list Z) :=
  match fuel with
  | O => fun _ => NoFuel
  | S fuel' =>
      let! b := load8 va in
      if b =? 0 then ret [] else let! l := read_string fuel' (va + 1) in ret (b :: l)
  end.

(** ** Bytes of words *)

Lemma testbit_0xFF i : 0 <= i -> Z.testbit 0xFF i = (i <? 8).
Proof. intros Hi. change 0xFF with (Z.ones 8). rewrite Z.testbit_ones by lia. by destruct (Z.leb_spec 0 i); [|lia]. Qed.

Lemma word_byte_testbit w k i : 0 <= i -> 0 <= k -> Z.testbit (word_byte w k) i = Z.testbit w (i + 8 * k) && (i <? 8).
Proof. intros Hi Hk. unfold word_byte. rewrite Z.land_spec, Z.shiftr_spec, testbit_0xFF by lia. done. Qed.

Lemma word_byte_range w k : 0 <= word_byte w k < 256.
Proof. unfold word_byte. change 0xFF with (Z.ones 8). rewrite Z.land_ones by lia. apply Z.mod_pos_bound. lia. Qed.

Lemma word_byte_with w k b j :
  0 <= k -> 0 <= j -> 0 <= b < 256 ->
  word_byte (with_byte w k b) j = if j =? k then b else word_byte w j.
Proof.
  intros Hk Hj Hb. apply Z.bits_inj'. intros i Hi.
  rewrite word_byte_testbit by done. unfold with_byte.
  rewrite Z.lor_spec, Z.land_spec, Z.lnot_spec, !Z.shiftl_spec by lia.
  destruct (Z.ltb_spec i 8).
  - rewrite andb_true_r. destruct (Z.eqb_spec j k) as [->|Hne].
    + replace (i + 8 * k - 8 * k) with i by lia. rewrite testbit_0xFF by done.
      destruct (Z.ltb_spec i 8); [|lia]. by rewrite andb_false_r.
    + rewrite word_byte_testbit by done. destruct (Z.ltb_spec i 8); [|lia]. rewrite andb_true_r.
      destruct (decide (j < k)).
      * rewrite !(Z.testbit_neg_r _ (i + 8 * j - 8 * k)) by lia. by rewrite andb_true_r, orb_false_r.
      * rewrite testbit_0xFF by lia. destruct (Z.ltb_spec (i + 8 * j - 8 * k) 8); [lia|].
        rewrite (testbit_above 8 b) by lia. by rewrite andb_true_r, orb_false_r.
  - rewrite andb_false_r. symmetry. destruct (j =? k).
    + apply (testbit_above 8); lia.
    + rewrite word_byte_testbit by done. destruct (Z.ltb_spec i 8); [lia|]. by rewrite andb_false_r.
Qed.

Lemma bytes_word_bytes w : 0 <= w < 2 ^ 32 -> bytes_word (word_bytes w) = w.
Proof.
  intros Hw. apply Z.bits_inj'. intros i Hi. unfold bytes_word, word_bytes.
  rewrite !Z.lor_spec, !Z.shiftl_spec by lia.
  assert (forall k, 0 <= k -> Z.testbit (word_byte w k) (i - 8 * k) =
            Z.testbit w i && (8 * k <=? i) && (i <? 8 * k + 8)) as Hb.
  { intros k Hk. destruct (Z.leb_spec (8 * k) i).
    - rewrite word_byte_testbit by lia. replace (i - 8 * k + 8 * k) with i by lia. rewrite andb_true_r.
      f_equal. destruct (Z.ltb_spec (i - 8 * k) 8), (Z.ltb_spec i (8 * k + 8)); lia.
    - rewrite Z.testbit_neg_r by lia. by rewrite andb_false_r. }
  pose proof (Hb 0) as H0. pose proof (Hb 1) as H1. pose proof (Hb 2) as H2. pose proof (Hb 3) as H3.
  change (8 * 0) with 0 in H0. change (8 * 1) with 8 in H1. change (8 * 2) with 16 in H2.
  change (8 * 3) with 24 in H3. rewrite Z.sub_0_r in H0. rewrite H0, H1, H2, H3 by lia.
  destruct (Z.leb_spec 32 i); [rewrite (testbit_above 32 w i) by lia; done|].
  destruct (Z.testbit w i); [|done]. cbn [andb].
  destruct (Z.leb_spec 0 i), (Z.ltb_spec i 8), (Z.leb_spec 8 i), (Z.ltb_spec i 16), (Z.leb_spec 16 i),
    (Z.ltb_spec i 24), (Z.leb_spec 24 i), (Z.ltb_spec i 32); done || lia.
Qed.

(** ** Pages by bytes *)

(** Byte [o] of frame [f]. *)
Definition frame_byte (m : machine_t) (f o : Z) : Z := word_byte (frame_word m f (o / 4)) (o mod 4).
(** [n] bytes of frame [f] from offset [o] on. *)
Definition frame_bytes (m : machine_t) (f o : Z) (n : nat) : list Z := frame_byte m f <$> seqZ o (Z.of_nat n).

(** The virtual page [vp] of the current space [d] shows frame [f], which is
    neither the directory nor the page table of [vp]: stores to the page do not
    change where it is. *)
Record page_at (m : machine_t) (d vp f : Z) : Prop := {
  pg_self : self_mapped m d;
  pg_range : 0 <= vp < 2 ^ 20;
  pg_frame : vpage_frame m d vp = Some f;
  pg_dir : f <> d;
  pg_table : f <> frame_of (frame_word m d (vp / 1024));
}.

(** From [m] to [m'] the bytes [l] are stored at offset [o] of frame [f]. *)
Record bytes_written (f o : Z) (l : list Z) (m m' : machine_t) : Prop := {
  bw_regs : same_regs m m';
  bw_bitmap : memory_bitmap m' = memory_bitmap m;
  bw_other : forall g i, 0 <= i < 1024 -> g <> f -> frame_word m' g i = frame_word m g i;
  bw_bytes : forall q, 0 <= q < PAGE_SIZE ->
    frame_byte m' f q = if decide (o <= q < o + Z.of_nat (length l))
                        then default 0 (l !! Z.to_nat (q - o)) else frame_byte m f q;
}.

Lemma bytes_written_nil f o m : bytes_written f o [] m m.
Proof. split; [by split|done|done|]. intros q Hq. rewrite decide_False; [done|]. simpl. lia. Qed.

(** [g] is the only frame in which [m] and [m'] differ. *)
Definition differ_in (g : Z) (m m' : machine_t) : Prop :=
  forall h i, 0 <= i < 1024 -> h <> g -> frame_word m' h i = frame_word m h i.

(** Changing a frame that is no table of a page keeps the page where it is. *)
Lemma page_at_other m m' d vp f g :
  page_at m d vp f -> self_mapped m' d -> differ_in g m m' ->
  g <> d -> g <> frame_of (frame_word m d (vp / 1024)) -> page_at m' d vp f.
Proof.
  intros [Hs Hvp Hf Hd Ht] Hs' Hw Hgd Hgt.
  assert (forall i, 0 <= i < 1024 -> frame_word m' d i = frame_word m d i) as E by (intros; by apply Hw).
  assert (0 <= vp / 1024 < 1024) by zlia.
  split; [done|done| |done|by rewrite E by done].
  rewrite <- Hf. unfold vpage_frame. rewrite E by done. destruct (present _); [|done].
  by rewrite Hw by (done || apply Z.mod_pos_bound; lia).
Qed.

Lemma self_mapped_written m m' d f o l : self_mapped m d -> f <> d -> bytes_written f o l m m' -> self_mapped m' d.
Proof.
  intros Hs Hf Hw. eapply self_mapped_transfer; [exact Hs|apply Hw|]. by apply (bw_other _ _ _ _ _ Hw).
Qed.

(** A store to one page keeps another page, unless it goes to its page table. *)
Lemma page_at_apart m m' d vp f g o l :
  page_at m d vp f -> bytes_written g o l m m' -> g <> d -> g <> frame_of (frame_word m d (vp / 1024)) ->
  page_at m' d vp f.
Proof.
  intros Hp Hw Hd Ht. eapply page_at_other; [exact Hp| |exact (bw_other _ _ _ _ _ Hw)|done|done].
  eapply self_mapped_written; [apply Hp|done|exact Hw].
Qed.
Lemma page_at_written m m' d vp f o l : page_at m d vp f -> bytes_written f o l m m' -> page_at m' d vp f.
Proof. intros Hp Hw. eapply page_at_apart; [exact Hp|exact Hw|apply Hp|apply Hp]. Qed.

Lemma bytes_written_app f o l1 l2 m m1 m2 :
  bytes_written f o l1 m m1 -> bytes_written f (o + Z.of_nat (length l1)) l2 m1 m2 -> bytes_written f o (l1 ++ l2) m m2.
Proof.
  intros [R1 B1 W1 Y1] [R2 B2 W2 Y2]. split; [by transitivity m1|congruence| |].
  - intros g i Hi Hg. by rewrite W2, W1.
  - intros q Hq. rewrite Y2, Y1 by done. rewrite length_app.
    destruct (decide (o <= q < o + Z.of_nat (length l1))).
    + rewrite decide_False by lia. rewrite decide_True by lia. by rewrite lookup_app_l by lia.
    + destruct (decide (o + Z.of_nat (length l1) <= q < o + Z.of_nat (length l1) + Z.of_nat (length l2))).
      * rewrite decide_True by lia. rewrite lookup_app_r by lia. do 2 f_equal. lia.
      * by rewrite decide_False by lia.
Qed.

Lemma translate_page m d vp f o :
  page_at m d vp f -> 0 <= o < PAGE_SIZE -> translate m (u32 (vp * PAGE_SIZE + o)) = Some (f * PAGE_SIZE + o).
Proof.
  intros [Hs Hvp Hf _ _] Hoff. rewrite u32_small by (unfold PAGE_SIZE in *; lia).
  rewrite (translate_vpage m d) by (done || unfold PAGE_SIZE in *; lia).
  replace ((vp * PAGE_SIZE + o) / PAGE_SIZE) with vp by (unfold PAGE_SIZE in *; zlia).
  rewrite Hf. simpl. do 2 f_equal. unfold PAGE_SIZE in *. zlia.
Qed.

Lemma frame_offset f o : 0 <= o < PAGE_SIZE -> (f * PAGE_SIZE + o) / 4 = f * 1024 + o / 4 /\ (f * PAGE_SIZE + o) mod 4 = o mod 4.
Proof. unfold PAGE_SIZE. intros. split; zlia. Qed.

Lemma phys_word_offset m f o : 0 <= o < PAGE_SIZE -> phys_word m (f * PAGE_SIZE + o) = frame_word m f (o / 4).
Proof. intros Ho. unfold phys_word, frame_word. by rewrite (proj1 (frame_offset f o Ho)). Qed.

Lemma wp_load8_page m d vp f o Q :
  page_at m d vp f -> 0 <= o < PAGE_SIZE -> Q (frame_byte m f o) m -> wp (load8 (vp * PAGE_SIZE + o)) Q m.
Proof.
  intros Hp Ho HQ. unfold load8. wp_go; [by eapply translate_page|]. wp_go.
  rewrite phys_word_offset, (proj2 (frame_offset f o Ho)) by done. exact HQ.
Qed.

Lemma wp_store8_page m d vp f o b Q :
  page_at m d vp f -> 0 <= o < PAGE_SIZE -> 0 <= b < 256 ->
  (forall m', bytes_written f o [b] m m' -> Q tt m') -> wp (store8 (vp * PAGE_SIZE + o) b) Q m.
Proof.
  intros Hp Ho Hb HQ. unfold store8. wp_go; [by eapply translate_page|]. wp_go.
  rewrite phys_word_offset, (proj1 (frame_offset f o Ho)), (proj2 (frame_offset f o Ho)) by done.
  replace (u8 b) with b by (unfold u8; by rewrite Z.mod_small by lia).
  change (set_phys _ m) with (upd f (o / 4) (with_byte (frame_word m f (o / 4)) (o mod 4) b) m).
  assert (0 <= o / 4 < 1024) as Hi by (unfold PAGE_SIZE in *; zlia).
  apply HQ. split; [apply same_regs_upd|done| |].
  - intros g i Hi' Hg. apply frame_word_upd_frame; [done|done|congruence].
  - intros q Hq. unfold frame_byte. assert (0 <= q / 4 < 1024) by (unfold PAGE_SIZE in *; zlia).
    rewrite frame_word_upd by done. cbn [length]. case_bool_decide as E.
    + destruct E as [_ E]. rewrite word_byte_with by zlia. rewrite E. destruct (Z.eqb_spec (q mod 4) (o mod 4)).
      * assert (q = o) as -> by zlia. rewrite decide_True by lia. by rewrite Z.sub_diag.
      * rewrite decide_False; [done|]. intros Hqo. assert (q = o) by lia. congruence.
    + rewrite decide_False; [done|]. intros Hqo. apply E. split; [done|]. f_equal. lia.
Qed.

(** Storing and loading a list of bytes inside the page. *)
Lemma wp_write_page l m d vp f o Q :
  page_at m d vp f -> 0 <= o -> o + Z.of_nat (length l) <= PAGE_SIZE -> Forall (fun b => 0 <= b < 256) l ->
  (forall m', bytes_written f o l m m' -> Q tt m') -> wp (write_memory (vp * PAGE_SIZE + o) l) Q m.
Proof.
  revert m o Q. induction l as [|b l IH]; intros m o Q Hp Ho Hl Hb HQ; cbn [write_memory].
  - apply wp_ret, HQ, bytes_written_nil.
  - cbn [length] in Hl. wp_step. apply (wp_store8_page m d vp f); [done|lia|by apply Forall_inv in Hb|].
    intros m1 Hm1. rewrite <- Z.add_assoc.
    apply (IH m1); [by eapply page_at_written|lia|lia|by apply Forall_inv_tail in Hb|].
    intros m2 Hm2. apply HQ. by apply (bytes_written_app f o [b] l m m1 m2).
Qed.

Lemma frame_bytes_cons m f o n : frame_bytes m f o (S n) = frame_byte m f o :: frame_bytes m f (o + 1) n.
Proof. unfold frame_bytes. rewrite seqZ_cons by lia. cbn [fmap list_fmap]. by replace (Z.pred (Z.of_nat (S n))) with (Z.of_nat n) by lia. Qed.

Lemma frame_bytes_app m f o n k :
  frame_bytes m f o (n + k) = frame_bytes m f o n ++ frame_bytes m f (o + Z.of_nat n) k.
Proof. unfold frame_bytes. rewrite Nat2Z.inj_add, seqZ_app, fmap_app by lia. done. Qed.

Lemma length_frame_bytes m f o n : length (frame_bytes m f o n) = n.
Proof. unfold frame_bytes. rewrite length_fmap, length_seqZ. lia. Qed.

Lemma lookup_frame_bytes m f o n i :
  (i < n)%nat -> frame_bytes m f o n !! i = Some (frame_byte m f (o + Z.of_nat i)).
Proof. intros Hi. unfold frame_bytes. rewrite list_lookup_fmap, lookup_seqZ_lt by lia. done. Qed.

Lemma wp_read_page n m d vp f o Q :
  page_at m d vp f -> 0 <= o -> o + Z.of_nat n <= PAGE_SIZE -> Q (frame_bytes m f o n) m ->
  wp (read_memory (vp * PAGE_SIZE + o) n) Q m.
Proof.
  revert o Q. induction n as [|n IH]; intros o Q Hp Ho Hn HQ; cbn [read_memory].
  - apply wp_ret. exact HQ.
  - wp_step. apply (wp_load8_page m d vp f); [done|lia|]. wp_step. rewrite <- Z.add_assoc.
    apply IH; [done|lia|lia|]. wp_step. by rewrite <- frame_bytes_cons.
Qed.

(** What has been stored is what is there; bytes apart from it are as before. *)
Lemma frame_bytes_written f o l m m' :
  bytes_written f o l m m' -> 0 <= o -> o + Z.of_nat (length l) <= PAGE_SIZE -> frame_bytes m' f o (length l) = l.
Proof.
  intros Hw Ho Hl. apply list_eq. intros i. destruct (decide (i < length l)%nat) as [Hi|Hi].
  - rewrite lookup_frame_bytes by done. rewrite (bw_bytes _ _ _ _ _ Hw) by lia. rewrite decide_True by lia.
    replace (Z.to_nat (o + Z.of_nat i - o)) with i by lia. destruct (lookup_lt_is_Some_2 l i Hi) as [b ->]. done.
  - rewrite !lookup_ge_None_2 by (rewrite ?length_frame_bytes; lia). done.
Qed.

(** Bytes that are there already: no byte changes. *)
Lemma bytes_written_same f o l o' m m' :
  bytes_written f o l m m' -> 0 <= o -> o + Z.of_nat (length l) <= PAGE_SIZE -> frame_bytes m f o (length l) = l ->
  bytes_written f o' [] m m'.
Proof.
  intros [R B W Y] Ho Hl Hm. split; [done|done|done|]. intros q Hq. rewrite (decide_False (P := o' <= q < _)) by (simpl; lia).
  rewrite Y by done. case_decide as Hin; [|done]. rewrite <- Hm, lookup_frame_bytes by lia. simpl.
  by replace (o + Z.of_nat (Z.to_nat (q - o))) with q by lia.
Qed.
Lemma bytes_written_then_same f o l o' m m1 m2 :
  bytes_written f o l m m1 -> bytes_written f o' [] m1 m2 -> bytes_written f o l m m2.
Proof.
  intros [R1 B1 W1 Y1] [R2 B2 W2 Y2]. split; [by transitivity m1|congruence| |].
  - intros g i Hi Hg. by rewrite W2, W1.
  - intros q Hq. rewrite Y2 by done. rewrite decide_False by (simpl; lia). by apply Y1.
Qed.

Lemma frame_bytes_apart f o l m m' o' n :
  bytes_written f o l m m' -> 0 <= o' -> o' + Z.of_nat n <= PAGE_SIZE ->
  o' + Z.of_nat n <= o \/ o + Z.of_nat (length l) <= o' -> frame_bytes m' f o' n = frame_bytes m f o' n.
Proof.
  intros Hw Ho Hn Hap. apply list_eq. intros i. destruct (decide (i < n)%nat) as [Hi|Hi].
  - rewrite !lookup_frame_bytes by done. rewrite (bw_bytes _ _ _ _ _ Hw) by lia. by rewrite decide_False by lia.
  - rewrite !lookup_ge_None_2 by (rewrite ?length_frame_bytes; lia). done.
Qed.

Lemma frame_bytes_differ g m m' f o n :
  differ_in g m m' -> f <> g -> 0 <= o -> o + Z.of_nat n <= PAGE_SIZE -> frame_bytes m' f o n = frame_bytes m f o n.
Proof.
  intros Hw Hg Ho Hn. apply list_eq. intros i. destruct (decide (i < n)%nat) as [Hi|Hi].
  - rewrite !lookup_frame_bytes by done. unfold frame_byte.
    by rewrite Hw by (done || unfold PAGE_SIZE in *; zlia).
  - rewrite !lookup_ge_None_2 by (rewrite ?length_frame_bytes; lia). done.
Qed.

(** Words. *)
Lemma word_bytes_range w : Forall (fun b => 0 <= b < 256) (word_bytes w).
Proof. repeat constructor; apply word_byte_range. Qed.

Lemma wp_store32_page m d vp f o w Q :
  page_at m d vp f -> 0 <= o -> o + 4 <= PAGE_SIZE ->
  (forall m', bytes_written f o (word_bytes w) m m' -> Q tt m') -> wp (store32 (vp * PAGE_SIZE + o) w) Q m.
Proof. intros Hp Ho Hl HQ. unfold store32. apply (wp_write_page _ m d vp f); [done|done|done|apply word_bytes_range|done]. Qed.

Lemma wp_load32_page m d vp f o w Q :
  page_at m d vp f -> 0 <= o -> o + 4 <= PAGE_SIZE -> frame_bytes m f o 4 = word_bytes w -> 0 <= w < 2 ^ 32 ->
  Q w m -> wp (load32 (vp * PAGE_SIZE + o)) Q m.
Proof.
  intros Hp Ho Hl Hw Hr HQ. unfold load32. wp_step. apply (wp_read_page 4 m d vp f); [done|done|simpl; lia|].
  wp_step. by rewrite Hw, bytes_word_bytes.
Qed.

(** ** Bounce pages *)

(** From [m] to [m'] the bytes [l] are stored at offset [o] of frame [f], which
    the bounce page [k] of the space [d] shows. *)
Record page_written (d : Z) (k : nat) (f o : Z) (l : list Z) (m m' : machine_t) : Prop := {
  pw_open : open_dir m' d k f;
  pw_regs : same_regs m m';
  pw_bitmap : memory_bitmap m' = memory_bitmap m;
  pw_other : forall g i, 0 <= i < 1024 -> g <> f -> frame_word m' g i = frame_word m g i;
  pw_bytes : forall q, 0 <= q < PAGE_SIZE ->
    frame_byte m' f q = if decide (o <= q < o + Z.of_nat (length l))
                        then default 0 (l !! Z.to_nat (q - o)) else frame_byte m f q;
}.

Lemma page_at_open m d k f : open_dir m d k f -> page_at m d (bounce_vp k) f.
Proof.
  intros Ho. pose proof (open_dir_lt _ _ _ _ Ho) as Hk. destruct Ho as [[[Hs _] _ _] _ Hw Hd Hb].
  split; [done|unfold bounce_vp; lia|done|done|by rewrite bounce_table_vpage].
Qed.

Lemma wp_write_open l m d k f o Q :
  open_dir m d k f -> 0 <= o -> o + Z.of_nat (length l) <= PAGE_SIZE -> Forall (fun b => 0 <= b < 256) l ->
  (forall m', page_written d k f o l m m' -> Q tt m') ->
  wp (write_memory (bounce_vp k * PAGE_SIZE + o) l) Q m.
Proof.
  intros Hd Ho Hl Hb HQ. apply (wp_write_page l m d (bounce_vp k) f); [by apply page_at_open|done|done|done|].
  intros m' [R B W Y]. apply HQ. split; try done.
  apply (open_dir_transfer m m' d k f f); [done|done|done|apply Hd|apply Hd|done].
Qed.
