(* ===== verification/Places.v ===== *)
(** * Where a task stands in the queues

    How many tasks are before a ready one, and what adding, removing, picking and
    boosting tasks (src/task_manager.c) make of that. *)
From S2P Require Import Prelude Keeps Bitmap Paging KernelHeap Tasks TaskManager.

(** [Some p]: [x] is in the top queue and at most [p] tasks are before it;
    [None]: it is in one of the four ready queues. *)
Definition stands (x : Z) (qs : list (list Z)) (k : option nat) : Prop :=
  match k with
  | Some p => exists l1 l2, qs !! 0%nat = Some (l1 ++ x :: l2) /\ (length l1 <= p)%nat
  | None => exists i q, (i < 4)%nat /\ qs !! i = Some q /\ x ∈ q
  end.

(** One task less is before it. *)
Definition advanced (k k' : option nat) : Prop :=
  match k, k' with Some p, Some p' => p = S p' | None, None => True | _, _ => False end.

Lemma stands_in x qs k : stands x qs k -> exists i q, (i < 4)%nat /\ qs !! i = Some q /\ x ∈ q.
Proof.
  destruct k as [p|]; [|done]. intros (l1 & l2 & H & _). exists 0%nat, (l1 ++ x :: l2).
  split_and!; [lia|done|]. apply elem_of_app. right. by left.
Qed.

Lemma stands_push x qs i q y k : qs !! i = Some q -> stands x qs k -> stands x (<[i := q ++ [y]]> qs) k.
Proof.
  intros Hi. pose proof (lookup_lt_Some _ _ _ Hi) as Hl. destruct k as [p|]; cbn.
  - intros (l1 & l2 & H & Hp). destruct (decide (i = 0%nat)) as [->|].
    + rewrite Hi in H. injection H as ->. exists l1, (l2 ++ [y]). by rewrite list_lookup_insert_eq, <- app_assoc by done.
    + exists l1, l2. by rewrite list_lookup_insert_ne.
  - intros (j & q' & Hj & H & Hx). destruct (decide (i = j)) as [->|].
    + rewrite Hi in H. injection H as ->. exists j, (q' ++ [y]). rewrite list_lookup_insert_eq, elem_of_app by done. tauto.
    + exists j, q'. by rewrite list_lookup_insert_ne.
Qed.

Lemma stands_purge x qs y k : x <> y -> stands x qs k -> stands x (purge y qs) k.
Proof.
  intros Hxy. unfold purge. destruct k as [p|]; cbn; setoid_rewrite list_lookup_fmap.
  - intros (l1 & l2 & H & Hp). exists (filter (fun z : Z => z <> y) l1), (filter (fun z : Z => z <> y) l2).
    rewrite H. cbn. rewrite list.filter_app, filter_cons_True by done. split; [done|].
    pose proof (length_filter (fun z : Z => z <> y) l1). lia.
  - intros (j & q & Hj & H & Hx). exists j, (filter (fun z : Z => z <> y) q). rewrite H.
    split_and!; [done|done|]. by apply list_elem_of_filter.
Qed.

Lemma stands_first x qs k i : stands x qs k -> first_ready i (take 4 qs) <> None.
Proof.
  intros Hs. apply (first_ready_some _ _ x), list_elem_of_In, in_concat.
  apply stands_in in Hs as (j & q & Hj & H & Hx).
  exists q. split; apply list_elem_of_In; [|done]. apply list_elem_of_lookup. exists j. by rewrite lookup_take_lt.
Qed.

(** Somebody else is taken. *)
Lemma stands_pop x qs k i y :
  length qs = 6%nat -> first_ready 0 (take 4 qs) = Some (i, y) -> x <> y -> stands x qs k ->
  exists k', advanced k k' /\ stands x (<[Z.to_nat i := tail (default [] (qs !! Z.to_nat i))]> qs) k'.
Proof.
  intros Hl Hf Hxy. destruct qs as [|q0 qs]; [done|]. destruct k as [p|].
  - intros (l1 & l2 & [= ->] & Hp). destruct l1 as [|z l1]; simpl in Hf; injection Hf as <- <-; [done|].
    simpl in Hp. exists (Some (p - 1)%nat). split; [simpl; lia|]. exists l1, l2. split; [done|lia].
  - intros (j & q & Hj & H & Hx). exists None. split; [done|].
    destruct (first_ready_spec _ _ _ _ Hf) as (Hi & q' & Hq). rewrite Z.sub_0_r in Hq.
    rewrite lookup_take_Some in Hq. destruct Hq as [Hq _]. rewrite Hq. cbn [default tail].
    destruct (decide (j = Z.to_nat i)) as [->|].
    + rewrite Hq in H. injection H as <-. exists (Z.to_nat i), q'.
      rewrite list_lookup_insert_eq by (by eapply lookup_lt_Some). by apply elem_of_cons in Hx as [->|].
    + exists j, q. by rewrite list_lookup_insert_ne.
Qed.

(** The place after a boost of a system with [n] tasks. *)
Definition boosted (n : nat) (k : option nat) : option nat := Some (default (n - 1)%nat k).

Lemma stands_boost x q0 q1 q2 q3 q4 q5 n k :
  (length (q0 ++ q1 ++ q2 ++ q3) <= n)%nat -> stands x [q0; q1; q2; q3; q4; q5] k ->
  stands x [q0 ++ q1 ++ q2 ++ q3; []; []; []; q4; q5] (boosted n k).
Proof.
  intros Hn. destruct k as [p|]; cbn.
  - intros (l1 & l2 & [= ->] & Hp). exists l1, (l2 ++ q1 ++ q2 ++ q3). by rewrite <- app_assoc.
  - intros (j & q & Hj & H & Hx). assert (x ∈ q0 ++ q1 ++ q2 ++ q3) as Hin.
    { rewrite !elem_of_app. destruct j as [|[|[|[|j]]]]; [injection H as ->; tauto..|lia]. }
    apply list_elem_of_split in Hin as (l1 & l2 & E). exists l1, l2. rewrite E in *. split; [done|].
    rewrite length_app in Hn. simpl in Hn. lia.
Qed.

(** A task [y] other than [x] leaves its queue for queue [i]. *)
Lemma stands_moved x y qs i q k :
  x <> y -> purge y qs !! i = Some q -> stands x qs k -> stands x (<[i := q ++ [y]]> (purge y qs)) k.
Proof. intros Hxy Hi Hx. apply stands_push; [done|]. by apply stands_purge. Qed.
