(* ===== verification/Scheduler.v ===== *)
(** * The scheduler as a state machine

    What enters the kernel (ticks, device interrupts, calls that wait, end or
    signal a task), the way back out through the interrupt stubs
    (src/isr_stub_handler.s, src/irq_stub_handler.s, src/task_switch.s), and the
    invariant that every such step keeps: each task is in the one place its state
    says, and exactly the task that has the processor is running. *)
From S2P Require Import Prelude Keeps Bitmap Paging KernelHeap Tasks TaskManager Places Memory.

Section scheduler.
Context {old : OldNodes}.
(** As in [TaskManager]. *)
Variable base : Z.
Variable fuel : nat.

(** ** Leaving the kernel *)

(** The instruction [int 0x80] is two bytes long; the saved eip is at offset 52
    of the frame. *)
Definition SYSCALL_INSTRUCTION_SIZE : Z := 2.
Definition FRAME_EIP : Z := 52.

(** The double word that task_manager.inc calls [syscall_retry] starts in the
    upper bytes of [next]: its structure has no padding. *)
Definition retry_word_set (t : task_t) : bool := negb (next t / 2 ^ 8 =? 0) || syscall_retry t.

(** The half that loads the task [next_task]; a call to be retried is rewound. *)
Definition task_manager_load_next (next_task : Z) : M os_t (Z * Z) :=
  let! t := load_task next_task in
  do! update_manager (fun m => m <| task_current := task_next m |>) in
  do! in_machine (modify (set_cr3 (task_cr3 t))) in
  do! (if retry_word_set t then
         in_machine (
           let! eip := load32 (task_esp t + FRAME_EIP) in
           store32 (task_esp t + FRAME_EIP) (u32 (eip - SYSCALL_INSTRUCTION_SIZE)))
       else ret tt) in
  ret (stack_top t, task_esp t).
(** From the frame at [esp] of the task that was interrupted to the next one;
    the answer is the new tss.esp0 and the stack the registers are popped from. *)
Definition task_manager_task_switch (esp : Z) : M os_t (Z * Z) :=
  let! m := manager in
  do! (if task_current m =? 0 then ret tt
       else update_task (task_current m) (fun t => t <| task_esp := esp |>)) in
  task_manager_load_next (task_next m).

(** [None]: the registers are popped from the frame at [esp] itself. *)
Definition irq_stub_finish (esp : Z) : M os_t (option (Z * Z)) :=
  let! m := manager in
  if task_needs_switching m then
    do! update_manager (fun m => m <| task_needs_switching := false |>) in
    let! r := task_manager_task_switch esp in ret (Some r)
  else ret None.

(** After a call the directory of the caller is loaded, which execve changes. *)
Definition isr_stub_finish (esp : Z) : M os_t (option (Z * Z)) :=
  let! m := manager in
  let! t := load_task (task_current m) in
  do! in_machine (modify (set_cr3 (task_cr3 t))) in
  irq_stub_finish esp.

(** ** Entering the kernel *)

Inductive kernel_event : Type :=
| EV_TICK (kernel_mode : bool)                          (* timer_irq_handler *)
| EV_WAKE (reason : task_wait_reason_t) (object : Z)    (* keyboard_irq_handler *)
| EV_BLOCK (reason : task_wait_reason_t) (object : Z)   (* read, write, waitpid *)
| EV_EXIT (code : Z)                                    (* exit, fatal exceptions *)
| EV_KILL (task code : Z)                               (* kill of another task *)
| EV_SIGNAL (task : Z).                                 (* kill with a handler *)

(** The part of a call that concerns the scheduler. *)
Definition block_current (reason : task_wait_reason_t) (object : Z) : M os_t unit :=
  let! m := manager in
  do! task_manager_block_task fuel (task_current m) reason object in
  do! task_manager_yield_current base fuel in ret tt.
Definition exit_current (code : Z) : M os_t unit :=
  let! m := manager in
  do! task_manager_exit_task base fuel (task_current m) code in
  do! task_manager_yield_current base fuel in ret tt.
Definition kill_other (task code : Z) : M os_t unit :=
  do! task_manager_exit_task base fuel task code in ret tt.
Definition signal_other (task : Z) : M os_t unit :=
  let! t := load_task task in
  if bool_decide (task_state t = TASK_STATE_BLOCKED)
  then do! task_manager_unblock_task fuel task in ret tt else ret tt.

Definition run_event (e : kernel_event) : M os_t unit :=
  match e with
  | EV_TICK kernel_mode => timer_irq_handler base fuel kernel_mode
  | EV_WAKE reason object => task_manager_wake_blocked_on fuel reason object
  | EV_BLOCK reason object => block_current reason object
  | EV_EXIT code => exit_current code
  | EV_KILL task code => kill_other task code
  | EV_SIGNAL task => signal_other task
  end.

Definition finish (e : kernel_event) (esp : Z) : M os_t (option (Z * Z)) :=
  match e with
  | EV_TICK _ | EV_WAKE _ _ => irq_stub_finish esp
  | _ => isr_stub_finish esp
  end.
Definition kernel_entry (e : kernel_event) (esp : Z) : M os_t (option (Z * Z)) :=
  do! run_event e in finish e esp.

(** ** The invariant *)

(** Who has the processor, or gets it when the kernel is left. *)
Definition runner (s : os_t) : Z :=
  let m := task_manager s in if task_needs_switching m then task_next m else task_current m.

(** The place of a task: the ready queues, the blocked queue, the zombie queue
    or the processor.  A zombie is in no queue when memory ran out while its
    children were given away. *)
Definition placed (qs : list (list Z)) (run x : Z) (c : task_t) : Prop :=
  match task_state c with
  | TASK_STATE_READY => x ∈ concat (take 4 qs)
  | TASK_STATE_BLOCKED => x ∈ default [] (qs !! 4%nat)
  | TASK_STATE_ZOMBIE => x ∈ default [] (qs !! 5%nat) \/ x ∉ concat qs
  | TASK_STATE_RUNNING => x = run
  | TASK_STATE_TERMINATED => False
  end.

(** The idle task never waits and never ends. *)
Definition idling (c : task_t) : Prop :=
  (task_state c = TASK_STATE_READY \/ task_state c = TASK_STATE_RUNNING) /\ 0 <= task_queue_level c < 4.

Record orderly (s : os_t) (qs : list (list Z)) (run : Z) : Prop := {
  or_queues : queues s qs;
  or_placed : forall x c, cores s !! x = Some c -> x <> task_idle (task_manager s) -> placed qs run x c;
  or_idle : exists c, cores s !! task_idle (task_manager s) = Some c /\ idling c;
  or_null : cores s !! 0 = None;
}.

(** What the total correctness of the end of a task and of a schedule step needs
    besides: the parents are tasks, and no address space waits to be freed. *)
Record calm (s : os_t) : Prop := {
  ca_parents : forall x c, cores s !! x = Some c ->
    parent c = 0 \/ parent c <> x /\ parent c <> task_idle (task_manager s) /\ is_Some (cores s !! parent c);
  ca_kernel : page_directories_to_destroy (kernel s) = 0;
}.

Definition running (s : os_t) (qs : list (list Z)) (x : Z) : Prop :=
  (x ∉ concat qs) /\ exists c, cores s !! x = Some c /\ task_state c = TASK_STATE_RUNNING /\
    0 <= task_queue_level c < 4.

(** A task that waits or has ended, and asked to yield. *)
Definition stopped (s : os_t) (qs : list (list Z)) (x : Z) : Prop :=
  x <> task_idle (task_manager s) /\ exists c, cores s !! x = Some c /\ yield c = true /\
    (task_state c = TASK_STATE_BLOCKED \/ task_state c = TASK_STATE_ZOMBIE).

Record scheduled (s : os_t) (qs : list (list Z)) : Prop := {
  sd_orderly : orderly s qs (runner s);
  sd_running : running s qs (runner s);
}.

(** What an event is allowed to name. *)
Definition permitted (s : os_t) (e : kernel_event) : Prop :=
  let leaf x := exists c, cores s !! x = Some c /\ children c = 0 in
  match e with
  | EV_TICK _ | EV_WAKE _ _ => True
  | EV_BLOCK _ _ => task_current (task_manager s) <> task_idle (task_manager s)
  | EV_EXIT _ => task_current (task_manager s) <> task_idle (task_manager s) /\ leaf (task_current (task_manager s))
  | EV_KILL x _ => x <> task_idle (task_manager s) /\ x <> task_current (task_manager s) /\ leaf x /\
      exists c, cores s !! x = Some c /\ task_state c <> TASK_STATE_ZOMBIE
  | EV_SIGNAL x => x <> task_idle (task_manager s) /\ is_Some (cores s !! x)
  end.

(** Between two events no switch is pending. *)
Definition settled (s : os_t) (qs : list (list Z)) : Prop :=
  scheduled s qs /\ task_needs_switching (task_manager s) = false /\ (size (cores s) + 1 < fuel)%nat.

Inductive reachable (s0 : os_t) : os_t -> Prop :=
| reachable_start : reachable s0 s0
| reachable_step s e esp r s' :
    reachable s0 s -> permitted s e -> kernel_entry e esp s = Ret (r, s') -> reachable s0 s'.

(** ** Lemmas *)

Lemma queues_six s qs : queues s qs -> exists q0 q1 q2 q3 q4 q5, qs = [q0; q1; q2; q3; q4; q5].
Proof using Type.
  intros Hq. pose proof (qs_length _ _ Hq) as H. do 7 (destruct qs as [|? qs]; try done). by repeat eexists.
Qed.

(** The queues of a state are determined by it. *)
Lemma seg_unique ts p l l' : seg ts p l 0 -> seg ts p l' 0 -> l = l'.
Proof using Type.
  revert p l'. induction l as [|x l IH]; intros p [|x' l']; cbn [seg]; [done| | |].
  - by intros -> (<- & ? & _).
  - by intros (-> & ? & _) ->.
  - intros (-> & _ & t & Ht & H) (<- & _ & t' & Ht' & H'). rewrite Ht in Ht'. injection Ht' as <-.
    f_equal. by eapply IH.
Qed.
Lemma queues_unique s qs qs' : queues s qs -> queues s qs' -> qs = qs'.
Proof using Type.
  intros [_ H _ _ _] [_ H' _ _ _]. revert qs' H'. induction H as [|p q ps qs Hq _ IH]; intros qs' H'; inversion H'; subst; [done|].
  f_equal; [by eapply seg_unique|by apply IH].
Qed.

(** The queues hold only tasks. *)
Lemma queued_task s qs x : queues s qs -> x ∈ concat qs -> is_Some (cores s !! x).
Proof using Type.
  intros Hq Hx. apply list_elem_of_In, in_concat in Hx as (q & H1 & H2). apply list_elem_of_In in H1, H2.
  apply list_elem_of_lookup in H1 as [i Hi]. destruct (queue_at s qs Hq i q Hi) as (p & _ & Hs).
  destruct (seg_in _ _ _ _ _ Hs H2) as (_ & t & Ht). unfold cores. rewrite lookup_fmap, Ht. by eexists.
Qed.
Lemma queued_size s qs : queues s qs -> (length (concat qs) <= size (cores s))%nat.
Proof using Type.
  intros Hq. rewrite <- (size_list_to_set (C := gset Z) (concat qs)) by apply (qs_nodup _ _ Hq).
  rewrite <- (size_dom (D := gset Z)). apply subseteq_size. intros x. rewrite elem_of_list_to_set.
  intros Hx. apply elem_of_dom. by apply (queued_task s qs).
Qed.

(** The level of a task names a queue. *)
Lemma level_range s qs x c :
  scheduled s qs -> cores s !! x = Some c -> x <> task_idle (task_manager s) -> task_state c <> TASK_STATE_ZOMBIE ->
  0 <= task_queue_level c < 6.
Proof using Type.
  intros [Ho Hr] Hc Hi Hz. pose proof (or_placed _ _ _ Ho x c Hc Hi) as Hp.
  destruct (queues_six _ _ (or_queues _ _ _ Ho)) as (q0 & q1 & q2 & q3 & q4 & q5 & ->).
  assert (forall i q, [q0; q1; q2; q3; q4; q5] !! i = Some q -> x ∈ q -> task_queue_level c = Z.of_nat i /\ (i < 6)%nat) as Hl.
  { intros i q H1 H2. split; [by apply (qs_levels _ _ (or_queues _ _ _ Ho) i q x)|].
    apply lookup_lt_Some in H1. done. }
  unfold placed in Hp. destruct (task_state c).
  - simpl in Hp. rewrite !elem_of_app, elem_of_nil in Hp.
    destruct Hp as [H|[H|[H|[H|[]]]]]; [destruct (Hl 0%nat q0)|destruct (Hl 1%nat q1)|destruct (Hl 2%nat q2)|destruct (Hl 3%nat q3)]; done || lia.
  - subst x. destruct Hr as (_ & c' & Hc' & _ & H). rewrite Hc in Hc'. injection Hc' as <-. lia.
  - destruct (Hl 4%nat q4); [done|done|lia].
  - done.
  - done.
Qed.

(** The same tasks with the same parents. *)
Definition same_tasks (s s' : os_t) : Prop :=
  forall x, parent <$> cores s' !! x = parent <$> cores s !! x.

Lemma same_tasks_trans s1 s2 s3 : same_tasks s1 s2 -> same_tasks s2 s3 -> same_tasks s1 s3.
Proof using Type. intros H1 H2 x. by rewrite H2. Qed.
Lemma same_tasks_some s s' x : same_tasks s s' -> is_Some (cores s !! x) <-> is_Some (cores s' !! x).
Proof using Type. intros H. by rewrite <- (fmap_is_Some parent), <- H, fmap_is_Some. Qed.
Lemma same_tasks_size s s' : same_tasks s s' -> size (cores s') = size (cores s).
Proof using Type.
  intros H. rewrite <- !(size_dom (D := gset Z)). f_equal. apply set_eq. intros x.
  by rewrite !elem_of_dom, (same_tasks_some s s').
Qed.
Lemma same_tasks_insert s s' x c c' :
  cores s !! x = Some c -> parent c' = parent c -> cores s' = <[x := c']> (cores s) -> same_tasks s s'.
Proof using Type.
  intros Hc Hp E y. rewrite E. destruct (decide (y = x)) as [->|]; [|by rewrite lookup_insert_ne].
  rewrite lookup_insert_eq, Hc. simpl. by rewrite Hp.
Qed.
Lemma same_tasks_eq s s' : cores s' = cores s -> same_tasks s s'.
Proof using Type. intros E x. by rewrite E. Qed.

Lemma same_tasks_dom s s' : same_tasks s s' -> dom (cores s') = dom (cores s).
Proof using Type. intros H. apply set_eq. intros x. by rewrite !elem_of_dom, (same_tasks_some s s'). Qed.

Lemma orderly_change s s' qs qs' run run' :
  orderly s qs run -> queues s' qs' -> dom (cores s') = dom (cores s) ->
  task_idle (task_manager s') = task_idle (task_manager s) ->
  (forall c, cores s' !! task_idle (task_manager s) = Some c -> idling c) ->
  (forall x c, cores s' !! x = Some c -> x <> task_idle (task_manager s) -> placed qs' run' x c) ->
  orderly s' qs' run'.
Proof using Type.
  intros Ho Hq Hd Hi Hid Hp. split.
  - done.
  - rewrite Hi. exact Hp.
  - rewrite Hi. destruct (or_idle _ _ _ Ho) as (c & Hc & _).
    assert (task_idle (task_manager s) ∈ dom (cores s')) as [c' Hc']%elem_of_dom
      by (rewrite Hd; apply elem_of_dom; by eexists).
    exists c'. split; [done|by apply Hid].
  - apply not_elem_of_dom. rewrite Hd. apply not_elem_of_dom, (or_null _ _ _ Ho).
Qed.
Lemma orderly_idle s qs run c : orderly s qs run -> cores s !! task_idle (task_manager s) = Some c -> idling c.
Proof using Type. intros Ho Hc. destruct (or_idle _ _ _ Ho) as (? & ? & ?). congruence. Qed.

(** The invariant looks at the tasks and the queues. *)
Lemma orderly_view s s' qs run :
  orderly s qs run -> tasks s' = tasks s -> task_queues (task_manager s') = task_queues (task_manager s) ->
  task_idle (task_manager s') = task_idle (task_manager s) -> orderly s' qs run.
Proof using Type.
  intros Ho Ht Hq Hi. assert (cores s' = cores s) as Hc by (unfold cores; by rewrite Ht).
  eapply orderly_change; [exact Ho|by apply (queues_same s); [apply (or_queues _ _ _ Ho)|..]|by rewrite Hc|done| |].
  - intros c. rewrite Hc. by apply (orderly_idle _ qs run).
  - rewrite Hc. apply (or_placed _ _ _ Ho).
Qed.

(** What a change of other fields keeps of the conditions for total correctness. *)
Definition ran (s s' : os_t) : Prop :=
  same_tasks s s' /\ task_idle (task_manager s') = task_idle (task_manager s) /\
  (page_directories_to_destroy (kernel s) = 0 -> page_directories_to_destroy (kernel s') = 0).
Lemma ran_trans s1 s2 s3 : ran s1 s2 -> ran s2 s3 -> ran s1 s3.
Proof using Type.
  intros (H1 & H2 & H3) (K1 & K2 & K3). split_and!; [by eapply same_tasks_trans|congruence|auto].
Qed.
Lemma calm_ran s s' : calm s -> ran s s' -> calm s'.
Proof using Type.
  intros [Hp Hk] (Hs & Hi & Hk'). split; [|auto]. intros x c' Hc'. pose proof (Hs x) as E. rewrite Hc' in E.
  destruct (cores s !! x) as [c|] eqn:Hc; [|done]. injection E as E. rewrite E, Hi.
  destruct (Hp x c Hc) as [|(H1 & H2 & H3)]; [by left|right]. split_and!; [done|done|by apply (same_tasks_some s s')].
Qed.

(** A change of a task that the invariant does not look at. *)
Lemma wp_update_orderly s qs run x c f Q :
  orderly s qs run -> cores s !! x = Some c ->
  (forall t, next (f t) = next t) -> (forall t, core (f t) = f (core t)) ->
  (forall t, task_queue_level (f t) = task_queue_level t) -> (forall t, parent (f t) = parent t) ->
  (forall t, task_state (f t) = task_state t) ->
  (forall s', orderly s' qs run -> cores s' = <[x := f c]> (cores s) -> same_tasks s s' ->
     task_manager s' = task_manager s -> rest_of s' = rest_of s -> Q tt s') ->
  wp (update_task x f) Q s.
Proof using Type.
  intros Ho Hc Hn Hco Hl Hp Hs HQ. pose proof (or_queues _ _ _ Ho) as Hq.
  eapply (wp_update_core s qs x c f); [done|done|done|done|by left|].
  intros s' K1 K2 K3 K4. assert (same_tasks s s') as Hsame by (by apply (same_tasks_insert s s' x c (f c))).
  apply HQ; [|done|done|done|done]. eapply orderly_change; [exact Ho|done|by apply same_tasks_dom|by rewrite K4| |].
  - intros c'. rewrite K2. destruct (decide (x = task_idle (task_manager s))) as [->|].
    + rewrite lookup_insert_eq. intros [= <-]. unfold idling. rewrite Hl, Hs. by apply (orderly_idle s qs run).
    + rewrite lookup_insert_ne by done. by apply (orderly_idle s qs run).
  - intros y c'. rewrite K2. destruct (decide (y = x)) as [->|].
    + rewrite lookup_insert_eq. intros [= <-] Hi. pose proof (or_placed _ _ _ Ho x c Hc Hi) as H.
      unfold placed in *. by rewrite Hs.
    + rewrite lookup_insert_ne by done. apply (or_placed _ _ _ Ho).
Qed.

(** The task on the processor, after such a change of it. *)
Lemma on_processor_update s s' qs x c c' :
  cores s !! x = Some c -> cores s' = <[x := c']> (cores s) -> task_manager s' = task_manager s ->
  task_state c' = task_state c -> task_queue_level c' = task_queue_level c -> yield c' = yield c ->
  running s qs x \/ stopped s qs x -> running s' qs x \/ stopped s' qs x.
Proof using Type.
  intros Hc Hcs Hm Hs Hl Hy [(H1 & c0 & H2 & H3)|(H1 & c0 & H2 & H3)]; rewrite Hc in H2; injection H2 as <-.
  - left. split; [done|]. exists c'. by rewrite Hcs, lookup_insert_eq, Hs, Hl.
  - right. split; [by rewrite Hm|]. exists c'. by rewrite Hcs, lookup_insert_eq, Hs, Hy.
Qed.

(** ** The schedule step *)

Lemma placed_pop qs j y q x c :
  length qs = 6%nat -> (j < 4)%nat -> qs !! j = Some (y :: q) -> x <> y -> x <> 0 ->
  placed qs 0 x c -> placed (<[j := q]> qs) y x c.
Proof using Type.
  intros Hl Hj Hqj Hxy Hx. do 7 (destruct qs as [|? qs]; try done).
  destruct j as [|[|[|[|j]]]]; [..|lia]; injection Hqj as ->; unfold placed; simpl;
    destruct (task_state c); rewrite ?elem_of_app, ?elem_of_cons, ?elem_of_app; tauto.
Qed.

(** Giving the processor to [y]. *)
Lemma scheduled_picked s s' qs qs' y c c' :
  orderly s qs 0 -> queues s' qs' -> cores s !! y = Some c -> cores s' = <[y := c']> (cores s) ->
  task_state c' = TASK_STATE_RUNNING -> parent c' = parent c -> task_queue_level c' = task_queue_level c ->
  0 <= task_queue_level c < 4 -> y ∉ concat qs' -> runner s' = y ->
  task_idle (task_manager s') = task_idle (task_manager s) -> kernel s' = kernel s ->
  (forall x c, x <> y -> x <> 0 -> placed qs 0 x c -> placed qs' y x c) ->
  scheduled s' qs' /\ ran s s'.
Proof using Type.
  intros Ho Hq Hc Hcs Hst Hpar Hlev Hl Hy Hrun Hi Hk Hmem.
  assert (same_tasks s s') as Hsame by (by apply (same_tasks_insert s s' y c c')).
  split; [|by split_and!; [..|rewrite Hk]]. split; rewrite Hrun.
  - eapply orderly_change; [exact Ho|done|by apply same_tasks_dom|done| |].
    + intros ci. rewrite Hcs. destruct (decide (y = task_idle (task_manager s))) as [->|].
      * rewrite lookup_insert_eq. intros [= <-]. split; [by right|lia].
      * rewrite lookup_insert_ne by done. by apply (orderly_idle s qs 0).
    + intros x cx. rewrite Hcs. destruct (decide (x = y)) as [->|].
      * rewrite lookup_insert_eq. intros [= <-] _. unfold placed. by rewrite Hst.
      * rewrite lookup_insert_ne by done. intros Hcx Hxi.
        apply Hmem; [done| |by apply (or_placed _ _ _ Ho)].
        intros ->. by rewrite (or_null _ _ _ Ho) in Hcx.
  - split; [done|]. exists c'. rewrite Hcs, lookup_insert_eq. split_and!; [done|done|lia|lia].
Qed.

Lemma rest_kernel s s' : rest_of s' = rest_of s -> kernel s' = kernel s.
Proof using Type.
  intros H. change (kernel (rest_of s') = kernel (rest_of s)). by rewrite H.
Qed.
Lemma rest_manager s s' : rest_of s' = rest_of s ->
  task_current (task_manager s') = task_current (task_manager s) /\
  task_needs_switching (task_manager s') = task_needs_switching (task_manager s).
Proof using Type.
  intros H. split.
  - change (task_current (task_manager (rest_of s')) = task_current (task_manager (rest_of s))). by rewrite H.
  - change (task_needs_switching (task_manager (rest_of s')) = task_needs_switching (task_manager (rest_of s))).
    by rewrite H.
Qed.

(** The picked task [y] gets the processor. *)
Lemma wp_take_orderly s qs x y c c1 qs' s1 Q :
  orderly s qs 0 -> task_needs_switching (task_manager s) = false -> task_current (task_manager s) = x ->
  queues s1 qs' -> cores s !! y = Some c -> cores s1 = <[y := c1]> (cores s) ->
  rest_of s1 = rest_of s -> parent c1 = parent c -> task_queue_level c1 = task_queue_level c ->
  0 <= task_queue_level c < 4 -> y ∉ concat qs' ->
  (forall x c, x <> y -> x <> 0 -> placed qs 0 x c -> placed qs' y x c) ->
  (forall s' qs', scheduled s' qs' -> ran s s' -> Q tt s') ->
  wp (do! update_task y (fun t => t <| task_state := TASK_STATE_RUNNING |>) in
      if negb (y =? x) then
        update_manager (fun m => m <| task_next := y |> <| task_needs_switching := true |>)
      else
        update_task y (fun t =>
          t <| task_time_slice := task_manager_calculate_time_slice (task_queue_level t) |>)) Q s1.
Proof using Type.
  intros Ho Hns Hcur K1 Hc K2 K3 Hp1 Hl1 Hl Hy Hmem HQ.
  destruct (rest_manager s s1 K3) as [Hcur1 Hns1]. pose proof (rest_idle s s1 K3) as Hi1.
  pose proof (rest_kernel s s1 K3) as Hk1.
  wp_step. eapply (wp_update_core s1 qs' y c1); [done|by rewrite K2, lookup_insert_eq|done|done|by left|].
  intros s2 L1 L2 L3 L4. rewrite K2, insert_insert_eq in L2.
  pose proof (rest_kernel s1 s2 L3) as Hk2.
  destruct (Z.eqb_spec y x) as [->|Hyx]; simpl negb; cbv iota.
  - eapply (wp_update_core s2 qs' x _ (fun t =>
        t <| task_time_slice := task_manager_calculate_time_slice (task_queue_level t) |>));
      [done|by rewrite L2, lookup_insert_eq|done|done|by left|].
    intros s3 M1 M2 M3 M4. rewrite L2, insert_insert_eq in M2.
    destruct (scheduled_picked s s3 qs qs' x c _ Ho M1 Hc M2) as [H1 H2]; try done.
    + unfold runner. by rewrite M4, L4, Hns1, Hns, Hcur1.
    + by rewrite M4, L4.
    + by rewrite (rest_kernel s2 s3 M3), Hk2, Hk1.
    + by apply (HQ s3 qs').
  - unfold update_manager. wp_step.
    match goal with |- Q tt ?st => set (s3 := st) end.
    assert (queues s3 qs') as Hq3 by (eapply queues_same; [exact L1|done..]).
    destruct (scheduled_picked s s3 qs qs' y c _ Ho Hq3 Hc L2) as [H1 H2]; try done.
    + change (task_idle (task_manager s2) = task_idle (task_manager s)). by rewrite L4.
    + change (kernel s2 = kernel s). by rewrite Hk2, Hk1.
    + by apply (HQ s3 qs').
Qed.

Lemma wp_pick_orderly s qs x Q :
  orderly s qs 0 -> task_needs_switching (task_manager s) = false -> task_current (task_manager s) = x ->
  (forall s' qs', scheduled s' qs' -> ran s s' -> Q tt s') ->
  wp (let! new_task := task_manager_pick_task in
      do! update_task new_task (fun t => t <| task_state := TASK_STATE_RUNNING |>) in
      if negb (new_task =? x) then
        update_manager (fun m => m <| task_next := new_task |> <| task_needs_switching := true |>)
      else
        update_task new_task (fun t =>
          t <| task_time_slice := task_manager_calculate_time_slice (task_queue_level t) |>)) Q s.
Proof using Type.
  intros Ho Hns Hcur HQ. pose proof (or_queues _ _ _ Ho) as Hq.
  destruct (or_idle _ _ _ Ho) as (ci & Hci & _ & Hli).
  wp_step. unfold task_manager_pick_task. change (Z.to_nat TASK_MANAGER_QUEUE_LEVELS) with 4%nat.
  apply (wp_pick_from s qs); [done|done|lia|by eexists| |].
  - intros j y q c s1 _ Hj Hqj Hc K1 K2 K3.
    eapply (wp_take_orderly s qs x y c _ _ s1); [done..|exact K1|done|exact K2|done|done|done| | | |exact HQ].
    + rewrite (qs_levels _ _ Hq _ _ _ _ Hqj ltac:(by left) Hc). lia.
    + by apply (head_once s qs _ y q).
    + intros z cz. apply placed_pop; [by apply (qs_length _ _ Hq)|lia|done].
  - intros c s1 _ Hc K1 K2 K3. rewrite Hc in Hci. injection Hci as ->.
    eapply (wp_take_orderly s qs x (task_idle (task_manager s)) ci _ qs s1); [done..|exact K1|done|exact K2|done|done|done|done| | |exact HQ].
    + apply (qs_idle _ _ Hq).
    + intros z cz _ Hz. unfold placed. by destruct (task_state cz).
Qed.

(** The part of a step that says nothing about where tasks are. *)
Definition kept (s s' : os_t) : Prop :=
  same_tasks s s' /\ task_idle (task_manager s') = task_idle (task_manager s) /\
  task_current (task_manager s') = task_current (task_manager s) /\
  task_needs_switching (task_manager s') = task_needs_switching (task_manager s) /\
  kernel s' = kernel s.

Lemma kept_trans s1 s2 s3 : kept s1 s2 -> kept s2 s3 -> kept s1 s3.
Proof using Type.
  intros (H1 & H2) (K1 & K2). split; [by eapply same_tasks_trans|]. split_and!; destruct_and?; congruence.
Qed.
Lemma kept_ran s s' : kept s s' -> ran s s'.
Proof using Type. intros (H1 & H2 & _ & _ & H3). split_and!; [done|done|by rewrite H3]. Qed.
Lemma kept_rest s s' : same_tasks s s' -> rest_of s' = rest_of s -> kept s s'.
Proof using Type.
  intros H R. destruct (rest_manager s s' R). split_and!; [done|by apply rest_idle|done|done|by apply rest_kernel].
Qed.

Lemma lowered_at l cs cs' x c :
  lowered l cs cs' -> cs !! x = Some c ->
  cs' !! x = Some (if bool_decide (x ∈ l) then c <| task_queue_level := 0 |> else c).
Proof using Type. intros H Hx. rewrite H, Hx. by case_bool_decide. Qed.

Lemma lowered_same s s' l : lowered l (cores s) (cores s') -> same_tasks s s'.
Proof using Type.
  intros H x. specialize (H x). rewrite H. case_bool_decide; [|done]. by destruct (cores s !! x).
Qed.

Lemma lowered_back l cs cs' x c' :
  lowered l cs cs' -> cs' !! x = Some c' ->
  exists c, cs !! x = Some c /\ c' = (if bool_decide (x ∈ l) then c <| task_queue_level := 0 |> else c).
Proof using Type.
  intros H Hx. rewrite H in Hx. destruct (cs !! x) as [c|]; [|by case_bool_decide].
  exists c. split; [done|]. by case_bool_decide; injection Hx as <-.
Qed.

Lemma wp_boost_orderly s qs x Q :
  orderly s qs x -> (size (cores s) < fuel)%nat ->
  (forall s' qs', orderly s' qs' x -> kept s s' ->
     (running s qs x -> running s' qs' x) -> (stopped s qs x -> stopped s' qs' x) -> Q tt s') ->
  wp (task_manager_boost_priority_of_all_tasks fuel) Q s.
Proof using Type.
  intros Ho Hf HQ. pose proof (or_queues _ _ _ Ho) as Hq. pose proof (queued_size s qs Hq) as Hsz.
  destruct (queues_six _ _ Hq) as (q0 & q1 & q2 & q3 & q4 & q5 & ->).
  eapply wp_mono; [apply (task_manager_boost_priority_of_all_tasks_spec fuel s q0 q1 q2 q3 q4 q5 Hq)|].
  { simpl in Hsz. rewrite !length_app in *. lia. }
  intros [] s' (K1 & K2 & _ & K3). pose proof (lowered_same s s' _ K2) as Hsame.
  assert (kept s s') as Hk.
  { split; [done|]. split_and!.
    - by change (task_idle (task_manager (rest_of s')) = task_idle (task_manager (rest_of (at_boost s)))); rewrite K3.
    - by change (task_current (task_manager (rest_of s')) = task_current (task_manager (rest_of (at_boost s)))); rewrite K3.
    - by change (task_needs_switching (task_manager (rest_of s')) = task_needs_switching (task_manager (rest_of (at_boost s)))); rewrite K3.
    - by change (kernel (rest_of s') = kernel (rest_of (at_boost s))); rewrite K3. }
  apply (HQ s' [q0 ++ q1 ++ q2 ++ q3; []; []; []; q4; q5]); [|done| |].
  - eapply orderly_change; [exact Ho|exact K1|by apply same_tasks_dom|by apply Hk| |].
    + intros c' (c & Hc & ->)%(lowered_back _ _ _ _ _ K2). pose proof (orderly_idle _ _ _ c Ho Hc) as [H1 H2].
      case_bool_decide; [split; [done|cbn; lia]|done].
    + intros y c' (c & Hc & ->)%(lowered_back _ _ _ _ _ K2) Hy. pose proof (or_placed _ _ _ Ho y c Hc Hy) as Hp.
      assert (task_state (if bool_decide (y ∈ q1 ++ q2 ++ q3) then c <| task_queue_level := 0 |> else c) = task_state c)
        as E by (by case_bool_decide).
      unfold placed in *. rewrite E. simpl in *.
      destruct (task_state c); try done; revert Hp; rewrite !elem_of_app; tauto.
  - intros (Hx & c & Hc & Hst & Hl). split.
    + revert Hx. simpl. rewrite !elem_of_app. tauto.
    + eexists. split; [by apply (lowered_at _ _ _ x c K2)|]. case_bool_decide; [split; [done|cbn; lia]|done].
  - intros (Hx & c & Hc & Hy & Hst). split; [by rewrite (proj1 (proj2 Hk))|].
    eexists. split; [by apply (lowered_at _ _ _ x c K2)|]. by case_bool_decide.
Qed.

Lemma placed_push qs i q x run y c :
  length qs = 6%nat -> qs !! i = Some q -> y <> x -> placed qs run y c -> placed (<[i := q ++ [x]]> qs) run y c.
Proof using Type.
  intros Hl Hi Hyx. do 7 (destruct qs as [|? qs]; try done).
  destruct i as [|[|[|[|[|[|i]]]]]]; try done; injection Hi as ->; unfold placed; simpl;
    destruct (task_state c); rewrite ?elem_of_app, ?list_elem_of_singleton; tauto.
Qed.
Lemma placed_end qs i q x run c :
  length qs = 6%nat -> qs !! i = Some q ->
  match task_state c with
  | TASK_STATE_READY => (i < 4)%nat
  | TASK_STATE_BLOCKED => i = 4%nat
  | TASK_STATE_ZOMBIE => i = 5%nat
  | _ => False
  end -> placed (<[i := q ++ [x]]> qs) run x c.
Proof using Type.
  intros Hl Hi. do 7 (destruct qs as [|? qs]; try done). unfold placed.
  destruct (task_state c); intros Hs; try done; try subst i;
    [destruct i as [|[|[|[|i]]]]; [..|lia]| |]; injection Hi as ->; simpl;
    rewrite ?elem_of_app, ?list_elem_of_singleton; tauto.
Qed.
Lemma placed_nobody qs x y c : y <> x -> placed qs x y c -> placed qs 0 y c.
Proof using Type. intros Hy. unfold placed. by destruct (task_state c). Qed.

Lemma orderly_nobody s qs x : orderly s qs x ->
  (x = task_idle (task_manager s) \/ stopped s qs x) -> orderly s qs 0.
Proof using Type.
  intros Ho Hx. eapply orderly_change; [exact Ho|apply (or_queues _ _ _ Ho)|done|done| |].
  - intros c. by apply (orderly_idle s qs x).
  - intros y c Hc Hy. pose proof (or_placed _ _ _ Ho y c Hc Hy) as Hp. unfold placed in *.
    destruct (task_state c) eqn:Hst; try done. subst y.
    destruct Hx as [|(_ & c' & Hc' & _ & H)]; [done|]. rewrite Hc in Hc'. injection Hc' as <-.
    rewrite Hst in H. by destruct H.
Qed.

(** Back to the queue of its level, or one further down. *)
Lemma wp_requeue_orderly s qs x Q :
  orderly s qs x -> running s qs x -> x <> task_idle (task_manager s) -> (size (cores s) < fuel)%nat ->
  (forall s' qs', orderly s' qs' 0 -> kept s s' -> Q tt s') ->
  wp (task_manager_requeue_task fuel x true) Q s.
Proof using Type.
  intros Ho (Hx & c & Hc & Hst & Hl) Hi Hf HQ. pose proof (or_queues _ _ _ Ho) as Hq.
  pose proof (queued_size s qs Hq) as Hsz.
  assert (x <> 0) as Hx0 by (intros ->; by rewrite (or_null _ _ _ Ho) in Hc).
  apply (wp_requeue fuel s qs x c); try done; [lia|]. intros q s' Hqi K1 K2 K3.
  assert (same_tasks s s') as Hsame by (by eapply (same_tasks_insert s s' x c); [| |exact K2]).
  eapply HQ; [|by apply kept_rest].
  eapply orderly_change; [exact Ho|exact K1|by apply same_tasks_dom|by apply rest_idle| |].
  - intros ci. rewrite K2, lookup_insert_ne by done. by apply (orderly_idle s qs x).
  - assert (0 <= next_level (task_queue_level c) < 4) as Hn
      by (unfold next_level; destruct (Z.ltb_spec (task_queue_level c) 3); lia).
    intros y cy. rewrite K2. destruct (decide (y = x)) as [->|Hyx].
    + rewrite lookup_insert_eq. intros [= <-] _. apply placed_end; [apply (qs_length _ _ Hq)|done|simpl; lia].
    + rewrite lookup_insert_ne by done. intros Hcy Hyi. apply placed_push; [apply (qs_length _ _ Hq)|done|done|].
      apply (placed_nobody qs x); [done|]. by apply (or_placed _ _ _ Ho).
Qed.

Lemma wp_switch_orderly s qs x Q :
  orderly s qs x -> task_needs_switching (task_manager s) = false -> task_current (task_manager s) = x ->
  running s qs x \/ stopped s qs x -> (size (cores s) < fuel)%nat ->
  (forall s' qs', scheduled s' qs' -> ran s s' -> Q tt s') ->
  wp (task_manager_switch fuel x) Q s.
Proof using Type.
  intros Ho Hns Hcur Hx Hf HQ. unfold task_manager_switch, manager.
  assert (exists c, cores s !! x = Some c) as (c & Hc).
  { destruct Hx as [(_ & c & Hc & _)|(_ & c & Hc & _)]; by exists c. }
  wp_step. eapply (wp_update_orderly s qs x x c); try done. intros s1 K1 K2 K3 K4 Hr1.
  assert (running s1 qs x \/ (x <> task_idle (task_manager s) /\ orderly s1 qs 0 /\ task_state c <> TASK_STATE_RUNNING)) as Hx1.
  { destruct Hx as [(H1 & c' & H2 & H3)|(H1 & c' & H2 & H3 & H4)]; rewrite Hc in H2; injection H2 as <-.
    - left. split; [done|]. eexists. by rewrite K2, lookup_insert_eq.
    - right. assert (task_state c <> TASK_STATE_RUNNING) as Hst by (by destruct H4 as [-> | ->]). split_and!; [done| |done].
      eapply orderly_change; [exact K1|apply (or_queues _ _ _ K1)|done|done| |].
      + intros ci. by apply (orderly_idle s1 qs x).
      + intros y cy Hcy Hyi. pose proof (or_placed _ _ _ K1 y cy Hcy Hyi) as Hp. unfold placed in *.
        destruct (task_state cy) eqn:Hsy; try done. subst y. rewrite K2, lookup_insert_eq in Hcy.
        by injection Hcy as <-. }
  wp_step. wp_step. destruct (cores_lookup s1 x _ ltac:(rewrite K2; apply lookup_insert_eq)) as (t & Ht & Hct).
  wp_step. eapply wp_load_task; [done|].
  assert (task_state t = task_state c) as -> by (change (task_state (core t) = task_state c); by rewrite Hct).
  rewrite K4.
  set (P := fun (_ : unit) s2 => exists qs2, orderly s2 qs2 0 /\ kept s s2).
  wp_step. apply (wp_mono _ P).
  - assert (kept s s1) as Hk by (by apply kept_rest).
    destruct (Z.eqb_spec x (task_idle (task_manager s))) as [Hi|Hi]; cbn [negb andb].
    + wp_step. exists qs. split; [|done]. apply (orderly_nobody s1 qs x K1). left. by rewrite K4.
    + destruct Hx1 as [Hr|(_ & Hn & Hst)].
      * destruct Hx as [(_ & c' & H2 & H3 & _)|(_ & c' & H2 & _ & H4)]; rewrite Hc in H2; injection H2 as <-.
        -- rewrite bool_decide_eq_true_2 by done.
           eapply (wp_requeue_orderly s1 qs x); [done|done|by rewrite K4|by rewrite (same_tasks_size s s1)|].
           intros s2 qs2 L1 L2. exists qs2. split; [done|]. by eapply kept_trans.
        -- destruct Hr as (_ & c' & H2 & H3 & _). rewrite K2, lookup_insert_eq in H2. injection H2 as <-.
           cbn in H3. rewrite H3 in H4. by destruct H4.
      * rewrite bool_decide_eq_false_2 by done. wp_step. by exists qs.
  - intros [] s2 (qs2 & L1 & Hk). pose proof Hk as (L2 & L3 & L4 & L5 & _).
    apply (wp_pick_orderly s2 qs2 x); [done|congruence|congruence|].
    intros s3 qs3 M1 M2. apply (HQ s3 qs3); [done|]. by eapply ran_trans; [apply kept_ran|].
Qed.

(** The address spaces that wait to be freed: a part of the kernel's memory, that
    the scheduler does not look at. *)
Lemma runs_destroy_queued total s Q :
  (0 < fuel)%nat -> (total = true -> page_directories_to_destroy (kernel s) = 0) ->
  (forall k, (page_directories_to_destroy (kernel s) = 0 -> page_directories_to_destroy k = 0) ->
     Q tt (s <| kernel := k |>)) ->
  runs total (on_kernel (memory_paging_destroy_queued base fuel)) Q s.
Proof using Type.
  intros Hf Ht HQ. apply runs_zoom. destruct (decide (page_directories_to_destroy (kernel s) = 0)) as [E|E].
  - apply runs_wp, wp_destroy_none; [done|done|]. by apply HQ.
  - unfold runs. destruct (memory_paging_destroy_queued base fuel (kernel s)) as [[[] k]| |];
      [by apply HQ|destruct total; [by destruct E; apply Ht|done]..].
Qed.

Lemma runs_schedule_orderly total s qs x Q :
  orderly s qs x -> task_needs_switching (task_manager s) = false -> task_current (task_manager s) = x ->
  running s qs x \/ stopped s qs x -> (size (cores s) < fuel)%nat ->
  (total = true -> page_directories_to_destroy (kernel s) = 0) ->
  (forall s' qs', scheduled s' qs' -> ran s s' -> Q tt s') ->
  runs total (task_manager_schedule base fuel) Q s.
Proof using Type.
  intros Ho Hns Hcur Hx Hf Ht HQ. unfold task_manager_schedule, timer_get_ticks, manager.
  apply runs_bind, runs_destroy_queued; [lia|done|]. intros k Hk. set (s0 := s <| kernel := k |>).
  assert (orderly s0 qs x) as Ho0 by (by apply (orderly_view s)).
  assert (ran s s0) as Hr0 by done. apply runs_wp. do 4 wp_step. cbv beta. fold s0.
  set (P := fun (_ : unit) s2 => exists qs2, orderly s2 qs2 x /\ kept s0 s2 /\ (running s2 qs2 x \/ stopped s2 qs2 x)).
  wp_step. apply (wp_mono _ P).
  { match goal with |- wp (if ?b then _ else _) _ _ => destruct b end; [|wp_step; by exists qs].
    apply (wp_boost_orderly s0 qs x); [done|done|]. intros s1 qs1 K1 K2 K3 K4. exists qs1.
    split_and!; [done|done|]. destruct Hx; [left|right]; auto. }
  clear Hx. intros [] s1 (qs1 & K1 & K2 & Hx). assert (exists c, cores s1 !! x = Some c) as (c & Hc).
  { destruct Hx as [(_ & c & Hc & _)|(_ & c & Hc & _)]; by exists c. }
  change (task_manager s0) with (task_manager s). rewrite Hcur.
  destruct (Z.eqb_spec x 0) as [->|Hx0]; [by rewrite (or_null _ _ _ K1) in Hc|].
  wp_step. eapply (wp_update_orderly s1 qs1 x x c); try done. intros s2 L1 L2 L3 L4 Hr2.
  assert (kept s0 s2) as Hk2 by (eapply kept_trans; [exact K2|by apply kept_rest]).
  pose proof (on_processor_update s1 s2 qs1 x c _ Hc L2 L4 eq_refl eq_refl eq_refl Hx) as Hx2.
  destruct (cores_lookup s2 x _ ltac:(rewrite L2; apply lookup_insert_eq)) as (t & Htt & Hct).
  wp_step. eapply wp_load_task; [done|]. destruct (Hk2) as (H1 & H2 & H3 & H4 & _).
  assert (ran s s2) as Hrs by (eapply ran_trans; [exact Hr0|by apply kept_ran]).
  destruct ((task_time_slice t =? 0) || yield t) eqn:Hover.
  - apply (wp_switch_orderly s2 qs1 x); [done|by rewrite H4|by rewrite H3|done|by rewrite (same_tasks_size s0 s2)|].
    intros s3 qs3 M1 M2. apply (HQ s3 qs3); [done|by eapply ran_trans].
  - wp_step. apply (HQ s2 qs1); [|done].
    assert (runner s2 = x) as Hr by (unfold runner; rewrite H4, H3; change (task_manager s0) with (task_manager s); by rewrite Hns).
    split; rewrite Hr; [done|].
    destruct Hx2 as [|(_ & c' & H5 & H6 & _)]; [done|exfalso].
    apply orb_false_iff in Hover as [_ Hover]. change (yield (core t) = false) in Hover.
    rewrite L2, lookup_insert_eq in H5. injection H5 as <-. rewrite Hct in Hover. cbn in H6, Hover. congruence.
Qed.

(** ** Blocking, waking and ending *)

Lemma purge_six x qs : length qs = 6%nat -> length (purge x qs) = 6%nat.
Proof using Type. intros H. unfold purge. by rewrite length_fmap. Qed.

Lemma placed_purge qs x run y c : y <> x -> placed qs run y c -> placed (purge x qs) run y c.
Proof using Type.
  intros Hy. assert (forall l, y ∈ concat l -> y ∈ concat (purge x l)) as Hin.
  { intros l. rewrite !list_elem_of_In, !in_concat. intros (q & H1 & H2). exists (filter (fun z : Z => z <> x) q).
    apply list_elem_of_In in H1, H2. split; apply list_elem_of_In; [by apply list_elem_of_fmap_2|].
    by apply list_elem_of_filter. }
  unfold placed. destruct (task_state c); try done.
  - intros H%Hin. unfold purge in *. by rewrite <- fmap_take.
  - unfold purge. rewrite list_lookup_fmap. destruct (qs !! 4%nat); simpl; [|done]. intros H. by apply list_elem_of_filter.
  - intros [H|H]; [left|by right; intros ?%purge_sub]. unfold purge. rewrite list_lookup_fmap.
    destruct (qs !! 5%nat); simpl; [by apply list_elem_of_filter|done].
Qed.

Lemma not_in_push (qs : list (list Z)) i q (x y : Z) :
  qs !! i = Some q -> y ∉ concat qs -> y <> x -> y ∉ concat (<[i := q ++ [x]]> qs).
Proof using Type.
  intros Hi. rewrite (concat_insert qs _ _ _ Hi), (concat_split qs _ _ Hi), !elem_of_app, list_elem_of_singleton. tauto.
Qed.
Lemma not_in_purged (x y : Z) (qs : list (list Z)) : y ∉ concat qs -> y ∉ concat (purge x qs).
Proof using Type. by intros H ?%purge_sub. Qed.

(** Moving a task to the queue of its new state. *)
Lemma orderly_moved s s' qs run i q x c c' :
  orderly s qs run -> cores s !! x = Some c -> purge x qs !! i = Some q ->
  queues s' (<[i := q ++ [x]]> (purge x qs)) -> cores s' = <[x := c']> (cores s) -> rest_of s' = rest_of s ->
  parent c' = parent c -> x <> task_idle (task_manager s) ->
  match task_state c' with
  | TASK_STATE_READY => (i < 4)%nat
  | TASK_STATE_BLOCKED => i = 4%nat
  | TASK_STATE_ZOMBIE => i = 5%nat
  | _ => False
  end -> orderly s' (<[i := q ++ [x]]> (purge x qs)) run /\ kept s s'.
Proof using Type.
  intros Ho Hc Hi Hq Hcs Hr Hp Hx Hst. pose proof (purge_six x qs (qs_length _ _ (or_queues _ _ _ Ho))) as Hl.
  assert (same_tasks s s') as Hsame by (by apply (same_tasks_insert s s' x c c')).
  split; [|by apply kept_rest].
  eapply orderly_change; [exact Ho|done|by apply same_tasks_dom|by apply rest_idle| |].
  - intros ci. rewrite Hcs, lookup_insert_ne by done. by apply (orderly_idle s qs run).
  - intros y cy. rewrite Hcs. destruct (decide (y = x)) as [->|Hy].
    + rewrite lookup_insert_eq. intros [= <-] _. by apply placed_end.
    + rewrite lookup_insert_ne by done. intros Hcy Hyi. apply placed_push; [done|done|done|].
      by apply placed_purge, (or_placed _ _ _ Ho).
Qed.

(** The task that has the processor keeps it. *)
Lemma scheduled_kept s s' qs qs' :
  scheduled s qs -> kept s s' -> task_needs_switching (task_manager s) = false ->
  orderly s' qs' (runner s) -> runner s ∉ concat qs' -> cores s' !! runner s = cores s !! runner s ->
  scheduled s' qs'.
Proof using Type.
  intros [_ (_ & c & Hc & H)] (_ & _ & H3 & H4 & _) Hns Ho Hx E.
  assert (runner s' = runner s) as Hr by (unfold runner; by rewrite H4, Hns, H3).
  split; rewrite Hr; [done|]. split; [done|]. exists c. by rewrite E.
Qed.

Lemma runs_yield_stopped total s qs x c Q :
  orderly s qs x -> task_needs_switching (task_manager s) = false -> task_current (task_manager s) = x ->
  x <> task_idle (task_manager s) -> cores s !! x = Some c ->
  (task_state c = TASK_STATE_BLOCKED \/ task_state c = TASK_STATE_ZOMBIE) -> (size (cores s) < fuel)%nat ->
  (total = true -> page_directories_to_destroy (kernel s) = 0) ->
  (forall s' qs', scheduled s' qs' -> ran s s' -> Q tt s') ->
  runs total (do! task_manager_yield_current base fuel in ret tt) Q s.
Proof using Type.
  intros Ho Hns Hcur Hi Hc Hst Hf Ht HQ. unfold task_manager_yield_current, manager.
  apply runs_bind, runs_bind_wp. wp_step. rewrite Hcur.
  destruct (Z.eqb_spec x 0) as [->|_]; [by rewrite (or_null _ _ _ Ho) in Hc|].
  apply runs_bind, runs_bind_wp. eapply (wp_update_orderly s qs x x c); try done. intros s1 K1 K2 K3 K4 K5.
  apply (runs_schedule_orderly total s1 qs x); [done|by rewrite K4|by rewrite K4| |by rewrite (same_tasks_size s s1)| |].
  - right. split; [by rewrite K4|]. eexists. by rewrite K2, lookup_insert_eq.
  - by rewrite (rest_kernel s s1).
  - intros s2 qs2 L1 L2. apply runs_ret, runs_ret, (HQ s2 qs2); [done|]. eapply ran_trans; [|exact L2].
    by apply kept_ran, kept_rest.
Qed.

Lemma scheduled_place s qs x c :
  scheduled s qs -> cores s !! x = Some c -> x <> task_idle (task_manager s) -> task_state c <> TASK_STATE_ZOMBIE ->
  (task_state c = TASK_STATE_BLOCKED -> task_queue_level c = 4) /\
  (task_state c = TASK_STATE_READY \/ task_state c = TASK_STATE_BLOCKED \/ x ∉ concat qs).
Proof using Type.
  intros [Ho [Hr _]] Hc Hi Hst. pose proof (or_placed _ _ _ Ho x c Hc Hi) as Hp. unfold placed in Hp. split.
  - intros E. rewrite E in Hp. destruct (queues_six _ _ (or_queues _ _ _ Ho)) as (q0 & q1 & q2 & q3 & q4 & q5 & ->).
    by rewrite (qs_levels _ _ (or_queues _ _ _ Ho) 4%nat q4 x c).
  - destruct (task_state c); try tauto. subst x. tauto.
Qed.

(** What the end of [x] does to the queues [qs] and the tasks: its waiting
    parent moves to the top queue, [x] to the zombies. *)
Definition left_queues (s : os_t) (qs : list (list Z)) (x : Z) (c cz : task_t) (qs' : list (list Z)) (s' : os_t) : Prop :=
  qs' = purge x qs /\ cores s' = <[x := cz]> (cores s) \/
  exists p top, parent c <> x /\ parent c <> task_idle (task_manager s) /\ cores s !! parent c = Some p /\
    task_state p = TASK_STATE_BLOCKED /\ purge (parent c) (purge x qs) !! 0%nat = Some top /\
    qs' = <[0%nat := top ++ [parent c]]> (purge (parent c) (purge x qs)) /\
    cores s' = <[x := cz]> (<[parent c := p <| task_state := TASK_STATE_READY |> <| task_queue_level := 0 |>]> (cores s)).

Lemma wp_exit_scheduled s qs x code c Q :
  scheduled s qs -> calm s -> x <> task_idle (task_manager s) ->
  cores s !! x = Some c -> children c = 0 -> task_state c <> TASK_STATE_ZOMBIE -> (size (cores s) + 1 < fuel)%nat ->
  (forall r s' qs' zombies,
     let cz := c <| task_state := TASK_STATE_ZOMBIE |> <| return_code := code |> <| children := 0 |>
                 <| task_queue_level := 5 |> in
     rest_of s' = rest_of s -> qs' !! 5%nat = Some zombies -> queues s' (<[5%nat := zombies ++ [x]]> qs') ->
     left_queues s qs x c cz qs' s' -> Q r s') ->
  wp (task_manager_exit_task base fuel x code) Q s.
Proof using Type.
  intros Hs Hcalm Hi Hc Hch Hst Hf HQ. pose proof (sd_orderly _ _ Hs) as Ho. pose proof (or_queues _ _ _ Ho) as Hq.
  pose proof (queued_size s qs Hq) as Hsz. destruct (scheduled_place s qs x c Hs Hc Hi Hst) as [Hb Hw].
  assert (x <> 0) as Hx0 by (intros ->; by rewrite (or_null _ _ _ Ho) in Hc).
  assert (parent c = 0 \/ parent c <> x /\ parent c <> task_idle (task_manager s) /\
     exists p, cores s !! parent c = Some p /\ (task_state p = TASK_STATE_BLOCKED -> 0 <= task_queue_level p < 6)) as Hpar.
  { destruct (ca_parents _ Hcalm x c Hc) as [|(H1 & H2 & p & Hp)]; [by left|right]. split_and!; [done|done|].
    exists p. split; [done|]. intros Hbl. apply (level_range s qs (parent c)); try done. by rewrite Hbl. }
  eapply wp_mono; [apply (wp_exit_task base fuel s qs x code c); try done; [lia|by eapply level_range]|].
  intros r s' (_ & K1 & zombies & c' & qs' & -> & K2 & K3 & K4). apply (HQ r s' qs' zombies K1 K3 K2).
  destruct (cores s !! parent c) as [p|] eqn:Hp; [|by left].
  destruct (negb (parent c =? 0) && parent_waits p (task_id c)) eqn:Hpw; [|by left].
  apply andb_prop in Hpw as [Hp0 Hpw]. apply negb_true_iff, Z.eqb_neq in Hp0.
  destruct K4 as (top & H1 & H2 & H3). destruct Hpar as [|(H4 & H5 & _)]; [done|]. right. exists p, top.
  split_and!; try done. by eapply parent_waits_blocked.
Qed.

(** *** What other code leaves alone

    The scheduler sees of a task the link, the state, the level, the request to
    yield and the slice, and of the rest of the kernel the clock. *)
Definition sched_t : Type := Z * task_state_t * Z * bool * Z.
Definition sched_of (t : task_t) : sched_t := (next t, task_state t, task_queue_level t, yield t, task_time_slice t).
Definition seen {X} (g : task_t -> X) (s : os_t) : Z * gmap Z X * task_manager_t := (timer_ticks s, g <$> tasks s, task_manager s).
Definition view : os_t -> Z * gmap Z sched_t * task_manager_t := seen sched_of.

Lemma view_task s s' x c' : view s' = view s -> cores s' !! x = Some c' ->
  exists c, cores s !! x = Some c /\ task_state c = task_state c' /\ task_queue_level c = task_queue_level c' /\ yield c = yield c' /\
    task_time_slice c = task_time_slice c'.
Proof using Type.
  intros [=_ Hv _] Hc. destruct (cores_lookup s' x c' Hc) as (t' & Ht' & <-).
  assert (sched_of <$> tasks s !! x = Some (sched_of t')) as E by (by rewrite <- lookup_fmap, <- Hv, lookup_fmap, Ht').
  destruct (tasks s !! x) as [t|] eqn:Ht; [|done]. injection E as _ E1 E2 E3 E4. exists (core t).
  split_and!; [by unfold cores; rewrite lookup_fmap, Ht|done..].
Qed.
Lemma view_dom s s' : view s' = view s -> dom (cores s') = dom (cores s).
Proof using Type.
  intros [=_ Hv _]. unfold cores. rewrite !dom_fmap_L, <- (dom_fmap_L sched_of (tasks s')), Hv. apply dom_fmap_L.
Qed.
Lemma view_size s s' : view s' = view s -> size (cores s') = size (cores s).
Proof using Type. intros H. rewrite <- !(size_dom (D := gset Z)). by rewrite (view_dom s s'). Qed.

Lemma queues_seen s s' qs : view s' = view s -> queues s qs -> queues s' qs.
Proof using Type.
  intros Hv [K1 K2 K3 K4 K5]. pose proof Hv as [=_ Ht Hm].
  assert (forall x, next <$> tasks s' !! x = next <$> tasks s !! x) as Hn.
  { intros x. pose proof (f_equal (.!! x) Ht) as E. rewrite !lookup_fmap in E.
    destruct (tasks s' !! x), (tasks s !! x); try done. injection E as E _ _ _ _. cbn. by rewrite E. }
  split; rewrite ?Hm; try done.
  - eapply Forall2_impl; [|exact K2]. intros p q. apply seg_frame. auto.
  - intros i q x c' Hi Hx (c & Hc & _ & <- & _)%(view_task s s' x c' Hv). by apply (K5 i q x).
Qed.
Lemma orderly_seen s s' qs run : view s' = view s -> orderly s qs run -> orderly s' qs run.
Proof using Type.
  intros Hv Ho. pose proof Hv as [=_ Ht Hm].
  eapply orderly_change; [exact Ho|by apply (queues_seen s), Ho|by apply view_dom|by rewrite Hm| |].
  - intros c' (c & Hc & E1 & E2 & _)%(view_task s s' _ c' Hv). unfold idling. rewrite <- E1, <- E2. by apply (orderly_idle s qs run).
  - intros x c' (c & Hc & E1 & _ & _)%(view_task s s' x c' Hv) Hx. unfold placed. rewrite <- E1.
    by apply (or_placed _ _ _ Ho).
Qed.
Lemma running_seen s s' qs x : view s' = view s -> running s qs x -> running s' qs x.
Proof using Type.
  intros Hv (Hx & c & Hc & H1 & H2). split; [done|].
  destruct (view_task s' s x c (eq_sym Hv) Hc) as (c' & Hc' & E1 & E2 & _). exists c'. by rewrite E1, E2.
Qed.
Lemma scheduled_seen s s' qs : view s' = view s -> scheduled s qs -> scheduled s' qs.
Proof using Type.
  intros Hv [Ho Hr]. assert (runner s' = runner s) as E by (unfold runner; pose proof Hv as [=_ _ ->]; done).
  split; rewrite E; [by apply (orderly_seen s)|by apply (running_seen s)].
Qed.

Lemma keeps_update_task {X} (g : task_t -> X) p f : (forall t, g (f t) = g t) -> Keeps (seen g) (update_task p f).
Proof using Type.
  intros H s a s'. unfold update_task, load_task, bind, get, of_option, ret, modify.
  destruct (tasks s !! p) as [t|] eqn:Ht; [|done]. intros [= _ <-]. unfold seen. cbn [tasks task_manager assign over].
  simpl. f_equal. f_equal. apply map_eq. intros q. rewrite !lookup_fmap. destruct (decide (q = p)) as [->|].
  - rewrite lookup_insert_eq, Ht. cbn. by rewrite H.
  - by rewrite lookup_insert_ne.
Qed.
Lemma keeps_reparent first : Keeps view (task_manager_reparent base fuel first).
Proof using Type.
  unfold task_manager_reparent, malloc_task_node, free_task_node, update_node, load_node, manager, on_kernel.
  solve_keeps; first [unfold load_task; solve_keeps; done|by apply keeps_update_task].
Qed.

Lemma runs_load_task total p Q s :
  (total = true -> is_Some (tasks s !! p)) -> (forall t, tasks s !! p = Some t -> Q t s) -> runs total (load_task p) Q s.
Proof using Type.
  intros Ht HQ. unfold runs, load_task, bind, get, of_option. destruct (tasks s !! p); [by apply HQ|].
  destruct total; [by destruct Ht|done].
Qed.

(** *** The end of a task *)

Definition settings (s s' : os_t) : Prop :=
  dom (cores s') = dom (cores s) /\ task_idle (task_manager s') = task_idle (task_manager s) /\
  task_current (task_manager s') = task_current (task_manager s) /\
  task_needs_switching (task_manager s') = task_needs_switching (task_manager s).
Lemma settings_trans s1 s2 s3 : settings s1 s2 -> settings s2 s3 -> settings s1 s3.
Proof using Type. unfold settings. intros H K. destruct_and?. split_and!; congruence. Qed.
Lemma kept_settings s s' : kept s s' -> settings s s'.
Proof using Type. intros (H & H1 & H2 & H3 & _). split_and!; [by apply same_tasks_dom|done..]. Qed.
Lemma view_settings s s' : view s' = view s -> settings s s'.
Proof using Type. intros Hv. pose proof Hv as [=_ _ Hm]. split_and!; [by apply view_dom|by rewrite Hm..]. Qed.
Lemma settings_size s s' : settings s s' -> size (cores s') = size (cores s).
Proof using Type. intros (H & _). rewrite <- !(size_dom (D := gset Z)). by rewrite H. Qed.

(** The ticks, and those at the last boost. *)
Definition clock (s : os_t) : Z * Z := (timer_ticks s, last_priority_boost_at_ticks (task_manager s)).
Lemma rest_clock s s' : rest_of s' = rest_of s -> clock s' = clock s.
Proof using Type. intros H. change (clock (rest_of s') = clock (rest_of s)). by rewrite H. Qed.
Lemma view_clock s s' : view s' = view s -> clock s' = clock s.
Proof using Type. intros [=H1 _ H2]. unfold clock. by rewrite H1, H2. Qed.
Definition slice_of (s : os_t) (x : Z) : option Z := task_time_slice <$> cores s !! x.
Lemma view_slice s s' x : view s' = view s -> slice_of s' x = slice_of s x.
Proof using Type.
  intros Hv. unfold slice_of. destruct (cores s' !! x) as [c'|] eqn:Hc'.
  - destruct (view_task s s' x c' Hv Hc') as (c & Hc & _ & _ & _ & E). rewrite Hc. cbn. by rewrite E.
  - destruct (cores s !! x) as [c|] eqn:Hc; [|done].
    destruct (view_task s' s x c (eq_sym Hv) Hc) as (c' & E & _). congruence.
Qed.
Lemma slice_of_insert s s' x c y :
  cores s' = <[x := c]> (cores s) -> slice_of s x = Some (task_time_slice c) -> slice_of s' y = slice_of s y.
Proof using Type.
  intros E H. unfold slice_of in *. rewrite E.
  destruct (decide (y = x)) as [->|]; [by rewrite lookup_insert_eq|by rewrite lookup_insert_ne].
Qed.

(** The ready tasks other than [x] stand where they stood, no slice is another. *)
Record undisturbed (s : os_t) (x : Z) (s1 : os_t) (qs1 : list (list Z)) : Prop := {
  ud_places qs z k : queues s qs -> z <> x -> stands z qs k -> stands z qs1 k;
  ud_slices z : slice_of s1 z = slice_of s z;
  ud_clock : clock s1 = clock s;
}.

(** Who stands in a ready queue neither waits nor has ended. *)
Lemma stands_waiting s qs run z k c :
  orderly s qs run -> stands z qs k -> cores s !! z = Some c ->
  task_state c = TASK_STATE_READY \/ task_state c = TASK_STATE_RUNNING /\ z = run.
Proof using Type.
  intros Ho Hz Hc. pose proof (or_queues _ _ _ Ho) as Hq.
  destruct (stands_in z qs k Hz) as (i & q & Hi & Hqi & Hin).
  assert (z <> task_idle (task_manager s)) as Hzi by (intros ->; by apply (qs_idle _ _ Hq), (in_queue qs i q)).
  pose proof (or_placed _ _ _ Ho z c Hc Hzi) as Hp. pose proof (qs_levels _ _ Hq _ _ z c Hqi Hin Hc) as Hl.
  assert (forall j, (4 <= j)%nat -> z ∉ default [] (qs !! j)) as Hno.
  { intros j Hj Hx. destruct (qs !! j) as [q'|] eqn:E; [|by apply not_elem_of_nil in Hx].
    pose proof (qs_levels _ _ Hq _ _ z c E Hx Hc). lia. }
  unfold placed in Hp. destruct (task_state c); [by left|by right|..]; [|destruct Hp as [Hp|[]]|done].
  - by destruct (Hno 4%nat).
  - by destruct (Hno 5%nat ltac:(lia)).
  - by apply (in_queue qs i q).
Qed.

(** [x] is on its way out: a zombie that the queues [qs1] do not hold yet. *)
Record ending (total : bool) (s : os_t) (x : Z) (s1 : os_t) (qs1 : list (list Z)) : Prop := {
  en_orderly : orderly s1 qs1 (runner s);
  en_settings : settings s s1;
  en_kept : total = true -> kept s s1;
  en_running : x <> runner s -> running s1 qs1 (runner s);
  en_zombie : exists c, cores s1 !! x = Some c /\ task_state c = TASK_STATE_ZOMBIE;
  en_others : undisturbed s x s1 qs1;
}.

(** A step that keeps the place of every task, and one that touches others. *)
Lemma ending_seen total s x s1 s2 qs :
  ending total s x s1 qs -> view s2 = view s1 -> (total = true -> kept s1 s2) -> ending total s x s2 qs.
Proof using Type.
  intros [H1 H2 H3 H4 (c & Hc & H5) [U1 U2 U3]] Hv Hk. split.
  - by apply (orderly_seen s1).
  - eapply settings_trans; [exact H2|by apply view_settings].
  - intros Ht. eapply kept_trans; auto.
  - intros Hx. apply (running_seen s1); auto.
  - destruct (view_task s2 s1 x c (eq_sym Hv) Hc) as (c' & Hc' & E & _). exists c'. by rewrite E.
  - split; [done|intros z; by rewrite (view_slice s1 s2)|by rewrite (view_clock s1 s2)].
Qed.
Lemma ending_other total s x y c' s1 s2 qs1 qs2 :
  ending total s x s1 qs1 -> orderly s2 qs2 (runner s) -> kept s1 s2 -> cores s2 = <[y := c']> (cores s1) ->
  y <> runner s \/ x = runner s -> x <> y \/ task_state c' = TASK_STATE_ZOMBIE ->
  (x <> runner s -> runner s ∉ concat qs2) ->
  (forall z k, z <> x -> stands z qs1 k -> stands z qs2 k) -> slice_of s1 y = Some (task_time_slice c') ->
  rest_of s2 = rest_of s1 -> ending total s x s2 qs2.
Proof using Type.
  intros [H1 H2 H3 H4 (c & Hc & H5) [U1 U2 U3]] Ho Hk Hcs Hyr Hxy Hr Hz Hsl Hrest. split.
  - done.
  - eapply settings_trans; [exact H2|by apply kept_settings].
  - intros Ht. eapply kept_trans; auto.
  - intros Hx. destruct (H4 Hx) as (_ & cr & Hcr & Hst). split; [auto|]. exists cr.
    destruct Hyr as [Hyr|]; [|done]. by rewrite Hcs, lookup_insert_ne.
  - rewrite Hcs. destruct (decide (x = y)) as [->|Hne]; [rewrite lookup_insert_eq|rewrite lookup_insert_ne by done].
    + exists c'. destruct Hxy; done.
    + by exists c.
  - split; [eauto|intros z; by rewrite (slice_of_insert s1 s2 y c')|by rewrite (rest_clock s1 s2)].
Qed.
(** A blocked task becomes ready. *)
Lemma wp_unblock_orderly s qs run y c Q :
  orderly s qs run -> cores s !! y = Some c -> task_state c = TASK_STATE_BLOCKED -> (size (cores s) < fuel)%nat ->
  (forall q s', let qs' := <[0%nat := q ++ [y]]> (purge y qs) in
     purge y qs !! 0%nat = Some q -> queues s' qs' -> orderly s' qs' run -> kept s s' -> rest_of s' = rest_of s ->
     cores s' = <[y := c <| task_state := TASK_STATE_READY |> <| task_queue_level := 0 |>]> (cores s) -> Q tt s') ->
  wp (do! task_manager_unblock_task fuel y in ret tt) Q s.
Proof using Type.
  intros Ho Hc Hb Hf HQ. pose proof (or_queues _ _ _ Ho) as Hq. pose proof (queued_size s qs Hq).
  assert (y <> task_idle (task_manager s)) as Hi.
  { intros ->. destruct (orderly_idle s qs run c Ho Hc) as [[|] _]; congruence. }
  assert (task_queue_level c = 4) as Hl.
  { pose proof (or_placed _ _ _ Ho y c Hc Hi) as Hp. unfold placed in Hp. rewrite Hb in Hp.
    destruct (queues_six _ _ Hq) as (q0 & q1 & q2 & q3 & q4 & q5 & ->). by apply (qs_levels _ _ Hq 4%nat q4 y). }
  wp_step. apply (wp_unblock fuel s qs y c); try done; [intros ->; by rewrite (or_null _ _ _ Ho) in Hc|lia|lia|].
  intros q s1 K1 K2 K3 K4. wp_step.
  destruct (orderly_moved s s1 qs run 0 q y c _ Ho Hc K1 K2 K3 K4) as (L1 & L2); try done; [cbn; lia|].
  by apply (HQ q s1).
Qed.

(** Out of its queue: [x] is a zombie. *)
Lemma runs_end_unqueue {A} total s qs x code c t (k : M os_t A) Q :
  scheduled s qs -> x <> task_idle (task_manager s) -> cores s !! x = Some c -> core t = c ->
  task_state c <> TASK_STATE_ZOMBIE -> (size (cores s) < fuel)%nat ->
  (forall s', ending total s x s' (purge x qs) ->
     cores s' = <[x := c <| task_state := TASK_STATE_ZOMBIE |> <| return_code := code |>]> (cores s) -> kept s s' -> runs total k Q s') ->
  runs total (do! (if decide (task_state t = TASK_STATE_READY)
           then do! task_manager_remove_task_from_queue fuel (task_queue_level t) x in ret tt
           else if decide (task_state t = TASK_STATE_BLOCKED)
           then do! task_manager_remove_task_from_queue fuel TASK_MANAGER_QUEUE_INDEX_BLOCKED x in ret tt
           else ret tt) in
      do! update_task x (fun t => t <| task_state := TASK_STATE_ZOMBIE |>) in
      do! update_task x (fun t => t <| return_code := code |>) in k) Q s.
Proof using Type.
  intros Hs Hi Hc Hct Hst Hf HQ. pose proof (sd_orderly _ _ Hs) as Ho. pose proof (or_queues _ _ _ Ho) as Hq.
  pose proof (queued_size s qs Hq). destruct (scheduled_place s qs x c Hs Hc Hi Hst) as [Hb Hw].
  assert (x <> 0) as Hx0 by (intros ->; by rewrite (or_null _ _ _ Ho) in Hc).
  apply runs_bind_wp. eapply wp_mono; [apply (wp_exit_unqueue fuel s qs x c t); try done; [lia|by eapply level_range]|].
  intros [] s1 (K1 & K2 & K3). apply runs_bind_wp.
  eapply (wp_update_core s1 _ x); [done|by rewrite K2|done|done|by left|]. intros s2 L1 L2 L3 _.
  apply runs_bind_wp. eapply (wp_update_core s2 _ x); [done|by rewrite L2, lookup_insert_eq|done|done|by left|].
  intros s3 M1 M2 M3 _. rewrite L2, insert_insert_eq, K2 in M2.
  assert (kept s s3) as Hk by (apply kept_rest; [by eapply (same_tasks_insert s s3 x c); [..|exact M2]|congruence]).
  apply HQ; [|done|done]. split; [|by apply kept_settings|done| | |].
  - eapply orderly_change; [exact Ho|done|apply same_tasks_dom, Hk|apply Hk| |].
    + intros ci. rewrite M2, lookup_insert_ne by done. by apply (orderly_idle s qs (runner s)).
    + intros y cy. rewrite M2. destruct (decide (y = x)) as [->|Hy].
      * rewrite lookup_insert_eq. intros [= <-] _. right. apply not_in_purge.
      * rewrite lookup_insert_ne by done. intros Hcy Hyi. by apply placed_purge, (or_placed _ _ _ Ho).
  - intros Hx. destruct (sd_running _ _ Hs) as (H1 & cr & Hcr & H2). split; [by apply not_in_purged|].
    exists cr. by rewrite M2, lookup_insert_ne.
  - eexists. by rewrite M2, lookup_insert_eq.
  - split; [|intros z; apply (slice_of_insert s s3 _ _ _ M2); unfold slice_of; by rewrite Hc|apply rest_clock; congruence].
    intros qs0 z j Hq0 Hz. rewrite (queues_unique s qs0 qs Hq0 Hq). by apply stands_purge.
Qed.

(** Its children go to [init]; it may be that there is no memory for that. *)
Lemma runs_end_children total s x s1 qs first Q :
  ending total s x s1 qs -> (total = true -> first = 0) -> (0 < fuel)%nat ->
  (forall reparented s', ending total s x s' qs -> view s' = view s1 -> (total = true -> s' = s1) -> Q reparented s') ->
  runs total (task_manager_reparent base fuel first) Q s1.
Proof using Type.
  intros He Ht Hf HQ. destruct (decide (first = 0)) as [->|Hne].
  - apply runs_wp. unfold task_manager_reparent. destruct fuel as [|n]; [lia|]. cbn [loop]. rewrite Z.eqb_refl.
    wp_step. wp_step. wp_step. by apply HQ.
  - destruct total; [by destruct Hne; apply Ht|]. apply (wlp_keeps view); [apply keeps_reparent|].
    intros a s' Hv. apply HQ; [|done|done]. by apply (ending_seen false s x s1 s').
Qed.

(** A parent that waits for [x] is woken. *)
Lemma runs_end_wake total s x s1 qs t Q :
  ending total s x s1 qs -> x ∉ concat qs -> tasks s1 !! x = Some t -> (total = true -> calm s1) ->
  (size (cores s1) < fuel)%nat ->
  (forall s' qs', ending total s x s' qs' -> x ∉ concat qs' -> Q tt s') ->
  runs total (if parent t =? 0 then ret tt
      else
        let! p := load_task (parent t) in
        if bool_decide (task_state p = TASK_STATE_BLOCKED)
           && bool_decide (wait_reason p = TASK_WAIT_REASON_CHILD)
           && ((wait_object p =? task_id t) || (wait_object p =? u32 (-1)))
        then do! task_manager_unblock_task fuel (parent t) in ret tt
        else ret tt) Q s1.
Proof using Type.
  intros He Hx Ht Hcalm Hf HQ. destruct (Z.eqb_spec (parent t) 0) as [|Hp0]; [by apply runs_ret, (HQ s1 qs)|].
  apply runs_bind, runs_load_task.
  { intros Htot. assert (cores s1 !! x = Some (core t)) as Hc by (unfold cores; by rewrite lookup_fmap, Ht).
    destruct (ca_parents _ (Hcalm Htot) x (core t) Hc) as [|(_ & _ & cp & Hcp)]; [done|].
    destruct (cores_lookup s1 _ _ Hcp) as (p & Hp & _). by exists p. }
  intros p Hp. destruct (_ && _) eqn:Hw; [|by apply runs_ret, (HQ s1 qs)].
  assert (task_state p = TASK_STATE_BLOCKED) as Hb by (apply (parent_waits_blocked p _ Hw)).
  assert (cores s1 !! parent t = Some (core p)) as Hcp by (unfold cores; by rewrite lookup_fmap, Hp).
  assert (parent t <> x) as Hpx.
  { intros E. destruct (en_zombie _ _ _ _ _ He) as (c & Hc & Hz). rewrite <- E, Hcp in Hc. injection Hc as <-.
    cbn in Hz. congruence. }
  assert (parent t <> runner s \/ x = runner s) as Hpr.
  { destruct (decide (x = runner s)) as [|Hxr]; [by right|left]. intros E.
    destruct (en_running _ _ _ _ _ He Hxr) as (_ & c & Hc & Hr & _). rewrite <- E, Hcp in Hc. injection Hc as <-.
    cbn in Hr. congruence. }
  apply runs_wp, (wp_unblock_orderly s1 qs (runner s) (parent t) (core p)); [apply He|done|done|done|].
  intros q s2 qs2 K1 _ K2 K3 K5 K4. apply (HQ s2 qs2).
  - apply (ending_other total s x (parent t) _ s1 s2 qs qs2 He K2 K3 K4); [done|by left| | |unfold slice_of; by rewrite Hcp|done].
    + intros Hxr. apply not_in_push; [done| |by destruct Hpr].
      apply not_in_purged, (en_running _ _ _ _ _ He Hxr).
    + intros z k Hzx Hz. apply stands_moved; [|done|done]. intros ->.
      destruct (stands_waiting s1 qs (runner s) (parent t) k (core p)) as [H|[H _]]; [apply He|done|done|..];
        change (task_state p = TASK_STATE_BLOCKED) with (task_state (core p) = TASK_STATE_BLOCKED) in Hb; congruence.
  - apply not_in_push; [done|by apply not_in_purged|done].
Qed.

(** To the zombies. *)
Lemma wp_end_enqueue total s x s1 qs Q :
  ending total s x s1 qs -> x <> task_idle (task_manager s) -> x ∉ concat qs -> (size (cores s1) < fuel)%nat ->
  (forall r s' qs', ending total s x s' qs' -> Q r s') ->
  wp (do! task_manager_enqueue_task fuel TASK_MANAGER_QUEUE_INDEX_ZOMBIE x in ret TASK_MANAGER_RESULT_OK) Q s1.
Proof using Type.
  intros He Hi Hx Hf HQ. pose proof (en_orderly _ _ _ _ _ He) as Ho. pose proof (or_queues _ _ _ Ho) as Hq.
  pose proof (queued_size s1 qs Hq). destruct (en_zombie _ _ _ _ _ He) as (c & Hc & Hz).
  pose proof (en_settings _ _ _ _ _ He) as (_ & Hi1 & _).
  eapply wp_mono; [apply (wp_exit_enqueue fuel s1 qs x c Hq); try done; [|by rewrite Hi1|lia]|].
  { intros ->. by rewrite (or_null _ _ _ Ho) in Hc. }
  intros r s2 (_ & K1 & q & K2 & K3 & K4). apply (HQ r s2 (<[5%nat := q ++ [x]]> qs)).
  assert (kept s1 s2) as Hk by (apply kept_rest; [by eapply (same_tasks_insert s1 s2 x c); [..|exact K4]|done]).
  eapply (ending_other total s x x _ s1 s2 qs _ He);
    [|done|exact K4| |by right| |intros z k _; by apply stands_push|unfold slice_of; by rewrite Hc|done].
  - eapply orderly_change; [exact Ho|done|apply same_tasks_dom, Hk|apply Hk| |].
    + intros ci. rewrite K4, Hi1, lookup_insert_ne by done. rewrite <- Hi1. by apply (orderly_idle s1 qs (runner s)).
    + intros y cy. rewrite K4. destruct (decide (y = x)) as [->|Hy].
      * rewrite lookup_insert_eq. intros [= <-] _. apply placed_end; [apply (qs_length _ _ Hq)|done|]. cbn. by rewrite Hz.
      * rewrite lookup_insert_ne by done. intros Hcy Hyi. apply placed_push; [apply (qs_length _ _ Hq)|done|done|].
        by apply (or_placed _ _ _ Ho).
  - destruct (decide (x = runner s)); [by right|by left].
  - intros Hxr. apply not_in_push; [done|apply (en_running _ _ _ _ _ He Hxr)|done].
Qed.

Lemma runs_exit_orderly total s qs x code c Q :
  scheduled s qs -> task_needs_switching (task_manager s) = false -> x <> task_idle (task_manager s) ->
  cores s !! x = Some c -> task_state c <> TASK_STATE_ZOMBIE -> (size (cores s) < fuel)%nat ->
  (total = true -> children c = 0 /\ calm s) ->
  (forall r s' qs', ending total s x s' qs' -> (x <> runner s -> scheduled s' qs') -> Q r s') ->
  runs total (task_manager_exit_task base fuel x code) Q s.
Proof using Type.
  intros Hs Hns Hi Hc Hst Hf Ht HQ0.
  assert (forall r s' qs', ending total s x s' qs' -> Q r s') as HQ.
  { intros r s' qs' He. apply (HQ0 r s' qs' He). intros Hx. pose proof (en_settings _ _ _ _ _ He) as (_ & _ & E1 & E2).
    assert (runner s' = runner s) as E by (unfold runner; by rewrite E2, Hns, E1).
    split; rewrite E; [apply He|by apply (en_running _ _ _ _ _ He)]. }
  assert (forall s1 qs1, ending total s x s1 qs1 -> (size (cores s1) < fuel)%nat) as Hsz
    by (intros s1 qs1 He; by rewrite (settings_size _ _ (en_settings _ _ _ _ _ He))).
  unfold task_manager_exit_task. destruct (cores_lookup s x c Hc) as (t & Htk & Hct).
  apply runs_bind_wp. eapply wp_load_task; [done|].
  apply (runs_end_unqueue total s qs x code c t); try done. intros s1 He1 Hc1 Hk1.
  destruct (cores_lookup s1 x _ ltac:(rewrite Hc1; apply lookup_insert_eq)) as (t1 & Ht1 & Hct1).
  apply runs_bind_wp. eapply wp_load_task; [done|]. apply runs_bind.
  apply (runs_end_children total s x s1 (purge x qs)); [done| |lia|].
  { intros Htot. change (children (core t1) = 0). rewrite Hct1. by apply Ht. }
  intros reparented s2 He2 Hv Heq. destruct reparented; cbn [negb]; [|by apply runs_ret, (HQ _ s2 (purge x qs))].
  destruct (en_zombie _ _ _ _ _ He2) as (c2 & Hc2 & Hz2).
  apply runs_bind_wp. eapply (wp_update_orderly s2 (purge x qs) (runner s) x c2); try done; [apply He2|].
  intros s3 L1 L2 L3 L4 L5. assert (ending total s x s3 (purge x qs)) as He3.
  { eapply (ending_other total s x x _ s2 s3 (purge x qs) _ He2);
      [done|by apply kept_rest|exact L2| |by right| |done|unfold slice_of; by rewrite Hc2|done].
    - destruct (decide (x = runner s)); [by right|by left].
    - intros Hx. apply (en_running _ _ _ _ _ He2 Hx). }
  destruct (cores_lookup s3 x _ ltac:(rewrite L2; apply lookup_insert_eq)) as (t3 & Ht3 & _).
  apply runs_bind_wp. eapply wp_load_task; [done|]. apply runs_bind.
  eapply (runs_end_wake total s x s3 (purge x qs) t3); [done|apply not_in_purge|done| |by eapply Hsz|].
  { intros Htot. apply (calm_ran s); [by apply Ht|]. by apply kept_ran, (en_kept _ _ _ _ _ He3). }
  intros s4 qs4 He4 Hx4. apply runs_wp, (wp_end_enqueue total s x s4 qs4); [done|done|done|by eapply Hsz|done].
Qed.

(** ** Events *)

Lemma blocked_queue s qs q x c :
  scheduled s qs -> qs !! 4%nat = Some q -> x ∈ q -> cores s !! x = Some c -> task_state c = TASK_STATE_BLOCKED.
Proof using Type.
  intros [Ho [Hr _]] Hi Hx Hc. pose proof (or_queues _ _ _ Ho) as Hq. pose proof (in_queue qs _ _ _ Hi Hx) as Hin.
  assert (x <> task_idle (task_manager s)) as Hidle by (intros ->; by apply (qs_idle _ _ Hq)).
  pose proof (or_placed _ _ _ Ho x c Hc Hidle) as Hp. unfold placed in Hp.
  pose proof (qs_levels _ _ Hq _ _ x c Hi Hx Hc) as Hl4.
  assert (forall j q', qs !! j = Some q' -> x ∈ q' -> j = 4%nat) as Honly.
  { intros j q' Hj Hx'. pose proof (qs_levels _ _ Hq _ _ x c Hj Hx' Hc). lia. }
  destruct (queues_six _ _ Hq) as (q0 & q1 & q2 & q3 & q4 & q5 & ->).
  destruct (task_state c); [exfalso|by subst x|done|exfalso|done].
  - simpl in Hp. rewrite !elem_of_app, elem_of_nil in Hp.
    destruct Hp as [H|[H|[H|[H|[]]]]];
      [by specialize (Honly 0%nat q0 eq_refl H)|by specialize (Honly 1%nat q1 eq_refl H)
      |by specialize (Honly 2%nat q2 eq_refl H)|by specialize (Honly 3%nat q3 eq_refl H)].
  - destruct Hp as [Hp|Hp]; [by specialize (Honly 5%nat q5 eq_refl Hp)|by apply Hp].
Qed.

Lemma readied_back l cs cs' x c' :
  readied l cs cs' -> cs' !! x = Some c' -> exists c, cs !! x = Some c /\
  c' = (if bool_decide (x ∈ l) then c <| task_state := TASK_STATE_READY |> <| task_queue_level := 0 |> else c).
Proof using Type.
  intros H Hx. rewrite H in Hx. destruct (cs !! x) as [c|]; [|by case_bool_decide].
  exists c. split; [done|]. by case_bool_decide; injection Hx as <-.
Qed.

Lemma wp_wake_scheduled s qs reason object Q :
  settled s qs -> (forall s' qs', scheduled s' qs' -> kept s s' -> Q tt s') ->
  wp (task_manager_wake_blocked_on fuel reason object) Q s.
Proof using Type.
  intros (Hs & Hns & Hf) HQ. pose proof (sd_orderly _ _ Hs) as Ho. pose proof (or_queues _ _ _ Ho) as Hq.
  pose proof (queued_size s qs Hq) as Hsz. destruct (queues_six _ _ Hq) as (q0 & q1 & q2 & q3 & q4 & q5 & ->).
  assert (forall x, x ∈ q4 -> x ∈ concat [q0; q1; q2; q3; q4; q5]) as Hin
    by (intros x Hx; simpl; rewrite !elem_of_app; tauto).
  apply (wp_wake_blocked_on fuel s q0 q1 q2 q3 q4 q5); [done| | |].
  - intros x c Hx Hc. by eapply (blocked_queue s _ q4).
  - simpl in Hsz. rewrite app_nil_r in Hsz. lia.
  - intros s' woken others K1 K2 K3. subst woken others. assert (same_tasks s s') as Hsame.
    { intros x. rewrite (K2 x). case_bool_decide; [|done]. by destruct (cores s !! x). }
    assert (runner s ∉ q4) as Hr4 by (intros H; by apply (proj1 (sd_running _ _ Hs)), Hin).
    eapply HQ; [|by apply kept_rest]. eapply scheduled_kept; [exact Hs|by apply kept_rest|done| | |].
    + eapply orderly_change; [exact Ho|exact K1|by apply same_tasks_dom|by apply rest_idle| |].
      * intros ci (c & Hc & ->)%(readied_back _ _ _ _ _ K2). rewrite bool_decide_eq_false_2.
        -- by apply (orderly_idle _ _ _ c Ho).
        -- intros [_ H]%list_elem_of_filter. by apply (qs_idle _ _ Hq), Hin.
      * intros x c' (c & Hc & ->)%(readied_back _ _ _ _ _ K2) Hx.
        pose proof (or_placed _ _ _ Ho x c Hc Hx) as Hp. case_bool_decide as Hw; unfold placed in *; simpl in *.
        -- rewrite !elem_of_app. tauto.
        -- destruct (task_state c); try done; [revert Hp; rewrite !elem_of_app; tauto| |].
           ++ apply list_elem_of_filter. split; [|done]. apply not_true_is_false. intros Hwt. apply Hw.
              by apply list_elem_of_filter.
           ++ revert Hp. rewrite !elem_of_app, !list_elem_of_filter. tauto.
    + intros H. apply (proj1 (sd_running _ _ Hs)). revert H. simpl. rewrite !elem_of_app, !list_elem_of_filter. tauto.
    + rewrite (K2 (runner s)), bool_decide_eq_false_2; [done|]. by intros [_ H]%list_elem_of_filter.
Qed.

Lemma settled_current s qs : settled s qs -> runner s = task_current (task_manager s).
Proof using Type. intros (_ & Hns & _). unfold runner. by rewrite Hns. Qed.

Lemma runs_tick_scheduled total s qs kernel_mode Q :
  settled s qs -> (total = true -> page_directories_to_destroy (kernel s) = 0) ->
  (forall s' qs', scheduled s' qs' -> ran s s' -> Q tt s') ->
  runs total (timer_irq_handler base fuel kernel_mode) Q s.
Proof using Type.
  intros H Ht HQ. pose proof (settled_current s qs H) as Hcur. destruct H as ([Ho Hr] & Hns & Hf).
  unfold timer_irq_handler, manager. do 2 apply runs_bind_wp, wp_modify || apply runs_bind_wp; wp_step.
  match goal with |- runs _ _ _ ?st => set (s0 := st) end.
  assert (orderly s0 qs (runner s)) as Ho0 by (by apply (orderly_view s)).
  change (task_manager s0) with (task_manager s). rewrite <- Hcur.
  destruct Hr as (Hx & c & Hc & Hst). destruct (Z.eqb_spec (runner s) 0) as [E|_].
  { rewrite E, (or_null _ _ _ Ho) in Hc. done. }
  apply runs_bind_wp, (wp_mono _ (fun _ s1 => orderly s1 qs (runner s) /\ running s1 qs (runner s) /\ kept s0 s1)).
  - destruct kernel_mode; (eapply (wp_update_orderly s0 qs _ (runner s) c); try done);
      intros s1 K1 K2 K3 K4 K5; (split_and!; [done| |by apply kept_rest]); (split; [done|]); eexists; by rewrite K2, lookup_insert_eq.
  - intros [] s1 (K1 & K2 & K3). pose proof K3 as (L1 & _ & L2 & L3 & L4). change (task_manager s0) with (task_manager s) in *.
    apply (runs_schedule_orderly total s1 qs (runner s)); [done|congruence|congruence|by left| |by rewrite L4|].
    { rewrite (same_tasks_size s0 s1) by done. change (size (cores s) < fuel)%nat. lia. }
    intros s2 qs2 M1 M2. apply (HQ s2 qs2); [done|]. eapply ran_trans; [|exact M2]. by apply (kept_ran s0).
Qed.

Lemma runs_block_scheduled total s qs reason object Q :
  settled s qs -> task_current (task_manager s) <> task_idle (task_manager s) ->
  (total = true -> page_directories_to_destroy (kernel s) = 0) ->
  (forall s' qs', scheduled s' qs' -> ran s s' -> Q tt s') ->
  runs total (block_current reason object) Q s.
Proof using Type.
  intros H Hi Ht HQ. pose proof (settled_current s qs H) as Hcur. destruct H as (Hs & Hns & Hf).
  pose proof (sd_orderly _ _ Hs) as Ho. pose proof (or_queues _ _ _ Ho) as Hq. pose proof (queued_size s qs Hq).
  destruct (sd_running _ _ Hs) as (Hx & c & Hc & Hst & Hl). rewrite Hcur in *.
  unfold block_current, manager. apply runs_bind_wp. wp_step. apply runs_bind_wp.
  eapply wp_mono; [apply (task_manager_block_task_spec fuel s qs _ c reason object); try done|].
  { intros E. by rewrite E, (or_null _ _ _ Ho) in Hc. }
  { lia. }
  { lia. }
  intros r s1 (_ & K). rewrite decide_False in K by (by rewrite Hst). destruct K as (q & K1 & K2 & K3 & K4).
  destruct (orderly_moved s s1 qs (task_current (task_manager s)) 4 q _ c _ Ho Hc K1 K2 K3 K4) as (L1 & L2); try done.
  pose proof L2 as (L3 & L4 & L5 & L6 & L7).
  eapply (runs_yield_stopped total s1 _ (task_current (task_manager s))); try done; [congruence|congruence|by rewrite K3, lookup_insert_eq|by left|..].
  - rewrite (same_tasks_size s s1) by done. lia.
  - by rewrite L7.
  - intros s2 qs2 M1 M2. apply (HQ s2 qs2); [done|]. eapply ran_trans; [by apply kept_ran|done].
Qed.

Lemma runs_exit_scheduled total s qs code Q :
  settled s qs -> task_current (task_manager s) <> task_idle (task_manager s) ->
  (total = true -> calm s /\ exists c, cores s !! task_current (task_manager s) = Some c /\ children c = 0) ->
  (forall s' qs', scheduled s' qs' -> size (cores s') = size (cores s) -> (total = true -> ran s s') -> Q tt s') ->
  runs total (exit_current code) Q s.
Proof using Type.
  intros H Hi Ht HQ. pose proof (settled_current s qs H) as Hcur. destruct H as (Hs & Hns & Hf).
  destruct (sd_running _ _ Hs) as (_ & c & Hc & Hst & _). rewrite Hcur in Hc.
  unfold exit_current, manager. apply runs_bind_wp. wp_step. apply runs_bind.
  apply (runs_exit_orderly total s qs _ code c); try done; [by rewrite Hst|lia| |].
  { intros Htot. destruct (Ht Htot) as (Hcalm & c' & Hc' & Hch). rewrite Hc in Hc'. by injection Hc' as <-. }
  intros r s1 qs1 He _. pose proof (en_orderly _ _ _ _ _ He) as K1. rewrite Hcur in K1.
  pose proof (en_settings _ _ _ _ _ He) as Hset. pose proof Hset as (_ & K2 & K3 & K4).
  destruct (en_zombie _ _ _ _ _ He) as (c1 & K5 & K6).
  apply (runs_yield_stopped total s1 qs1 (task_current (task_manager s)) c1); try done; [congruence|congruence|by right|..].
  - rewrite (settings_size s s1) by done. lia.
  - intros Htot. destruct (en_kept _ _ _ _ _ He Htot) as (_ & _ & _ & _ & ->). by apply (ca_kernel s), Ht.
  - intros s2 qs2 M1 M2. apply (HQ s2 qs2); [done| |].
    + by rewrite (same_tasks_size s1 s2 (proj1 M2)), (settings_size s s1 Hset).
    + intros Htot. eapply ran_trans; [|exact M2]. by apply kept_ran, (en_kept _ _ _ _ _ He).
Qed.

Lemma runs_kill_scheduled total s qs x code c Q :
  settled s qs -> x <> task_idle (task_manager s) -> x <> task_current (task_manager s) ->
  cores s !! x = Some c -> task_state c <> TASK_STATE_ZOMBIE -> (total = true -> children c = 0 /\ calm s) ->
  (forall r s' qs', scheduled s' qs' -> settings s s' -> (total = true -> ran s s') -> Q r s') ->
  runs total (task_manager_exit_task base fuel x code) Q s.
Proof using Type.
  intros H Hi Hx Hc Hst Ht HQ. pose proof (settled_current s qs H) as Hcur. destruct H as (Hs & Hns & Hf).
  apply (runs_exit_orderly total s qs x code c); try done; [lia|]. intros r s1 qs1 He K.
  apply (HQ r s1 qs1); [apply K; by rewrite Hcur|apply (en_settings _ _ _ _ _ He)|].
  intros Htot. by apply kept_ran, (en_kept _ _ _ _ _ He).
Qed.

Lemma wp_unblock_scheduled s qs x c Q :
  settled s qs -> cores s !! x = Some c -> task_state c = TASK_STATE_BLOCKED ->
  (forall s' qs', scheduled s' qs' -> kept s s' ->
     cores s' = <[x := c <| task_state := TASK_STATE_READY |> <| task_queue_level := 0 |>]> (cores s) -> Q tt s') ->
  wp (do! task_manager_unblock_task fuel x in ret tt) Q s.
Proof using Type.
  intros (Hs & Hns & Hf) Hc Hst HQ.
  apply (wp_unblock_orderly s qs (runner s) x c); [apply Hs|done|done|lia|].
  intros q s1 qs1 K1 K2 K3 K4 K5 K6. apply (HQ s1 qs1); [|done|done].
  destruct (sd_running _ _ Hs) as (Hx & cr & Hcr & Hsr & _).
  assert (runner s <> x) as Hrx by (intros E; rewrite E, Hc in Hcr; congruence).
  apply (scheduled_kept s s1 qs); try done; [|by rewrite K6, lookup_insert_ne].
  by apply not_in_push; [|apply not_in_purged|].
Qed.

Lemma wp_run_event s qs e Q :
  settled s qs -> calm s -> permitted s e -> (forall s' qs', scheduled s' qs' -> ran s s' -> Q tt s') ->
  wp (run_event e) Q s.
Proof using Type.
  intros H Hcalm Hp HQ. pose proof (ca_kernel s Hcalm) as Hk.
  destruct e as [km|reason object|reason object|code|x code|x].
  - by apply wp_runs, (runs_tick_scheduled true s qs).
  - apply (wp_wake_scheduled s qs); [done|]. intros s' qs' K1 K2. apply (HQ s' qs'); [done|by apply kept_ran].
  - by apply wp_runs, (runs_block_scheduled true s qs).
  - destruct Hp as (Hi & Hl). apply wp_runs, (runs_exit_scheduled true s qs); [done|done|auto|].
    intros s' qs' K1 _ K2. apply (HQ s' qs'); auto.
  - destruct Hp as (Hi & Hx & (c & Hc & Hch) & c' & Hc' & Hst). rewrite Hc in Hc'. injection Hc' as <-.
    apply wp_runs, runs_bind, (runs_kill_scheduled true s qs x code c); auto.
    intros r s1 qs1 K1 _ K2. by apply runs_ret, (HQ s1 qs1); auto.
  - destruct Hp as (Hi & c & Hc). cbn [run_event]. unfold signal_other. destruct (cores_lookup s x c Hc) as (t & Ht & Hct).
    wp_step. eapply wp_load_task; [done|].
    assert (task_state t = task_state c) as -> by (change (task_state (core t) = task_state c); by rewrite Hct).
    case_bool_decide as Hst; [|wp_step; by apply (HQ s qs); [apply H|]].
    apply (wp_unblock_scheduled s qs x c); [done..|]. intros s1 qs1 K1 K2 _. apply (HQ s1 qs1); [done|by apply kept_ran].
Qed.

(** ** The way out

    The stubs also store through the stack of the next task, an access that the
    invariant of the scheduler does not speak about: [wlp] is for runs that
    return. *)

Lemma wlp_in_machine {A} (op : M machine_t A) Q s :
  (forall a m, Q a (s <| kernel := set_machine m (kernel s) |>)) -> wlp (in_machine op) Q s.
Proof using Type.
  intros H. unfold runs, in_machine, on_kernel, on_machine, zoom. by destruct (op (machine (kernel s))) as [[a m]| |].
Qed.

Lemma wlp_load_task p Q s : (forall t, tasks s !! p = Some t -> Q t s) -> wlp (load_task p) Q s.
Proof using Type. intros H. unfold runs, load_task, bind, get, of_option. destruct (tasks s !! p); [by apply H|done]. Qed.

(** The task [x] is to run: what the steps of a switch keep. *)
Definition switching (s : os_t) (qs : list (list Z)) (x : Z) : Prop :=
  orderly s qs x /\ running s qs x /\ task_needs_switching (task_manager s) = false.

Lemma switching_view s s' qs x :
  switching s qs x -> tasks s' = tasks s -> task_queues (task_manager s') = task_queues (task_manager s) ->
  task_idle (task_manager s') = task_idle (task_manager s) ->
  task_needs_switching (task_manager s') = task_needs_switching (task_manager s) -> switching s' qs x.
Proof using Type.
  intros (Ho & Hr & Hn) Ht Hq Hi Hns. split_and!; [by apply (orderly_view s)| |congruence].
  unfold running, cores in *. by rewrite Ht.
Qed.

Lemma wlp_save_esp s qs x p esp Q :
  switching s qs x -> (forall s', switching s' qs x -> ran s s' -> task_manager s' = task_manager s -> Q tt s') ->
  wlp (update_task p (fun t => t <| task_esp := esp |>)) Q s.
Proof using Type.
  intros (Ho & (Hx & c & Hc & Hst) & Hn) HQ. destruct (tasks s !! p) as [t|] eqn:Ht.
  - apply runs_wp. eapply (wp_update_orderly s qs x p (core t)); try done.
    { unfold cores. by rewrite lookup_fmap, Ht. }
    intros s' K1 K2 K3 K4 K5. apply HQ; [|by apply kept_ran, kept_rest|done]. split_and!; [done| |by rewrite K4]. split; [done|].
    rewrite K2. destruct (decide (x = p)) as [->|Hxp].
    + rewrite lookup_insert_eq. eexists. split; [done|]. cbn. unfold cores in Hc. rewrite lookup_fmap, Ht in Hc.
      by injection Hc as <-.
    + rewrite lookup_insert_ne by done. by exists c.
  - unfold runs, update_task, load_task, bind, get, of_option. by rewrite Ht.
Qed.

Lemma wlp_task_switch s qs esp Q :
  switching s qs (task_next (task_manager s)) ->
  (forall r s', scheduled s' qs -> task_needs_switching (task_manager s') = false -> ran s s' -> Q r s') ->
  wlp (task_manager_task_switch esp) Q s.
Proof using Type.
  intros Hs HQ. unfold task_manager_task_switch, manager. apply runs_bind, runs_wp. wp_step.
  set (x := task_next (task_manager s)) in *. apply runs_bind.
  assert (forall s1, switching s1 qs x -> ran s s1 -> task_manager s1 = task_manager s -> wlp (task_manager_load_next x) Q s1) as Hgo.
  { intros s1 H1 Hsame Hm. pose proof H1 as (_ & (_ & c & Hc & _) & _).
    destruct (cores_lookup s1 x c Hc) as (t & Ht & _).
    apply runs_bind, runs_wp. eapply wp_load_task; [done|]. apply runs_bind, runs_wp, wp_modify.
    apply runs_bind, wlp_in_machine. intros _ m2.
    match goal with |- wlp _ _ ?st => set (s2 := st) end.
    assert (forall m3, let s3 := s2 <| kernel := set_machine m3 (kernel s2) |> in Q (stack_top t, task_esp t) s3) as Hend.
    { intros m3 s3. assert (switching s3 qs x) as (K1 & K2 & K3) by (by apply (switching_view s1)).
      assert (runner s3 = x) as Hr.
      { unfold runner. rewrite K3. change (task_next (task_manager s1) = x). by rewrite Hm. }
      apply HQ; [by split; rewrite Hr|done|]. eapply ran_trans; [exact Hsame|by split_and!; [apply same_tasks_eq|..]]. }
    apply runs_bind. destruct (retry_word_set t).
    - apply wlp_in_machine. intros _ m3. apply runs_wp, wp_ret, Hend.
    - apply runs_wp, wp_ret, runs_wp, wp_ret. specialize (Hend (machine (kernel s2))). cbv zeta in Hend.
      by destruct s1 as [[]]. }
  destruct (Z.eqb_spec (task_current (task_manager s)) 0); [by apply runs_wp, wp_ret, Hgo|].
  apply (wlp_save_esp s qs x); [done|]. auto.
Qed.

Lemma wlp_finish s qs e esp Q :
  scheduled s qs ->
  (forall r s', scheduled s' qs -> task_needs_switching (task_manager s') = false -> ran s s' -> Q r s') ->
  wlp (finish e esp) Q s.
Proof using Type.
  intros Hs HQ.
  assert (forall s1, scheduled s1 qs -> ran s s1 -> wlp (irq_stub_finish esp) Q s1) as Hirq.
  { intros s1 Hs1 Hsame. unfold irq_stub_finish, manager. apply runs_bind, runs_wp. wp_step.
    destruct (task_needs_switching (task_manager s1)) eqn:Hn.
    - apply runs_bind, runs_wp, wp_modify, runs_bind.
      match goal with |- wlp _ _ ?st => set (s2 := st) end.
      assert (runner s1 = task_next (task_manager s1)) as Hr by (unfold runner; by rewrite Hn).
      apply (wlp_task_switch s2 qs).
      + destruct Hs1 as [Ho Hx]. rewrite Hr in Ho, Hx. split_and!; [by apply (orderly_view s1)|exact Hx|done].
      + intros r s3 K1 K2 K3. apply runs_wp, wp_ret, HQ; [done|done|]. eapply ran_trans; [exact Hsame|exact K3].
    - apply runs_wp, wp_ret. by apply HQ. }
  assert (wlp (isr_stub_finish esp) Q s) as Hisr.
  { unfold isr_stub_finish, manager. apply runs_bind, runs_wp. wp_step. apply runs_bind.
    apply wlp_load_task. intros t _. apply runs_bind, wlp_in_machine.
    intros _ m. apply Hirq; [|by split_and!; [apply same_tasks_eq|..]]. destruct Hs as [Ho Hx].
    split; [by apply (orderly_view s)|exact Hx]. }
  destruct e; try exact Hisr; by apply Hirq.
Qed.

(** The scheduler's invariant, for its own events.  Whatever events enter the kernel, from a
    system in order, in every state reached when the kernel has been left again
    the queues are disjoint lists of tasks, every task but the idle one is in the
    place its state says (a ready task in one of the four ready queues, a
    blocked one in the blocked queue, a zombie in the zombie queue, a running one
    on the processor), and the task on the processor is running and in no
    queue. *)
Theorem reachable_in_order s0 qs0 s :
  settled s0 qs0 -> calm s0 -> reachable s0 s ->
  exists qs, queues s qs /\
    (forall x c, cores s !! x = Some c -> x <> task_idle (task_manager s) ->
       placed qs (task_current (task_manager s)) x c) /\
    (task_current (task_manager s) ∉ concat qs) /\
    (exists c, cores s !! task_current (task_manager s) = Some c /\ task_state c = TASK_STATE_RUNNING) /\
    task_needs_switching (task_manager s) = false.
Proof using Type.
  intros H0 Hc0 Hr. assert ((exists qs, settled s qs) /\ calm s) as [(qs & H) _].
  { clear -H0 Hc0 Hr. induction Hr as [|s e esp r s' _ [(qs & H) Hc] Hp Hrun]; [split; [by exists qs0|done]|].
    assert (wlp (kernel_entry e esp) (fun _ s1 => (exists qs1, settled s1 qs1) /\ calm s1) s) as Hk.
    { unfold kernel_entry. apply runs_bind, runs_wp. apply (wp_run_event s qs); [done|done|done|].
      intros s1 qs1 K1 K2. apply (wlp_finish s1 qs1); [done|]. intros r2 s2 L1 L2 L3.
      assert (ran s s2) as L4 by (by eapply ran_trans). split; [|by apply (calm_ran s)]. exists qs1.
      split_and!; [done|done|]. rewrite (same_tasks_size s s2); [apply H|apply L4]. }
    unfold runs in Hk. by rewrite Hrun in Hk. }
  pose proof (settled_current s qs H) as Hcur. destruct H as ([Ho Hx] & Hn & _). rewrite Hcur in *.
  exists qs. destruct Hx as (Hx & c & Hc & Hst & _). split_and!; [apply Ho|apply Ho|done|by exists c|done].
Qed.

(** C34: Every event returns.  In a system in order, with more fuel than there
    are tasks, a tick, a wake-up, a wait, the end of a task without children and
    a signal all come to an end without a wrong access, and a task is then
    chosen that is ready to be given the processor. *)
Theorem run_event_returns s qs e :
  settled s qs -> calm s -> permitted s e ->
  exists s' qs', run_event e s = Ret (tt, s') /\ scheduled s' qs' /\ same_tasks s s'.
Proof using Type.
  intros H Hcalm Hp. assert (wp (run_event e) (fun _ s' => exists qs', scheduled s' qs' /\ same_tasks s s') s) as Hw.
  { apply (wp_run_event s qs); [done|done|done|]. intros s' qs' K1 [K2 _]. by exists qs'. }
  apply wp_returns in Hw as ([] & s' & Hr & qs' & K1 & K2). by exists s', qs'.
Qed.
End scheduler.
#[local] Existing Instance demo_old_nodes.

(** ** A concrete run

    The system of [TaskManager]: the tick ends the slice of task 0x500, and the
    kernel is left for task 0x200. *)
Lemma demo_tasks (P : Z -> task_t -> Prop) :
  Forall (fun x => P x (default zero_task (cores demo !! x))) [0x100; 0x200; 0x300; 0x400; 0x500] ->
  forall x c, cores demo !! x = Some c -> P x c.
Proof.
  intros HP x c Hc. assert (x ∈ [0x100; 0x200; 0x300; 0x400; 0x500]) as Hx.
  { assert (x ∈ dom (cores demo)) as Hd by (apply elem_of_dom; by exists c). revert Hd. clear.
    replace (dom (cores demo)) with (list_to_set [0x100; 0x200; 0x300; 0x400; 0x500] : gset Z) by (vm_compute; reflexivity).
    by rewrite elem_of_list_to_set. }
  pose proof (proj1 (list.Forall_forall _ _) HP x Hx) as H. simpl in H. by rewrite Hc in H.
Qed.
Lemma demo_settled : settled 8 demo demo_queues.
Proof.
  split_and!; [split; [split|]|reflexivity|vm_compute; lia].
  - exact demo_ok.
  - apply (demo_tasks (fun x c => x <> task_idle (task_manager demo) -> placed demo_queues (runner demo) x c)).
    repeat apply Forall_cons_2; [..|apply Forall_nil_2]; intros Hi.
    + by destruct Hi.
    + change (0x200 ∈ [0x200; 0x300]). rewrite !elem_of_cons. tauto.
    + change (0x300 ∈ [0x200; 0x300]). rewrite !elem_of_cons. tauto.
    + change (0x400 ∈ [0x400]). by left.
    + reflexivity.
  - eexists. split; [reflexivity|]. split; [by left|vm_compute; split; congruence].
  - reflexivity.
  - split; [by apply (bool_decide_unpack (0x500 ∉ [0x200; 0x300; 0x400]))|].
    eexists. split; [reflexivity|]. split; [reflexivity|vm_compute; split; congruence].
Qed.
Lemma demo_calm : calm demo.
Proof.
  split; [|reflexivity].
  apply (demo_tasks (fun x c => parent c = 0 \/ parent c <> x /\ parent c <> task_idle (task_manager demo) /\
      is_Some (cores demo !! parent c))).
  repeat apply Forall_cons_2; [by left..| |apply Forall_nil_2].
  right. split_and!; [vm_compute; congruence..|by eexists].
Qed.

Definition demo_after : os_t :=
  match kernel_entry 0xC0100000 8 (EV_TICK false) 0xCFFFFFB8 demo with Ret (_, s) => s | _ => demo end.

Lemma reachable_in_order_witness :
  task_current (task_manager demo_after) = 0x200 /\ exists qs, queues demo_after qs /\ 0x200 ∉ concat qs.
Proof.
  split; [vm_compute; reflexivity|].
  destruct (reachable_in_order 0xC0100000 8 demo demo_queues demo_after) as (qs & Hq & _ & Hx & _).
  - exact demo_settled.
  - exact demo_calm.
  - apply (reachable_step _ _ _ demo (EV_TICK false) 0xCFFFFFB8 (Some (0xD0000000, 0))); [constructor|exact I|].
    vm_compute. reflexivity.
  - exists qs. split; [exact Hq|exact Hx].
Defined.

Lemma run_event_returns_witness :
  exists s' qs', run_event 0xC0100000 8 (EV_EXIT 3) demo = Ret (tt, s') /\ scheduled s' qs' /\ same_tasks demo s'.
Proof.
  apply (run_event_returns 0xC0100000 8 demo demo_queues (EV_EXIT 3)).
  - exact demo_settled.
  - exact demo_calm.
  - split; [vm_compute; congruence|]. eexists. split; reflexivity.
Defined.
