(* ===== verification/Watch.v ===== *)
(** * Watching the scheduler

    What is said of the state at the start of an entry into the kernel ([before])
    and at its end ([after]), for a property that every step of the scheduler
    carries from one to the other.  The handlers of calls and interrupts are
    proved against this interface ([Calls], [Entry]); [Fairness] is an
    instance of it. *)
From S2P Require Import Prelude Keeps Bitmap Paging KernelHeap Tasks TaskManager Memory Scheduler.

Class Watch := { before : os_t -> Prop; after : os_t -> Prop }.

(** The steps of the scheduler, each from a system in order. *)
Class WatchLaws (base : Z) (fuel : nat) {old : OldNodes} {watch : Watch} : Prop := {
  before_seen o o' : view o' = view o -> before o -> before o';
  after_seen o o' : view o' = view o -> after o -> after o';
  before_after o : before o -> after o;
  watch_tick o qs kernel_mode :
    settled fuel o qs -> before o -> wlp (timer_irq_handler base fuel kernel_mode) (fun _ o' => after o') o;
  watch_wake o qs reason object :
    settled fuel o qs -> before o -> wlp (task_manager_wake_blocked_on fuel reason object) (fun _ o' => after o') o;
  watch_block o qs reason object :
    settled fuel o qs -> task_current (task_manager o) <> task_idle (task_manager o) -> before o ->
    wlp (block_current base fuel reason object) (fun _ o' => after o') o;
  watch_exit o qs code :
    settled fuel o qs -> task_current (task_manager o) <> task_idle (task_manager o) -> before o ->
    wlp (exit_current base fuel code) (fun _ o' => after o') o;
  watch_kill o qs x c code :
    settled fuel o qs -> x <> task_idle (task_manager o) -> x <> task_current (task_manager o) ->
    cores o !! x = Some c -> task_state c <> TASK_STATE_ZOMBIE -> before o ->
    wlp (task_manager_exit_task base fuel x code) (fun _ o' => after o') o;
  watch_unblock o qs x c :
    settled fuel o qs -> cores o !! x = Some c -> task_state c = TASK_STATE_BLOCKED -> before o ->
    wlp (do! task_manager_unblock_task fuel x in ret tt) (fun _ o' => before o') o;
  (* a zombie is reaped in two steps *)
  watch_remove o qs x c :
    settled fuel o qs -> cores o !! x = Some c -> task_state c = TASK_STATE_ZOMBIE -> before o ->
    wlp (do! task_manager_remove_task_from_queue fuel (task_queue_level c) x in ret tt) (fun _ o' => before o') o;
  watch_delete o qs x c :
    scheduled o qs -> x ∉ concat qs -> cores o !! x = Some c -> task_state c = TASK_STATE_ZOMBIE -> before o ->
    after (o <| tasks := delete x (tasks o) |>);
  (* the copy [x] of a task is given a place *)
  watch_adopt o qs x t :
    settled fuel (o <| tasks := delete x (tasks o) |>) qs -> before (o <| tasks := delete x (tasks o) |>) ->
    tasks o !! x = Some t -> x <> 0 -> task_state t = TASK_STATE_READY -> 0 <= task_queue_level t < 4 ->
    wlp (task_manager_enqueue_task fuel (task_queue_level t) x) (fun _ o' => after o') o;
  watch_finish o qs e esp :
    scheduled o qs -> after o -> wlp (finish e esp) (fun _ o' => after o') o;
}.

(** Nothing is watched. *)
Definition nothing_watched : Watch := {| before _ := True; after _ := True |}.
Lemma wlp_true {S A} (m : M S A) s : wlp m (fun _ _ => True) s.
Proof. unfold runs. by destruct (m s) as [[]| |]. Qed.
Lemma nothing_laws base fuel {old : OldNodes} : WatchLaws base fuel (watch := nothing_watched).
Proof. split; intros; solve [done | apply wlp_true]. Qed.
