(* ===== verification/Process.v ===== *)
(** * Processes (src/task_manager.c, second part)

    Creation, fork, signal delivery and destruction of tasks and the stacks they
    start on.  Task structures are objects of [os_t]; stacks are pages of the
    machine, reached through bounce pages as in the sources.  [argv] is a
    computation that reads the argument strings, run where the source walks the
    array; a NULL array is the empty list. *)
From S2P Require Import Prelude Bitmap Paging KernelHeap Tasks TaskManager Allocator Files VfsCache Resource Vfs Memory CString.

Definition USER_STACK_TOP : Z := 0xBFFFE000.
Definition KERNEL_STACK_TOP : Z := 0xD0000000.
Definition TASK_MANAGER_KERNEL_CODE_SELECTOR : Z := 0x08.
Definition TASK_MANAGER_KERNEL_DATA_SELECTOR : Z := 0x10.
Definition TASK_MANAGER_USER_CODE_SELECTOR : Z := 0x1B.
Definition TASK_MANAGER_USER_DATA_SELECTOR : Z := 0x23.
Definition TASK_MAX_ARGUMENTS : Z := 64.
Definition SYSCALL_SIGRETURN : Z := 21.
(** [sizeof(task_t)] and [sizeof(register_interrupt_data_t)]. *)
Definition TASK_SIZE : Z := 2400.
Definition FRAME_SIZE : Z := 72.

(** ** Register frames in memory *)

Definition frame_words (r : register_interrupt_data_t) : list Z :=
  [reg_gs r; reg_fs r; reg_es r; reg_ds r; reg_edi r; reg_esi r; reg_ebp r; reg_ebx r; reg_edx r;
   reg_ecx r; reg_eax r; interrupt_index r; error_code r; reg_eip r; reg_cs r; reg_eflags r;
   reg_useresp r; reg_ss r].
Definition words_frame (l : list Z) : option register_interrupt_data_t :=
  match l with
  | [gs; fs; es; ds; edi; esi; ebp; ebx; edx; ecx; eax; index; error; eip; cs; eflags; useresp; ss] =>
      Some (mk_registers gs fs es ds edi esi ebp ebx edx ecx eax index error eip cs eflags useresp ss)
  | _ => None
  end.
Definition words_bytes (l : list Z) : list Z := mjoin (word_bytes <$> l).
(** Groups of four bytes as words; an incomplete group is dropped. *)
Fixpoint bytes_words (l : list Z) : list Z :=
  match l with
  | a :: b :: c :: d :: l' => bytes_word [a; b; c; d] :: bytes_words l'
  | _ => []
  end.

Definition load_frame (va : Z) : M machine_t register_interrupt_data_t :=
  let! l := read_memory va (Z.to_nat FRAME_SIZE) in of_option (words_frame (bytes_words l)).
Definition store_frame (va : Z) (r : register_interrupt_data_t) : M machine_t unit :=
  write_memory va (words_bytes (frame_words r)).

(** ** New stacks *)

(** [*--top = w] for each word in turn; the answer is the new top. *)
Fixpoint push_words (top : Z) (l : list Z) : M machine_t Z :=
  match l with
  | [] => ret top
  | w :: l' => do! store32 (top - 4) w in push_words (top - 4) l'
  end.

Definition task_manager_prepare_new_stack (task_page_directory : Z) (is_user : bool) (eip user_esp : Z)
  : M machine_t (task_manager_result_t * Z) :=
  let! kernel_stack_phys := on_bitmap memory_bitmap_allocate in
  do! memory_paging_map task_page_directory kernel_stack_phys (KERNEL_STACK_TOP - PAGE_SIZE) PAGE_READ_WRITE in
  let! task_stack_base := bounce_alloc kernel_stack_phys in
  let data_selector := if is_user then TASK_MANAGER_USER_DATA_SELECTOR else TASK_MANAGER_KERNEL_DATA_SELECTOR in
  let! task_stack_top := push_words (task_stack_base + PAGE_SIZE)
    ((if is_user then [TASK_MANAGER_USER_DATA_SELECTOR; user_esp] else []) ++
     [0x202; if is_user then TASK_MANAGER_USER_CODE_SELECTOR else TASK_MANAGER_KERNEL_CODE_SELECTOR; eip;
      0; 0;                          (* irq number, error code *)
      0; 0; 0; 0; 0; 0; 0;           (* eax, ecx, edx, ebx, ebp, esi, edi *)
      data_selector; data_selector; data_selector; data_selector]) in
  do! bounce_free task_stack_base in
  ret (TASK_MANAGER_RESULT_OK, KERNEL_STACK_TOP - (task_stack_base + PAGE_SIZE - task_stack_top)).

Definition task_manager_map_user_stack (task_page_directory : Z) : M machine_t Z :=
  let! user_stack_phys := on_bitmap memory_bitmap_allocate in
  if user_stack_phys =? 0 then ret 0
  else
    do! memory_paging_map task_page_directory user_stack_phys (USER_STACK_TOP - PAGE_SIZE)
          (Z.lor PAGE_USER PAGE_READ_WRITE) in
    ret user_stack_phys.

(** The strings, the last one first, each below the one before; the answer is the
    cursor and the user addresses in the order of the arguments.  An argument past
    [TASK_MAX_ARGUMENTS] has no slot in [argv_addresses]. *)
Fixpoint push_strings (page cursor : Z) (strings : list (list Z)) (addresses : list Z) : M machine_t (Z * list Z) :=
  match strings with
  | [] => ret (cursor, addresses)
  | string :: rest =>
      let len := Z.of_nat (length string) + 1 in
      let cursor := cursor - len in
      do! write_memory cursor (string ++ [0]) in
      push_strings page cursor rest ((USER_STACK_TOP - PAGE_SIZE + u32 (cursor - page)) :: addresses)
  end.

Definition task_manager_build_arguments_on_stack (user_stack_phys : Z) (argv : M machine_t (list (list Z)))
  : M machine_t (task_manager_result_t * Z) :=
  let! strings := argv in
  let argc := Z.of_nat (length strings) in
  let! page := bounce_alloc user_stack_phys in
  if TASK_MAX_ARGUMENTS <? argc then fault
  else
    let! ' (cursor, argv_addresses) := push_strings page (page + PAGE_SIZE) (rev strings) [] in
    let cursor := Z.land cursor 0xFFFFFFFC in
    let needed := 4 + (argc + 1) * 4 in
    if u32 (cursor - page) <? needed then
      do! bounce_free page in
      ret (TASK_MANAGER_RESULT_ARGS_TOO_LARGE, 0)
    else
      let! word_cursor := push_words cursor ([0] ++ rev argv_addresses ++ [argc]) in
      do! bounce_free page in
      ret (TASK_MANAGER_RESULT_OK, USER_STACK_TOP - PAGE_SIZE + u32 (word_cursor - page)).

(** The answer carries [*out_esp], 0 where it is not written. *)
Definition task_manager_prepare_new_stack_with_args (task_page_directory : Z) (is_user : bool) (eip : Z)
  (argv : M machine_t (list (list Z))) : M machine_t (task_manager_result_t * Z) :=
  if is_user then
    let! user_stack_phys := task_manager_map_user_stack task_page_directory in
    if user_stack_phys =? 0 then ret (TASK_MANAGER_RESULT_OUT_OF_MEMORY, 0)
    else
      let! ' (args_result, user_esp) := task_manager_build_arguments_on_stack user_stack_phys argv in
      if decide (args_result = TASK_MANAGER_RESULT_OK)
      then task_manager_prepare_new_stack task_page_directory is_user eip user_esp
      else ret (args_result, 0)
  else task_manager_prepare_new_stack task_page_directory is_user eip USER_STACK_TOP.

(** ** Another task's memory *)

Section copies.
Variable fuel : nat.

(** The chunk at [done]: the address of its page's bytes and its length; [None]
    where the target has no page. *)
Definition copy_chunk (target_cr3_phys target_vaddr length_ done : Z) : M machine_t (option (Z * Z * Z)) :=
  let! physical := memory_paging_virtual_to_physical target_cr3_phys (u32 (target_vaddr + done)) in
  if physical =? 0 then ret None
  else
    let page_physical := ALIGN_DOWN physical in
    let page_offset := physical - page_physical in
    let chunk := PAGE_SIZE - page_offset in
    let chunk := if length_ - done <? chunk then length_ - done else chunk in
    let! mapped := bounce_alloc page_physical in
    ret (Some (mapped, page_offset, chunk)).

(** [task_manager_copy_memory] with [to_target]: it ends early at a page that is
    not mapped. *)
Definition task_manager_copy_to (target_cr3_phys target_vaddr : Z) (buffer : list Z) : M machine_t unit :=
  let length_ := Z.of_nat (length buffer) in
  loop fuel (fun done =>
    if done <? length_ then
      let! c := copy_chunk target_cr3_phys target_vaddr length_ done in
      match c with
      | None => ret (inr tt)
      | Some (mapped, page_offset, chunk) =>
          do! write_memory (mapped + page_offset) (take (Z.to_nat chunk) (drop (Z.to_nat done) buffer)) in
          do! bounce_free mapped in
          ret (inl (done + chunk))
      end
    else ret (inr tt)) 0.

(** The other direction answers the bytes that were copied; when they are fewer
    than [length_], the rest of the caller's buffer is as it was. *)
Definition task_manager_copy_from (target_cr3_phys target_vaddr length_ : Z) : M machine_t (list Z) :=
  loop fuel (fun '(done, buffer) =>
    if done <? length_ then
      let! c := copy_chunk target_cr3_phys target_vaddr length_ done in
      match c with
      | None => ret (inr buffer)
      | Some (mapped, page_offset, chunk) =>
          let! l := read_memory (mapped + page_offset) (Z.to_nat chunk) in
          do! bounce_free mapped in
          ret (inl (done + chunk, buffer ++ l))
      end
    else ret (inr buffer)) (0, []).

Definition task_manager_user_range_mapped (target_cr3_phys vaddr length_ : Z) : M machine_t bool :=
  let start := ALIGN_DOWN vaddr in
  let end_ := ALIGN_UP (u32 (vaddr + length_)) in
  loop fuel (fun page =>
    if page <? end_ then
      let! physical := memory_paging_virtual_to_physical target_cr3_phys page in
      if physical =? 0 then ret (inr false) else ret (inl (u32 (page + PAGE_SIZE)))
    else ret (inr true)) start.
End copies.

(** ** Tasks *)

Section process.
Context {alloc : Allocator kernel_t} {systems : FileSystems} {old : OldNodes}.
Variable base : Z.
Variable fuel : nat.

Definition on_machine_of {A} (op : M machine_t A) : M fs_t A := on_os (in_machine op).

(** A new task; the allocation is not checked, so that without memory the stores
    go through NULL. *)
Definition calloc_task : M fs_t Z :=
  let! task := on_os (on_kernel (heap_calloc TASK_SIZE)) in
  if task =? 0 then fault
  else
    do! on_os (modify (fun o => o <| tasks := <[task := zero_task]> (tasks o) |>)) in
    let! s := get in
    do! on_os (update_task task (fun t => t <| task_id := next_task_id (os s) |>)) in
    do! on_os (modify (fun o => o <| next_task_id := u32 (next_task_id o + 1) |>)) in
    ret task.

Definition task_manager_task_create (entry : Z) (is_user enqueue : bool) : M fs_t Z :=
  let! task := calloc_task in
  do! on_os (update_task task (fun t =>
        t <| task_state := TASK_STATE_READY |> <| task_time_slice := TASK_MANAGER_DEFAULT_TIME_SLICE |>
          <| task_queue_level := 0 |> <| task_init_eip := entry |>)) in
  let! ' (result, cr3) := on_machine_of memory_paging_create_page_directory in
  do! (if decide (result = MEMORY_PAGING_RESULT_OK)
       then on_os (update_task task (fun t => t <| task_cr3 := cr3 |>)) else ret tt) in
  do! on_os (update_task task (fun t =>
        t <| stack_base := KERNEL_STACK_TOP - PAGE_SIZE |> <| stack_top := KERNEL_STACK_TOP |>
          <| task_is_user := is_user |>)) in
  let! t := on_os (load_task task) in
  let! task_page_directory := on_machine_of (bounce_alloc (task_cr3 t)) in
  let! ' (result, esp) := on_machine_of
    (task_manager_prepare_new_stack_with_args task_page_directory is_user entry (ret [])) in
  do! (if decide (result = TASK_MANAGER_RESULT_OK)
       then on_os (update_task task (fun t => t <| task_esp := esp |>)) else ret tt) in
  do! on_machine_of (bounce_free task_page_directory) in
  let! t := on_os (load_task task) in
  do! (if enqueue then on_os (task_manager_enqueue_task fuel (task_queue_level t) task) else ret tt) in
  ret task.

(** The offset of [eax] in a register frame. *)
Definition EAX_OFFSET : Z := 40.

Definition task_manager_task_copy (parent_ : Z) (enqueue : bool) : M fs_t Z :=
  let! task := calloc_task in
  let! p := on_os (load_task parent_) in
  do! on_os (update_task task (fun t =>
        t <| next := 0 |> <| task_state := TASK_STATE_READY |>
          <| task_time_slice := TASK_MANAGER_DEFAULT_TIME_SLICE |> <| task_queue_level := 0 |>
          <| task_is_user := task_is_user p |> <| task_init_eip := task_init_eip p |>
          <| heap_start := heap_start p |> <| heap_break := heap_break p |>
          <| signal_handlers := signal_handlers p |>)) in
  let! ' (result, cr3) := on_machine_of memory_paging_create_page_directory in
  do! (if decide (result = MEMORY_PAGING_RESULT_OK)
       then on_os (update_task task (fun t => t <| task_cr3 := cr3 |>)) else ret tt) in
  let! t := on_os (load_task task) in
  let! task_page_directory := on_machine_of (bounce_alloc (task_cr3 t)) in
  let! kernel_stack_phys := on_machine_of (on_bitmap memory_bitmap_allocate) in
  do! on_machine_of (memory_paging_map task_page_directory kernel_stack_phys
                       (KERNEL_STACK_TOP - PAGE_SIZE) PAGE_READ_WRITE) in
  do! on_os (update_task task (fun t =>
        t <| stack_base := KERNEL_STACK_TOP - PAGE_SIZE |> <| stack_top := KERNEL_STACK_TOP |>)) in
  do! on_machine_of (memory_paging_copy_mapped_memory task_page_directory) in
  let! kernel_stack := on_machine_of (bounce_alloc kernel_stack_phys) in
  let! p := on_os (load_task parent_) in
  do! on_machine_of (copy_page kernel_stack (stack_base p)) in
  let esp_offset := u32 (task_esp p - stack_base p) in
  do! on_os (update_task task (fun t => t <| task_esp := u32 (stack_base t + esp_offset) |>)) in
  do! on_machine_of (store32 (kernel_stack + esp_offset + EAX_OFFSET) 0) in
  do! on_machine_of (bounce_free kernel_stack) in
  do! on_machine_of (bounce_free task_page_directory) in
  do! for_range 0 TASK_MAX_RESOURCES (fun i =>
        let! p := on_os (load_task parent_) in
        match resources p !! i with
        | Some resource => resource_share task i resource
        | None => ret tt
        end) in
  let! t := on_os (load_task task) in
  do! (if enqueue then on_os (task_manager_enqueue_task fuel (task_queue_level t) task) else ret tt) in
  ret task.

(** [idle_entry] is the address of [task_manager_idle_task]. *)
Definition task_manager_module_init (idle_entry : Z) : M fs_t unit :=
  do! on_os (for_range 0 TASK_MANAGER_QUEUE_LEVELS (fun i => store_queue i 0)) in
  let! ticks := on_os timer_get_ticks in
  do! on_os (update_manager (fun m => m <| last_priority_boost_at_ticks := ticks |>)) in
  let! idle := task_manager_task_create idle_entry false false in
  do! on_os (update_manager (fun m =>
        m <| task_idle := idle |> <| task_current := 0 |> <| task_next := idle |>)) in
  do! on_os (update_task idle (fun t => t <| task_state := TASK_STATE_RUNNING |>)) in
  on_os (update_manager (fun m => m <| task_needs_switching := true |>)).

(** ** Signals *)

Definition trampoline : list Z :=
  [0xB8] ++ word_bytes SYSCALL_SIGRETURN ++ [0xCD; 0x80; 0xEB; 0xFE].

Definition task_manager_deliver_signal (target sig handler : Z) : M fs_t unit :=
  let frame_size := Z.of_nat (length trampoline) + 8 in
  let! s := get in
  let is_self := target =? task_current (task_manager (os s)) in
  let! t := on_os (load_task target) in
  let target_cr3 := task_cr3 t in
  let! frame := on_machine_of
    (if is_self then load_frame (current_register_data (syscall s))
     else let! l := task_manager_copy_from fuel target_cr3 (task_esp t) FRAME_SIZE in
          of_option (words_frame (bytes_words l))) in
  let trampoline_addr := u32 (reg_useresp frame - Z.of_nat (length trampoline)) in
  let arg_addr := u32 (trampoline_addr - 4) in
  let retaddr_addr := u32 (arg_addr - 4) in
  let! unusable := (if reg_useresp frame <? frame_size then ret true
                    else let! m := on_machine_of (task_manager_user_range_mapped fuel target_cr3 retaddr_addr frame_size) in
                         ret (negb m)) in
  if (unusable : bool) then
    do! on_os (task_manager_exit_task base fuel target (Z.land sig 0x7F)) in
    if is_self then do! on_os (task_manager_yield_current base fuel) in ret tt
    else ret tt
  else
    do! on_os (update_task target (fun t =>
          t <| saved_signal_frame := frame |> <| in_signal_handler := true |>
            <| saved_syscall_retry := syscall_retry t |> <| syscall_retry := false |>)) in
    let new_frame := frame <| reg_useresp := retaddr_addr |> <| reg_eip := handler |> in
    if is_self then
      on_machine_of (
        do! write_memory trampoline_addr trampoline in
        do! store32 arg_addr (u32 sig) in
        do! store32 retaddr_addr trampoline_addr in
        store_frame (current_register_data (syscall s)) new_frame)
    else
      let! t := on_os (load_task target) in
      on_machine_of (
        do! task_manager_copy_to fuel target_cr3 trampoline_addr trampoline in
        do! task_manager_copy_to fuel target_cr3 arg_addr (word_bytes (u32 sig)) in
        do! task_manager_copy_to fuel target_cr3 retaddr_addr (word_bytes trampoline_addr) in
        task_manager_copy_to fuel target_cr3 (task_esp t) (words_bytes (frame_words new_frame))).

(** ** Destruction *)

Definition close_of (table : Z) : option (Z -> M fs_t resource_result_t) :=
  if table =? vfs_operations then Some vfs_close else None.

Definition task_manager_destroy_task (task : Z) : M fs_t unit :=
  let! t := on_os (load_task task) in
  do! (if parent t =? 0 then ret tt
       else on_os (update_task (parent t) (fun p =>
              p <| child_ticks_user := u64 (child_ticks_user p + (ticks_user t + child_ticks_user t)) |>
                <| child_ticks_system := u64 (child_ticks_system p + (ticks_system t + child_ticks_system t)) |>))) in
  do! for_range 0 TASK_MAX_RESOURCES (fun i =>
        let! t := on_os (load_task task) in
        match resources t !! i with
        | Some _ => do! resource_remove close_of task i in ret tt
        | None => ret tt
        end) in
  do! (if parent t =? 0 then ret tt
       else do! on_os (task_manager_remove_child_from_task base fuel (parent t) task) in ret tt) in
  let! t := on_os (load_task task) in
  do! on_os (task_manager_remove_task_from_queue fuel (task_queue_level t) task) in
  let! s := get in
  let task_page_directory_phys := task_cr3 t in
  do! (if task_page_directory_phys =? kernel_page_directory_phys (machine (kernel (os s))) then ret tt
       else
         on_machine_of (
           let! task_page_directory := bounce_alloc task_page_directory_phys in
           do! memory_paging_free_page_directory task_page_directory in
           do! bounce_free task_page_directory in
           on_bitmap (memory_bitmap_free task_page_directory_phys))) in
  do! on_os (modify (fun o => o <| tasks := delete task (tasks o) |>)) in
  on_os (on_kernel (heap_free task)).
End process.

(** ** What a new program finds on its stack *)

Definition page_word (m : machine_t) (f o : Z) : Z :=
  bytes_word [frame_byte m f o; frame_byte m f (o + 1); frame_byte m f (o + 2); frame_byte m f (o + 3)].
(** The C string [l] lies at offset [o] of the frame, inside it. *)
Definition string_at (m : machine_t) (f o : Z) (l : list Z) : Prop :=
  0 <= o /\ o + Z.of_nat (length l) + 1 <= PAGE_SIZE /\
  forall i b, (l ++ [0]) !! i = Some b -> frame_byte m f (o + Z.of_nat i) = b.

Definition USER_PAGE : Z := USER_STACK_TOP - PAGE_SIZE.

(** [esp] points to [argc], the array of the [argc] strings and its NULL. *)
Definition arguments_at (m : machine_t) (f esp : Z) (strings : list (list Z)) : Prop :=
  let o := esp - USER_PAGE in
  let argc := Z.of_nat (length strings) in
  0 <= o /\ o mod 4 = 0 /\ page_word m f o = argc /\ page_word m f (o + 4 + 4 * argc) = 0 /\
  forall i l, strings !! i = Some l ->
    string_at m f (page_word m f (o + 4 + 4 * Z.of_nat i) - USER_PAGE) l.

(** The bytes the strings take. *)
Fixpoint strings_size (strings : list (list Z)) : Z :=
  match strings with
  | [] => 0
  | l :: rest => Z.of_nat (length l) + 1 + strings_size rest
  end.

Lemma strings_size_nonneg strings : 0 <= strings_size strings.
Proof. induction strings as [|l rest IH]; simpl; lia. Qed.
Lemma strings_size_app l1 l2 : strings_size (l1 ++ l2) = strings_size l1 + strings_size l2.
Proof. induction l1 as [|l l1 IH]; simpl; lia. Qed.
Lemma strings_size_rev l : strings_size (rev l) = strings_size l.
Proof. induction l as [|s l IH]; simpl; [done|]. rewrite strings_size_app, IH. simpl. lia. Qed.

(** Only bytes of frame [f] from offset [lo] up to [hi] may differ. *)
Record page_changed (d : Z) (k : nat) (f lo hi : Z) (m m' : machine_t) : Prop := {
  pc_open : open_dir m' d k f;
  pc_regs : same_regs m m';
  pc_bitmap : memory_bitmap m' = memory_bitmap m;
  pc_other : forall g i, 0 <= i < 1024 -> g <> f -> frame_word m' g i = frame_word m g i;
  pc_bytes : forall q, 0 <= q < PAGE_SIZE -> ~ lo <= q < hi -> frame_byte m' f q = frame_byte m f q;
}.

Lemma page_changed_refl d k f lo hi m : open_dir m d k f -> page_changed d k f lo hi m m.
Proof. intros Ho. by split. Qed.
Lemma page_changed_trans d k f lo hi m m1 m2 :
  page_changed d k f lo hi m m1 -> page_changed d k f lo hi m1 m2 -> page_changed d k f lo hi m m2.
Proof.
  intros [O1 R1 B1 W1 Y1] [O2 R2 B2 W2 Y2]. split; [done|by transitivity m1|congruence| |].
  - intros g i Hi Hg. by rewrite W2, W1.
  - intros q Hq Hn. by rewrite Y2, Y1.
Qed.
Lemma page_changed_mono d k f lo hi lo' hi' m m' :
  lo' <= lo -> hi <= hi' -> page_changed d k f lo hi m m' -> page_changed d k f lo' hi' m m'.
Proof. intros Hlo Hhi [O R B W Y]. split; [done|done|done|done|]. intros q Hq Hn. apply Y; lia. Qed.
Lemma page_written_changed d k f o l m m' :
  page_written d k f o l m m' -> page_changed d k f o (o + Z.of_nat (length l)) m m'.
Proof.
  intros [O R B W Y]. split; [done|done|done|done|]. intros q Hq Hn. rewrite Y by done. by rewrite decide_False by lia.
Qed.
Lemma page_written_byte d k f o l m m' i b :
  page_written d k f o l m m' -> 0 <= o -> o + Z.of_nat (length l) <= PAGE_SIZE -> l !! i = Some b ->
  frame_byte m' f (o + Z.of_nat i) = b.
Proof.
  intros [_ _ _ _ Y] Ho Hl Hb. pose proof (lookup_lt_Some _ _ _ Hb). rewrite Y by lia.
  rewrite decide_True by lia. replace (Z.to_nat (o + Z.of_nat i - o)) with i by lia. by rewrite Hb.
Qed.

Lemma string_at_changed d k f lo hi m m' o l :
  page_changed d k f lo hi m m' -> hi <= o \/ o + Z.of_nat (length l) + 1 <= lo ->
  string_at m f o l -> string_at m' f o l.
Proof.
  intros Hc Hap (H1 & H2 & H3). split_and!; [done|done|]. intros i b Hb.
  pose proof (lookup_lt_Some _ _ _ Hb) as Hi. rewrite length_app in Hi. simpl in Hi.
  rewrite (pc_bytes _ _ _ _ _ _ _ Hc) by lia. by apply H3.
Qed.

Section stack_page.
Variables (d : Z) (k : nat) (f : Z).
#[local] Abbreviation page := (bounce_vp k * PAGE_SIZE).

(** Pushing the strings below offset [o]: the new addresses are those of the
    strings, in the order of the arguments. *)
Lemma wp_push_strings strings m o acc Q :
  open_dir m d k f -> o <= PAGE_SIZE -> strings_size strings <= o ->
  Forall chars strings ->
  (forall m' new, let o' := o - strings_size strings in
     page_changed d k f o' o m m' ->
     Forall2 (fun a l => string_at m' f (a - USER_PAGE) l /\ USER_PAGE <= a < USER_PAGE + PAGE_SIZE /\
                o' <= a - USER_PAGE) new (rev strings) ->
     Q (page + o', new ++ acc) m') ->
  wp (push_strings page (page + o) strings acc) Q m.
Proof using Type.
  revert m o acc Q. induction strings as [|s rest IH]; intros m o acc Q Hd Ho Hsz Hch HQ; cbn [push_strings].
  - apply wp_ret. simpl in HQ. rewrite Z.sub_0_r in HQ. apply (HQ m []); [by apply page_changed_refl|constructor].
  - pose proof (strings_size_nonneg rest). cbn [strings_size] in Hsz, HQ. simpl in HQ.
    assert (chars s) as Hs by (by inversion Hch). assert (Forall chars rest) as Hrest by (by inversion Hch).
    set (o1 := o - (Z.of_nat (length s) + 1)).
    replace (page + o - (Z.of_nat (length s) + 1)) with (page + o1) by (unfold o1; lia).
    assert (length (s ++ [0]) = (length s + 1)%nat) as Hlen by (rewrite length_app; done).
    wp_step. apply (wp_write_open _ m d k f); [done|unfold o1; lia|unfold o1; rewrite Hlen; lia| |].
    { apply Forall_app. split; [|repeat constructor; lia]. eapply List.Forall_impl; [|exact Hs]. simpl. lia. }
    intros m1 Hw. pose proof (page_written_changed _ _ _ _ _ _ _ Hw) as Hc. rewrite Hlen in Hc.
    replace (page + o1 - page) with o1 by lia. rewrite u32_small by (unfold o1, PAGE_SIZE in *; lia).
    apply IH; [apply Hc|unfold o1; lia|unfold o1; lia|done|].
    intros m2 new o' Hc2 Hnew. unfold o' in *. replace (o1 - strings_size rest) with (o - (Z.of_nat (length s) + 1 + strings_size rest)) in * by (unfold o1; lia).
    change (USER_STACK_TOP - PAGE_SIZE) with USER_PAGE.
    replace (new ++ (USER_PAGE + o1) :: acc) with ((new ++ [USER_PAGE + o1]) ++ acc) by (by rewrite <- app_assoc).
    apply HQ.
    + eapply page_changed_trans; eapply page_changed_mono; [| |exact Hc| | |exact Hc2]; unfold o1; lia.
    + simpl. apply Forall2_app; [exact Hnew|]. constructor; [|constructor].
      replace (USER_PAGE + o1 - USER_PAGE) with o1 by lia. split; [|unfold o1; lia].
      eapply string_at_changed; [exact Hc2|left; lia|].
      split_and!; [unfold o1; lia|unfold o1; lia|]. intros i b Hb.
      eapply page_written_byte; [exact Hw|unfold o1; lia|unfold o1; rewrite Hlen; lia|done].
Qed.

Lemma frame_byte_range m g o : 0 <= frame_byte m g o < 256.
Proof using Type. apply word_byte_range. Qed.

Lemma page_word_changed lo hi m m' o :
  page_changed d k f lo hi m m' -> 0 <= o -> o + 4 <= PAGE_SIZE -> hi <= o \/ o + 4 <= lo ->
  page_word m' f o = page_word m f o.
Proof using Type.
  intros Hc Ho Hp Hap. unfold page_word. by rewrite !(pc_bytes _ _ _ _ _ _ _ Hc) by lia.
Qed.

Lemma page_word_written m m' o w :
  page_written d k f o (word_bytes w) m m' -> 0 <= o -> o + 4 <= PAGE_SIZE -> 0 <= w < 2 ^ 32 ->
  page_word m' f o = w.
Proof using Type.
  intros Hw Ho Hp Hr. unfold page_word.
  assert (forall i b, word_bytes w !! i = Some b -> frame_byte m' f (o + Z.of_nat i) = b) as Hb.
  { intros i b Hi. eapply page_written_byte; [exact Hw|done|simpl; lia|done]. }
  pose proof (Hb 0%nat _ eq_refl) as H0. rewrite Z.add_0_r in H0. pose proof (Hb 1%nat _ eq_refl) as H1.
  pose proof (Hb 2%nat _ eq_refl) as H2. pose proof (Hb 3%nat _ eq_refl) as H3.
  change (Z.of_nat 1) with 1 in H1. change (Z.of_nat 2) with 2 in H2. change (Z.of_nat 3) with 3 in H3.
  rewrite H0, H1, H2, H3. by apply bytes_word_bytes.
Qed.

(** Pushing words below offset [o]. *)
Lemma wp_push_words ws m o Q :
  open_dir m d k f -> o <= PAGE_SIZE -> 4 * Z.of_nat (length ws) <= o ->
  Forall (fun w => 0 <= w < 2 ^ 32) ws ->
  (forall m', let o' := o - 4 * Z.of_nat (length ws) in
     page_changed d k f o' o m m' ->
     (forall i w, ws !! i = Some w -> page_word m' f (o - 4 * (Z.of_nat i + 1)) = w) -> Q (page + o') m') ->
  wp (push_words (page + o) ws) Q m.
Proof using Type.
  revert m o Q. induction ws as [|w ws IH]; intros m o Q Hd Ho Hsz Hw HQ; cbn [push_words].
  - apply wp_ret. simpl in HQ. rewrite Z.sub_0_r in HQ. apply HQ; [by apply page_changed_refl|done].
  - cbn [length] in Hsz, HQ. replace (page + o - 4) with (page + (o - 4)) by lia.
    assert (0 <= w < 2 ^ 32) as Hw0 by (by apply Forall_inv in Hw). apply Forall_inv_tail in Hw.
    wp_step. apply (wp_write_open _ m d k f); [done|lia|simpl; lia| |].
    { repeat constructor; apply word_byte_range. }
    intros m1 Hm1. pose proof (page_written_changed _ _ _ _ _ _ _ Hm1) as Hc.
    change (Z.of_nat (length (word_bytes w))) with 4 in Hc.
    apply IH; [apply Hc|lia|lia|done|]. intros m2 o' Hc2 Hws. unfold o' in *.
    replace (o - 4 - 4 * Z.of_nat (length ws)) with (o - 4 * Z.of_nat (S (length ws))) in * by lia.
    apply HQ.
    + eapply page_changed_trans; eapply page_changed_mono; [| |exact Hc| | |exact Hc2]; lia.
    + intros [|i] v Hv; simpl in Hv.
      * injection Hv as <-. replace (o - 4 * (Z.of_nat 0 + 1)) with (o - 4) by lia.
        rewrite (page_word_changed _ _ _ _ _ Hc2) by lia. eapply page_word_written; [exact Hm1|lia|lia|done].
      * replace (o - 4 * (Z.of_nat (S i) + 1)) with (o - 4 - 4 * (Z.of_nat i + 1)) by lia. by apply Hws.
Qed.
End stack_page.

Lemma land_align4 x : 0 <= x < 2 ^ 32 -> Z.land x 0xFFFFFFFC = x - x mod 4.
Proof.
  intros Hx. assert (x - x mod 4 = Z.shiftl (Z.shiftr x 2) 2) as ->
    by (rewrite Z.shiftl_mul_pow2, Z.shiftr_div_pow2 by lia; zlia).
  apply Z.bits_inj'. intros i Hi. change 0xFFFFFFFC with (Z.shiftl (Z.ones 30) 2).
  rewrite Z.land_spec, !Z.shiftl_spec by lia. destruct (Z.ltb_spec i 2).
  { by rewrite !(Z.testbit_neg_r _ (i - 2)), andb_false_r by lia. }
  rewrite Z.shiftr_spec by lia. replace (i - 2 + 2) with i by lia. destruct (Z.ltb_spec i 32).
  - by rewrite Z.ones_spec_low, andb_true_r by lia.
  - by rewrite (testbit_above 32 x i) by lia.
Qed.

(** Closing the page leaves its contents. *)
Lemma frame_byte_returned m d k f o :
  open_dir m d k f -> 0 <= o < PAGE_SIZE -> frame_byte (bounce_returned d k m) f o = frame_byte m f o.
Proof.
  intros Hd Ho. unfold frame_byte. rewrite frame_word_returned; [done| | |exact (od_nb _ _ _ _ Hd)].
  - by eapply open_dir_lt.
  - unfold PAGE_SIZE in Ho. zlia.
Qed.

Lemma page_word_returned m d k f o :
  open_dir m d k f -> 0 <= o -> o + 4 <= PAGE_SIZE -> page_word (bounce_returned d k m) f o = page_word m f o.
Proof. intros Hd Ho Hp. unfold page_word. by rewrite !(frame_byte_returned _ _ _ _ _ Hd) by lia. Qed.
Lemma string_at_returned m d k f o l :
  open_dir m d k f -> string_at m f o l -> string_at (bounce_returned d k m) f o l.
Proof.
  intros Hd (H1 & H2 & H3). split_and!; [done|done|]. intros i b Hb.
  pose proof (lookup_lt_Some _ _ _ Hb) as Hi. rewrite length_app in Hi. simpl in Hi.
  rewrite (frame_byte_returned _ _ _ _ _ Hd) by lia. by apply H3.
Qed.

(** The words the last step pushes below offset [left] are the arguments. *)
Lemma pushed_arguments m d k f left strings addrs :
  open_dir m d k f -> left <= PAGE_SIZE -> left mod 4 = 0 ->
  4 * (Z.of_nat (length strings) + 2) <= left ->
  (forall i w, ([0] ++ rev addrs ++ [Z.of_nat (length strings)]) !! i = Some w ->
     page_word m f (left - 4 * (Z.of_nat i + 1)) = w) ->
  Forall2 (fun a l => string_at m f (a - USER_PAGE) l) addrs strings ->
  arguments_at (bounce_returned d k m) f (USER_PAGE + (left - 4 * (Z.of_nat (length strings) + 2))) strings.
Proof.
  intros Hd Hp Hal Hfit Hws Haddrs. assert (length addrs = length strings) as Hlen by (by eapply Forall2_length).
  assert (length (rev addrs) = length strings) as Hrev by (by rewrite length_rev).
  set (argc := length strings) in *. unfold arguments_at. fold argc.
  replace (USER_PAGE + (left - 4 * (Z.of_nat argc + 2)) - USER_PAGE) with (left - 4 * (Z.of_nat argc + 2)) by lia.
  split_and!; [lia|zlia| | |].
  - rewrite (page_word_returned _ _ _ _ _ Hd) by lia. etransitivity; [|apply (Hws (S argc) (Z.of_nat argc))]; [f_equal; lia|].
    simpl. rewrite <- Hrev. by rewrite lookup_app_r, Nat.sub_diag.
  - rewrite (page_word_returned _ _ _ _ _ Hd) by lia. etransitivity; [|apply (Hws 0%nat 0)]; [f_equal; lia|done].
  - intros i l Hl. pose proof (lookup_lt_Some _ _ _ Hl) as Hi. fold argc in Hi.
    destruct (Forall2_lookup_r _ _ _ _ _ Haddrs Hl) as (a & Ha & Hs).
    rewrite (page_word_returned _ _ _ _ _ Hd) by lia.
    replace (page_word m f (left - 4 * (Z.of_nat argc + 2) + 4 + 4 * Z.of_nat i)) with a;
      [by apply string_at_returned|].
    symmetry. etransitivity; [|apply (Hws (S (argc - 1 - i)) a)]; [f_equal; lia|].
    simpl. rewrite lookup_app_l by (rewrite Hrev; lia).
    replace (rev addrs) with (reverse addrs) by (unfold reverse; by rewrite <- rev_alt).
    rewrite reverse_lookup by (rewrite Hlen; lia). rewrite <- Ha. f_equal. rewrite Hlen. lia.
Qed.

Definition needed_size (strings : list (list Z)) : Z := 4 + (Z.of_nat (length strings) + 1) * 4.

(** C29: When the strings fit into the stack page, building the arguments succeeds
    exactly if the array and its count fit below them too, and then the new
    program finds its count, the array of its strings in their order and the
    NULL after them at the stack pointer, all inside the page; otherwise the
    answer is that they are too large.  The bounce page is given back either way. *)
Theorem task_manager_build_arguments_on_stack_spec m d f strings :
  bounce_ready m d -> bounce_pages_used m <> replicate 16 true ->
  0 <= f < 2 ^ 20 -> f <> d -> f <> bounce_table m d ->
  Forall chars strings -> Z.of_nat (length strings) <= TASK_MAX_ARGUMENTS ->
  strings_size strings <= PAGE_SIZE ->
  wp (task_manager_build_arguments_on_stack (f * PAGE_SIZE) (ret strings))
     (fun '(r, esp) m' =>
        bounce_ready m' d /\ bounce_pages_used m' = bounce_pages_used m /\
        let left := (PAGE_SIZE - strings_size strings) / 4 * 4 in
        if left <? needed_size strings then r = TASK_MANAGER_RESULT_ARGS_TOO_LARGE
        else r = TASK_MANAGER_RESULT_OK /\ arguments_at m' f esp strings /\
             esp = USER_PAGE + left - needed_size strings) m.
Proof.
  intros Hr Hfree Hf Hd Hb Hch Hargc Hsz. unfold task_manager_build_arguments_on_stack. do 2 wp_step. wp_step.
  apply (wp_bounce_alloc m d); [done| |done]. intros k Hk _.
  pose proof (bounce_lookup_lt m d k _ Hr Hk) as Hlt.
  pose proof (open_dir_window m d k _ f Hr Hk eq_refl Hf Hd Hb) as Hw.
  set (m1 := bounce_taken d k (f * PAGE_SIZE) m) in *.
  destruct (Z.ltb_spec TASK_MAX_ARGUMENTS (Z.of_nat (length strings))); [lia|].
  wp_step. pose proof (strings_size_nonneg strings) as Hnn.
  apply (wp_push_strings d k f); [done|lia|by rewrite strings_size_rev|by apply Forall_rev|].
  rewrite rev_involutive, strings_size_rev. intros m2 addrs o Hc Haddrs. rewrite app_nil_r.
  assert (bounce_pages_used m2 = <[k := true]> (bounce_pages_used m)) as Hu2 by apply (sr_bounce _ _ (pc_regs _ _ _ _ _ _ _ Hc)).
  assert (forall m3, open_dir m3 d k f -> bounce_pages_used m3 = bounce_pages_used m2 ->
            bounce_ready (bounce_returned d k m3) d /\
            bounce_pages_used (bounce_returned d k m3) = bounce_pages_used m) as Hret.
  { intros m3 Ho3 Hu3. split; [apply bounce_ready_returned; [apply Ho3|done]|].
    simpl. rewrite Hu3, Hu2, list_insert_insert_eq. by apply list_insert_id. }
  assert (Z.land (bounce_vp k * PAGE_SIZE + o) 0xFFFFFFFC = bounce_vp k * PAGE_SIZE + o / 4 * 4) as ->.
  { unfold o. rewrite land_align4 by (unfold bounce_vp, PAGE_SIZE in *; lia). unfold PAGE_SIZE in *. zlia. }
  replace (bounce_vp k * PAGE_SIZE + o / 4 * 4 - bounce_vp k * PAGE_SIZE) with (o / 4 * 4) by lia.
  fold (needed_size strings). unfold o in *.
  set (left := (PAGE_SIZE - strings_size strings) / 4 * 4) in *.
  assert (0 <= left <= PAGE_SIZE - strings_size strings) as Hleft by (unfold left, PAGE_SIZE in *; zlia).
  rewrite u32_small by (unfold PAGE_SIZE in *; lia).
  destruct (Z.ltb_spec left (needed_size strings)) as [Hsmall|Hbig].
  { wp_step. apply (wp_bounce_free m2 d); [apply Hc|done|]. wp_step.
    destruct (Hret m2 (pc_open _ _ _ _ _ _ _ Hc) eq_refl). done. }
  assert (length addrs = length strings) as Hla by (by eapply Forall2_length).
  set (ws := [0] ++ rev addrs ++ [Z.of_nat (length strings)]).
  assert (4 * Z.of_nat (length ws) = needed_size strings) as Hneed.
  { unfold ws, needed_size. rewrite !length_app, length_rev, Hla. simpl. lia. }
  wp_step. apply (wp_push_words d k f); [apply Hc|lia|lia| |].
  { unfold ws. constructor; [lia|]. apply Forall_app. split; [|repeat constructor; unfold TASK_MAX_ARGUMENTS in *; lia].
    apply Forall_rev. eapply Forall2_Forall_l; [exact Haddrs|]. apply List.Forall_forall. intros l _ a (_ & Ha & _).
    unfold USER_PAGE, USER_STACK_TOP, PAGE_SIZE in Ha. lia. }
  rewrite Hneed. intros m3 o' Hc3 Hws. wp_step. apply (wp_bounce_free m3 d); [apply Hc3|done|]. wp_step.
  destruct (Hret m3 (pc_open _ _ _ _ _ _ _ Hc3)) as [G1 G2]; [apply (sr_bounce _ _ (pc_regs _ _ _ _ _ _ _ Hc3))|].
  split; [done|]. split; [done|]. split; [done|].
  replace (bounce_vp k * PAGE_SIZE + o' - bounce_vp k * PAGE_SIZE) with (left - needed_size strings) by (unfold o'; lia).
  rewrite u32_small by (unfold PAGE_SIZE in *; lia).
  split; [|unfold USER_PAGE; lia].
  change (USER_STACK_TOP - PAGE_SIZE) with USER_PAGE.
  assert (needed_size strings = 4 * (Z.of_nat (length strings) + 2)) as Eneed by (unfold needed_size; lia).
  rewrite Eneed in *. apply (pushed_arguments m3 d k f left strings addrs); [apply Hc3|lia|unfold left; zlia|lia|done|].
  eapply Forall2_impl; [|exact Haddrs]. intros a l (Hs & _ & Ha).
  eapply string_at_changed; [exact Hc3|left; lia|done].
Qed.

Lemma task_manager_build_arguments_on_stack_spec_witness :
  wp (task_manager_build_arguments_on_stack (5 * PAGE_SIZE) (ret [[97; 98]; [99]]))
     (fun '(r, esp) m' => r = TASK_MANAGER_RESULT_OK /\ arguments_at m' 5 esp [[97; 98]; [99]] /\ esp = 0xBFFFDFE8)
     small_machine.
Proof.
  eapply wp_mono.
  { apply (task_manager_build_arguments_on_stack_spec small_machine 1 5 [[97; 98]; [99]]);
      [exact small_machine_ready|done|lia|lia| |repeat constructor; lia|simpl; unfold TASK_MAX_ARGUMENTS; lia
      |simpl; unfold PAGE_SIZE; lia]. vm_compute. congruence. }
  intros [r esp] m' (_ & _ & Hres). cbn in Hres. vm_compute (_ <? _) in Hres. destruct Hres as (Hr & Ha & He). done.
Defined.
