(* ===== verification/Elf.v ===== *)
(** * The program loader (src/elf_executable.c, include/elf_executable.h)

    Loading an ELF file into a fresh address space.  The file is read through the
    VFS; the new space is built through bounce pages.  A local structure of the
    source holds what the stack held before where a short read does not fill it:
    [stale_header] and [stale_program_header] are those bytes. *)
From S2P Require Import Prelude Bitmap Paging KernelHeap Tasks TaskManager Allocator Files VfsCache Resource Vfs Memory Process.

Definition PT_LOAD : Z := 1.
Definition EHDR_SIZE : Z := 52.
Definition PHDR_SIZE : Z := 32.
Definition SYSCALL_SIG_DFL : Z := 0.
Definition SYSCALL_SIG_IGN : Z := 1.

Inductive elf_result_t : Type :=
| ELF_RESULT_OK
| ELF_RESULT_INVALID_ELF
| ELF_RESULT_BAD_PARAMETER
| ELF_RESULT_READ_ERROR
| ELF_RESULT_ALLOCATION_ERROR.
#[export] Instance elf_result_eq_dec : EqDecision elf_result_t.
Proof. solve_decision. Defined.

(** The fields of the headers the loader uses. *)
Record Elf32_Ehdr : Type := mk_ehdr {
  e_ident : list Z;
  e_entry : Z;
  e_phoff : Z;
  e_phnum : Z;
}.
Record Elf32_Phdr : Type := mk_phdr {
  p_type : Z;
  p_offset : Z;
  p_vaddr : Z;
  p_filesz : Z;
  p_memsz : Z;
}.

(** The little-endian fields at an offset of the bytes of a header. *)
Definition field32 (l : list Z) (o : nat) : Z := bytes_word (take 4 (drop o l)).
Definition field16 (l : list Z) (o : nat) : Z := bytes_word (take 2 (drop o l) ++ [0; 0]).
Definition ehdr_of (l : list Z) : Elf32_Ehdr :=
  mk_ehdr (take 16 l) (field32 l 24) (field32 l 28) (field16 l 44).
Definition phdr_of (l : list Z) : Elf32_Phdr :=
  mk_phdr (field32 l 0) (field32 l 4) (field32 l 8) (field32 l 16) (field32 l 20).

(** [0x7F], ['E'], ['L'], ['F'] *)
Definition elf_magic : list Z := [0x7F; 69; 76; 70].

(** A structure after a read of [l] into it. *)
Definition read_into (stale l : list Z) : list Z := l ++ drop (length l) stale.

Section elf.
Context {alloc : Allocator kernel_t} {systems : FileSystems}.
Variable base : Z.
Variable fuel : nat.
Variable stale_header : list Z.
Variable stale_program_header : Z -> list Z.

(** The pages of a segment; the answer is [None] when they are all mapped. *)
Definition elf_map_segment (new_task_page_directory segment_start segment_end : Z) (is_user : bool)
  : M machine_t (option elf_result_t) :=
  loop fuel (fun address =>
    if address <? segment_end then
      let! memory := on_bitmap memory_bitmap_allocate in
      if memory =? 0 then ret (inr (Some ELF_RESULT_ALLOCATION_ERROR))
      else
        let! paging_result := memory_paging_map new_task_page_directory memory address
          (Z.lor (Z.lor PAGE_PRESENT (if is_user then PAGE_USER else 0)) PAGE_READ_WRITE) in
        if decide (paging_result = MEMORY_PAGING_RESULT_OK) then ret (inl (u32 (address + PAGE_SIZE)))
        else
          do! on_bitmap (memory_bitmap_free memory) in
          ret (inr (Some ELF_RESULT_ALLOCATION_ERROR))
    else ret (inr None)) segment_start.

(** The chunk up to the end of the page. *)
Definition page_chunk (address left : Z) : Z * Z :=
  let page_off := Z.land address (PAGE_SIZE - 1) in
  let chunk := PAGE_SIZE - page_off in
  (page_off, if left <? chunk then left else chunk).

Definition elf_copy_segment (elf_node new_task_page_directory_phys : Z) (ph : Elf32_Phdr)
  : M fs_t (option elf_result_t) :=
  loop fuel (fun '(bytes_to_copy, file_offset, virt) =>
    if 0 <? bytes_to_copy then
      let '(page_off, chunk) := page_chunk virt bytes_to_copy in
      let! phys := on_machine_of (memory_paging_virtual_to_physical new_task_page_directory_phys virt) in
      let! kaddr := on_machine_of (bounce_alloc phys) in
      let! ' (result, bytes) := vfs_read_node elf_node file_offset chunk in
      do! on_machine_of (write_memory (kaddr + page_off) bytes) in
      do! on_machine_of (bounce_free kaddr) in
      if decide (result = RESOURCE_RESULT_OK)
      then ret (inl (bytes_to_copy - chunk, u32 (file_offset + chunk), u32 (virt + chunk)))
      else ret (inr (Some ELF_RESULT_READ_ERROR))
    else ret (inr None)) (p_filesz ph, p_offset ph, p_vaddr ph).

Definition elf_zero_segment (new_task_page_directory_phys : Z) (ph : Elf32_Phdr)
  : M machine_t (option elf_result_t) :=
  loop fuel (fun '(zero_len, zero_start) =>
    if 0 <? zero_len then
      let '(page_off, chunk) := page_chunk zero_start zero_len in
      let! phys := memory_paging_virtual_to_physical new_task_page_directory_phys zero_start in
      let! kaddr := bounce_alloc phys in
      if kaddr =? 0 then ret (inr (Some ELF_RESULT_ALLOCATION_ERROR))
      else
        do! write_memory (kaddr + page_off) (repeat 0 (Z.to_nat chunk)) in
        do! bounce_free kaddr in
        ret (inl (zero_len - chunk, u32 (zero_start + chunk)))
    else ret (inr None)) (p_memsz ph - p_filesz ph, u32 (p_vaddr ph + p_filesz ph)).

(** One program header; the answer carries the new [heap_start]. *)
Definition elf_load_segment (elf_node new_task_page_directory_phys new_task_page_directory : Z)
  (is_user : bool) (ph : Elf32_Phdr) (heap_start : Z) : M fs_t (option elf_result_t * Z) :=
  let segment_start := ALIGN_DOWN (p_vaddr ph) in
  let segment_end := ALIGN_UP (u32 (p_vaddr ph + p_memsz ph)) in
  let heap_start := if heap_start <? segment_end then segment_end else heap_start in
  let! mapped := on_machine_of (elf_map_segment new_task_page_directory segment_start segment_end is_user) in
  match mapped with
  | Some _ => ret (mapped, heap_start)
  | None =>
      let! copied := elf_copy_segment elf_node new_task_page_directory_phys ph in
      match copied with
      | Some _ => ret (copied, heap_start)
      | None =>
          if p_filesz ph <? p_memsz ph then
            let! zeroed := on_machine_of (elf_zero_segment new_task_page_directory_phys ph) in
            ret (zeroed, heap_start)
          else ret (None, heap_start)
      end
  end.

(** The loop over the program headers.  On an error the source releases the node
    and the open directory; so does [elf_load_into_task] below. *)
Definition elf_load_segments (elf_node new_task_page_directory_phys new_task_page_directory : Z)
  (is_user : bool) (header : Elf32_Ehdr) : M fs_t (option elf_result_t * Z) :=
  loop fuel (fun '(i, heap_start) =>
    if i <? e_phnum header then
      let! ' (result, bytes) := vfs_read_node elf_node (u32 (e_phoff header + i * PHDR_SIZE)) PHDR_SIZE in
      if negb (bool_decide (result = RESOURCE_RESULT_OK)) then ret (inr (Some ELF_RESULT_READ_ERROR, heap_start))
      else
        let ph := phdr_of (read_into (stale_program_header i) bytes) in
        if negb (p_type ph =? PT_LOAD) then ret (inl (i + 1, heap_start))
        else
          let! ' (error, heap_start) :=
            elf_load_segment elf_node new_task_page_directory_phys new_task_page_directory is_user ph heap_start in
          match error with
          | Some _ => ret (inr (error, heap_start))
          | None => ret (inl (i + 1, heap_start))
          end
    else ret (inr (None, heap_start))) (0, 0).

(** The task in its new address space: its own handlers are reset, ignored
    signals stay ignored. *)
Definition loaded_task (header : Elf32_Ehdr) (cr3 esp heap : Z) (t : task_t) : task_t :=
  t <| task_init_eip := e_entry header |> <| task_cr3 := cr3 |> <| task_esp := esp |>
    <| heap_start := heap |> <| heap_break := heap |>
    <| signal_handlers := filter (fun '(_, h) => h = SYSCALL_SIG_IGN) (signal_handlers t) |>.

(** [path] is read from [path_address], unless that is NULL. *)
Definition elf_load_into_task (task path_address : Z) (path : M machine_t (list Z))
  (argv : M machine_t (list (list Z))) : M fs_t elf_result_t :=
  if path_address =? 0 then ret ELF_RESULT_BAD_PARAMETER
  else
    let! path := on_machine_of path in
    let! ' (result, elf_node) := vfs_resolve fuel path in
    if negb (bool_decide (result = RESOURCE_RESULT_OK)) then ret ELF_RESULT_INVALID_ELF
    else
      let! n := load_vnode elf_node in
      if negb (bool_decide (type n = VFS_NODE_TYPE_FILE)) then
        do! vfs_release_node elf_node in ret ELF_RESULT_INVALID_ELF
      else
        let! ' (result, bytes) := vfs_read_node elf_node 0 EHDR_SIZE in
        if negb (bool_decide (result = RESOURCE_RESULT_OK)) then
          do! vfs_release_node elf_node in ret ELF_RESULT_READ_ERROR
        else
          let header := ehdr_of (read_into stale_header bytes) in
          if negb (bool_decide (take 4 (e_ident header) = elf_magic)) then
            do! vfs_release_node elf_node in ret ELF_RESULT_INVALID_ELF
          else
            let! ' (created, new_task_page_directory_phys) := on_machine_of memory_paging_create_page_directory in
            if negb (bool_decide (created = MEMORY_PAGING_RESULT_OK)) then ret ELF_RESULT_ALLOCATION_ERROR
            else
              let! current_page_directory_phys := on_machine_of memory_paging_get_current_page_directory_physical in
              let! new_task_page_directory := on_machine_of (bounce_alloc new_task_page_directory_phys) in
              let! t := on_os (load_task task) in
              let! ' (_, new_task_esp) := on_machine_of
                (task_manager_prepare_new_stack_with_args new_task_page_directory (task_is_user t)
                   (e_entry header) argv) in
              let! ' (error, heap) := elf_load_segments elf_node new_task_page_directory_phys
                new_task_page_directory (task_is_user t) header in
              match error with
              | Some e =>
                  do! on_machine_of (bounce_free new_task_page_directory) in
                  do! vfs_release_node elf_node in
                  ret e
              | None =>
                  do! on_os (update_task task (loaded_task header new_task_page_directory_phys new_task_esp heap)) in
                  do! on_machine_of (bounce_free new_task_page_directory) in
                  do! on_os (on_kernel (memory_paging_queue_to_destroy base fuel current_page_directory_phys)) in
                  ret ELF_RESULT_OK
              end.

(** [task] is the store of [*task], of a caller that passes one. *)
Definition elf_load_and_execute (path : list Z) (argv : list (list Z)) (task : option (Z -> M fs_t unit)) : M fs_t elf_result_t :=
  let! created_task := task_manager_task_create fuel 0 true true in
  do! match task with Some store => store created_task | None => ret tt end in
  elf_load_into_task created_task 1 (ret path) (ret argv).
End elf.
