(* ===== verification/Syscall.v ===== *)
(** * System calls (src/syscall.c, include/syscall.h)

    The handlers of interrupt 0x80.  Registers, user buffers, paths and argument
    arrays are memory of the machine; a path is read up to its terminator and the
    buffer of a write as a whole before the file system is called.  A result is
    the [int32_t] the source returns; the handler stores it in [eax]. *)
From S2P Require Import Prelude Bitmap Paging KernelHeap Tasks TaskManager Allocator Files VfsCache Resource Vfs Memory Process Elf.

Definition SYSCALL_OPEN : Z := 0.
Definition SYSCALL_CLOSE : Z := 1.
Definition SYSCALL_READ : Z := 2.
Definition SYSCALL_WRITE : Z := 3.
Definition SYSCALL_FORK : Z := 4.
Definition SYSCALL_EXECVE : Z := 5.
Definition SYSCALL_EXIT : Z := 6.
Definition SYSCALL_WAITPID : Z := 7.
Definition SYSCALL_SBRK : Z := 8.
Definition SYSCALL_ISATTY : Z := 9.
Definition SYSCALL_GETPID : Z := 10.
Definition SYSCALL_LSEEK : Z := 11.
Definition SYSCALL_FCNTL : Z := 12.
Definition SYSCALL_IOCTL : Z := 13.
Definition SYSCALL_FSTAT : Z := 14.
Definition SYSCALL_STAT : Z := 15.
Definition SYSCALL_LINK : Z := 16.
Definition SYSCALL_UNLINK : Z := 17.
Definition SYSCALL_TIMES : Z := 18.
Definition SYSCALL_KILL : Z := 19.
Definition SYSCALL_SIGACTION : Z := 20.

Definition SYSCALL_RESULT_OK : Z := 0.
Definition SYSCALL_RESULT_FAIL : Z := 1.
Definition SYSCALL_RESULT_BAD_PARAMETER : Z := 2.
Definition SYSCALL_RESULT_BUSY : Z := 3.
Definition SYSCALL_RESULT_OUT_OF_MEMORY : Z := 4.
Definition SYSCALL_RESULT_WOULD_BLOCK : Z := 5.

Definition SYSCALL_O_RDONLY : Z := 0x0000.
Definition SYSCALL_O_WRONLY : Z := 0x0001.
Definition SYSCALL_O_ACCMODE : Z := 0x0003.
Definition SYSCALL_O_NONBLOCK : Z := 0x0004.
Definition SYSCALL_LSEEK_SET : Z := 0.
Definition SYSCALL_LSEEK_CUR : Z := 1.
Definition SYSCALL_LSEEK_END : Z := 2.
Definition SYSCALL_F_GETFL : Z := 1.
Definition SYSCALL_F_SETFL : Z := 2.
Definition SYSCALL_SIGKILL : Z := 9.

Definition USER_HEAP_GUARD_SIZE : Z := 0x100000.
Definition USER_HEAP_VIRTUAL_CEILING : Z := USER_STACK_TOP - PAGE_SIZE - USER_HEAP_GUARD_SIZE.

Definition S_IFREG : Z := 0x8000.
Definition S_IFDIR : Z := 0x4000.
Definition S_IFCHR : Z := 0x2000.
(** [sizeof] of [struct stat], [struct tms] and [struct sigaction]. *)
Definition STAT_SIZE : Z := 40.
Definition TMS_SIZE : Z := 16.
Definition SIGACTION_SIZE : Z := 4.

(** The value of a [resource_result_t] in C. *)
Definition resource_result_code (r : resource_result_t) : Z :=
  match r with
  | RESOURCE_RESULT_OK => 0
  | RESOURCE_RESULT_INVALID => 1
  | RESOURCE_RESULT_NOT_FOUND => 2
  | RESOURCE_RESULT_BAD_PARAMETER => 3
  | RESOURCE_RESULT_ALREADY_PRESENT => 4
  | RESOURCE_RESULT_STILL_IN_USE => 5
  | RESOURCE_RESULT_ALLOCATION_ERROR => 6
  | RESOURCE_RESULT_NO_FREE_SLOTS => 7
  | RESOURCE_RESULT_WILL_BLOCK => 8
  end.

Section syscall.
Context {alloc : Allocator kernel_t} {systems : FileSystems} {old : OldNodes}.
Variable base : Z.
Variable fuel : nat.
Variable stale_header : list Z.
Variable stale_program_header : Z -> list Z.

(** [SYSCALL_TASK] and [SYSCALL_GET_PARAMETER(index)] *)
Definition SYSCALL_TASK : M fs_t Z := gets (fun s => caller_task (syscall s)).
Definition task_of_call : M fs_t task_t := let! p := SYSCALL_TASK in on_os (load_task p).
Definition update_call_task (f : task_t -> task_t) : M fs_t unit :=
  let! p := SYSCALL_TASK in on_os (update_task p f).
Definition SYSCALL_GET_PARAMETER (index : nat) : M fs_t Z :=
  let! t := task_of_call in of_option (parameters (syscall_execution t) !! index).

Definition block_call (reason : task_wait_reason_t) (object : Z) : M fs_t unit :=
  let! p := SYSCALL_TASK in
  do! on_os (task_manager_block_task fuel p reason object) in
  do! on_os (task_manager_yield_current base fuel) in
  update_call_task (fun t => t <| syscall_retry := true |>).
Definition clear_retry : M fs_t unit := update_call_task (fun t => t <| syscall_retry := false |>).

(** The resource in a slot of the calling task; NULL when the slot is empty. *)
Definition call_resource (resource_index : Z) : M fs_t Z :=
  let! t := task_of_call in ret (default 0 (resources t !! resource_index)).

(** The range test of the calls that take a buffer. *)
Definition bad_user_buffer (is_user : bool) (buffer length_ : Z) : bool :=
  let buffer_end := u32 (buffer + length_) in
  is_user && ((KERNEL_VIRTUAL_SPACE_START <=? buffer) ||
              ((buffer_end <? buffer) || (KERNEL_VIRTUAL_SPACE_START <? buffer_end))).
Definition bad_user_pointer (is_user : bool) (pointer : Z) : bool :=
  is_user && (KERNEL_VIRTUAL_SPACE_START <=? pointer).

(** [resource->operations.read] and its siblings: every resource of the sources
    has the table [vfs_operations]. *)
Definition resource_read (resource offset buffer length_ : Z) : M fs_t (resource_result_t * list Z) :=
  let! r := on_os (load_resource resource) in
  if negb (res_operations r =? vfs_operations) then fault
  else if buffer =? 0 then ret (RESOURCE_RESULT_BAD_PARAMETER, [])
  else vfs_read resource offset length_.
Definition resource_write (resource offset buffer length_ : Z) : M fs_t (resource_result_t * Z) :=
  let! r := on_os (load_resource resource) in
  if negb (res_operations r =? vfs_operations) then fault
  else if (buffer =? 0) || (length_ =? 0) then ret (RESOURCE_RESULT_BAD_PARAMETER, 0)
  else
    let! data := on_machine_of (read_memory buffer (Z.to_nat length_)) in
    vfs_write resource offset data.
Definition resource_ioctl (resource command argument : Z) : M fs_t resource_result_t :=
  let! r := on_os (load_resource resource) in
  if negb (res_operations r =? vfs_operations) then fault
  else vfs_ioctl resource command argument.

(** A path argument. *)
Definition path_argument (path : Z) : M fs_t (list Z) := on_machine_of (read_string fuel path).

(** ** Files *)

Definition syscall_open : M fs_t Z :=
  let! path := SYSCALL_GET_PARAMETER 0 in
  let! flags := SYSCALL_GET_PARAMETER 1 in
  let! path := path_argument path in
  let! p := SYSCALL_TASK in
  let! ' (result, index) := vfs_open fuel p path (i32 flags) in
  if negb (bool_decide (result = RESOURCE_RESULT_OK)) then ret (- SYSCALL_RESULT_FAIL)
  else ret (i32 index).

(** The slot is not compared with [TASK_MAX_RESOURCES]: an index past the array is
    a [Fault]. *)
Definition syscall_close : M fs_t Z :=
  let! resource_index := SYSCALL_GET_PARAMETER 0 in
  if TASK_MAX_RESOURCES <=? resource_index then fault
  else
    let! resource := call_resource resource_index in
    if resource =? 0 then ret (- SYSCALL_RESULT_FAIL)
    else
      let! p := SYSCALL_TASK in
      do! resource_remove close_of p resource_index in
      ret SYSCALL_RESULT_OK.

Definition syscall_read : M fs_t Z :=
  let! resource_index := SYSCALL_GET_PARAMETER 0 in
  let! buffer := SYSCALL_GET_PARAMETER 1 in
  let! length_ := SYSCALL_GET_PARAMETER 2 in
  let! t := task_of_call in
  if bad_user_buffer (task_is_user t) buffer length_ then ret (- SYSCALL_RESULT_BAD_PARAMETER)
  else if TASK_MAX_RESOURCES <=? resource_index then ret (- SYSCALL_RESULT_BAD_PARAMETER)
  else
    let! resource := call_resource resource_index in
    if resource =? 0 then ret (- SYSCALL_RESULT_FAIL)
    else
      let! r := on_os (load_resource resource) in
      if Z.land (res_flags r) SYSCALL_O_ACCMODE =? SYSCALL_O_WRONLY then ret (- SYSCALL_RESULT_BAD_PARAMETER)
      else
        let! ' (result, bytes) := resource_read resource (res_offset r) buffer length_ in
        do! on_machine_of (write_memory buffer bytes) in
        let read_bytes := Z.of_nat (length bytes) in
        if bool_decide (result = RESOURCE_RESULT_WILL_BLOCK) then
          let! r := on_os (load_resource resource) in
          if negb (Z.land (res_flags r) SYSCALL_O_NONBLOCK =? 0) then
            do! clear_retry in ret (- SYSCALL_RESULT_WOULD_BLOCK)
          else
            let! node := load_vnode (res_data r) in
            do! block_call TASK_WAIT_REASON_IO (fs_data node) in
            ret (- SYSCALL_RESULT_BUSY)
        else
          do! clear_retry in
          if negb (bool_decide (result = RESOURCE_RESULT_OK)) then ret (- SYSCALL_RESULT_FAIL)
          else
            do! on_os (update_resource resource (fun r => r <| res_offset := u32 (res_offset r + read_bytes) |>)) in
            ret (i32 read_bytes).

Definition syscall_write : M fs_t Z :=
  let! resource_index := SYSCALL_GET_PARAMETER 0 in
  let! buffer := SYSCALL_GET_PARAMETER 1 in
  let! length_ := SYSCALL_GET_PARAMETER 2 in
  do! update_call_task (fun t => if syscall_retry t then t else t <| write_offset := 0 |>) in
  let! t := task_of_call in
  if bad_user_buffer (task_is_user t) buffer length_ then ret (- SYSCALL_RESULT_BAD_PARAMETER)
  else if TASK_MAX_RESOURCES <=? resource_index then ret (- SYSCALL_RESULT_BAD_PARAMETER)
  else
    let! resource := call_resource resource_index in
    if resource =? 0 then ret (- SYSCALL_RESULT_FAIL)
    else
      let! r := on_os (load_resource resource) in
      if Z.land (res_flags r) SYSCALL_O_ACCMODE =? SYSCALL_O_RDONLY then ret (- SYSCALL_RESULT_BAD_PARAMETER)
      else
        let! ' (result, written_bytes) := resource_write resource (u32 (res_offset r + write_offset t))
          (u32 (buffer + write_offset t)) (u32 (length_ - write_offset t)) in
        do! update_call_task (fun t => t <| write_offset := u32 (write_offset t + written_bytes) |>) in
        if bool_decide (result = RESOURCE_RESULT_WILL_BLOCK) then
          do! block_call TASK_WAIT_REASON_IO resource in
          ret (- SYSCALL_RESULT_BUSY)
        else
          do! clear_retry in
          let! t := task_of_call in
          do! on_os (update_resource resource (fun r => r <| res_offset := u32 (res_offset r + write_offset t) |>)) in
          if negb (bool_decide (result = RESOURCE_RESULT_OK)) && (write_offset t =? 0)
          then ret (- SYSCALL_RESULT_FAIL)
          else ret (i32 (write_offset t)).

(** ** Processes *)

Definition syscall_fork : M fs_t Z :=
  let! p := SYSCALL_TASK in
  let! child_task := task_manager_task_copy fuel p true in
  do! on_os (update_task child_task (fun t => t <| parent := p |>)) in
  do! on_os (task_manager_add_child_to_task base fuel p child_task) in
  let! c := on_os (load_task child_task) in
  ret (i32 (task_id c)).

(** The strings of a NULL-terminated array of pointers. *)
Fixpoint read_arguments (n : nat) (argv : Z) : M machine_t (list (list Z)) :=
  match n with
  | O => fun _ => NoFuel
  | S n' =>
      let! p := load32 argv in
      if p =? 0 then ret []
      else
        let! string := read_string fuel p in
        let! rest := read_arguments n' (argv + 4) in
        ret (string :: rest)
  end.

Definition syscall_execve : M fs_t Z :=
  let! path := SYSCALL_GET_PARAMETER 0 in
  let! argv := SYSCALL_GET_PARAMETER 1 in
  let! t := task_of_call in
  if bad_user_pointer (task_is_user t) path then ret (- SYSCALL_RESULT_BAD_PARAMETER)
  else if negb (argv =? 0) && bad_user_pointer (task_is_user t) argv then ret (- SYSCALL_RESULT_BAD_PARAMETER)
  else
    let! p := SYSCALL_TASK in
    let! r := elf_load_into_task base fuel stale_header stale_program_header p path (read_string fuel path)
                (if argv =? 0 then ret [] else read_arguments fuel argv) in
    if bool_decide (r = ELF_RESULT_OK) then ret SYSCALL_RESULT_OK else ret (- SYSCALL_RESULT_FAIL).

Definition syscall_exit : M fs_t Z :=
  let! return_code := SYSCALL_GET_PARAMETER 0 in
  let! p := SYSCALL_TASK in
  do! on_os (task_manager_exit_task base fuel p (Z.shiftl (Z.land return_code 0xFF) 8)) in
  do! on_os (task_manager_yield_current base fuel) in
  ret SYSCALL_RESULT_OK.

Definition syscall_waitpid : M fs_t Z :=
  let! pid := SYSCALL_GET_PARAMETER 0 in
  let! result := SYSCALL_GET_PARAMETER 1 in
  let! p := SYSCALL_TASK in
  let! child := (if i32 pid =? -1 then on_os (task_manager_find_zombie_child fuel p)
                 else
                   let! child := on_os (task_manager_find_child fuel p pid) in
                   if child =? 0 then ret 0
                   else
                     let! c := on_os (load_task child) in
                     if bool_decide (task_state c = TASK_STATE_ZOMBIE) then ret child else ret 0) in
  if child =? 0 then
    let! unknown := (if i32 pid =? -1 then ret false
                     else let! existing_child := on_os (task_manager_find_child fuel p pid) in
                          ret (existing_child =? 0)) in
    if (unknown : bool) then do! clear_retry in ret (- SYSCALL_RESULT_FAIL)
    else
      do! block_call TASK_WAIT_REASON_CHILD pid in
      ret (- SYSCALL_RESULT_BUSY)
  else
    let! c := on_os (load_task child) in
    do! task_manager_destroy_task base fuel child in
    do! clear_retry in
    do! (if result =? 0 then ret tt else on_machine_of (store32 result (u32 (return_code c)))) in
    ret (i32 (task_id c)).

Definition syscall_getpid : M fs_t Z := let! t := task_of_call in ret (i32 (task_id t)).

(** ** The break *)

(** The pages mapped so far are unmapped and freed again. *)
Definition sbrk_unwind (directory start_address address : Z) : M machine_t unit :=
  loop fuel (fun unwind_address =>
    if unwind_address <? address then
      let! unwind_physical := memory_paging_virtual_to_physical directory unwind_address in
      do! memory_paging_unmap_current unwind_address in
      do! (if unwind_physical =? 0 then ret tt else on_bitmap (memory_bitmap_free unwind_physical)) in
      ret (inl (unwind_address + PAGE_SIZE))
    else ret (inr tt)) start_address.

(** The loop over the pages still to allocate; false when memory has run out. *)
Fixpoint sbrk_map (n : nat) (directory start_address address : Z) : M machine_t bool :=
  match n with
  | O => ret true
  | S n' =>
      let! physical_allocated := on_bitmap memory_bitmap_allocate in
      if physical_allocated =? 0 then
        do! sbrk_unwind directory start_address address in ret false
      else
        do! memory_paging_map_current physical_allocated address
              (Z.lor (Z.lor PAGE_PRESENT PAGE_USER) PAGE_READ_WRITE) in
        sbrk_map n' directory start_address (u32 (address + PAGE_SIZE))
  end.

(** The old break, or NULL. *)
Definition syscall_sbrk_allocate_physical_memory (bytes : Z) : M fs_t Z :=
  let bytes_to_allocate := ALIGN_UP bytes in
  let pages_to_allocate := bytes_to_allocate / PAGE_SIZE in
  let! t := task_of_call in
  if USER_HEAP_VIRTUAL_CEILING <? u32 (heap_break t + bytes_to_allocate) then ret 0
  else
    let! directory := on_machine_of memory_paging_get_current_page_directory_physical in
    let! mapped := on_machine_of (sbrk_map (Z.to_nat pages_to_allocate) directory (heap_break t) (heap_break t)) in
    if (mapped : bool) then
      do! update_call_task (fun t => t <| heap_break := u32 (heap_break t + bytes_to_allocate) |>) in
      ret (heap_break t)
    else ret 0.

Definition syscall_sbrk_free_physical_memory (bytes : Z) : M fs_t unit :=
  let bytes_to_free := ALIGN_UP bytes in
  let pages_to_free := bytes_to_free / PAGE_SIZE in
  let! directory := on_machine_of memory_paging_get_current_page_directory_physical in
  let! t := task_of_call in
  do! on_machine_of (for_range 0 pages_to_free (fun i =>
        let address := u32 (heap_break t - (i + 1) * PAGE_SIZE) in
        let! physical_address := memory_paging_virtual_to_physical directory address in
        do! memory_paging_unmap_current address in
        if physical_address =? 0 then ret tt else on_bitmap (memory_bitmap_free physical_address))) in
  update_call_task (fun t => t <| heap_break := u32 (heap_break t - bytes_to_free) |>).

Definition syscall_sbrk : M fs_t Z :=
  let! delta := SYSCALL_GET_PARAMETER 0 in
  let delta := i32 delta in
  let! t := task_of_call in
  if negb (task_is_user t) then ret (- SYSCALL_RESULT_FAIL)
  else
    let current_heap_break := heap_break t in
    if delta =? 0 then ret (i32 current_heap_break)
    else if current_heap_break =? 0 then ret (- SYSCALL_RESULT_FAIL)
    else
      let new_break := current_heap_break + delta in
      if USER_HEAP_VIRTUAL_CEILING <=? new_break then ret (- SYSCALL_RESULT_OUT_OF_MEMORY)
      else if new_break <? heap_start t then ret (- SYSCALL_RESULT_FAIL)
      else if KERNEL_VIRTUAL_SPACE_START <=? new_break then ret (- SYSCALL_RESULT_BAD_PARAMETER)
      else if 0 <? delta then
        let! allocated := syscall_sbrk_allocate_physical_memory delta in
        if allocated =? 0 then ret (- SYSCALL_RESULT_OUT_OF_MEMORY) else ret (i32 current_heap_break)
      else
        do! syscall_sbrk_free_physical_memory (- delta) in
        ret (i32 current_heap_break).
(** ** Descriptors *)

Definition syscall_isatty : M fs_t Z :=
  let! resource_index := SYSCALL_GET_PARAMETER 0 in
  if TASK_MAX_RESOURCES <=? resource_index then ret 0
  else
    let! resource := call_resource resource_index in
    if resource =? 0 then ret 0
    else
      let! r := on_os (load_resource resource) in
      ret (if bool_decide (res_type r = RESOURCE_TYPE_KEYBOARD \/ res_type r = RESOURCE_TYPE_TERMINAL) then 1 else 0).

(** The position [whence] refers to, or the error it is refused with. *)
Definition lseek_origin (r : resource_t) (whence : Z) : M fs_t (Z + Z) :=
  if whence =? SYSCALL_LSEEK_SET then ret (inl 0)
  else if whence =? SYSCALL_LSEEK_CUR then ret (inl (res_offset r))
  else if whence =? SYSCALL_LSEEK_END then
    if negb (bool_decide (res_type r = RESOURCE_TYPE_FILE)) then ret (inr (- SYSCALL_RESULT_BAD_PARAMETER))
    else
      let! ' (result, file_size) := vfs_get_size (res_data r) in
      if negb (bool_decide (result = RESOURCE_RESULT_OK)) then ret (inr (- SYSCALL_RESULT_FAIL))
      else ret (inl file_size)
  else ret (inr (- SYSCALL_RESULT_BAD_PARAMETER)).

Definition syscall_lseek : M fs_t Z :=
  let! resource_index := SYSCALL_GET_PARAMETER 0 in
  let! offset := SYSCALL_GET_PARAMETER 1 in
  let! whence := SYSCALL_GET_PARAMETER 2 in
  if TASK_MAX_RESOURCES <=? resource_index then ret (- SYSCALL_RESULT_BAD_PARAMETER)
  else
    let! resource := call_resource resource_index in
    if resource =? 0 then ret (- SYSCALL_RESULT_FAIL)
    else
      let! r := on_os (load_resource resource) in
      let! origin := lseek_origin r (i32 whence) in
      match origin with
      | inr error => ret error
      | inl origin =>
          let new_offset := i64 (origin + i32 offset) in
          if new_offset <? 0 then ret (- SYSCALL_RESULT_BAD_PARAMETER)
          else
            do! on_os (update_resource resource (fun r => r <| res_offset := u32 new_offset |>)) in
            ret (i32 (u32 new_offset))
      end.

Definition syscall_fcntl : M fs_t Z :=
  let! resource_index := SYSCALL_GET_PARAMETER 0 in
  let! command := SYSCALL_GET_PARAMETER 1 in
  let! argument := SYSCALL_GET_PARAMETER 2 in
  if TASK_MAX_RESOURCES <=? resource_index then ret (- SYSCALL_RESULT_BAD_PARAMETER)
  else
    let! resource := call_resource resource_index in
    if resource =? 0 then ret (- SYSCALL_RESULT_FAIL)
    else if i32 command =? SYSCALL_F_GETFL then
      let! r := on_os (load_resource resource) in ret (i32 (res_flags r))
    else if i32 command =? SYSCALL_F_SETFL then
      do! on_os (update_resource resource (fun r => r <| res_flags := argument |>)) in
      ret SYSCALL_RESULT_OK
    else ret (- SYSCALL_RESULT_BAD_PARAMETER).

(** Only [vfs_operations] is a table of resources, and its [ioctl] is not NULL. *)
Definition syscall_ioctl : M fs_t Z :=
  let! resource_index := SYSCALL_GET_PARAMETER 0 in
  let! command := SYSCALL_GET_PARAMETER 1 in
  let! argument := SYSCALL_GET_PARAMETER 2 in
  if TASK_MAX_RESOURCES <=? resource_index then ret (- SYSCALL_RESULT_BAD_PARAMETER)
  else
    let! resource := call_resource resource_index in
    if resource =? 0 then ret (- SYSCALL_RESULT_FAIL)
    else
      let! result := resource_ioctl resource (i32 command) (i32 argument) in
      ret (resource_result_code result).

(** ** Status *)

Definition stat_mode (node_type : vfs_node_type) (resource_type : resource_type_t) : Z :=
  match node_type, resource_type with
  | VFS_NODE_TYPE_DIRECTORY, _ => Z.lor S_IFDIR 0x1ED
  | _, (RESOURCE_TYPE_KEYBOARD | RESOURCE_TYPE_TERMINAL | RESOURCE_TYPE_FRAMEBUFFER) => Z.lor S_IFCHR 0x1B6
  | _, _ => Z.lor S_IFREG 0x1A4
  end.
Definition syscall_fill_stat (node_type : vfs_node_type) (resource_type : resource_type_t) (size out : Z)
  : M machine_t unit :=
  do! write_memory out (repeat 0 (Z.to_nat STAT_SIZE)) in
  do! store32 (out + 8) (stat_mode node_type resource_type) in
  do! store32 (out + 28) size in
  store32 (out + 12) 1.

Definition syscall_validate_user_buffer (buffer length_ : Z) : M fs_t Z :=
  let! t := task_of_call in
  ret (if bad_user_buffer (task_is_user t) buffer length_ then SYSCALL_RESULT_BAD_PARAMETER else SYSCALL_RESULT_OK).

Definition syscall_fstat : M fs_t Z :=
  let! resource_index := SYSCALL_GET_PARAMETER 0 in
  let! buf := SYSCALL_GET_PARAMETER 1 in
  if TASK_MAX_RESOURCES <=? resource_index then ret (- SYSCALL_RESULT_BAD_PARAMETER)
  else
    let! valid := syscall_validate_user_buffer buf STAT_SIZE in
    if negb (valid =? SYSCALL_RESULT_OK) then ret (- SYSCALL_RESULT_BAD_PARAMETER)
    else
      let! resource := call_resource resource_index in
      if resource =? 0 then ret (- SYSCALL_RESULT_FAIL)
      else
        let! r := on_os (load_resource resource) in
        let! ' (node_type, size) :=
          (if bool_decide (res_type r = RESOURCE_TYPE_FILE) then
             let! node := load_vnode (res_data r) in
             let! ' (_, size) := vfs_get_size (res_data r) in
             ret (type node, size)
           else ret (VFS_NODE_TYPE_FILE, 0)) in
        do! on_machine_of (syscall_fill_stat node_type (res_type r) size buf) in
        ret SYSCALL_RESULT_OK.

Definition syscall_stat : M fs_t Z :=
  let! path := SYSCALL_GET_PARAMETER 0 in
  let! buf := SYSCALL_GET_PARAMETER 1 in
  let! t := task_of_call in
  if bad_user_pointer (task_is_user t) path then ret (- SYSCALL_RESULT_BAD_PARAMETER)
  else
    let! valid := syscall_validate_user_buffer buf STAT_SIZE in
    if negb (valid =? SYSCALL_RESULT_OK) then ret (- SYSCALL_RESULT_BAD_PARAMETER)
    else
      let! path := path_argument path in
      let! ' (result, node) := vfs_resolve fuel path in
      if negb (bool_decide (result = RESOURCE_RESULT_OK)) then ret (- SYSCALL_RESULT_FAIL)
      else
        let! n := load_vnode node in
        let! size := (if bool_decide (type n = VFS_NODE_TYPE_FILE)
                      then let! ' (_, size) := vfs_get_size node in ret size else ret 0) in
        do! on_machine_of (syscall_fill_stat (type n) (resource_type n) size buf) in
        do! vfs_release_node node in
        ret SYSCALL_RESULT_OK.

(** A NULL path is the error of [vfs_link] and [vfs_unlink]. *)
Definition syscall_link : M fs_t Z :=
  let! old_path := SYSCALL_GET_PARAMETER 0 in
  let! new_path := SYSCALL_GET_PARAMETER 1 in
  let! t := task_of_call in
  if bad_user_pointer (task_is_user t) old_path || bad_user_pointer (task_is_user t) new_path
  then ret (- SYSCALL_RESULT_BAD_PARAMETER)
  else if (old_path =? 0) || (new_path =? 0) then ret (- SYSCALL_RESULT_FAIL)
  else
    let! old_path := path_argument old_path in
    let! new_path := path_argument new_path in
    let! result := vfs_link fuel old_path new_path in
    if negb (bool_decide (result = RESOURCE_RESULT_OK)) then ret (- SYSCALL_RESULT_FAIL)
    else ret SYSCALL_RESULT_OK.

Definition syscall_unlink : M fs_t Z :=
  let! path := SYSCALL_GET_PARAMETER 0 in
  let! t := task_of_call in
  if bad_user_pointer (task_is_user t) path then ret (- SYSCALL_RESULT_BAD_PARAMETER)
  else if path =? 0 then ret (- SYSCALL_RESULT_FAIL)
  else
    let! path := path_argument path in
    let! result := vfs_unlink fuel path in
    if negb (bool_decide (result = RESOURCE_RESULT_OK)) then ret (- SYSCALL_RESULT_FAIL)
    else ret SYSCALL_RESULT_OK.

Definition syscall_times : M fs_t Z :=
  let! buf := SYSCALL_GET_PARAMETER 0 in
  let! valid := syscall_validate_user_buffer buf TMS_SIZE in
  if negb (valid =? SYSCALL_RESULT_OK) then ret (- SYSCALL_RESULT_BAD_PARAMETER)
  else
    let! t := task_of_call in
    do! on_machine_of (
      do! store32 buf (u32 (ticks_user t)) in
      do! store32 (buf + 4) (u32 (ticks_system t)) in
      do! store32 (buf + 8) (u32 (child_ticks_user t)) in
      store32 (buf + 12) (u32 (child_ticks_system t))) in
    let! ticks := on_os timer_get_ticks in
    ret (i32 ticks).

(** ** Signals *)

Definition handler_of (t : task_t) (sig : Z) : Z := default SYSCALL_SIG_DFL (signal_handlers t !! sig).
Definition with_handler (sig handler : Z) (t : task_t) : task_t :=
  t <| signal_handlers := if handler =? 0 then delete sig (signal_handlers t)
                          else <[sig := handler]> (signal_handlers t) |>.

Definition syscall_kill : M fs_t Z :=
  let! pid := SYSCALL_GET_PARAMETER 0 in
  let! sig := SYSCALL_GET_PARAMETER 1 in
  let sig := i32 sig in
  if i32 pid <=? 0 then ret (- SYSCALL_RESULT_BAD_PARAMETER)
  else if (sig <? 0) || (SYSCALL_NSIG <=? sig) then ret (- SYSCALL_RESULT_BAD_PARAMETER)
  else
    let! target := on_os (task_manager_find_task fuel pid) in
    if target =? 0 then ret (- SYSCALL_RESULT_FAIL)
    else if sig =? 0 then ret SYSCALL_RESULT_OK
    else
      let! t := on_os (load_task target) in
      if bool_decide (task_state t = TASK_STATE_ZOMBIE) || bool_decide (task_state t = TASK_STATE_TERMINATED)
      then ret SYSCALL_RESULT_OK
      else
        let handler := handler_of t sig in
        if handler =? SYSCALL_SIG_IGN then ret SYSCALL_RESULT_OK
        else if handler =? SYSCALL_SIG_DFL then
          do! on_os (task_manager_exit_task base fuel target (Z.land sig 0x7F)) in
          let! p := SYSCALL_TASK in
          do! (if target =? p then do! on_os (task_manager_yield_current base fuel) in ret tt else ret tt) in
          ret SYSCALL_RESULT_OK
        else
          do! (if bool_decide (task_state t = TASK_STATE_BLOCKED)
               then do! on_os (task_manager_unblock_task fuel target) in ret tt else ret tt) in
          do! task_manager_deliver_signal base fuel target sig handler in
          ret SYSCALL_RESULT_OK.

Definition syscall_sigaction : M fs_t Z :=
  let! sig := SYSCALL_GET_PARAMETER 0 in
  let! action := SYSCALL_GET_PARAMETER 1 in
  let! old_action := SYSCALL_GET_PARAMETER 2 in
  let sig := i32 sig in
  if (sig <=? 0) || (SYSCALL_NSIG <=? sig) then ret (- SYSCALL_RESULT_BAD_PARAMETER)
  else if sig =? SYSCALL_SIGKILL then ret (- SYSCALL_RESULT_BAD_PARAMETER)
  else
    let! t := task_of_call in
    if negb (action =? 0) && bad_user_buffer (task_is_user t) action SIGACTION_SIZE
    then ret (- SYSCALL_RESULT_BAD_PARAMETER)
    else if negb (old_action =? 0) && bad_user_buffer (task_is_user t) old_action SIGACTION_SIZE
    then ret (- SYSCALL_RESULT_BAD_PARAMETER)
    else
      do! (if old_action =? 0 then ret tt else on_machine_of (store32 old_action (handler_of t sig))) in
      do! (if action =? 0 then ret tt
           else
             let! handler := on_machine_of (load32 action) in
             update_call_task (with_handler sig handler)) in
      ret SYSCALL_RESULT_OK.

Definition syscall_sigreturn : M fs_t Z :=
  let! s := get in
  let data := current_register_data (syscall s) in
  let! t := task_of_call in
  do! (if in_signal_handler t then
         do! on_machine_of (store_frame data (saved_signal_frame t)) in
         update_call_task (fun t => t <| in_signal_handler := false |>)
       else ret tt) in
  let! eax := on_machine_of (load32 (data + EAX_OFFSET)) in
  ret (i32 eax).

(** ** The handler of interrupt 0x80 *)

(** The offsets of [eip] and [useresp] in a register frame. *)
Definition EIP_OFFSET : Z := 52.
Definition USERESP_OFFSET : Z := 64.

(** [data->eax = call()] *)
Definition answer_in_eax (data : Z) (call : M fs_t Z) : M fs_t unit :=
  let! result := call in on_machine_of (store32 (data + EAX_OFFSET) (u32 result)).

Definition syscall_execve_case (data : Z) : M fs_t unit :=
  let! syscall_result := syscall_execve in
  if syscall_result =? SYSCALL_RESULT_OK then
    let! t := task_of_call in
    do! on_machine_of (store32 (data + USERESP_OFFSET) (task_esp t)) in
    on_machine_of (store32 (data + EIP_OFFSET) (task_init_eip t))
  else on_machine_of (store32 (data + EAX_OFFSET) (u32 syscall_result)).

Definition syscall_dispatch (data number : Z) : M fs_t unit :=
  if number =? SYSCALL_OPEN then answer_in_eax data syscall_open
  else if number =? SYSCALL_CLOSE then answer_in_eax data syscall_close
  else if number =? SYSCALL_READ then answer_in_eax data syscall_read
  else if number =? SYSCALL_WRITE then answer_in_eax data syscall_write
  else if number =? SYSCALL_FORK then answer_in_eax data syscall_fork
  else if number =? SYSCALL_EXECVE then syscall_execve_case data
  else if number =? SYSCALL_EXIT then do! syscall_exit in ret tt
  else if number =? SYSCALL_WAITPID then answer_in_eax data syscall_waitpid
  else if number =? SYSCALL_SBRK then answer_in_eax data syscall_sbrk
  else if number =? SYSCALL_GETPID then answer_in_eax data syscall_getpid
  else if number =? SYSCALL_ISATTY then answer_in_eax data syscall_isatty
  else if number =? SYSCALL_LSEEK then answer_in_eax data syscall_lseek
  else if number =? SYSCALL_FCNTL then answer_in_eax data syscall_fcntl
  else if number =? SYSCALL_IOCTL then answer_in_eax data syscall_ioctl
  else if number =? SYSCALL_FSTAT then answer_in_eax data syscall_fstat
  else if number =? SYSCALL_STAT then answer_in_eax data syscall_stat
  else if number =? SYSCALL_LINK then answer_in_eax data syscall_link
  else if number =? SYSCALL_UNLINK then answer_in_eax data syscall_unlink
  else if number =? SYSCALL_TIMES then answer_in_eax data syscall_times
  else if number =? SYSCALL_KILL then answer_in_eax data syscall_kill
  else if number =? SYSCALL_SIGACTION then answer_in_eax data syscall_sigaction
  else if number =? SYSCALL_SIGRETURN then answer_in_eax data syscall_sigreturn
  else ret tt.

(** The registers of a call that is not a retry become its parameters. *)
Definition captured (frame : register_interrupt_data_t) : syscall_execution_t :=
  mk_execution (reg_eax frame)
    [reg_ebx frame; reg_ecx frame; reg_edx frame; reg_esi frame; reg_edi frame; 0].

Definition syscall_handler (data : Z) : M fs_t unit :=
  do! modify (fun s => s <| syscall := mk_syscall data (task_current (task_manager (os s))) |>) in
  let! t := task_of_call in
  do! (if syscall_retry t then ret tt
       else
         let! frame := on_machine_of (load_frame data) in
         update_call_task (fun t => t <| syscall_execution := captured frame |>)) in
  let! t := task_of_call in
  syscall_dispatch data (execution_index (syscall_execution t)).
End syscall.
