(* ===== verification/SignalLaws.v ===== *)
(** * Signal delivery and return

    What [task_manager_deliver_signal] leaves on the user stack and in the saved
    registers of the calling task, and that [syscall_sigreturn] undoes it.  The
    memory involved is two pages of the current space: the kernel stack with the
    register frame and the user stack. *)
From S2P Require Import Prelude Bitmap Paging KernelHeap Tasks TaskManager Allocator Files VfsCache Resource Vfs Memory Process Elf Syscall.

(** ** The machine below the file systems *)

Definition machine_of (s : fs_t) : machine_t := machine (kernel (os s)).
Definition with_machine (m : machine_t) (s : fs_t) : fs_t :=
  s <| os := (os s) <| kernel := set_machine m (kernel (os s)) |> |>.
Definition with_tasks (ts : gmap Z task_t) (s : fs_t) : fs_t := s <| os := (os s) <| tasks := ts |> |>.

Lemma wp_on_machine_of {A} (op : M machine_t A) Q s :
  wp op (fun a m => Q a (with_machine m s)) (machine_of s) -> wp (on_machine_of op) Q s.
Proof. intros H. unfold on_machine_of, on_os, in_machine, on_kernel, on_machine. do 3 wp_step. exact H. Qed.

Lemma wp_update_os_task s p t f Q :
  tasks (os s) !! p = Some t -> Q tt (with_tasks (<[p := f t]> (tasks (os s))) s) -> wp (on_os (update_task p f)) Q s.
Proof. intros Hp HQ. unfold on_os. wp_step. eapply wp_update_task; [exact Hp|exact HQ]. Qed.
Lemma wp_load_os_task s p t Q : tasks (os s) !! p = Some t -> Q t s -> wp (on_os (load_task p)) Q s.
Proof. intros Hp HQ. unfold on_os. wp_step. eapply wp_load_task; [exact Hp|]. by destruct s. Qed.

(** ** Words in a page *)

Lemma length_words_bytes l : length (words_bytes l) = (4 * length l)%nat.
Proof.
  induction l as [|w l IH]; [done|]. change (words_bytes (w :: l)) with (word_bytes w ++ words_bytes l).
  rewrite length_app, IH. cbn [length word_bytes]. lia.
Qed.

Lemma words_bytes_app l1 l2 : words_bytes (l1 ++ l2) = words_bytes l1 ++ words_bytes l2.
Proof. unfold words_bytes. by rewrite fmap_app, join_app. Qed.
Lemma words_bytes_one w : words_bytes [w] = word_bytes w.
Proof. apply app_nil_r. Qed.

Lemma words_bytes_range l : Forall (fun b => 0 <= b < 256) (words_bytes l).
Proof.
  induction l as [|w l IH]; [constructor|]. change (words_bytes (w :: l)) with (word_bytes w ++ words_bytes l).
  apply Forall_app. split; [apply word_bytes_range|done].
Qed.

Lemma bytes_words_bytes l : Forall (fun w => 0 <= w < 2 ^ 32) l -> bytes_words (words_bytes l) = l.
Proof.
  induction l as [|w l IH]; intros Hl; [done|]. change (words_bytes (w :: l)) with (word_bytes w ++ words_bytes l).
  unfold word_bytes at 1. cbn [app bytes_words]. rewrite IH by (by apply Forall_inv_tail in Hl). f_equal.
  apply bytes_word_bytes. by apply Forall_inv in Hl.
Qed.

(** The words [ws] are at offset [o] of frame [f]. *)
Definition words_at (m : machine_t) (f o : Z) (ws : list Z) : Prop :=
  frame_bytes m f o (4 * length ws) = words_bytes ws.

Lemma words_at_app m f o ws1 ws2 :
  words_at m f o (ws1 ++ ws2) <-> words_at m f o ws1 /\ words_at m f (o + 4 * Z.of_nat (length ws1)) ws2.
Proof.
  unfold words_at. rewrite length_app, Nat.mul_add_distr_l, frame_bytes_app, words_bytes_app.
  replace (Z.of_nat (4 * length ws1)) with (4 * Z.of_nat (length ws1)) by lia. split.
  - intros E. apply app_inj_1 in E; [done|]. by rewrite length_frame_bytes, length_words_bytes.
  - by intros [-> ->].
Qed.

Lemma words_at_lookup m f o ws i w :
  words_at m f o ws -> ws !! i = Some w -> frame_bytes m f (o + 4 * Z.of_nat i) 4 = word_bytes w.
Proof.
  intros Hws Hi. rewrite <- (take_drop_middle ws i w Hi) in Hws. apply words_at_app in Hws as [_ Hws].
  change (w :: drop (S i) ws) with ([w] ++ drop (S i) ws) in Hws. apply words_at_app in Hws as [Hws _].
  rewrite length_take in Hws. apply lookup_lt_Some in Hi. rewrite Nat.min_l in Hws by lia.
  unfold words_at in Hws. by rewrite words_bytes_one in Hws.
Qed.

(** Storing one of the words. *)
Lemma words_at_insert m m' f o ws i w :
  words_at m f o ws -> 0 <= o -> o + 4 * Z.of_nat (length ws) <= PAGE_SIZE -> (i < length ws)%nat ->
  bytes_written f (o + 4 * Z.of_nat i) (word_bytes w) m m' -> words_at m' f o (<[i := w]> ws).
Proof.
  intros Hws Ho Hl Hi Hw. destruct (lookup_lt_is_Some_2 ws i Hi) as [w0 Hw0].
  rewrite insert_take_drop by done. rewrite <- (take_drop_middle ws i w0 Hw0) in Hws.
  change (w :: drop (S i) ws) with ([w] ++ drop (S i) ws). change (w0 :: drop (S i) ws) with ([w0] ++ drop (S i) ws) in Hws.
  rewrite !words_at_app in *. assert (length (take i ws) = i) as Ei by (rewrite length_take; lia). rewrite Ei in *.
  assert (length (drop (S i) ws) = (length ws - S i)%nat) as Ed by apply length_drop.
  destruct Hws as (H1 & H2 & H3). unfold words_at in *. rewrite Ed, Ei in *. cbn [length] in *. split_and!.
  - rewrite <- H1. eapply frame_bytes_apart; [exact Hw|lia|lia|left; lia].
  - rewrite words_bytes_one. pose proof (frame_bytes_written _ _ _ _ _ Hw) as E. cbn [length word_bytes] in E. apply E; lia.
  - rewrite <- H3. eapply frame_bytes_apart; [exact Hw|lia|lia|right; cbn [length word_bytes]; lia].
Qed.

(** ** Register frames *)

Definition frame_wf (r : register_interrupt_data_t) : Prop := Forall (fun w => 0 <= w < 2 ^ 32) (frame_words r).
Definition frame_at (m : machine_t) (f o : Z) (r : register_interrupt_data_t) : Prop := words_at m f o (frame_words r).

Lemma words_frame_words r : words_frame (frame_words r) = Some r.
Proof. by destruct r. Qed.

Lemma wp_load_frame m d vp f o r Q :
  page_at m d vp f -> 0 <= o -> o + FRAME_SIZE <= PAGE_SIZE -> frame_at m f o r -> frame_wf r -> Q r m ->
  wp (load_frame (vp * PAGE_SIZE + o)) Q m.
Proof.
  intros Hp Ho Hl Hf Hwf HQ. unfold load_frame. wp_step. unfold FRAME_SIZE in *. change (Z.to_nat 72) with 72%nat.
  apply (wp_read_page 72 m d vp f); [done|done|lia|]. unfold frame_at, words_at in Hf.
  change (4 * length (frame_words r))%nat with 72%nat in Hf. rewrite Hf, bytes_words_bytes by done.
  eapply wp_of_option; [apply words_frame_words|exact HQ].
Qed.

Lemma wp_store_frame m d vp f o r Q :
  page_at m d vp f -> 0 <= o -> o + FRAME_SIZE <= PAGE_SIZE ->
  (forall m', bytes_written f o (words_bytes (frame_words r)) m m' -> frame_at m' f o r -> Q tt m') ->
  wp (store_frame (vp * PAGE_SIZE + o) r) Q m.
Proof.
  intros Hp Ho Hl HQ. unfold store_frame, FRAME_SIZE in *.
  assert (length (words_bytes (frame_words r)) = 72%nat) as Hlen by apply length_words_bytes.
  apply (wp_write_page _ m d vp f); [done|done|lia|apply words_bytes_range|].
  intros m' Hw. apply HQ; [done|]. unfold frame_at, words_at.
  change (4 * length (frame_words r))%nat with 72%nat. rewrite <- Hlen. eapply frame_bytes_written; [exact Hw|lia|lia].
Qed.

(** ** Return *)

Section signals.
Context {alloc : Allocator kernel_t} {systems : FileSystems} {old : OldNodes}.
Variable base : Z.
Variable fuel : nat.

Lemma wp_caller s p t Q : caller_task (syscall s) = p -> tasks (os s) !! p = Some t -> Q t s -> wp task_of_call Q s.
Proof using Type. intros <- Ht HQ. unfold task_of_call, SYSCALL_TASK. do 2 wp_step. by eapply wp_load_os_task. Qed.
Lemma wp_update_caller s p t f Q :
  caller_task (syscall s) = p -> tasks (os s) !! p = Some t ->
  Q tt (with_tasks (<[p := f t]> (tasks (os s))) s) -> wp (update_call_task f) Q s.
Proof using Type. intros <- Ht HQ. unfold update_call_task, SYSCALL_TASK. do 2 wp_step. by eapply wp_update_os_task. Qed.

(** The store of a result in [eax]. *)
Lemma wp_store_page_word m d vp f o ws i w Q :
  page_at m d vp f -> 0 <= o -> o + 4 * Z.of_nat (length ws) <= PAGE_SIZE -> words_at m f o ws -> (i < length ws)%nat ->
  (forall m', bytes_written f (o + 4 * Z.of_nat i) (word_bytes w) m m' -> words_at m' f o (<[i := w]> ws) -> Q tt m') ->
  wp (store32 (vp * PAGE_SIZE + o + 4 * Z.of_nat i) w) Q m.
Proof using Type.
  intros Hp Ho Hl Hws Hi HQ. rewrite <- Z.add_assoc. apply (wp_store32_page m d vp f); [done|lia|lia|].
  intros m' Hw. apply HQ; [done|]. by eapply words_at_insert.
Qed.

(** C31: Returning from a signal handler.  When the task is in a handler, the
    system call puts the registers that were saved at the delivery back into the
    frame the interrupt returns through, all eighteen of them: the store of the
    call's own result to eax does not disturb them.  The task has left the
    handler, and nothing else changes: no other byte of memory and no other part of
    the kernel's state.  Outside a handler no byte of memory and nothing of the
    state changes at all. *)
Theorem syscall_sigreturn_restores s p t d vp f o r :
  caller_task (syscall s) = p -> tasks (os s) !! p = Some t ->
  current_register_data (syscall s) = vp * PAGE_SIZE + o ->
  page_at (machine_of s) d vp f -> 0 <= o -> o + FRAME_SIZE <= PAGE_SIZE ->
  frame_at (machine_of s) f o r -> frame_wf r -> frame_wf (saved_signal_frame t) ->
  wp (answer_in_eax (vp * PAGE_SIZE + o) syscall_sigreturn)
     (fun _ s' => exists m',
        frame_at m' f o (if in_signal_handler t then saved_signal_frame t else r) /\
        bytes_written f o (if in_signal_handler t then words_bytes (frame_words (saved_signal_frame t)) else []) (machine_of s) m' /\
        s' = with_machine m'
               (if in_signal_handler t then with_tasks (<[p := t <| in_signal_handler := false |>]> (tasks (os s))) s else s)) s.
Proof using Type.
  intros Hp Ht Hdata Hpage Ho Hl Hf Hwf Hwf'. unfold answer_in_eax, syscall_sigreturn. wp_step. wp_step. wp_step.
  wp_step. eapply wp_caller; [exact Hp|exact Ht|]. rewrite Hdata.
  set (r' := if in_signal_handler t then saved_signal_frame t else r).
  assert (frame_wf r') as Hwf2 by (unfold r'; by destruct (in_signal_handler t)).
  set (written := if in_signal_handler t then words_bytes (frame_words (saved_signal_frame t)) else []).
  set (s0 := if in_signal_handler t then with_tasks (<[p := t <| in_signal_handler := false |>]> (tasks (os s))) s else s).
  (* after the frame and the flag *)
  wp_step. apply (wp_mono _ (fun _ s1 => exists m1, page_at m1 d vp f /\ frame_at m1 f o r' /\
    bytes_written f o written (machine_of s) m1 /\ s1 = with_machine m1 s0)).
  { unfold r', written, s0. destruct (in_signal_handler t) eqn:Hin.
    - wp_step. apply wp_on_machine_of. apply (wp_store_frame _ d vp f); [done|done|done|]. intros m1 Hw Hf1.
      eapply (wp_update_caller _ p t); [exact Hp|exact Ht|]. exists m1. split_and!; [by eapply page_at_written|done|done|done].
    - wp_step. exists (machine_of s). split_and!; [done|done|apply bytes_written_nil|]. by destruct s as [[[]]]. }
  clear Ht Hdata. intros [] s1 (m1 & Hpage1 & Hf1 & Hw1 & ->).
  wp_step. apply wp_on_machine_of. unfold EAX_OFFSET.
  assert (frame_words r' !! 10%nat = Some (reg_eax r')) as Heax by done.
  assert (0 <= reg_eax r' < 2 ^ 32) as Hr by exact (proj1 (Forall_lookup _ _) Hwf2 _ _ Heax).
  pose proof (words_at_lookup _ _ _ _ 10 _ Hf1 Heax) as Heb. change (4 * Z.of_nat 10) with 40 in Heb.
  rewrite <- Z.add_assoc. unfold FRAME_SIZE in Hl. change (machine_of (with_machine m1 s0)) with m1.
  apply (wp_load32_page _ d vp f (o + 40) (reg_eax r')); [done|lia|lia|exact Heb|done|].
  wp_step. apply wp_on_machine_of. rewrite Z.add_assoc.
  assert (u32 (i32 (reg_eax r')) = reg_eax r') as -> by (unfold u32, i32; zlia).
  rewrite <- Z.add_assoc. apply (wp_store32_page _ d vp f); [done|lia|lia|]. intros m2 Hw2.
  change (machine_of (with_machine m1 _)) with m1 in Hw2.
  apply (bytes_written_same _ _ _ o) in Hw2; [|lia|cbn; lia|exact Heb].
  exists m2. split_and!; [|by eapply bytes_written_then_same|done].
  unfold frame_at, words_at. rewrite (frame_bytes_apart _ _ _ _ _ _ _ Hw2); [exact Hf1|lia|cbn; lia|cbn; lia].
Qed.

(** ** Delivery *)

(** A range inside one page that is mapped. *)
Lemma wp_user_range_mapped m d vp f o n Q :
  page_at m d vp f -> bounce_ready m d -> bounce_pages_used m <> replicate 16 true ->
  vp < 2 ^ 20 - 2 -> table_frame m d (vp / 1024) <> bounce_table m d ->
  0 < n -> 0 <= o -> o + n <= PAGE_SIZE -> f * PAGE_SIZE <> 0 -> (1 < fuel)%nat ->
  (forall m', bounce_ready m' d -> memory_bitmap m' = memory_bitmap m ->
     bounce_pages_used m' = bounce_pages_used m -> differ_in (bounce_table m d) m m' -> Q true m') ->
  wp (task_manager_user_range_mapped fuel (d * PAGE_SIZE) (vp * PAGE_SIZE + o) n) Q m.
Proof using Type.
  intros Hp Hr Hfree Hvp Htab Hn Ho Hl Hf Hfuel HQ. pose proof (pg_range _ _ _ _ Hp) as Hvp0.
  assert (0 <= vp * PAGE_SIZE /\ vp * PAGE_SIZE + 2 * PAGE_SIZE < 2 ^ 32) as Hv by (unfold PAGE_SIZE; lia).
  unfold task_manager_user_range_mapped.
  rewrite align_down_spec by (unfold PAGE_SIZE in *; lia). rewrite u32_small by (unfold PAGE_SIZE in *; lia).
  rewrite align_up_spec by (unfold PAGE_SIZE in *; lia).
  replace ((vp * PAGE_SIZE + o) / PAGE_SIZE * PAGE_SIZE) with (vp * PAGE_SIZE) by (unfold PAGE_SIZE in *; zlia).
  replace ((vp * PAGE_SIZE + o + n + PAGE_SIZE - 1) / PAGE_SIZE * PAGE_SIZE) with ((vp + 1) * PAGE_SIZE)
    by (unfold PAGE_SIZE in *; zlia).
  destruct fuel as [|[|k]]; [lia|lia|]. cbn [loop].
  destruct (Z.ltb_spec (vp * PAGE_SIZE) ((vp + 1) * PAGE_SIZE)); [|unfold PAGE_SIZE in *; lia].
  wp_step. wp_step.
  assert (pde_index (vp * PAGE_SIZE) = vp / 1024) as Epde.
  { rewrite pde_index_div by (unfold PAGE_SIZE in *; lia). by rewrite Z.div_mul. }
  apply (wp_virtual_to_physical m d d (vp * PAGE_SIZE)); [done|done|apply Hr| |by rewrite Epde|unfold PAGE_SIZE in *; lia|].
  { intros E. pose proof (br_wf _ _ Hr) as [_ Hok]. by eapply (tk_ne _ _ Hok 1022); [|apply Hr|]. }
  intros pa m1 (Hr1 & Hb1 & Hd1 & Hw1).
  rewrite walk_vpage in Hw1 by (apply Hp || unfold PAGE_SIZE in *; lia). rewrite Z.div_mul in Hw1 by done.
  rewrite (pg_frame _ _ _ _ Hp) in Hw1. cbn [fmap option_fmap option_map] in Hw1. destruct Hw1 as [-> Hu1].
  replace ((vp * PAGE_SIZE) mod PAGE_SIZE) with 0 by (symmetry; by apply Z.mod_mul). rewrite Z.add_0_r.
  destruct (Z.eqb_spec (f * PAGE_SIZE) 0); [done|]. wp_step.
  rewrite u32_small by (unfold PAGE_SIZE in *; lia).
  destruct (Z.ltb_spec (vp * PAGE_SIZE + PAGE_SIZE) ((vp + 1) * PAGE_SIZE)); [unfold PAGE_SIZE in *; lia|].
  do 2 wp_step. wp_step. by apply HQ.
Qed.

(** The words and the code that the delivery of [sig] puts below [useresp]. *)
Definition signal_stack (useresp sig : Z) : list Z :=
  word_bytes (useresp - 9) ++ word_bytes sig ++ trampoline.

Lemma trampoline_range : Forall (fun b => 0 <= b < 256) trampoline.
Proof using Type. apply (bool_decide_unpack _). vm_compute. exact I. Qed.

Lemma wp_signal_stack m d vu fu ou sig (k : M machine_t unit) Q :
  page_at m d vu fu -> 17 <= ou <= PAGE_SIZE ->
  (forall m', self_mapped m' d -> differ_in fu m m' ->
     frame_bytes m' fu (ou - 17) 17 = signal_stack (vu * PAGE_SIZE + ou) sig -> wp k Q m') ->
  wp (do! write_memory (vu * PAGE_SIZE + (ou - 9)) trampoline in
      do! store32 (vu * PAGE_SIZE + (ou - 13)) sig in
      do! store32 (vu * PAGE_SIZE + (ou - 17)) (vu * PAGE_SIZE + (ou - 9)) in k) Q m.
Proof using Type.
  intros Hp Hou HQ. assert (length trampoline = 9%nat) as Htr by done.
  wp_step. apply (wp_write_page _ m d vu fu); [done|lia|lia|apply trampoline_range|].
  intros m2 W2. pose proof (page_at_written _ _ _ _ _ _ _ Hp W2) as Hp2.
  wp_step. apply (wp_store32_page m2 d vu fu); [done|lia|lia|].
  intros m3 W3. pose proof (page_at_written _ _ _ _ _ _ _ Hp2 W3) as Hp3.
  wp_step. apply (wp_store32_page m3 d vu fu); [done|lia|lia|]. intros m4 W4.
  pose proof (page_at_written _ _ _ _ _ _ _ Hp3 W4) as Hp4. apply HQ; [apply Hp4| |].
  { intros h i Hi Hh. rewrite (bw_other _ _ _ _ _ W4), (bw_other _ _ _ _ _ W3) by done. by apply (bw_other _ _ _ _ _ W2). }
  unfold signal_stack. replace (vu * PAGE_SIZE + ou - 9) with (vu * PAGE_SIZE + (ou - 9)) by lia.
  change 17%nat with (4 + (4 + 9))%nat. rewrite !frame_bytes_app.
  replace (ou - 17 + Z.of_nat 4 + Z.of_nat 4) with (ou - 9) by lia. replace (ou - 17 + Z.of_nat 4) with (ou - 13) by lia.
  f_equal; [|f_equal].
  - pose proof (frame_bytes_written _ _ _ _ _ W4) as E. cbn [length word_bytes] in E. apply E; lia.
  - rewrite (frame_bytes_apart _ _ _ _ _ (ou - 13) 4 W4) by (cbn [length word_bytes]; lia).
    pose proof (frame_bytes_written _ _ _ _ _ W3) as E. cbn [length word_bytes] in E. apply E; lia.
  - rewrite (frame_bytes_apart _ _ _ _ _ (ou - 9) 9 W4) by (cbn [length word_bytes]; lia).
    rewrite (frame_bytes_apart _ _ _ _ _ (ou - 9) 9 W3) by (cbn [length word_bytes]; lia).
    pose proof (frame_bytes_written _ _ _ _ _ W2) as E. rewrite Htr in E. apply E; lia.
Qed.

Lemma with_machine_id s : with_machine (machine_of s) s = s.
Proof using Type. by destruct s as [[[] ? ? ? ? ? ?] ? ? ? ? ? ? ? ? ?]. Qed.

(** The two pages of a delivery: [vp] holds the register frame, [vu] the stack of
    the program.  Neither frame is a page table that the other one or the bounce
    pages need. *)
Record signal_pages (m : machine_t) (d vp f vu fu : Z) : Prop := {
  sg_frame : page_at m d vp f;
  sg_stack : page_at m d vu fu;
  sg_user : vu < 2 ^ 20 - 2;
  sg_positive : 0 < fu;
  sg_ne : fu <> f;
  sg_table : fu <> table_frame m d (vp / 1024);
  sg_ready : bounce_ready m d;
  sg_free : bounce_pages_used m <> replicate 16 true;
  sg_frames : f <> bounce_table m d /\ fu <> bounce_table m d;
  sg_tables : table_frame m d (vp / 1024) <> bounce_table m d /\ table_frame m d (vu / 1024) <> bounce_table m d;
}.

(** C32: Delivering a signal to the calling task.  When the stack pointer of the
    interrupted program lies in a mapped page with room for the call frame, then
    afterwards the program's stack holds, from the new stack pointer up, the
    return address, the signal number and the code of the trampoline, which is
    where the return address points; the interrupt will return to the handler
    with that stack pointer and every other register unchanged; and the task
    keeps the registers it was interrupted with. *)
Theorem task_manager_deliver_signal_self s p t d vp f o r vu fu ou sig handler :
  task_current (task_manager (os s)) = p -> tasks (os s) !! p = Some t -> task_cr3 t = d * PAGE_SIZE ->
  current_register_data (syscall s) = vp * PAGE_SIZE + o ->
  signal_pages (machine_of s) d vp f vu fu ->
  0 <= o -> o + FRAME_SIZE <= PAGE_SIZE -> frame_at (machine_of s) f o r -> frame_wf r ->
  reg_useresp r = vu * PAGE_SIZE + ou -> 17 <= ou <= PAGE_SIZE ->
  (1 < fuel)%nat -> 0 <= sig < 2 ^ 31 -> 0 <= handler < 2 ^ 32 ->
  wp (task_manager_deliver_signal base fuel p sig handler)
     (fun _ s' =>
        frame_at (machine_of s') f o (r <| reg_useresp := reg_useresp r - 17 |> <| reg_eip := handler |>) /\
        frame_bytes (machine_of s') fu (ou - 17) 17 = signal_stack (reg_useresp r) sig /\
        tasks (os s') = <[p := t <| saved_signal_frame := r |> <| in_signal_handler := true |>
                               <| saved_syscall_retry := syscall_retry t |> <| syscall_retry := false |>]> (tasks (os s)) /\
        current_register_data (syscall s') = current_register_data (syscall s)) s.
Proof using Type.
  intros Hcur Ht Hcr3 Hdata [Hpage Hpu Hvu Hfu0 Hne Hnt Hready Hfree [Hs1 Hs2] [Hs3 Hs4]] Ho Hl Hf Hwf Hsp Hou Hfuel Hsig Hh.
  pose proof (pg_range _ _ _ _ Hpu) as Hvu0. pose proof (pg_range _ _ _ _ Hpage) as Hvp0.
  set (m := machine_of s) in *.
  assert (bounce_table m d <> d) as HBd
    by (pose proof (br_wf _ _ Hready) as [_ Hok]; by eapply (tk_ne _ _ Hok 1022); [|apply Hready]).
  unfold task_manager_deliver_signal. change (Z.of_nat (length trampoline)) with 9. change (9 + 8) with 17.
  wp_step. wp_step. cbv beta zeta. rewrite Hcur, Z.eqb_refl. wp_step. eapply wp_load_os_task; [exact Ht|].
  cbv beta zeta. rewrite Hcr3, Hdata.
  wp_step. apply wp_on_machine_of. apply (wp_load_frame _ d vp f o r); [done|done|done|done|done|]. rewrite with_machine_id.
  replace (u32 (reg_useresp r - 9)) with (vu * PAGE_SIZE + (ou - 9)) by (rewrite u32_small; unfold PAGE_SIZE in *; lia).
  replace (u32 (vu * PAGE_SIZE + (ou - 9) - 4)) with (vu * PAGE_SIZE + (ou - 13)) by (rewrite u32_small; unfold PAGE_SIZE in *; lia).
  replace (u32 (vu * PAGE_SIZE + (ou - 13) - 4)) with (vu * PAGE_SIZE + (ou - 17)) by (rewrite u32_small; unfold PAGE_SIZE in *; lia).
  wp_step. destruct (Z.ltb_spec (reg_useresp r) 17); [unfold PAGE_SIZE in *; lia|]. wp_step. apply wp_on_machine_of.
  apply (wp_user_range_mapped m d vu fu (ou - 17) 17); [done|done|done|done|done|lia|lia|lia|unfold PAGE_SIZE; lia|done|].
  intros m1 Hr1 _ _ Hd1. wp_step. cbn [negb]. wp_step. eapply wp_update_os_task; [exact Ht|].
  match goal with |- wp _ _ ?st => set (s1 := st) end. apply wp_on_machine_of. change (machine_of s1) with m1.
  assert (page_at m1 d vp f) as Hp1 by (eapply page_at_other; [exact Hpage|apply Hr1|exact Hd1|done|by apply not_eq_sym]).
  assert (page_at m1 d vu fu) as Hpu1 by (eapply page_at_other; [exact Hpu|apply Hr1|exact Hd1|done|by apply not_eq_sym]).
  rewrite (u32_small sig) by lia. apply (wp_signal_stack m1 d vu fu ou sig); [done|done|]. intros m4 Hs4' Hd4 Hstack.
  assert (page_at m4 d vp f) as Hp4.
  { eapply page_at_other; [exact Hp1|done|exact Hd4|apply Hpu|]. rewrite Hd1 by (done || zlia). exact Hnt. }
  apply (wp_store_frame m4 d vp f); [done|done|done|]. intros m5 W5 Hf5.
  replace (reg_useresp r - 17) with (vu * PAGE_SIZE + (ou - 17)) by lia. rewrite Hsp.
  split_and!; [exact Hf5| |done|done]. rewrite <- Hstack.
  apply (frame_bytes_differ f m4 m5); [exact (bw_other _ _ _ _ _ W5)|done|lia|lia].
Qed.
End signals.
#[local] Existing Instance demo_old_nodes.

(** ** Witnesses *)

(** The present tables of a directory are those listed. *)
Lemma tables_ok_list m d ps :
  forallb (fun p => negb (table_present m d p) || existsb (Z.eqb p) ps) (seqZ 0 1023) = true ->
  0 <= d < 2 ^ 20 -> bitmap_ok (memory_bitmap m) ->
  forallb (page_used (memory_bitmap m)) (0 :: d :: (table_frame m d <$> ps)) = true ->
  NoDup (d :: (table_frame m d <$> ps)) -> tables_ok m d.
Proof.
  intros Hps Hd Hb Hu [Hnd Hdup]%list.NoDup_cons. rewrite forallb_forall in Hps, Hu.
  assert (forall p, 0 <= p < 1023 -> table_present m d p = true -> p ∈ ps) as Hin.
  { intros p Hp Hpr. specialize (Hps p). rewrite Hpr in Hps. cbn [negb orb] in Hps.
    assert (existsb (Z.eqb p) ps = true) as He by (apply Hps, list_elem_of_In, elem_of_seqZ; lia).
    apply existsb_exists in He as (q & Hq & ->%Z.eqb_eq). by apply list_elem_of_In. }
  split; [done| | |done|apply Hu; by left|apply Hu; right; by left|].
  - intros p Hp Hpr E. apply Hnd. pose proof (list_elem_of_fmap_2 (table_frame m d) _ _ (Hin p Hp Hpr)) as H.
    by rewrite E in H.
  - intros p q Hp Hq Hpq Hpr Hqr E. apply Hpq.
    destruct (list_elem_of_lookup_1 _ _ (Hin p Hp Hpr)) as [i Hi].
    destruct (list_elem_of_lookup_1 _ _ (Hin q Hq Hqr)) as [j Hj].
    assert (i = j) as ->; [|congruence]. eapply (NoDup_lookup _ _ _ (table_frame m d p) Hdup).
    + by rewrite list_lookup_fmap, Hi.
    + by rewrite list_lookup_fmap, Hj, E.
  - intros p Hp Hpr. apply Hu. do 2 right. apply list_elem_of_In, list_elem_of_fmap_2. by apply Hin.
Qed.

Definition demo_registers : register_interrupt_data_t :=
  mk_registers 0x23 0x23 0x23 0x23 1 2 3 4 5 6 19 0x80 0 0x08048123 0x1B 0x202 0xBFFFDF00 0x23.
(** A space with a kernel stack in frame 8, which holds the registers of an
    interrupt at its top, and a user stack in frame 7. *)
Definition interrupted_machine (registers : register_interrupt_data_t) : machine_t :=
  mk_machine
    (list_to_map ([(1024 + 767, 0x5007); (1024 + 831, 0x6003); (1024 + 1022, 0x2003); (1024 + 1023, 0x1003);
                   (5 * 1024 + 1021, 0x7007); (6 * 1024 + 1023, 0x8003)] ++
                  zip (seqZ (8 * 1024 + 1006) 18) (frame_words registers)))
    0x1000 false (mk_memory_bitmap {[ 0 := 0x3FF; 1 := 0 ]} 40 5) (replicate 16 false) 0xC0001000 0x1000.
Definition signal_machine : machine_t := interrupted_machine demo_registers.
Definition signal_fs : fs_t :=
  with_machine signal_machine
    (with_tasks {[ 0x500 := demo_task <| task_cr3 := 0x1000 |> ]}
       (demo_fs <| os := (os demo_fs) <| task_manager := (task_manager (os demo_fs)) <| task_current := 0x500 |> |> |>)).

Lemma signal_machine_ready : bounce_ready signal_machine 1.
Proof.
  split; [|done|done]. split; [by split|].
  apply (tables_ok_list signal_machine 1 [767; 831; 1022]).
  - vm_compute. reflexivity.
  - lia.
  - split; simpl; [lia|lia|]. intros p Hp. split; [lia|]. unfold BITMAP_ENTRY_SIZE_IN_BITS.
    assert (p / 32 = 0 \/ p / 32 = 1) as [-> | ->] by zlia; vm_compute; eauto.
  - vm_compute. reflexivity.
  - apply (bool_decide_unpack _). vm_compute. exact I.
Qed.

Lemma signal_machine_pages : signal_pages signal_machine 1 0xCFFFF 8 0xBFFFD 7.
Proof.
  split; [..|exact signal_machine_ready|done| |].
  - split; [apply signal_machine_ready|lia|vm_compute; reflexivity|done|vm_compute; congruence].
  - split; [apply signal_machine_ready|lia|vm_compute; reflexivity|done|vm_compute; congruence].
  - lia.
  - lia.
  - done.
  - vm_compute. congruence.
  - split; vm_compute; congruence.
  - split; vm_compute; congruence.
Qed.

Lemma signal_machine_frame : frame_at signal_machine 8 4024 demo_registers.
Proof. vm_compute. reflexivity. Qed.
Lemma demo_registers_wf : frame_wf demo_registers.
Proof. repeat constructor; simpl; lia. Qed.

Lemma task_manager_deliver_signal_self_witness :
  wp (task_manager_deliver_signal 0xC0100000 20 0x500 2 0x08048400)
     (fun _ s' => frame_bytes (machine_of s') 7 (0xF00 - 17) 17 = signal_stack 0xBFFFDF00 2) signal_fs.
Proof.
  eapply wp_mono.
  - apply (task_manager_deliver_signal_self 0xC0100000 20 signal_fs 0x500 (demo_task <| task_cr3 := 0x1000 |>) 1
             0xCFFFF 8 4024 demo_registers 0xBFFFD 7 0xF00 2 0x08048400);
      [done|apply lookup_singleton_eq|done|done|exact signal_machine_pages|lia|unfold FRAME_SIZE, PAGE_SIZE; lia
      |exact signal_machine_frame|exact demo_registers_wf|done|unfold PAGE_SIZE; lia|lia|lia|lia].
  - intros [] s' (_ & H & _). exact H.
Defined.

Lemma syscall_sigreturn_restores_witness :
  wp (answer_in_eax 0xCFFFFFB8 syscall_sigreturn)
     (fun _ s' => exists m', frame_at m' 8 4024 demo_registers /\
        tasks (os s') = {[ 0x500 := demo_task <| saved_signal_frame := demo_registers |> ]} /\ machine_of s' = m')
     (with_tasks {[ 0x500 := demo_task <| in_signal_handler := true |> <| saved_signal_frame := demo_registers |> ]} signal_fs).
Proof.
  eapply wp_mono.
  - apply (syscall_sigreturn_restores
             (with_tasks {[ 0x500 := demo_task <| in_signal_handler := true |> <| saved_signal_frame := demo_registers |> ]} signal_fs)
             0x500 (demo_task <| in_signal_handler := true |> <| saved_signal_frame := demo_registers |>)
             1 0xCFFFF 8 4024 demo_registers);
      [done|apply lookup_singleton_eq|done|apply signal_machine_pages|lia|unfold FRAME_SIZE, PAGE_SIZE; lia
      |exact signal_machine_frame|exact demo_registers_wf|exact demo_registers_wf].
  - intros [] s' (m' & H & _ & ->). exists m'. split; [exact H|]. split; [reflexivity|reflexivity].
Defined.
