(* ===== verification/Devfs.v ===== *)
(** * Devices under /dev (src/fs/devfs.c)

    The device file system and the operation tables of the running kernel: the
    RAM file system and the three devices.  The addresses of the device objects
    are the linker's. *)
From S2P Require Import Prelude Bitmap Paging KernelHeap Tasks Allocator Keyboard Terminal Framebuffer Files VfsCache Resource Vfs Ramfs RamfsLaws Memory Process.

Record devfs_entry_t : Type := mk_devfs_entry {
  entry_name : list Z;
  entry_fs_data : Z;
  entry_resource_type : resource_type_t;
}.

Section devfs.
Context {alloc : Allocator kernel_t}.
Variable heap_byte : Z -> nat -> Z.
Variable fuel : nat.
(** [&keyboard], [&terminal], [&framebuffer] *)
Variables keyboard_address terminal_address framebuffer_address : Z.

(** ["keyboard"], ["terminal"], ["framebuffer"] *)
Definition devfs_entries : list devfs_entry_t :=
  [mk_devfs_entry [107; 101; 121; 98; 111; 97; 114; 100] keyboard_address RESOURCE_TYPE_KEYBOARD;
   mk_devfs_entry [116; 101; 114; 109; 105; 110; 97; 108] terminal_address RESOURCE_TYPE_TERMINAL;
   mk_devfs_entry [102; 114; 97; 109; 101; 98; 117; 102; 102; 101; 114] framebuffer_address RESOURCE_TYPE_FRAMEBUFFER].

(** The first entry from index [i] on with a name. *)
Fixpoint find_device (i : Z) (entries : list devfs_entry_t) (path : list Z) : option (Z * devfs_entry_t) :=
  match entries with
  | [] => None
  | e :: rest => if bool_decide (entry_name e = path) then Some (i, e) else find_device (i + 1) rest path
  end.

Definition devfs_lookup (directory : Z) (path : list Z) : M fs_t (resource_result_t * Z) :=
  match find_device 0 devfs_entries path with
  | None => ret (RESOURCE_RESULT_NOT_FOUND, 0)
  | Some (i, e) =>
      let! n := load_vnode directory in
      let! ' (cached_result, p) := vfs_cache_query_node (cache_index n) i in
      if bool_decide (cached_result = RESOURCE_RESULT_OK) then ret (RESOURCE_RESULT_OK, p)
      else
        vfs_create_node directory i (entry_name e) (devfs_entries_operations i) (entry_fs_data e)
          VFS_NODE_TYPE_FILE (entry_resource_type e)
  end.

Definition devfs_readdir (directory position : Z) : M fs_t (resource_result_t * option vfs_dir_t) :=
  match devfs_entries !! Z.to_nat position with
  | None => ret (RESOURCE_RESULT_NOT_FOUND, None)
  | Some e => ret (RESOURCE_RESULT_OK, Some (mk_dir (entry_name e) VFS_NODE_TYPE_FILE))
  end.

(** ** The devices

    Each works on the object its node's [fs_data] points to. *)
Definition device {C A} (object : Z) (proj : devices_t -> C) (inj : C -> devices_t -> devices_t)
    (node : Z) (op : M C A) : M fs_t A :=
  let! n := load_vnode node in
  if fs_data n =? object then
    zoom (fun s => proj (devices s)) (fun c s => s <| devices := inj c (devices s) |>) op
  else fault.
Definition on_keyboard_device {A} : Z -> M keyboard_t A -> M fs_t A :=
  device keyboard_address dev_keyboard (fun k d => d <| dev_keyboard := k |>).
Definition on_terminal_device {A} : Z -> M (terminal_t * framebuffer_t) A -> M fs_t A :=
  device terminal_address (fun d => (dev_terminal d, dev_framebuffer d))
    (fun '(t, f) d => d <| dev_terminal := t |> <| dev_framebuffer := f |>).
Definition on_framebuffer_device {A} : Z -> M framebuffer_t A -> M fs_t A :=
  device framebuffer_address dev_framebuffer (fun f d => d <| dev_framebuffer := f |>).

Definition keyboard_operations : vfs_node_operations_t :=
  mk_operations None None (Some (fun node offset length => on_keyboard_device node (keyboard_read fuel length)))
    None None None None None None None None.
Definition terminal_operations : vfs_node_operations_t :=
  mk_operations None None None
    (Some (fun node offset data =>
             on_terminal_device node (terminal_write fuel data (Z.of_nat (length data)))))
    None None None None None None None.

(** The stores of [framebuffer_dev_ioctl] to the caller's structure. *)
Definition store_fb_info (argument : Z) (info : fb_info) : M machine_t unit :=
  do! store32 argument (info_width info) in
  do! store32 (argument + 4) (info_height info) in
  do! store32 (argument + 8) (info_pitch info) in
  do! store32 (argument + 12) (info_bpp info) in
  do! store32 (argument + 16) (info_size info) in
  do! store8 (argument + 20) (info_red_field_position info) in
  do! store8 (argument + 21) (info_green_field_position info) in
  store8 (argument + 22) (info_blue_field_position info).
Definition framebuffer_operations : vfs_node_operations_t :=
  mk_operations None None None
    (Some (fun node offset data =>
             on_framebuffer_device node (framebuffer_dev_write offset data (Z.of_nat (length data)))))
    None None None None None
    (Some (fun node command argument =>
             let! ' (result, info) := on_framebuffer_device node (framebuffer_dev_ioctl command argument) in
             do! match info with
                 | Some info => on_machine_of (store_fb_info (u32 argument) info)
                 | None => ret tt
                 end in
             ret result))
    None.

Definition no_operations : vfs_node_operations_t :=
  mk_operations None None None None None None None None None None None.

(** ** The tables of the kernel *)

Definition kernel_systems : FileSystems := fun table =>
  match table with
  | ramfs_node_operations => ramfs_operations heap_byte
  | devfs_node_operations =>
      mk_operations (Some devfs_lookup) (Some devfs_readdir) None None None None None None None None None
  | devfs_entries_operations i =>
      default no_operations ([keyboard_operations; terminal_operations; framebuffer_operations] !! Z.to_nat i)
  end.
#[local] Existing Instance kernel_systems.

(** ["/dev"] *)
Definition dev_path : list Z := [SLASH; 100; 101; 118].

Definition devfs_module_init : M fs_t unit :=
  let! ' (result, dev_directory) := vfs_resolve fuel dev_path in
  let! ' (result, dev_directory) :=
    (if bool_decide (result = RESOURCE_RESULT_OK) then ret (result, dev_directory)
     else vfs_create fuel dev_path VFS_NODE_TYPE_DIRECTORY) in
  if negb (bool_decide (result = RESOURCE_RESULT_OK)) then ret tt
  else
    let! ' (result, devfs_root) :=
      vfs_create_node 0 (-1) (drop 1 dev_path) devfs_node_operations 0 VFS_NODE_TYPE_DIRECTORY RESOURCE_TYPE_FILE in
    if negb (bool_decide (result = RESOURCE_RESULT_OK)) then ret tt
    else
      do! vfs_lock_node devfs_root in
      update_vnode dev_directory (fun n => n <| mount := devfs_root |>).

(** ** The laws of the VFS

    The nodes of the device file system have a cache index of their own. *)
Record kernel_fs_inv (s : fs_t) : Prop := {
  ki_ramfs : ramfs_inv s;
  ki_devfs : forall p n, vfs_nodes s !! p = Some n -> operations n <> ramfs_node_operations ->
               0 < cache_index n < 2 ^ 32;
}.

Lemma find_device_spec k entries path i e :
  find_device k entries path = Some (i, e) ->
  k <= i /\ entries !! Z.to_nat (i - k) = Some e /\ entry_name e = path.
Proof using Type.
  revert k. induction entries as [|d entries IH]; intros k; simpl; [done|]. case_bool_decide as E.
  - intros [= <- <-]. rewrite Z.sub_diag. split_and!; [lia|done|done].
  - intros (Hk & He & Hn)%IH. split_and!; [lia| |done].
    replace (Z.to_nat (i - k)) with (S (Z.to_nat (i - (k + 1)))) by lia. done.
Qed.

Lemma devfs_entry_names e : e ∈ devfs_entries -> Z.of_nat (length (entry_name e)) < VFS_NODE_NAME_LENGTH.
Proof using Type.
  unfold devfs_entries. rewrite !elem_of_cons. intros [->|[->|[->|H]]]; [done..|by apply not_elem_of_nil in H].
Qed.

(** What a lookup does: the cached node of the entry, or a new one. *)
Lemma wp_devfs_lookup s d n path room Q :
  vfs_inv s -> heap_ok room s -> VNODE_ROOM <= room -> vfs_nodes s !! d = Some n -> 0 < cache_index n < 2 ^ 32 ->
  (find_device 0 devfs_entries path = None -> Q (RESOURCE_RESULT_NOT_FOUND, 0) s) ->
  (forall i e p m, find_device 0 devfs_entries path = Some (i, e) -> p <> 0 -> vfs_nodes s !! p = Some m ->
     cache_index m = cache_index n -> index m = i -> Q (RESOURCE_RESULT_OK, p) s) ->
  (forall i e p s', find_device 0 devfs_entries path = Some (i, e) -> p <> 0 -> vfs_nodes s !! p = None ->
     vfs_nodes s' = <[p := created (entry_name e) (devfs_entries_operations i) (entry_fs_data e)
                             VFS_NODE_TYPE_FILE (entry_resource_type e) (cache_index n) i]> (vfs_nodes s) ->
     vfs_inv s' -> heap_ok (room - VNODE_ROOM) s' -> fs_frame s s' -> Q (RESOURCE_RESULT_OK, p) s') ->
  wp (devfs_lookup d path) Q s.
Proof using Type.
  intros Hinv Hok Hroom Hd Hkey Hnone Hold Hnew. unfold devfs_lookup.
  destruct (find_device 0 devfs_entries path) as [[i e]|] eqn:Hf; [|by apply wp_ret, Hnone].
  destruct (find_device_spec _ _ _ _ _ Hf) as (Hi & He & _).
  assert (forall p, is_Some (vfs_nodes s !! p) -> p <> 0) as Hnz.
  { intros p Hp ->. destruct Hok as (live & _ & _ & _ & H0). by apply H0, addresses_vnode. }
  wp_step. eapply wp_load_vnode; [exact Hd|]. wp_step.
  apply (wp_vfs_cache_query_node s (cache_index n) i d n); [done|done|done|lia| |].
  - intros p (m & Hm & Hk & Hid). rewrite bool_decide_eq_true_2 by done. wp_step.
    eapply Hold; [done|apply Hnz; by exists m|done..].
  - intros Hno. rewrite bool_decide_eq_false_2 by done.
    eapply (wp_vfs_create_node s d (cache_index n)); [done|exact Hok|done| |done| |].
    + unfold key_for. destruct (Z.eqb_spec d 0) as [->|]; [|by exists n]. exfalso. apply (Hnz 0); [by exists n|done].
    + apply devfs_entry_names. by eapply list_elem_of_lookup_2.
    + intros p s' Hp Hpn Hnodes Hinv' Hok' Hfr _. by eapply Hnew.
Qed.

Lemma kernel_fs_inv_grown s s' p m :
  kernel_fs_inv s -> fs_frame s s' -> vfs_nodes s' = <[p := m]> (vfs_nodes s) ->
  operations m <> ramfs_node_operations -> 0 < cache_index m < 2 ^ 32 -> kernel_fs_inv s'.
Proof using Type.
  intros [[R1 R2 R3 R4 R5] Hd] [F1 F2 F3 F4 F5 F6 F7] Hn Ho Hk. split.
  - split; rewrite ?F1, ?F2, ?F3; try done. intros q x Hq Hx. rewrite Hn in Hq.
    apply lookup_insert_Some in Hq as [[_ <-]|[_ Hq]]; [done|]. by apply (R1 q).
  - intros q x Hq Hx. rewrite Hn in Hq. apply lookup_insert_Some in Hq as [[_ <-]|[_ Hq]]; [done|].
    by apply (Hd q).
Qed.

#[export] Program Instance kernel_fs_laws : FileSystemLaws (systems := kernel_systems) := {|
  fs_inv := kernel_fs_inv;
|}.
Next Obligation.
  intros s s' [Hr Hd] H1 H2 H3 _ _ Hnodes. split.
  - eapply ramfs_inv_nodes; [exact Hr|done..|].
    intros p n' Hp. destruct (Hnodes p n' Hp) as (n & Hn & ->). by exists n.
  - intros p n' Hp Ho. destruct (Hnodes p n' Hp) as (n & Hn & E). rewrite E in Ho |- *. by apply (Hd p n).
Qed.
Next Obligation.
  intros s d n lookup component room Hfs Hinv Hok Hroom Hd Hl. destruct Hfs as [Hr Hdev].
  unfold table_of, kernel_systems in Hl. destruct (operations n) eqn:Ho.
  - injection Hl as <-. eapply wp_mono; [by apply (ramfs_lookup_law s d n component room)|].
    intros [r p] s' (H1 & H2 & H3 & H4 & H5 & H6 & H7). split_and!; try done.
    + split; [done|]. intros q m Hq Hm. destruct (vfs_nodes s !! q) as [m0|] eqn:Hq0.
      * pose proof (H5 q m0 Hq0). assert (m = m0) as -> by congruence. by apply (Hdev q).
      * by destruct (H6 q m Hq Hq0) as (_ & _ & ?).
    + intros q m Hq Hq0. destruct (H6 q m Hq Hq0) as (? & ? & _). done.
  - injection Hl as <-. assert (0 < cache_index n < 2 ^ 32) as Hkey by (apply (Hdev d); congruence).
    assert (heap_ok (room - VNODE_ROOM) s) as Hok'
      by (eapply heap_ok_weaken; [|exact Hok]; unfold VNODE_ROOM; lia).
    eapply wp_devfs_lookup; [done|exact Hok|done|exact Hd|done|..].
    + intros _. split_and!; try done. intros q m Hq Hq0. congruence.
    + intros i e p m _ Hp Hm _ _. split_and!; try done. intros q m' Hq Hq0. congruence.
    + intros i e p s' _ Hp Hpn Hnodes Hinv' Hok2 Hfr.
      assert (root (vfs s') = root (vfs s)) as Hroot by (by destruct Hfr).
      split_and!; [by eapply kernel_fs_inv_grown|done|done|done| | |].
      * intros q m Hq. rewrite Hnodes, lookup_insert_ne; [done|congruence].
      * intros q m Hq Hq0. rewrite Hnodes in Hq. apply lookup_insert_Some in Hq as [[<- <-]|[_ Hq]]; [done|congruence].
      * intros _. split; [done|]. rewrite Hnodes, lookup_insert_eq. by eexists.
  - exfalso. revert Hl. destruct (Z.to_nat i) as [|[|[|]]]; done.
Qed.
Next Obligation.
  intros s d n release room Hfs Hok Hd Honly Hl. destruct Hfs as [Hr Hdev].
  unfold table_of, kernel_systems in Hl. destruct (operations n) eqn:Ho.
  - injection Hl as <-. eapply wp_mono; [by apply (ramfs_release_law s d n room)|].
    intros [] s' (H1 & H2 & H3 & H4). split_and!; try done. split; [done|]. simpl.
    intros q m [_ Hq]%lookup_delete_Some Hm. rewrite H1 in Hq. by apply (Hdev q).
  - done.
  - exfalso. revert Hl. destruct (Z.to_nat i) as [|[|[|]]]; done.
Qed.

(** Looking a name up in /dev: a name that is not a device is NOT_FOUND and
    changes nothing; the node of a device is the one in the cache, and if there
    is none, a new file node with the operation table, the object and the type
    of that device, which is in the cache from then on. *)
Theorem devfs_lookup_spec s d n path room :
  vfs_inv s -> heap_ok room s -> VNODE_ROOM <= room -> vfs_nodes s !! d = Some n -> 0 < cache_index n < 2 ^ 32 ->
  wp (devfs_lookup d path)
     (fun '(r, p) s' =>
        match find_device 0 devfs_entries path with
        | None => r = RESOURCE_RESULT_NOT_FOUND /\ s' = s
        | Some (i, e) =>
            r = RESOURCE_RESULT_OK /\ entry_name e = path /\ vfs_inv s' /\ node_for s' (cache_index n) i p /\
            (s' = s \/
             (forall q, ~ node_for s (cache_index n) i q) /\
             vfs_nodes s' = <[p := created path (devfs_entries_operations i) (entry_fs_data e)
                                     VFS_NODE_TYPE_FILE (entry_resource_type e) (cache_index n) i]> (vfs_nodes s))
        end) s.
Proof using Type.
  intros Hinv Hok Hroom Hd Hkey. eapply wp_devfs_lookup; [done|exact Hok|done|exact Hd|done|..].
  - by intros ->.
  - intros i e p m Hf Hp Hm Hk Hid. rewrite Hf. destruct (find_device_spec _ _ _ _ _ Hf) as (_ & _ & Hn).
    split_and!; [done|done|done|by exists m|by left].
  - intros i e p s' Hf Hp Hpn Hnodes Hinv' _ _. rewrite Hf. destruct (find_device_spec _ _ _ _ _ Hf) as (_ & _ & Hn).
    rewrite Hn in Hnodes. split_and!; [done|done|done| |right].
    + eexists. split; [by rewrite Hnodes, lookup_insert_eq|done].
    + split; [|done]. intros q (m & Hm & Hmk & Hmi). assert (p <> q) as Hpq by congruence. apply Hpq.
      eapply (vi_unique _ _ Hinv'); [by rewrite Hnodes, lookup_insert_eq| |simpl; by symmetry|simpl; by symmetry].
      by rewrite Hnodes, lookup_insert_ne.
Qed.
End devfs.

(** ** Witnesses *)

Definition demo_systems : FileSystems :=
  kernel_systems (alloc := demo_allocator) (fun _ _ => 0) 20 0xC0001000 0xC0002000 0xC0003000.

(** Resolving ["/a"] in the small tree. *)
Lemma vfs_resolve_references_witness :
  wp (vfs_resolve (alloc := demo_allocator) (systems := demo_systems) 9 [47; 97])
     (fun '(r, p) s' => vfs_inv s' /\ exists d, one_more demo_fs s' d /\ (r = RESOURCE_RESULT_OK -> d = p)) demo_fs.
Proof.
  eapply wp_mono.
  - apply (vfs_resolve_references (alloc := demo_allocator) (systems := demo_systems) 9
      (laws := kernel_fs_laws (alloc := demo_allocator) (fun _ _ => 0) 20 0xC0001000 0xC0002000 0xC0003000)
      demo_fs [47; 97] 490).
    + split; [exact demo_fs_vfs_inv| |exact demo_fs_heap_ok].
      split; [exact demo_fs_ramfs_inv|]. by intros p n [<- <-]%demo_fs_node.
    + intros p n [_ <-]%demo_fs_node. done.
    + vm_compute. congruence.
    + exists demo_root. apply lookup_singleton_eq.
    + intros q. unfold held. destruct (vfs_nodes demo_fs !! q) as [n|] eqn:Hq; [|lia].
      apply demo_fs_node in Hq as [_ <-]. simpl. lia.
    + vm_compute. reflexivity.
    + vm_compute. congruence.
    + simpl. lia.
  - intros [r p] s' ([H1 _ _] & _ & d & _ & H2 & H3). split; [done|]. exists d. split; [done|]. by intros [-> _]%H3.
Defined.

(** ["terminal"] in a device directory that has just been created. *)
Lemma devfs_lookup_spec_witness :
  wp (let! ' (_, d) := vfs_create_node (alloc := demo_allocator) 0 (-1) (drop 1 dev_path) devfs_node_operations 0
                         VFS_NODE_TYPE_DIRECTORY RESOURCE_TYPE_FILE in
      devfs_lookup (alloc := demo_allocator) 0xC0001000 0xC0002000 0xC0003000 d [116; 101; 114; 109; 105; 110; 97; 108])
     (fun '(r, p) s' => r = RESOURCE_RESULT_OK /\ node_for s' 1 1 p) demo_fs.
Proof.
  wp_step. eapply (wp_vfs_create_node (alloc := demo_allocator) demo_fs 0 1 (-1) _ _ _ _ _ 490);
    [exact demo_fs_vfs_inv|exact demo_fs_heap_ok|vm_compute; congruence|done| |done|].
  { intros p (n & [_ <-]%demo_fs_node & Hk & _). done. }
  intros d s' Hd Hnone Hnodes Hinv Hok _ _. eapply wp_mono.
  - apply (devfs_lookup_spec (alloc := demo_allocator) 0xC0001000 0xC0002000 0xC0003000 s' d
             (created (drop 1 dev_path) devfs_node_operations 0 VFS_NODE_TYPE_DIRECTORY RESOURCE_TYPE_FILE 1 (-1))
             [116; 101; 114; 109; 105; 110; 97; 108] (490 - VNODE_ROOM)); [done|done|vm_compute; congruence| |simpl; lia].
    by rewrite Hnodes, lookup_insert_eq.
  - intros [r p] s2 (H1 & _ & _ & H2 & _). done.
Defined.
