(* ===== verification/SyscallLaws.v ===== *)
(** * Calls on descriptors and signal handlers

    What the system calls on the resources of the calling task answer and change. *)
From S2P Require Import Prelude Bitmap Paging KernelHeap Tasks TaskManager Allocator Files VfsCache Resource Vfs Ramfs RamfsLaws Memory Process Elf Syscall SignalLaws Devfs.

Section calls.
Context {alloc : Allocator kernel_t} {systems : FileSystems} {old : OldNodes}.

(** The calling task is [p], in the state [t], and its call has the parameters
    [words]. *)
Record calling (s : fs_t) (p : Z) (t : task_t) (words : list Z) : Prop := {
  cl_task : caller_task (syscall s) = p;
  cl_state : tasks (os s) !! p = Some t;
  cl_words : words `prefix_of` parameters (syscall_execution t);
}.

Lemma wp_parameter s p t words i w Q :
  calling s p t words -> words !! i = Some w -> Q w s -> wp (SYSCALL_GET_PARAMETER i) Q s.
Proof using Type.
  intros [Hp Ht [rest Hw]] Hi HQ. unfold SYSCALL_GET_PARAMETER. wp_step. eapply wp_caller; [exact Hp|exact Ht|].
  eapply wp_of_option; [|exact HQ]. rewrite Hw. by apply lookup_app_l_Some.
Qed.

Lemma wp_call_resource s p t words index Q :
  calling s p t words -> Q (default 0 (resources t !! index)) s -> wp (call_resource index) Q s.
Proof using Type. intros [Hp Ht _] HQ. unfold call_resource. wp_step. eapply wp_caller; [exact Hp|exact Ht|]. by wp_step. Qed.

Lemma wp_load_os_resource s a r Q : resource_store (os s) !! a = Some r -> Q r s -> wp (on_os (load_resource a)) Q s.
Proof using Type. intros Ha HQ. unfold on_os. wp_step. eapply wp_load_resource; [exact Ha|]. by destruct s. Qed.

Definition with_resource (a : Z) (r : resource_t) (s : fs_t) : fs_t :=
  s <| os := (os s) <| resource_store := <[a := r]> (resource_store (os s)) |> |>.
Lemma wp_update_os_resource s a r f Q :
  resource_store (os s) !! a = Some r -> Q tt (with_resource a (f r) s) -> wp (on_os (update_resource a f)) Q s.
Proof using Type. intros Ha HQ. unfold on_os. wp_step. eapply wp_update_resource; [exact Ha|exact HQ]. Qed.

(** ** Positions *)

(** The position that [lseek] is asked for, or the error that it answers: [answered]
    and [size] are what the file behind the resource answers about its size. *)
Definition seek_position (r : resource_t) (answered : resource_result_t) (size offset whence : Z) : Z + Z :=
  if whence =? SYSCALL_LSEEK_SET then inl offset
  else if whence =? SYSCALL_LSEEK_CUR then inl (res_offset r + offset)
  else if (whence =? SYSCALL_LSEEK_END) && bool_decide (res_type r = RESOURCE_TYPE_FILE) then
    if bool_decide (answered = RESOURCE_RESULT_OK) then inl (size + offset) else inr (- SYSCALL_RESULT_FAIL)
  else inr (- SYSCALL_RESULT_BAD_PARAMETER).

(** C33: [lseek].  A slot past the table, an invalid whence (END on a device
    included) and a position before the start of the file are BAD_PARAMETER; an
    empty slot is a failure, and so is END on a file that does not answer its size;
    none of them changes anything.  Otherwise the position of the resource becomes
    the position asked for and is the answer, as a 32-bit integer. *)
Theorem syscall_lseek_spec s p t index offset whence answered size :
  calling s p t [index; offset; whence] -> 0 <= index -> 0 <= offset < 2 ^ 32 -> 0 <= size < 2 ^ 32 ->
  (forall i a, resources t !! i = Some a -> a <> 0) ->
  (forall a r, resources t !! index = Some a -> resource_store (os s) !! a = Some r -> 0 <= res_offset r < 2 ^ 32 /\
     (i32 whence = SYSCALL_LSEEK_END -> res_type r = RESOURCE_TYPE_FILE ->
      vfs_get_size (res_data r) s = Ret ((answered, size), s))) ->
  (forall a, resources t !! index = Some a -> is_Some (resource_store (os s) !! a)) ->
  wp syscall_lseek
     (fun result s' =>
        if TASK_MAX_RESOURCES <=? index then result = - SYSCALL_RESULT_BAD_PARAMETER /\ s' = s
        else match resources t !! index with
             | None => result = - SYSCALL_RESULT_FAIL /\ s' = s
             | Some a => exists r, resource_store (os s) !! a = Some r /\
                 match seek_position r answered size (i32 offset) (i32 whence) with
                 | inl position =>
                     if position <? 0 then result = - SYSCALL_RESULT_BAD_PARAMETER /\ s' = s
                     else result = i32 (u32 position) /\ s' = with_resource a (r <| res_offset := u32 position |>) s
                 | inr error => result = error /\ s' = s
                 end
             end) s.
Proof using Type.
  intros Hc Hi Ho Hsize Hnz Hr Hex. unfold syscall_lseek.
  do 3 (wp_step; eapply wp_parameter; [exact Hc|reflexivity|]).
  destruct (Z.leb_spec TASK_MAX_RESOURCES index); [by apply wp_ret|].
  wp_step. eapply wp_call_resource; [exact Hc|]. destruct (resources t !! index) as [a|] eqn:Ha; [|by apply wp_ret].
  cbn [default from_option id]. destruct (Z.eqb_spec a 0) as [->|]; [by destruct (Hnz index 0)|].
  destruct (Hex a eq_refl) as [r Hra]. destruct (Hr a r eq_refl Hra) as [Hoff Hget].
  wp_step. eapply wp_load_os_resource; [exact Hra|].
  assert (- 2 ^ 31 <= i32 offset < 2 ^ 31) as Hio by (unfold i32; zlia).
  assert (forall origin Q, 0 <= origin < 2 ^ 32 ->
    (origin + i32 offset < 0 -> Q (- SYSCALL_RESULT_BAD_PARAMETER) s) ->
    (0 <= origin + i32 offset -> Q (i32 (u32 (origin + i32 offset)))
       (with_resource a (r <| res_offset := u32 (origin + i32 offset) |>) s)) ->
    wp (if i64 (origin + i32 offset) <? 0 then ret (- SYSCALL_RESULT_BAD_PARAMETER)
        else do! on_os (update_resource a (fun r => r <| res_offset := u32 (i64 (origin + i32 offset)) |>)) in
             ret (i32 (u32 (i64 (origin + i32 offset))))) Q s) as Hset.
  { intros origin Q Hor H1 H2. assert (i64 (origin + i32 offset) = origin + i32 offset) as -> by (unfold i64; zlia).
    destruct (Z.ltb_spec (origin + i32 offset) 0); [by apply wp_ret, H1|].
    wp_step. eapply wp_update_os_resource; [exact Hra|]. wp_step. by apply H2. }
  unfold lseek_origin, seek_position. wp_step.
  destruct (i32 whence =? SYSCALL_LSEEK_SET).
  { wp_step. apply Hset; [lia| |]; intros Hs; exists r; (split; [done|]);
      destruct (Z.ltb_spec (i32 offset) 0); done || lia. }
  destruct (i32 whence =? SYSCALL_LSEEK_CUR).
  { wp_step. apply Hset; [lia| |]; intros Hs; exists r; (split; [done|]);
      destruct (Z.ltb_spec (res_offset r + i32 offset) 0); done || lia. }
  destruct (Z.eqb_spec (i32 whence) SYSCALL_LSEEK_END) as [Hend|]; cbn [andb].
  2: { do 2 wp_step. by exists r. }
  case_bool_decide as Hfile; cbn [negb].
  2: { wp_step. cbv beta iota. wp_step. exists r. by rewrite bool_decide_eq_false_2. }
  wp_step. apply wp_returns. exists (answered, size), s. split; [by apply Hget|]. cbv beta iota.
  case_bool_decide as Hans; cbn [negb].
  2: { do 2 wp_step. exists r. by rewrite (bool_decide_eq_true_2 (res_type r = _)). }
  wp_step. cbv beta iota. apply Hset; [lia| |]; intros Hs; exists r; (split; [done|]);
    rewrite (bool_decide_eq_true_2 (res_type r = _)) by done; destruct (Z.ltb_spec (size + i32 offset) 0); done || lia.
Qed.
(** ** Signal handlers *)

(** A word that a user task may be asked to read or write: it lies in one mapped
    page below the kernel. *)
Record user_word (m : machine_t) (d va vp f o : Z) : Prop := {
  uw_address : va = vp * PAGE_SIZE + o;
  uw_range : 0 < va /\ va + 4 <= KERNEL_VIRTUAL_SPACE_START;
  uw_page : page_at m d vp f;
  uw_offset : 0 <= o /\ o + 4 <= PAGE_SIZE;
}.

Lemma user_word_good m d va vp f o is_user : user_word m d va vp f o -> bad_user_buffer is_user va 4 = false.
Proof using Type.
  intros [_ [H1 H2] _ _]. unfold bad_user_buffer, KERNEL_VIRTUAL_SPACE_START in *. rewrite u32_small by lia.
  destruct (Z.leb_spec 0xC0000000 va), (Z.ltb_spec (va + 4) va), (Z.ltb_spec 0xC0000000 (va + 4)); lia.
Qed.

(** The signals whose handler can be changed. *)
Definition catchable (sig : Z) : bool := (0 <? sig) && (sig <? SYSCALL_NSIG) && negb (sig =? SYSCALL_SIGKILL).

(** [sigaction] with a new action and room for the old one.  A number that is
    no signal and SIGKILL, which cannot be caught, are BAD_PARAMETER and change
    nothing; otherwise the old handler of the signal is stored for the program
    and the handler in the new action takes its place, the handlers of the other
    signals staying as they are. *)
Theorem syscall_sigaction_spec s p t sig action old_action d va fa oa vo fo oo handler :
  calling s p t [sig; action; old_action] -> (forall i h, signal_handlers t !! i = Some h -> 0 <= h < 2 ^ 32) ->
  user_word (machine_of s) d action va fa oa -> user_word (machine_of s) d old_action vo fo oo ->
  frame_bytes (machine_of s) fa oa 4 = word_bytes handler -> 0 <= handler < 2 ^ 32 ->
  fo <> frame_of (frame_word (machine_of s) d (va / 1024)) -> (fa = fo -> oa + 4 <= oo \/ oo + 4 <= oa) ->
  wp syscall_sigaction
     (fun result s' =>
        if catchable (i32 sig) then
          result = SYSCALL_RESULT_OK /\
          frame_bytes (machine_of s') fo oo 4 = word_bytes (handler_of t (i32 sig)) /\
          exists t', tasks (os s') = <[p := t']> (tasks (os s)) /\ handler_of t' (i32 sig) = handler /\
            forall other, other <> i32 sig -> signal_handlers t' !! other = signal_handlers t !! other
        else result = - SYSCALL_RESULT_BAD_PARAMETER /\ s' = s) s.
Proof using Type.
  intros Hc Hh Ha Hold Hword Hhr Htab Hap. unfold syscall_sigaction.
  do 3 (wp_step; eapply wp_parameter; [exact Hc|reflexivity|]). set (sg := i32 sig). clearbody sg.
  unfold catchable, SYSCALL_NSIG, SYSCALL_SIGKILL.
  destruct (Z.leb_spec sg 0), (Z.ltb_spec 0 sg), (Z.leb_spec 32 sg), (Z.ltb_spec sg 32); try lia; cbn [orb andb negb];
    try by apply wp_ret.
  destruct (Z.eqb_spec sg 9); cbn [negb]; [by apply wp_ret|].
  destruct Hc as [Hp Ht _]. wp_step. eapply wp_caller; [exact Hp|exact Ht|]. unfold SIGACTION_SIZE.
  rewrite (user_word_good _ _ _ _ _ _ (task_is_user t) Ha), (user_word_good _ _ _ _ _ _ (task_is_user t) Hold).
  rewrite !andb_false_r.
  destruct Ha as [-> [Ha1 _] Hpa [Ho1 Ho2]], Hold as [-> [Hb1 _] Hpo [Ho3 Ho4]].
  destruct (Z.eqb_spec (vo * PAGE_SIZE + oo) 0); [lia|]. destruct (Z.eqb_spec (va * PAGE_SIZE + oa) 0); [lia|].
  wp_step. apply wp_on_machine_of. apply (wp_store32_page _ d vo fo); [done|done|done|]. intros m1 W1.
  assert (page_at m1 d va fa) as Hpa1 by (eapply page_at_apart; [exact Hpa|exact W1|apply Hpo|exact Htab]).
  assert (frame_bytes m1 fa oa 4 = word_bytes handler) as Hword1.
  { rewrite <- Hword. destruct (decide (fa = fo)) as [<-|Hne].
    - eapply frame_bytes_apart; [exact W1|lia|lia|cbn [length word_bytes]; specialize (Hap eq_refl); lia].
    - eapply frame_bytes_differ; [exact (bw_other _ _ _ _ _ W1)|done|lia|lia]. }
  wp_step. wp_step. apply wp_on_machine_of. change (machine_of (with_machine m1 s)) with m1.
  apply (wp_load32_page m1 d va fa oa handler); [done|done|done|done|done|].
  eapply (wp_update_caller _ p t); [exact Hp|exact Ht|]. wp_step. split; [done|]. split.
  { pose proof (frame_bytes_written _ _ _ _ _ W1) as E. cbn [length word_bytes] in E. apply E; lia. }
  exists (with_handler sg handler t). split; [done|]. unfold handler_of, with_handler. cbn.
  destruct (Z.eqb_spec handler 0) as [->|].
  - rewrite lookup_delete_eq. split; [done|]. intros other Hne. by rewrite lookup_delete_ne.
  - rewrite lookup_insert_eq. split; [done|]. intros other Hne. by rewrite lookup_insert_ne.
Qed.
End calls.

(** ** Witnesses *)

Definition calling_task (words : list Z) : task_t :=
  demo_task <| task_cr3 := 0x1000 |> <| syscall_execution := mk_execution 0 words |>.
(** The task's slot 0 is an open file of the RAM file system. *)
Definition calling_fs (words : list Z) : fs_t :=
  with_resource (demo_block 7) (mk_resource RESOURCE_TYPE_FILE (demo_block 0) vfs_operations 1 2 0)
    (with_tasks {[ 0x500 := calling_task words ]} signal_fs).

Lemma calling_resources words i a : resources (calling_task words) !! i = Some a -> i = 0 /\ a = demo_block 7.
Proof. change (resources (calling_task words)) with ({[ 0 := demo_block 7 ]} : gmap Z Z). by intros [<- <-]%lookup_singleton_Some. Qed.
Lemma calling_resource words : resource_store (os (calling_fs words)) !! demo_block 7 =
  Some (mk_resource RESOURCE_TYPE_FILE (demo_block 0) vfs_operations 1 2 0).
Proof. apply lookup_insert_eq. Qed.

Lemma syscall_lseek_spec_witness :
  wp (syscall_lseek (systems := demo_systems))
     (fun result s' => result = 5 /\ exists r, resource_store (os s') !! demo_block 7 = Some r /\ res_offset r = 5)
     (calling_fs [0; 5; SYSCALL_LSEEK_END; 0; 0; 0]).
Proof.
  eapply wp_mono.
  - apply (syscall_lseek_spec (systems := demo_systems) (calling_fs [0; 5; SYSCALL_LSEEK_END; 0; 0; 0]) 0x500
             (calling_task [0; 5; SYSCALL_LSEEK_END; 0; 0; 0]) 0 5 SYSCALL_LSEEK_END RESOURCE_RESULT_OK 0).
    + split; [done|apply lookup_singleton_eq|by exists [0; 0; 0]].
    + lia.
    + lia.
    + lia.
    + intros i a [_ ->]%calling_resources. done.
    + intros a r [_ ->]%calling_resources. rewrite calling_resource. intros [= <-].
      split; [simpl; lia|]. intros _ _. vm_compute. reflexivity.
    + intros a [_ ->]%calling_resources. eexists. apply calling_resource.
  - intros result s' H. change (resources (calling_task [0; 5; SYSCALL_LSEEK_END; 0; 0; 0]) !! 0) with (Some (demo_block 7)) in H.
    destruct H as (r & Hr & H). rewrite calling_resource in Hr. injection Hr as <-. destruct H as [-> ->]. split; [reflexivity|]. eexists. split; [apply lookup_insert_eq|reflexivity].
Defined.

(** The program's page holds an action at 0xBFFFD100; the old one goes to 0xBFFFD200. *)
Definition action_fs : fs_t :=
  with_machine (upd 7 64 0x08048400 signal_machine) (calling_fs [2; 0xBFFFD100; 0xBFFFD200; 0; 0; 0]).

Lemma syscall_sigaction_spec_witness :
  wp syscall_sigaction (fun result s' => result = SYSCALL_RESULT_OK /\ frame_bytes (machine_of s') 7 0x200 4 = [0; 0; 0; 0]) action_fs.
Proof.
  assert (page_at (machine_of action_fs) 1 0xBFFFD 7) as Hp.
  { split; [by split|lia|vm_compute; reflexivity|done|vm_compute; congruence]. }
  eapply wp_mono.
  - apply (syscall_sigaction_spec action_fs 0x500 (calling_task [2; 0xBFFFD100; 0xBFFFD200; 0; 0; 0]) 2 0xBFFFD100 0xBFFFD200
             1 0xBFFFD 7 0x100 0xBFFFD 7 0x200 0x08048400).
    + split; [done|apply lookup_singleton_eq|by exists [0; 0; 0]].
    + intros i h Hi. exfalso. change ((∅ : gmap Z Z) !! i = Some h) in Hi. by apply lookup_empty_Some in Hi.
    + split; [done|unfold KERNEL_VIRTUAL_SPACE_START; lia|done|unfold PAGE_SIZE; lia].
    + split; [done|unfold KERNEL_VIRTUAL_SPACE_START; lia|done|unfold PAGE_SIZE; lia].
    + vm_compute. reflexivity.
    + lia.
    + vm_compute. congruence.
    + lia.
  - intros result s' H. change (catchable (i32 2)) with true in H. destruct H as (H1 & H2 & _). split; [done|exact H2].
Defined.
