(* ===== verification/BreakLaws.v ===== *)
(** * The break

    What sbrk answers and how the heap of a program grows: the pages it gets are
    free ones, mapped at the old break, and nothing else of the address space
    changes. *)
From S2P Require Import Prelude Bitmap Paging KernelHeap Tasks TaskManager Allocator Files VfsCache Resource Vfs Memory Process Elf Syscall SignalLaws SyscallLaws.

(** ** Free pages *)

Definition free_pages (bm : memory_bitmap_t) : nat :=
  length (filter (fun p => page_used bm p = false) (seqZ 0 (pages bm))).

Lemma filter_same (P Q : Z -> Prop) `{!forall x, Decision (P x), !forall x, Decision (Q x)} (l : list Z) :
  (forall x, x ∈ l -> P x <-> Q x) -> filter P l = filter Q l.
Proof.
  induction l as [|x l IH]; intros Heq; [done|]. rewrite !filter_cons, IH by (intros; apply Heq; by right).
  specialize (Heq x ltac:(by left)). destruct (decide (P x)), (decide (Q x)); done || tauto.
Qed.

Lemma filter_one_less (P Q : Z -> Prop) `{!forall x, Decision (P x), !forall x, Decision (Q x)} (x : Z) (l : list Z) :
  NoDup l -> x ∈ l -> P x -> ~ Q x -> (forall y, y <> x -> P y <-> Q y) ->
  length (filter P l) = S (length (filter Q l)).
Proof.
  intros Hnd Hx HP HQ Heq. induction Hnd as [|y l Hy Hnd IH]; [by apply not_elem_of_nil in Hx|].
  rewrite !filter_cons. apply elem_of_cons in Hx as [->|Hx].
  - rewrite decide_True, decide_False by done. simpl. do 2 f_equal.
    apply filter_same. intros z Hz. apply Heq. by intros ->.
  - assert (y <> x) as Hyx by (by intros ->). specialize (IH Hx).
    pose proof (Heq y Hyx). destruct (decide (P y)), (decide (Q y)); simpl; first [lia|tauto].
Qed.

Lemma free_pages_allocated bm p bm' :
  bitmap_ok bm -> next_fit bm p -> allocated p bm bm' -> free_pages bm = S (free_pages bm').
Proof.
  intros Hok Hfit [E1 _ _ E4]. pose proof (next_fit_bounds bm p Hok Hfit) as [Hr Hfree].
  unfold free_pages. rewrite E1.
  rewrite (filter_same (fun q => page_used bm' q = false) (fun q => (q =? p) || page_used bm q = false)).
  2: { intros q Hq. apply elem_of_seqZ in Hq. by rewrite E4 by lia. }
  apply (filter_one_less _ _ p); [apply NoDup_seqZ|by apply elem_of_seqZ|done|by rewrite Z.eqb_refl|].
  intros q Hq. by destruct (Z.eqb_spec q p).
Qed.

Lemma free_pages_none bm : (forall p, 0 <= p < pages bm -> page_used bm p = true) -> free_pages bm = 0%nat.
Proof.
  intros H. unfold free_pages. rewrite (filter_same _ (fun _ => False)); [by induction (seqZ 0 (pages bm))|].
  intros p Hp. apply elem_of_seqZ in Hp. rewrite H by lia. done.
Qed.

Lemma dir_wf_allocated m d p bm' :
  dir_wf m d -> next_fit (memory_bitmap m) p -> allocated p (memory_bitmap m) bm' -> dir_wf (set_bitmap bm' m) d.
Proof.
  intros [Hs [K1 K2 K3 K4 K5 K6 K7]] Hfit Hal. split; [by destruct Hs|].
  assert (forall q, 0 <= q -> page_used (memory_bitmap m) q = true -> page_used bm' q = true) as Hmono.
  { intros q Hq Hu. rewrite (al_used _ _ _ Hal) by done. by rewrite Hu, orb_true_r. }
  split; try done; [by eapply allocated_ok|by apply Hmono|apply Hmono; [lia|done]|].
  intros q Hq Hpr. apply Hmono; [apply frame_of_range|by apply K7].
Qed.

Lemma map_step_bitmap x d p i e t m m' :
  bitmap_ok (memory_bitmap m) -> map_step x d p i e t m m' ->
  (forall q, 0 <= q -> page_used (memory_bitmap m) q = true -> page_used (memory_bitmap m') q = true) /\
  (free_pages (memory_bitmap m) <= S (free_pages (memory_bitmap m')))%nat.
Proof.
  intros Hok Hstep. destruct (ms_origin _ _ _ _ _ _ _ _ Hstep) as [(_ & _ & ->)|(_ & Hfit & Hal)]; [split; [done|lia]|].
  rewrite (free_pages_allocated _ _ _ Hok Hfit Hal). split; [|lia].
  intros q Hq Hu. rewrite (al_used _ _ _ Hal) by done. by rewrite Hu, orb_true_r.
Qed.

(** ** Growing by whole pages *)

(** The virtual pages from [vp] on have got the frames [frames]. *)
Record pages_grown (d vp : Z) (frames : list Z) (m m' : machine_t) : Prop := {
  pg_wf : dir_wf m' d;
  pg_regs : same_regs m m';
  pg_frames : forall i fr, frames !! i = Some fr -> vpage_frame m' d (vp + Z.of_nat i) = Some fr;
  pg_fresh : forall fr, fr ∈ frames -> 0 < fr < 2 ^ 20 /\
    page_used (memory_bitmap m) fr = false /\ page_used (memory_bitmap m') fr = true;
  pg_nodup : NoDup frames;
  pg_others : forall q, 0 <= q < 1023 * 1024 -> ~ (vp <= q < vp + Z.of_nat (length frames)) ->
    vpage_frame m' d q = vpage_frame m d q;
  pg_used : forall q, 0 <= q -> page_used (memory_bitmap m) q = true -> page_used (memory_bitmap m') q = true;
}.

Lemma pages_grown_cons d vp fr frames m m1 m2 m' :
  0 <= vp -> vp + 1 + Z.of_nat (length frames) <= 1023 * 1024 ->
  0 < fr < 2 ^ 20 -> page_used (memory_bitmap m) fr = false -> page_used (memory_bitmap m2) fr = true ->
  (forall q, 0 <= q -> page_used (memory_bitmap m) q = true -> page_used (memory_bitmap m2) q = true) ->
  same_regs m m2 -> vpage_frame m2 d vp = Some fr ->
  (forall q, 0 <= q < 1023 * 1024 -> q <> vp -> vpage_frame m2 d q = vpage_frame m1 d q) ->
  (forall q, vpage_frame m1 d q = vpage_frame m d q) ->
  pages_grown d (vp + 1) frames m2 m' -> pages_grown d vp (fr :: frames) m m'.
Proof.
  intros Hvp Hend Hfr Hfree Hused Hmono Hregs Hat Hrest Hrest1 [G1 G2 G3 G4 G5 G6 G7].
  assert (forall g, g ∈ frames -> g <> fr) as Hne by (intros g Hg ->; destruct (G4 fr Hg) as (_ & ? & _); congruence).
  split.
  - done.
  - by etransitivity.
  - intros [|i] g Hi; simpl in Hi.
    + injection Hi as <-. rewrite Z.add_0_r, G6; [done|lia|lia].
    + rewrite <- (G3 i g Hi). f_equal. lia.
  - intros g [->|Hg]%elem_of_cons; [split_and!; [lia|lia|done|apply G7; [lia|done]]|].
    destruct (G4 g Hg) as (H1 & H2 & H3). split_and!; [lia|lia| |done].
    apply not_true_is_false. intros Hu. rewrite Hmono in H2 by (done || lia). done.
  - constructor; [intros Hin; by apply (Hne fr)|done].
  - intros q Hq Hn. simpl in Hn. rewrite G6, Hrest, Hrest1 by lia. done.
  - intros q Hq Hu. apply G7, Hmono; done.
Qed.

Section break.
Variable fuel : nat.

Lemma wp_sbrk_map n m d directory start vp Q :
  dir_wf m d -> 0 <= vp -> vp + Z.of_nat n <= 1023 * 1024 -> vp + Z.of_nat n < 2 ^ 20 ->
  (2 * n <= free_pages (memory_bitmap m))%nat ->
  (forall m' frames, length frames = n -> pages_grown d vp frames m m' -> Q true m') ->
  wp (sbrk_map fuel n directory start (vp * PAGE_SIZE)) Q m.
Proof using Type.
  revert m vp Q. induction n as [|n IH]; intros m vp Q Hwf Hvp Hend Hend2 Hfree HQ; cbn [sbrk_map].
  { wp_step. apply (HQ m []); [done|]. split; [done|reflexivity|done|by intros fr ?%not_elem_of_nil|constructor|done|done]. }
  wp_step. unfold on_bitmap. wp_step. apply wp_allocate; [apply Hwf| |].
  2: { intros Hall. rewrite (free_pages_none _ Hall) in Hfree. lia. }
  intros fr bm' Hfit Hal. destruct (fresh_table m d fr (proj2 Hwf) Hfit) as (Hfr & _ & _).
  pose proof (next_fit_bounds _ _ (tk_bitmap _ _ (proj2 Hwf)) Hfit) as [_ Hunused].
  rewrite (free_pages_allocated _ _ _ (tk_bitmap _ _ (proj2 Hwf)) Hfit Hal) in Hfree.
  destruct (Z.eqb_spec (fr * PAGE_SIZE) 0); [unfold PAGE_SIZE in *; lia|].
  set (m1 := set_bitmap bm' m). assert (dir_wf m1 d) as Hwf1 by (by eapply dir_wf_allocated).
  assert (0 <= vp * PAGE_SIZE < 2 ^ 32) as Hva by (unfold PAGE_SIZE; lia).
  assert (vp * PAGE_SIZE / PAGE_SIZE = vp) as Hdiv by (unfold PAGE_SIZE; zlia).
  assert (0 <= pde_index (vp * PAGE_SIZE) < 1023) as Hp by (rewrite pde_index_div, Hdiv by done; zlia).
  pose proof (pte_index_range (vp * PAGE_SIZE)) as Hi.
  wp_step. apply (wp_map_current m1 d); [done|lia| |].
  2: { intros _ Hall. pose proof (free_pages_none _ Hall) as H0. simpl in H0. lia. }
  intros t m2 Hstep. pose proof (map_step_wf _ _ _ _ _ _ _ Hwf1 Hp Hstep) as Hwf2.
  destruct (map_step_bitmap _ _ _ _ _ _ _ _ (tk_bitmap _ _ (proj2 Hwf1)) Hstep) as [Hmono Hcount].
  assert (forall q, 0 <= q < 1023 * 1024 -> vpage_frame m2 d q = if bool_decide (q = vp) then Some fr else vpage_frame m1 d q) as Hv.
  { intros q Hq. rewrite (map_step_vpage _ _ _ _ _ _ _ _ _ (proj2 Hwf1) Hp Hi Hstep) by (done || by left).
    rewrite page_entry_present, page_entry_frame by done. rewrite pde_index_div, pte_index_div, Hdiv by done.
    rewrite (bool_decide_ext (q = vp / 1024 * 1024 + vp mod 1024) (q = vp)) by (split; zlia).
    case_bool_decide; [|done]. f_equal. unfold PAGE_SIZE. zlia. }
  rewrite u32_small by (unfold PAGE_SIZE; lia). replace (vp * PAGE_SIZE + PAGE_SIZE) with ((vp + 1) * PAGE_SIZE) by lia.
  apply IH; [done|lia|lia|lia|simpl in Hcount; lia|].
  intros m' frames Hlen Hg. apply (HQ m' (fr :: frames)); [simpl; lia|].
  eapply (pages_grown_cons d vp fr frames m m1 m2); try done; [lia|apply Hmono; [lia|]| | | |].
  - simpl. rewrite (al_used _ _ _ Hal) by lia. by rewrite Z.eqb_refl.
  - intros q Hq Hu. apply Hmono; [done|]. simpl. rewrite (al_used _ _ _ Hal) by done. by rewrite Hu, orb_true_r.
  - etransitivity; [apply same_regs_bitmap|apply Hstep].
  - rewrite Hv by lia. by rewrite bool_decide_eq_true_2.
  - intros q Hq Hne. rewrite Hv by done. by rewrite bool_decide_eq_false_2.
Qed.
End break.

(** ** The system call *)

(** The answer when the break is not to move. *)
Definition sbrk_answer (t : task_t) (delta : Z) : option Z :=
  if negb (task_is_user t) then Some (- SYSCALL_RESULT_FAIL)
  else if delta =? 0 then Some (i32 (heap_break t))
  else if heap_break t =? 0 then Some (- SYSCALL_RESULT_FAIL)
  else if USER_HEAP_VIRTUAL_CEILING <=? heap_break t + delta then Some (- SYSCALL_RESULT_OUT_OF_MEMORY)
  else if heap_break t + delta <? heap_start t then Some (- SYSCALL_RESULT_FAIL)
  else None.

(** Pages for [delta] bytes. *)
Definition sbrk_pages (delta : Z) : Z := (delta + PAGE_SIZE - 1) / PAGE_SIZE.

Section sbrk.
Context {alloc : Allocator kernel_t}.
Variable fuel : nat.

Lemma wp_sbrk_allocate s p t words d delta Q :
  calling s p t words -> dir_wf (machine_of s) d -> heap_break t mod PAGE_SIZE = 0 -> 0 < heap_break t ->
  0 < delta -> heap_break t + delta < USER_HEAP_VIRTUAL_CEILING ->
  (2 * Z.to_nat (sbrk_pages delta) <= free_pages (memory_bitmap (machine_of s)))%nat ->
  (forall m' frames, Z.of_nat (length frames) = sbrk_pages delta ->
     pages_grown d (heap_break t / PAGE_SIZE) frames (machine_of s) m' ->
     Q (heap_break t) (with_tasks (<[p := t <| heap_break := heap_break t + sbrk_pages delta * PAGE_SIZE |>]> (tasks (os s)))
                         (with_machine m' s))) ->
  wp (syscall_sbrk_allocate_physical_memory fuel delta) Q s.
Proof using Type.
  intros [Hp Ht _] Hwf Hal Hb Hd Hc Hfree HQ. unfold syscall_sbrk_allocate_physical_memory.
  unfold USER_HEAP_VIRTUAL_CEILING, USER_STACK_TOP, USER_HEAP_GUARD_SIZE in *.
  rewrite align_up_spec by (unfold PAGE_SIZE in *; lia). fold (sbrk_pages delta).
  assert (0 < sbrk_pages delta /\ heap_break t + sbrk_pages delta * PAGE_SIZE <= 0xBFFFE000 - PAGE_SIZE - 0x100000) as [Hn Hend]
    by (unfold sbrk_pages, PAGE_SIZE in *; zlia).
  set (n := sbrk_pages delta) in *. assert (n * PAGE_SIZE / PAGE_SIZE = n) as -> by (unfold PAGE_SIZE; zlia).
  assert (heap_break t = heap_break t / PAGE_SIZE * PAGE_SIZE) as Hvp by (unfold PAGE_SIZE in *; zlia).
  set (vp := heap_break t / PAGE_SIZE) in *. assert (0 <= vp) by (apply Z.div_pos; unfold PAGE_SIZE; lia).
  wp_step. eapply wp_caller; [exact Hp|exact Ht|]. rewrite u32_small by (unfold PAGE_SIZE in *; lia).
  destruct (Z.ltb_spec (0xBFFFE000 - PAGE_SIZE - 0x100000) (heap_break t + n * PAGE_SIZE)); [lia|].
  wp_step. apply wp_on_machine_of. unfold memory_paging_get_current_page_directory_physical. wp_step.
  wp_step. apply wp_on_machine_of. rewrite Hvp.
  apply (wp_sbrk_map fuel _ _ d); [done|lia|unfold PAGE_SIZE in *; lia|unfold PAGE_SIZE in *; lia|done|].
  intros m' frames Hlen Hg. rewrite <- Hvp. wp_step.
  eapply (wp_update_caller _ p t); [exact Hp|exact Ht|]. wp_step.
  rewrite u32_small by (unfold PAGE_SIZE in *; lia). apply (HQ m' frames); [lia|done].
Qed.

(** C36: Growing the heap.  A call that may not move the break (a kernel task, a
    program without a heap, a break past the ceiling or below the start of the
    heap, and the question for the break) answers so and changes nothing.
    Otherwise, for a positive size with enough free pages, the answer is the old
    break; the pages from it on, as many as the size needs, are mapped to
    distinct frames that were free before and are used now; every other page of
    the space is translated as before, the directory stays well-formed, and only
    the break of the calling task moves, by those pages. *)
Theorem syscall_sbrk_grow s p t d w :
  calling s p t [w] -> dir_wf (machine_of s) d -> heap_break t mod PAGE_SIZE = 0 -> 0 <= heap_break t ->
  (sbrk_answer t (i32 w) = None ->
     0 < i32 w /\ (2 * Z.to_nat (sbrk_pages (i32 w)) <= free_pages (memory_bitmap (machine_of s)))%nat) ->
  wp (syscall_sbrk fuel)
     (fun r s' =>
        match sbrk_answer t (i32 w) with
        | Some answer => r = answer /\ s' = s
        | None => r = i32 (heap_break t) /\
            (exists frames, Z.of_nat (length frames) = sbrk_pages (i32 w) /\
               pages_grown d (heap_break t / PAGE_SIZE) frames (machine_of s) (machine_of s')) /\
            tasks (os s') = <[p := t <| heap_break := heap_break t + sbrk_pages (i32 w) * PAGE_SIZE |>]> (tasks (os s))
        end) s.
Proof using Type.
  intros Hc Hwf Hal Hb Hgrow. unfold syscall_sbrk, sbrk_answer in *. pose proof Hc as [Hp Ht _].
  wp_step. eapply wp_parameter; [exact Hc|reflexivity|]. wp_step. eapply wp_caller; [exact Hp|exact Ht|].
  destruct (negb (task_is_user t)); [by apply wp_ret|]. destruct (Z.eqb_spec (i32 w) 0); [by apply wp_ret|].
  destruct (Z.eqb_spec (heap_break t) 0); [by apply wp_ret|].
  destruct (Z.leb_spec USER_HEAP_VIRTUAL_CEILING (heap_break t + i32 w)) as [|Hceil]; [by apply wp_ret|].
  destruct (Z.ltb_spec (heap_break t + i32 w) (heap_start t)); [by apply wp_ret|].
  assert (USER_HEAP_VIRTUAL_CEILING < KERNEL_VIRTUAL_SPACE_START) as Hk by done.
  destruct (Z.leb_spec KERNEL_VIRTUAL_SPACE_START (heap_break t + i32 w)); [lia|].
  destruct (Hgrow eq_refl) as [Hd Hfree]. destruct (Z.ltb_spec 0 (i32 w)); [|lia].
  wp_step. apply (wp_sbrk_allocate s p t [w] d); [done|done|done|lia|done|done|done|].
  intros m' frames Hlen Hg. destruct (Z.eqb_spec (heap_break t) 0); [lia|]. wp_step.
  split_and!; [done|by exists frames|done].
Qed.
End sbrk.

(** ** A program with a heap of two pages asks for 5000 bytes *)

Definition heap_task : task_t :=
  (calling_task [5000; 0; 0; 0; 0; 0]) <| task_is_user := true |> <| heap_start := 0x08050000 |> <| heap_break := 0x08052000 |>.
Definition heap_fs : fs_t := with_tasks {[ 0x500 := heap_task ]} signal_fs.

Lemma syscall_sbrk_grow_witness :
  wp (syscall_sbrk 8)
     (fun r s' => r = 0x08052000 /\ (exists f1 f2, f1 <> f2 /\
        vpage_frame (machine_of s') 1 0x8052 = Some f1 /\ vpage_frame (machine_of s') 1 0x8053 = Some f2) /\
        heap_break <$> tasks (os s') !! 0x500 = Some 0x08054000) heap_fs.
Proof.
  eapply wp_mono.
  - apply (syscall_sbrk_grow 8 heap_fs 0x500 heap_task 1 5000).
    + split; [done|apply lookup_singleton_eq|by exists [0; 0; 0; 0; 0]].
    + apply signal_machine_ready.
    + reflexivity.
    + vm_compute. congruence.
    + intros _. split; [reflexivity|vm_compute; lia].
  - intros r s' H. change (sbrk_answer heap_task (i32 5000)) with (None : option Z) in H.
    destruct H as (-> & (frames & Hlen & Hg) & ->). split; [reflexivity|]. split; [|by rewrite lookup_insert_eq].
    change (sbrk_pages (i32 5000)) with 2 in Hlen.
    destruct frames as [|f1 [|f2 [|f3 frames]]]; cbn [length] in Hlen; try lia.
    exists f1, f2. pose proof (pg_nodup _ _ _ _ _ Hg) as Hnd. pose proof (pg_frames _ _ _ _ _ Hg) as Hf.
    split_and!; [|by apply (Hf 0%nat)|by apply (Hf 1%nat)].
    intros ->. apply list.NoDup_cons in Hnd as [Hnd _]. apply Hnd. by left.
Defined.
