(* ===== verification/Ustar.v ===== *)
(** * The boot archive (src/fs/ustar.c, ramfs_driver_init of src/fs/ramfs.c)

    Building the tree of the RAM file system from a tar archive, a byte list at
    the heap address [tar_data]. *)
From S2P Require Import Prelude Bitmap Paging KernelHeap Tasks Allocator Files VfsCache Vfs Ramfs Memory Process.

Definition TAR_BLOCK_SIZE : Z := 512.

(** The offsets of the fields of [tar_block_t] that are read. *)
Definition TAR_SIZE_OFFSET : nat := 124.
Definition TAR_SIZE_LENGTH : nat := 12.
Definition TAR_TYPE_OFFSET : nat := 156.
Definition TAR_PREFIX_OFFSET : nat := 345.

(** The loop of [tar_get_size_from_octal] from an intermediate value. *)
Fixpoint octal_from (value : Z) (text : list Z) : Z :=
  match text with
  | [] => value
  | c :: rest =>
      if (c <? 48) || (55 <? c) then value
      else octal_from (u32 (u32 (Z.shiftl value 3) + (c - 48))) rest
  end.
Definition tar_get_size_from_octal (text : list Z) : Z := octal_from 0 text.

Definition tar_is_zero_block (block : list Z) : bool := forallb (fun b => b =? 0) block.

(** At most [n] characters of the C string that starts a list of bytes; [None]
    when the bytes end before it. *)
Fixpoint string_prefix (n : nat) (bytes : list Z) : option (list Z) :=
  match n with
  | O => Some []
  | S n' =>
      match bytes with
      | [] => None
      | c :: rest => if c =? 0 then Some [] else l ← string_prefix n' rest; Some (c :: l)
      end
  end.

Definition tar_build_path (dst_size : nat) (prefix name : list Z) : option (list Z) :=
  p ← string_prefix (dst_size - 1) prefix;
  let dst := if negb (bool_decide (p = [])) && (length p + 1 <? dst_size)%nat then p ++ [SLASH] else p in
  n ← string_prefix (dst_size - 1 - length dst) name;
  Some (dst ++ n).

(** [full_name] for the header that starts [bytes]. *)
Definition tar_full_name (bytes : list Z) : option (list Z) :=
  match bytes !! TAR_PREFIX_OFFSET with
  | None => None
  | Some first =>
      if first =? 0 then string_prefix (Z.to_nat (VFS_NODE_NAME_LENGTH - 1)) bytes
      else tar_build_path (Z.to_nat VFS_NODE_NAME_LENGTH) (drop TAR_PREFIX_OFFSET bytes) bytes
  end.

(** [path], which skips the leading dot of the name. *)
Definition tar_path (full_name : list Z) : list Z :=
  match full_name with
  | c :: rest => if c =? 46 then rest else full_name
  | [] => []
  end.
Definition strip_slash (path : list Z) : list Z :=
  match list.last path with
  | Some c => if c =? SLASH then removelast path else path
  | None => path
  end.

Section ustar.
Context {alloc : Allocator kernel_t}.
Variable fuel : nat.

(** The node of a file gets its bytes; when the node could not be created, the
    pointer to it is not initialised. *)
Definition tar_create_file (root : Z) (path content : list Z) (file_size : Z) : M fs_t unit :=
  let! ' (result, node) := ramfs_create_path fuel root path VFS_NODE_TYPE_FILE in
  if negb (bool_decide (result = RAMFS_RESULT_OK)) then fault
  else
    do! update_ram node (fun n => n <| ram_data_size := file_size |>) in
    if file_size =? 0 then ret tt
    else
      let! data := fs_calloc file_size in
      do! update_ram node (fun n => n <| ram_data := data |>) in
      if (data =? 0) || (Z.of_nat (length content) <? file_size) then fault
      else modify (fun s => s <| contents := <[data := take (Z.to_nat file_size) content]> (contents s) |>).

(** One header with the bytes from it on; the answer is the number of blocks
    after the header. *)
Definition tar_create_entry (root : Z) (bytes : list Z) : M fs_t Z :=
  let! full_name := of_option (tar_full_name bytes) in
  let! header_type := of_option (bytes !! TAR_TYPE_OFFSET) in
  let file_size := tar_get_size_from_octal (take TAR_SIZE_LENGTH (drop TAR_SIZE_OFFSET bytes)) in
  let blocks := u32 (file_size + TAR_BLOCK_SIZE - 1) / TAR_BLOCK_SIZE in
  let path := tar_path full_name in
  if bool_decide (path = []) || bool_decide (path = [SLASH]) then ret blocks
  else if header_type =? 53 then
    do! ramfs_create_path fuel root (strip_slash path) VFS_NODE_TYPE_DIRECTORY in ret blocks
  else
    do! tar_create_file root path (drop (Z.to_nat TAR_BLOCK_SIZE) bytes) file_size in ret blocks.

Definition tar_create_ramfs_node (tar_data : Z) (archive : list Z) (tar_size : Z) : M fs_t Z :=
  let end_ := u32 (tar_data + tar_size) in
  let! ' (result, root) := ramfs_create_node [SLASH] VFS_NODE_TYPE_DIRECTORY 0 9 in
  if negb (bool_decide (result = RAMFS_RESULT_OK)) then ret 0
  else
    loop fuel (fun ptr =>
      if u32 (ptr + TAR_BLOCK_SIZE) <=? end_ then
        let bytes := drop (Z.to_nat (u32 (ptr - tar_data))) archive in
        if Z.of_nat (length bytes) <? TAR_BLOCK_SIZE then fault
        else if tar_is_zero_block (take (Z.to_nat TAR_BLOCK_SIZE) bytes) then ret (inr root)
        else
          let! blocks := tar_create_entry root bytes in
          ret (inl (u32 (u32 (ptr + TAR_BLOCK_SIZE) + u32 (blocks * TAR_BLOCK_SIZE))))
      else ret (inr root)) tar_data.

(** ** The boot module

    The pages of the module are copied to the heap through a bounce page each and
    freed; the answer of the loop is the copy. *)
Definition ramfs_copy_module (mod_start mod_end : Z) : M machine_t (list Z) :=
  loop fuel (fun '(page, tar_data) =>
    if page <? mod_end then
      let! bounce := bounce_alloc page in
      let chunk_start := if page <? mod_start then mod_start else page in
      let chunk_end := if mod_end <? u32 (page + PAGE_SIZE) then mod_end else u32 (page + PAGE_SIZE) in
      let! chunk := read_memory (bounce + (chunk_start - page)) (Z.to_nat (u32 (chunk_end - chunk_start))) in
      do! bounce_free bounce in
      do! on_bitmap (memory_bitmap_free page) in
      ret (inl (u32 (page + PAGE_SIZE), tar_data ++ chunk))
    else ret (inr tar_data)) (ALIGN_DOWN mod_start, []).

(** Without memory for the copy the first [memcpy] goes through NULL. *)
Definition ramfs_driver_init (initrd : multiboot_module_t) : M fs_t unit :=
  do! modify (fun s => s <| ramfs_last_index := 0 |>) in
  let tar_size := u32 (mod_end initrd - mod_start initrd) in
  let! tar_data := fs_malloc tar_size in
  if (tar_data =? 0) && (mod_start initrd <? mod_end initrd) then fault
  else
    let! archive := on_machine_of (ramfs_copy_module (mod_start initrd) (mod_end initrd)) in
    let! root := tar_create_ramfs_node tar_data archive tar_size in
    modify (fun s => s <| ramfs_root_node := root |>).
End ustar.

(** ** Sizes *)

(** [n] in [k] octal digits. *)
Fixpoint octal_text (k : nat) (n : Z) : list Z :=
  match k with
  | O => []
  | S k' => 48 + n / 8 ^ Z.of_nat k' mod 8 :: octal_text k' n
  end.

Lemma octal_from_text k n value rest :
  0 <= value -> value * 8 ^ Z.of_nat k + n mod 8 ^ Z.of_nat k < 2 ^ 32 ->
  octal_from value (octal_text k n ++ rest) = octal_from (value * 8 ^ Z.of_nat k + n mod 8 ^ Z.of_nat k) rest.
Proof.
  revert value. induction k as [|k IH]; intros value Hv Hsmall.
  - cbn [octal_text app]. change (8 ^ Z.of_nat 0) with 1. f_equal. rewrite Z.mod_1_r. lia.
  - cbn [octal_text app octal_from]. set (q := 8 ^ Z.of_nat k) in *.
    assert (8 ^ Z.of_nat (S k) = 8 * q) as E by (unfold q; rewrite Nat2Z.inj_succ, Z.pow_succ_r by lia; done).
    rewrite E in *. assert (0 < q) by (unfold q; apply Z.pow_pos_nonneg; lia).
    assert (0 <= n / q mod 8 < 8) as Hd by (apply Z.mod_pos_bound; lia).
    destruct (Z.ltb_spec (48 + n / q mod 8) 48); [lia|]. destruct (Z.ltb_spec 55 (48 + n / q mod 8)); [lia|].
    cbn [orb]. pose proof (Z.rem_mul_r n q 8 ltac:(lia) ltac:(lia)) as Hmod. rewrite (Z.mul_comm q 8) in Hmod.
    pose proof (Z.mod_pos_bound n q ltac:(lia)).
    rewrite Z.shiftl_mul_pow2 by lia. change (2 ^ 3) with 8. rewrite (u32_small (value * 8)) by nia.
    rewrite u32_small by nia. replace (48 + n / q mod 8 - 48) with (n / q mod 8) by lia.
    rewrite IH by nia. f_equal. nia.
Qed.

(** The size field of an archive header is read back: the octal text of a
    number below 2^32, in any number of digits that hold it and followed by the
    character that ends the field, has that number as its value. *)
Theorem tar_octal_roundtrip n k terminator rest :
  0 <= n < 2 ^ 32 -> n < 8 ^ Z.of_nat k -> terminator = 0 \/ terminator = 32 ->
  tar_get_size_from_octal (octal_text k n ++ terminator :: rest) = n.
Proof.
  intros Hn Hk Ht. unfold tar_get_size_from_octal. assert (n mod 8 ^ Z.of_nat k = n) as E by (apply Z.mod_small; lia).
  rewrite octal_from_text by lia. rewrite E. cbn [octal_from]. by destruct Ht as [-> | ->].
Qed.

Lemma tar_octal_roundtrip_witness :
  tar_get_size_from_octal (octal_text 11 1000 ++ [0]) = 1000 /\ octal_text 11 1000 = [48; 48; 48; 48; 48; 48; 48; 49; 55; 53; 48].
Proof. split; [apply tar_octal_roundtrip; [lia|done|by left]|reflexivity]. Defined.

(** ** Names *)

Lemma string_prefix_text n text rest :
  Forall (fun c => c <> 0) text -> string_prefix n (text ++ 0 :: rest) = Some (take n text).
Proof.
  revert n. induction text as [|c text IH]; intros n Ht; destruct n as [|n]; cbn [string_prefix app take]; try done.
  destruct (Z.eqb_spec c 0); [by apply Forall_inv in Ht|]. rewrite IH by (by apply Forall_inv_tail in Ht). done.
Qed.

(** The name of an archive member that has a prefix is the prefix, a slash
    and the name, cut to what the buffer holds beside the terminator. *)
Theorem tar_build_path_spec dst_size prefix name prefix_rest name_rest :
  (0 < dst_size)%nat -> prefix <> [] ->
  Forall (fun c => c <> 0) prefix -> Forall (fun c => c <> 0) name ->
  tar_build_path dst_size (prefix ++ 0 :: prefix_rest) (name ++ 0 :: name_rest) =
    Some (take (dst_size - 1) (prefix ++ [SLASH] ++ name)).
Proof.
  intros Hd Hp Hpz Hnz. unfold tar_build_path. rewrite string_prefix_text by done. cbn [mbind option_bind].
  set (p := take (dst_size - 1) prefix).
  assert (length p = Nat.min (dst_size - 1) (length prefix)) as Hl by apply length_take.
  destruct (decide (length prefix < dst_size - 1)%nat) as [Hshort|Hlong].
  - assert (p = prefix) as E by (apply take_ge; lia). rewrite E, bool_decide_eq_false_2 by done. cbn [negb andb].
    destruct (Nat.ltb_spec (length prefix + 1) dst_size); [|lia]. rewrite string_prefix_text by done.
    cbn [mbind option_bind]. f_equal. rewrite take_app, (take_ge prefix) by lia. rewrite <- app_assoc. f_equal.
    rewrite length_app. cbn [length]. destruct (dst_size - 1 - length prefix)%nat as [|k] eqn:Ek; [lia|].
    cbn [take app]. do 2 f_equal. lia.
  - assert (dst_size - 1 - length p = 0)%nat as E by lia.
    destruct (Nat.ltb_spec (length p + 1) dst_size); [lia|]. rewrite andb_false_r, E. cbn [string_prefix mbind option_bind].
    rewrite app_nil_r. f_equal. unfold p. rewrite take_app. replace (dst_size - 1 - length prefix)%nat with O by lia.
    by rewrite app_nil_r.
Qed.

Lemma tar_build_path_spec_witness :
  tar_build_path 256 ([98; 105; 110] ++ [0; 0]) ([97] ++ [0]) = Some [98; 105; 110; 47; 97].
Proof.
  etransitivity; [apply (tar_build_path_spec 256 [98; 105; 110] [97] [0] []); [lia|done|repeat constructor; lia..]|].
  reflexivity.
Defined.
