(* ===== verification/Ports.v ===== *)
(** * Port output (src/include/io.h, src/pic.c, timer_set_phase of src/drivers/timer.c)

    The writes to I/O ports are a list of (port, value) pairs, newest first. *)
From S2P Require Import Prelude Bitmap Paging KernelHeap Tasks.

Definition ports_t : Type := list (Z * Z).

Definition io_outb (port data : Z) : M ports_t unit := modify (fun l => (port, u8 data) :: l).
Definition io_wait : M ports_t unit := io_outb 0x80 0.

(** ** The interrupt controllers *)

Definition PIC1_COMMAND : Z := 0x20.
Definition PIC1_DATA : Z := 0x21.
Definition PIC2_COMMAND : Z := 0xA0.
Definition PIC2_DATA : Z := 0xA1.
Definition PIC_COMMAND_INITIALIZE : Z := 0x11.
Definition PIC_COMMAND_EOI : Z := 0x20.
Definition PIC_VALUE_HAS_SLAVE_AT_IRQ2 : Z := Z.shiftl 1 2.
Definition PIC_VALUE_CASCADE_IRQ2 : Z := 2.
Definition PIC_VALUE_8086 : Z := 0x01.
Definition PIC1_REMAPPED_VECTOR : Z := 0x20.
Definition PIC2_REMAPPED_VECTOR : Z := 0x28.

Definition pic_remap (offset_master offset_slave : Z) : M ports_t unit :=
  for_each [(PIC1_COMMAND, PIC_COMMAND_INITIALIZE); (PIC2_COMMAND, PIC_COMMAND_INITIALIZE);
            (PIC1_DATA, offset_master); (PIC2_DATA, offset_slave);
            (PIC1_DATA, PIC_VALUE_HAS_SLAVE_AT_IRQ2); (PIC2_DATA, PIC_VALUE_CASCADE_IRQ2);
            (PIC1_DATA, PIC_VALUE_8086); (PIC2_DATA, PIC_VALUE_8086);
            (PIC1_DATA, 0); (PIC2_DATA, 0)]
    (fun '(port, data) => do! io_outb port data in io_wait).

Definition pic_module_init : M ports_t unit := pic_remap PIC1_REMAPPED_VECTOR PIC2_REMAPPED_VECTOR.

Definition pic_send_eoi (irq : Z) : M ports_t unit :=
  do! (if 8 <=? irq then io_outb PIC2_COMMAND PIC_COMMAND_EOI else ret tt) in
  io_outb PIC1_COMMAND PIC_COMMAND_EOI.

(** ** The timer chip *)

Definition PIT_CLOCK : Z := 1193180.
Definition PIT0 : Z := 0x40.
Definition PIT_COMMAND : Z := 0x43.
Definition TIMER_CHANNEL_0 : Z := 0x0.
Definition TIMER_READ_WRITE_HIGH_LOW : Z := 0x30.
Definition TIMER_MODE_SQUARE_WAVE : Z := 0x6.
Definition TIMER_16_BIT_BINARY : Z := 0x0.

Definition timer_set_phase : M ports_t unit :=
  let divisor := PIT_CLOCK / TIMER_PHASE in
  do! io_outb PIT_COMMAND (Z.lor (Z.lor (Z.lor TIMER_CHANNEL_0 TIMER_READ_WRITE_HIGH_LOW) TIMER_MODE_SQUARE_WAVE)
                             TIMER_16_BIT_BINARY) in
  do! io_outb PIT0 (Z.land divisor 0xFF) in
  io_outb PIT0 (Z.shiftr divisor 8).
