(* ===== verification/Segments.v ===== *)
(** * Descriptor tables (src/gdt.c, src/tss.c, first part of src/idt.c)

    The entries are the packed structures of the sources; a negative index is a
    store before the table, a [Fault].  [lgdt], [lidt] and [ltr] only load what is
    stored here.  The addresses of the tables are the linker's. *)
From S2P Require Import Prelude.

(** ** Segments *)

Definition GDT_ENTRIES_COUNT : Z := 6.
Definition GDT_FLAG_PRESENT : Z := 0x80.
Definition GDT_FLAG_RING0 : Z := 0x00.
Definition GDT_FLAG_RING3 : Z := 0x60.
Definition GDT_FLAG_SEGMENT : Z := 0x10.
Definition GDT_FLAG_SYSTEM : Z := 0x00.
Definition GDT_FLAG_EXECUTABLE : Z := 0x08.
Definition GDT_FLAG_READ_WRITE : Z := 0x02.
Definition GDT_FLAG_TSS : Z := 0x09.
Definition GDT_GRANULARITY_BYTE : Z := 0x00.
Definition GDT_GRANULARITY_4K : Z := 0x80.
Definition GDT_GRANULARITY_32BIT : Z := 0x40.
Definition GDT_NULL : Z := 0.
Definition GDT_KERNEL_CODE : Z := 1.
Definition GDT_KERNEL_DATA : Z := 2.
Definition GDT_USER_CODE : Z := 3.
Definition GDT_USER_DATA : Z := 4.
Definition GDT_TSS : Z := 5.
(** [sizeof(tss_entry_t)] *)
Definition TSS_SIZE : Z := 104.

Inductive gdt_result_t : Type := GDT_RESULT_OK | GDT_RESULT_OUT_OF_BOUNDS.

Record gdt_entry_t : Type := mk_gdt_entry {
  limit_low : Z;
  base_low : Z;
  base_middle : Z;
  access : Z;
  granularity : Z;
  base_high : Z;
}.
Record descriptor_pointer_t : Type := mk_pointer { pointer_limit : Z; pointer_base : Z }.
Record gdt_t : Type := mk_gdt { gdt_entries : list gdt_entry_t; gdt_pointer : descriptor_pointer_t }.
#[export] Instance gdt_fields : Fields gdt_t := fun g => mk_gdt (gdt_entries g) (gdt_pointer g).

(** The packed form of [base], [limit] and the flags. *)
Definition gdt_entry_of (base limit access_ granularity_ : Z) : gdt_entry_t :=
  mk_gdt_entry (Z.land limit 0xFFFF) (Z.land base 0xFFFF) (Z.land (Z.shiftr base 16) 0xFF) access_
    (Z.lor (Z.land (Z.shiftr limit 16) 0x0F) (Z.land granularity_ 0xF0)) (Z.land (Z.shiftr base 24) 0xFF).

Definition gdt_set_entry (index base limit access_ granularity_ : Z) : M gdt_t gdt_result_t :=
  if GDT_ENTRIES_COUNT <=? index then ret GDT_RESULT_OUT_OF_BOUNDS
  else if index <? 0 then fault
  else
    do! modify (fun g => g <| gdt_entries := <[Z.to_nat index := gdt_entry_of base limit access_ granularity_]> (gdt_entries g) |>) in
    ret GDT_RESULT_OK.

Definition gdt_code (ring : Z) : Z :=
  Z.lor (Z.lor (Z.lor (Z.lor GDT_FLAG_PRESENT ring) GDT_FLAG_SEGMENT) GDT_FLAG_EXECUTABLE) GDT_FLAG_READ_WRITE.
Definition gdt_data (ring : Z) : Z :=
  Z.lor (Z.lor (Z.lor GDT_FLAG_PRESENT ring) GDT_FLAG_SEGMENT) GDT_FLAG_READ_WRITE.
Definition gdt_flat : Z := Z.lor GDT_GRANULARITY_4K GDT_GRANULARITY_32BIT.

(** [gdt_address] is [&gdt->entries], [tss_address] is [&tss]. *)
Definition gdt_create (gdt_address tss_address : Z) : M gdt_t gdt_result_t :=
  do! modify (fun g => g <| gdt_pointer := mk_pointer (u16 (8 * GDT_ENTRIES_COUNT - 1)) gdt_address |>) in
  do! gdt_set_entry GDT_NULL 0 0 0 0 in
  do! gdt_set_entry GDT_KERNEL_CODE 0 0xFFFFFFFF (gdt_code GDT_FLAG_RING0) gdt_flat in
  do! gdt_set_entry GDT_KERNEL_DATA 0 0xFFFFFFFF (gdt_data GDT_FLAG_RING0) gdt_flat in
  do! gdt_set_entry GDT_USER_CODE 0 0xFFFFFFFF (gdt_code GDT_FLAG_RING3) gdt_flat in
  do! gdt_set_entry GDT_USER_DATA 0 0xFFFFFFFF (gdt_data GDT_FLAG_RING3) gdt_flat in
  do! gdt_set_entry GDT_TSS tss_address (TSS_SIZE - 1)
        (Z.lor (Z.lor (Z.lor GDT_FLAG_PRESENT GDT_FLAG_RING0) GDT_FLAG_SYSTEM) GDT_FLAG_TSS) GDT_GRANULARITY_BYTE in
  ret GDT_RESULT_OK.

(** The fields of [tss_entry_t] that are used; the others stay 0. *)
Record tss_entry_t : Type := mk_tss { esp0 : Z; ss0 : Z; iopb : Z }.
#[export] Instance tss_fields : Fields tss_entry_t := fun t => mk_tss (esp0 t) (ss0 t) (iopb t).
Definition tss_module_init : M tss_entry_t unit :=
  do! modify (fun t => t <| ss0 := Z.lor (Z.shiftl GDT_KERNEL_DATA 3) 0 |>) in
  modify (fun t => t <| iopb := TSS_SIZE |>).

(** ** Interrupt gates *)

Definition IDT_MAX_ENTRIES_COUNT : Z := 256.
Definition IDT_BASE_ENTRIES_COUNT : Z := 32.
Definition IDT_SYSCALL : Z := 0x80.
Definition IRQ_MAX_ENTRIES_COUNT : Z := 16.

Inductive idt_result_t : Type := IDT_RESULT_OK | IDT_RESULT_OUT_OF_BOUNDS.

Record idt_entry_t : Type := mk_idt_entry {
  offset_low : Z;
  segment_selector : Z;
  reserved : Z;
  type_attributes : Z;
  offset_high : Z;
}.
Record idt_t : Type := mk_idt { idt_entries : list idt_entry_t; idt_pointer : descriptor_pointer_t }.
#[export] Instance idt_fields : Fields idt_t := fun t => mk_idt (idt_entries t) (idt_pointer t).

Definition idt_entry_of (offset selector attributes : Z) : idt_entry_t :=
  mk_idt_entry (Z.land offset 0xFFFF) selector 0 attributes (Z.land (Z.shiftr offset 16) 0xFFFF).

Definition idt_set_entry (index offset selector attributes : Z) : M idt_t idt_result_t :=
  if IDT_MAX_ENTRIES_COUNT <=? index then ret IDT_RESULT_OUT_OF_BOUNDS
  else if index <? 0 then fault
  else
    do! modify (fun t => t <| idt_entries := <[Z.to_nat index := idt_entry_of offset selector attributes]> (idt_entries t) |>) in
    ret IDT_RESULT_OK.

(** [idt_address] is [&idt->entries]; [isr_stubs] and [isr_syscall] are the
    assembly entry points. *)
Definition idt_create (idt_address : Z) (isr_stubs : list Z) (isr_syscall : Z) : M idt_t idt_result_t :=
  do! modify (fun t => t <| idt_pointer := mk_pointer (u16 (8 * IDT_MAX_ENTRIES_COUNT - 1)) idt_address |>) in
  do! for_range 0 IDT_BASE_ENTRIES_COUNT (fun i =>
        let! stub := of_option (isr_stubs !! Z.to_nat i) in
        do! idt_set_entry i stub 0x08 0x8E in ret tt) in
  do! idt_set_entry IDT_SYSCALL isr_syscall 0x08 0xEE in
  ret IDT_RESULT_OK.

Definition irq_set_idt_entries (irq_stubs : list Z) : M idt_t unit :=
  for_range 0 IRQ_MAX_ENTRIES_COUNT (fun i =>
    let! stub := of_option (irq_stubs !! Z.to_nat i) in
    do! idt_set_entry (i + IDT_BASE_ENTRIES_COUNT) stub 0x08 0x8E in ret tt).

(** ** What the processor reads in the entries *)

Definition descriptor_base (e : gdt_entry_t) : Z :=
  Z.lor (base_low e) (Z.lor (Z.shiftl (base_middle e) 16) (Z.shiftl (base_high e) 24)).
Definition descriptor_limit (e : gdt_entry_t) : Z :=
  Z.lor (limit_low e) (Z.shiftl (Z.land (granularity e) 0x0F) 16).
Definition descriptor_flags (e : gdt_entry_t) : Z := Z.land (granularity e) 0xF0.
(** The last byte of the segment. *)
Definition descriptor_end (e : gdt_entry_t) : Z :=
  if Z.testbit (granularity e) 7 then descriptor_base e + 4096 * descriptor_limit e + 4095
  else descriptor_base e + descriptor_limit e.
Definition descriptor_present (e : gdt_entry_t) : bool := Z.testbit (access e) 7.
Definition descriptor_ring (e : gdt_entry_t) : Z := Z.land (Z.shiftr (access e) 5) 3.
(** A segment for code or data, not a system descriptor. *)
Definition descriptor_segment (e : gdt_entry_t) : bool := Z.testbit (access e) 4.
Definition descriptor_code (e : gdt_entry_t) : bool := Z.testbit (access e) 3.
(** Code can be read, data can be written; a conforming code segment can be
    entered from an outer ring, an expand-down data segment has its limit below. *)
Definition descriptor_accessible (e : gdt_entry_t) : bool := Z.testbit (access e) 1.
Definition descriptor_plain (e : gdt_entry_t) : bool := negb (Z.testbit (access e) 2).
(** 32-bit operands, and not a 64-bit segment. *)
Definition descriptor_32bit (e : gdt_entry_t) : bool := Z.testbit (granularity e) 6 && negb (Z.testbit (granularity e) 5).
(** The type of a system descriptor: 9 is a 32-bit TSS that is not busy. *)
Definition descriptor_system_type (e : gdt_entry_t) : option Z :=
  if descriptor_segment e then None else Some (Z.land (access e) 0x0F).
Definition SYSTEM_TSS : Z := 9.

Definition gate_offset (e : idt_entry_t) : Z := Z.lor (offset_low e) (Z.shiftl (offset_high e) 16).
Definition gate_ring (e : idt_entry_t) : Z := Z.land (Z.shiftr (type_attributes e) 5) 3.
Definition gate_present (e : idt_entry_t) : bool := Z.testbit (type_attributes e) 7.
(** The bits below the ring: 0x0E is a 32-bit gate that turns interrupts off. *)
Definition gate_type (e : idt_entry_t) : Z := Z.land (type_attributes e) 0x1F.
Definition INTERRUPT_GATE : Z := 0x0E.

(** ** Lemmas *)

Ltac test_bits :=
  repeat first [rewrite Z.lor_spec | rewrite Z.land_spec | rewrite Z.shiftl_spec by lia | rewrite Z.shiftr_spec by lia].

Lemma testbit_ones n i : 0 <= n -> 0 <= i -> Z.testbit (Z.ones n) i = (i <? n).
Proof. intros Hn Hi. rewrite Z.testbit_ones by lia. by destruct (Z.leb_spec 0 i); [|lia]. Qed.

Lemma base_parts base :
  0 <= base < 2 ^ 32 ->
  Z.lor (Z.land base 0xFFFF) (Z.lor (Z.shiftl (Z.land (Z.shiftr base 16) 0xFF) 16)
                                    (Z.shiftl (Z.land (Z.shiftr base 24) 0xFF) 24)) = base.
Proof.
  intros Hb. change 0xFFFF with (Z.ones 16). change 0xFF with (Z.ones 8). apply Z.bits_inj'. intros i Hi. test_bits.
  rewrite testbit_ones by lia. destruct (Z.ltb_spec i 32); [|rewrite (testbit_above 32 base i) by lia].
  - destruct (Z.ltb_spec i 16).
    + rewrite andb_true_r, (Z.testbit_neg_r _ (i - 16)), (Z.testbit_neg_r _ (i - 24)) by lia. by rewrite !orb_false_r.
    + rewrite andb_false_r. cbn [orb]. test_bits. replace (i - 16 + 16) with i by lia.
      rewrite testbit_ones by lia. destruct (Z.ltb_spec (i - 16) 8).
      * rewrite (Z.testbit_neg_r _ (i - 24)) by lia. by rewrite andb_true_r, orb_false_r.
      * test_bits. replace (i - 24 + 24) with i by lia. rewrite testbit_ones by lia.
        destruct (Z.ltb_spec (i - 24) 8); [|lia]. by rewrite andb_true_r, andb_false_r.
  - cbn [andb orb]. test_bits. rewrite !(testbit_above 32 base) by lia. done.
Qed.

Lemma word_parts w :
  0 <= w < 2 ^ 32 -> Z.lor (Z.land w 0xFFFF) (Z.shiftl (Z.land (Z.shiftr w 16) 0xFFFF) 16) = w.
Proof.
  intros Hw. change 0xFFFF with (Z.ones 16). apply Z.bits_inj'. intros i Hi. test_bits.
  rewrite testbit_ones by lia. destruct (Z.ltb_spec i 16).
  - rewrite (Z.testbit_neg_r _ (i - 16)) by lia. by rewrite andb_true_r, orb_false_r.
  - rewrite andb_false_r. cbn [orb]. test_bits. replace (i - 16 + 16) with i by lia.
    rewrite testbit_ones by lia. destruct (Z.ltb_spec (i - 16) 16); [by rewrite andb_true_r|].
    by rewrite (testbit_above 32 w) by lia.
Qed.

Lemma limit_parts limit granularity_ :
  0 <= limit -> 0 <= granularity_ ->
  Z.lor (Z.land limit 0xFFFF)
    (Z.shiftl (Z.land (Z.lor (Z.land (Z.shiftr limit 16) 0x0F) (Z.land granularity_ 0xF0)) 0x0F) 16) = limit mod 2 ^ 20.
Proof.
  intros Hl Hg. apply Z.bits_inj'. intros i Hi.
  assert (Z.land (Z.lor (Z.land (Z.shiftr limit 16) 0x0F) (Z.land granularity_ 0xF0)) 0x0F = Z.land (Z.shiftr limit 16) 0x0F) as ->.
  { apply Z.bits_inj'. intros j Hj. rewrite !Z.land_spec, Z.lor_spec, !Z.land_spec.
    rewrite andb_orb_distrib_l, <- !andb_assoc, andb_diag, <- (Z.land_spec 0xF0). change (Z.land 0xF0 0x0F) with 0.
    by rewrite Z.testbit_0_l, andb_false_r, orb_false_r. }
  change 0xFFFF with (Z.ones 16). change 0x0F with (Z.ones 4). test_bits. rewrite testbit_ones by lia.
  destruct (Z.ltb_spec i 20).
  - rewrite Z.mod_pow2_bits_low by lia. destruct (Z.ltb_spec i 16).
    + rewrite (Z.testbit_neg_r _ (i - 16)) by lia. by rewrite andb_true_r, orb_false_r.
    + test_bits. rewrite testbit_ones by lia. replace (i - 16 + 16) with i by lia.
      destruct (Z.ltb_spec (i - 16) 4); [|lia]. by rewrite andb_false_r, andb_true_r.
  - rewrite Z.mod_pow2_bits_high by lia. destruct (Z.ltb_spec i 16); [lia|]. test_bits.
    rewrite testbit_ones by lia. destruct (Z.ltb_spec (i - 16) 4); [lia|]. by rewrite !andb_false_r.
Qed.

(** ** The segment table *)

Lemma gdt_entry_base base limit access_ granularity_ :
  0 <= base < 2 ^ 32 -> descriptor_base (gdt_entry_of base limit access_ granularity_) = base.
Proof. apply base_parts. Qed.

Lemma gdt_entry_flags base limit access_ granularity_ :
  0 <= granularity_ -> descriptor_flags (gdt_entry_of base limit access_ granularity_) = Z.land granularity_ 0xF0.
Proof.
  intros Hg. unfold descriptor_flags, gdt_entry_of, granularity. rewrite Z.land_lor_distr_l, <- !Z.land_assoc.
  change (Z.land 0x0F 0xF0) with 0. change (Z.land 0xF0 0xF0) with 0xF0. by rewrite Z.land_0_r.
Qed.

(** An entry that is stored in the segment table is what the processor reads:
    the base, the low 20 bits of the limit, the access byte and the granularity
    flags come back; the other entries keep their value, and an index past the
    table is refused. *)
Theorem gdt_set_entry_spec g index base limit access_ granularity_ :
  length (gdt_entries g) = 6%nat -> 0 <= index -> 0 <= base < 2 ^ 32 -> 0 <= limit -> 0 <= granularity_ ->
  wp (gdt_set_entry index base limit access_ granularity_)
     (fun r g' =>
        if GDT_ENTRIES_COUNT <=? index then r = GDT_RESULT_OUT_OF_BOUNDS /\ g' = g
        else
          r = GDT_RESULT_OK /\ length (gdt_entries g') = 6%nat /\
          (exists e, gdt_entries g' !! Z.to_nat index = Some e /\ descriptor_base e = base /\
             descriptor_limit e = limit mod 2 ^ 20 /\ access e = access_ /\
             descriptor_flags e = Z.land granularity_ 0xF0) /\
          (forall i, i <> Z.to_nat index -> gdt_entries g' !! i = gdt_entries g !! i)) g.
Proof.
  intros Hlen Hi Hb Hl Hg. unfold gdt_set_entry. destruct (Z.leb_spec GDT_ENTRIES_COUNT index) as [Hge|Hlt].
  { by apply wp_ret. }
  unfold GDT_ENTRIES_COUNT in Hlt. destruct (Z.ltb_spec index 0); [lia|]. wp_go. split; [done|]. cbn.
  rewrite length_insert. split; [done|]. split.
  - eexists. split; [apply list_lookup_insert_eq; lia|].
    split; [by apply gdt_entry_base|]. split; [by apply limit_parts|]. split; [done|]. by apply gdt_entry_flags.
  - intros i Hne. by apply list_lookup_insert_ne.
Qed.

(** The selector names a present 32-bit segment that spans the whole address space,
    of the selector's privilege level: readable code or writable data. *)
Definition flat_selector (g : gdt_t) (selector : Z) (code : bool) : Prop :=
  exists e, gdt_entries g !! Z.to_nat (Z.shiftr selector 3) = Some e /\
    descriptor_present e = true /\ descriptor_ring e = Z.land selector 3 /\
    descriptor_segment e = true /\ descriptor_code e = code /\ descriptor_accessible e = true /\ descriptor_plain e = true /\
    descriptor_32bit e = true /\ descriptor_base e = 0 /\ descriptor_end e = 2 ^ 32 - 1.
(** The selector names the TSS at [address], for the kernel only. *)
Definition tss_selector (g : gdt_t) (selector address : Z) : Prop :=
  exists e, gdt_entries g !! Z.to_nat (Z.shiftr selector 3) = Some e /\
    descriptor_present e = true /\ descriptor_ring e = 0 /\ descriptor_system_type e = Some SYSTEM_TSS /\
    descriptor_base e = address /\ descriptor_end e = address + TSS_SIZE - 1.

(** [gdt_create] builds the table that the rest of the kernel relies on: the
    four selectors with which tasks are started (0x08, 0x10, 0x1B and 0x23) name
    flat code and data segments of rings 0 and 3, and the selector 0x28 that is
    loaded into the task register names the TSS, at its address and with its size. *)
Theorem gdt_create_spec g gdt_address tss_address :
  length (gdt_entries g) = 6%nat -> 0 <= tss_address < 2 ^ 32 ->
  wp (gdt_create gdt_address tss_address)
     (fun r g' => r = GDT_RESULT_OK /\
        flat_selector g' 0x08 true /\ flat_selector g' 0x10 false /\
        flat_selector g' 0x1B true /\ flat_selector g' 0x23 false /\
        tss_selector g' 0x28 tss_address /\ gdt_pointer g' = mk_pointer 47 gdt_address) g.
Proof.
  intros Hlen Ht. destruct g as [l p]. cbn in Hlen.
  destruct l as [|e0 [|e1 [|e2 [|e3 [|e4 [|e5 [|]]]]]]]; try (cbn in Hlen; lia).
  unfold gdt_create, gdt_set_entry. wp_go. split; [done|].
  repeat (split; [eexists; split; [reflexivity|]; repeat split; vm_compute; reflexivity|]).
  split; [|vm_compute; reflexivity]. eexists. split; [reflexivity|]. do 3 (split; [reflexivity|]).
  pose proof (gdt_entry_base tss_address (TSS_SIZE - 1) 0x89 GDT_GRANULARITY_BYTE Ht) as Hb. split; [exact Hb|].
  unfold descriptor_end. change (Z.testbit _ 7) with false. cbv iota. rewrite <- Z.add_sub_assoc. by f_equal.
Qed.

(** ** The interrupt table *)

(** Gate [v] enters the kernel at [offset], with interrupts off, and can be called
    from ring [ring] on. *)
Definition gate_at (t : idt_t) (v offset ring : Z) : Prop :=
  exists e, idt_entries t !! Z.to_nat v = Some e /\
    gate_present e = true /\ gate_type e = INTERRUPT_GATE /\
    gate_offset e = offset /\ gate_ring e = ring /\ segment_selector e = 0x08.

Lemma gate_of offset ring attributes :
  0 <= offset < 2 ^ 32 -> attributes = 0x8E + 0x20 * ring -> ring = 0 \/ ring = 3 ->
  let e := idt_entry_of offset 0x08 attributes in
  gate_present e = true /\ gate_type e = INTERRUPT_GATE /\ gate_offset e = offset /\ gate_ring e = ring /\
  segment_selector e = 0x08.
Proof. intros Ho -> [->| ->]; (split_and!; [done|done|by apply word_parts|done|done]). Qed.

(** The entries from [lo] to [hi] are the gates of the stubs, the others are as in [t]. *)
Definition gates_from (stubs : list Z) (lo hi : Z) (t t' : idt_t) : Prop :=
  length (idt_entries t') = 256%nat /\
  (forall v, lo <= v < hi -> exists stub, stubs !! Z.to_nat (v - lo) = Some stub /\ gate_at t' v stub 0) /\
  (forall v, 0 <= v -> ~ lo <= v < hi -> idt_entries t' !! Z.to_nat v = idt_entries t !! Z.to_nat v).

Lemma wp_idt_set_entry t index offset selector attributes Q :
  0 <= index < 256 ->
  Q IDT_RESULT_OK (t <| idt_entries := <[Z.to_nat index := idt_entry_of offset selector attributes]> (idt_entries t) |>) ->
  wp (idt_set_entry index offset selector attributes) Q t.
Proof.
  intros Hi HQ. unfold idt_set_entry, IDT_MAX_ENTRIES_COUNT. destruct (Z.leb_spec 256 index); [lia|].
  destruct (Z.ltb_spec index 0); [lia|]. by wp_go.
Qed.

Lemma wp_set_gates t stubs lo n Q :
  length (idt_entries t) = 256%nat -> 0 <= lo -> 0 <= n -> lo + n <= 256 -> Z.of_nat (length stubs) = n ->
  Forall (fun stub => 0 <= stub < 2 ^ 32) stubs ->
  (forall t', idt_pointer t' = idt_pointer t -> gates_from stubs lo (lo + n) t t' -> Q tt t') ->
  wp (for_range 0 n (fun i =>
        let! stub := of_option (stubs !! Z.to_nat i) in
        do! idt_set_entry (i + lo) stub 0x08 0x8E in ret tt)) Q t.
Proof.
  intros Hlen Hlo Hn Hhi Hstubs Hrange HQ.
  apply (wp_for_range _ _ _ (fun i t' => idt_pointer t' = idt_pointer t /\ gates_from stubs lo (lo + i) t t')).
  - split; [done|]. split; [done|]. split; [intros; lia|done].
  - intros i t' Hi (Hp & Hl & Hg & Hsame). destruct (lookup_lt_is_Some_2 stubs (Z.to_nat i)) as [stub Hs]; [lia|].
    wp_step. eapply wp_of_option; [exact Hs|]. wp_step. apply wp_idt_set_entry; [lia|]. wp_go.
    assert (0 <= stub < 2 ^ 32) as Hsr by (exact (proj1 (Forall_lookup _ _) Hrange _ _ Hs)).
    split; [done|]. split; [by cbn; rewrite length_insert|]. split.
    + intros v Hv. destruct (decide (v = i + lo)) as [->|Hne].
      * exists stub. replace (i + lo - lo) with i by lia. split; [done|].
        eexists. split; [cbn; apply list_lookup_insert_eq; lia|]. apply (gate_of stub 0 0x8E Hsr); auto.
      * destruct (Hg v) as (s & Hs1 & e & He & Hs2); [lia|]. exists s. split; [done|]. exists e.
        split; [cbn; rewrite list_lookup_insert_ne by lia; done|done].
    + intros v Hv Hout. cbn. rewrite list_lookup_insert_ne by lia. apply Hsame; lia.
  - intros t' (Hp & Hg). apply HQ; [done|]. replace (lo + n) with (lo + Z.max 0 n) by lia. done.
Qed.

(** After the initialisation of the interrupt table the 32 exceptions and the 16
    hardware interrupts enter the kernel at their stubs through gates of ring 0;
    the one gate that a user program may call is 0x80, and it leads to the system
    call entry; the other entries are still not present. *)
Definition kernel_gates (isr_stubs : list Z) (isr_syscall : Z) (irq_stubs : list Z) (t' : idt_t) : Prop :=
  forall v, 0 <= v < 256 ->
    if v <? 32 then exists stub, isr_stubs !! Z.to_nat v = Some stub /\ gate_at t' v stub 0
    else if v <? 48 then exists stub, irq_stubs !! Z.to_nat (v - 32) = Some stub /\ gate_at t' v stub 0
    else if v =? 0x80 then gate_at t' v isr_syscall 3
    else exists e, idt_entries t' !! Z.to_nat v = Some e /\ gate_present e = false.
(** The table of a program image: no entry is present. *)
Definition no_gates (t : idt_t) : Prop :=
  length (idt_entries t) = 256%nat /\ forall i e, idt_entries t !! i = Some e -> gate_present e = false.

(** The gates that programs may call. *)
Lemma kernel_gates_user isr_stubs isr_syscall irq_stubs t v e :
  kernel_gates isr_stubs isr_syscall irq_stubs t -> 0 <= v < 256 -> idt_entries t !! Z.to_nat v = Some e ->
  gate_present e = true -> gate_ring e = 3 -> v = 0x80.
Proof.
  intros H Hv He Hp Hr. specialize (H v Hv).
  assert (forall offset, ~ gate_at t v offset 0) as H0.
  { intros offset (e' & He' & _ & _ & _ & Hr' & _). rewrite He in He'. injection He' as <-. lia. }
  destruct (v <? 32); [by destruct H as (? & _ & []%H0)|]. destruct (v <? 48); [by destruct H as (? & _ & []%H0)|].
  destruct (Z.eqb_spec v 0x80); [done|]. destruct H as (e' & He' & Hp'). rewrite He in He'. injection He' as <-. congruence.
Qed.

Lemma wp_idt_create t idt_address isr_stubs isr_syscall Q :
  length (idt_entries t) = 256%nat -> length isr_stubs = 32%nat ->
  Forall (fun stub => 0 <= stub < 2 ^ 32) (isr_syscall :: isr_stubs) ->
  (forall t1 t', gates_from isr_stubs 0 32 t t1 -> length (idt_entries t') = 256%nat ->
     idt_pointer t' = mk_pointer 2047 idt_address -> gate_at t' 0x80 isr_syscall 3 ->
     (forall v, 0 <= v -> v <> 0x80 -> idt_entries t' !! Z.to_nat v = idt_entries t1 !! Z.to_nat v) ->
     Q IDT_RESULT_OK t') ->
  wp (idt_create idt_address isr_stubs isr_syscall) Q t.
Proof.
  intros Hlen Hisr Hrange HQ. pose proof (Forall_inv Hrange) as Hsys. pose proof (Forall_inv_tail Hrange) as Hr1.
  unfold idt_create. wp_step. wp_step. wp_step.
  match goal with |- wp _ _ ?s => set (t0 := s) end.
  assert (length (idt_entries t0) = 256%nat) as Hl0 by done.
  apply (wp_set_gates t0 isr_stubs 0 32); [done|lia|lia|lia|lia|done|]. intros t1 Hp1 Hg1.
  wp_step. apply wp_idt_set_entry; [done|]. wp_go. apply (HQ t1).
  - exact Hg1.
  - cbn. rewrite length_insert. apply Hg1.
  - exact Hp1.
  - eexists. split; [cbn; apply list_lookup_insert_eq; destruct Hg1 as [-> _]; unfold IDT_SYSCALL; lia|].
    apply (gate_of isr_syscall 3 0xEE Hsys); auto.
  - intros v Hv Hne. cbn. rewrite list_lookup_insert_ne; [done|]. unfold IDT_SYSCALL. lia.
Qed.

Lemma wp_irq_set_idt_entries t irq_stubs Q :
  length (idt_entries t) = 256%nat -> length irq_stubs = 16%nat ->
  Forall (fun stub => 0 <= stub < 2 ^ 32) irq_stubs ->
  (forall t', idt_pointer t' = idt_pointer t -> gates_from irq_stubs 32 48 t t' -> Q tt t') ->
  wp (irq_set_idt_entries irq_stubs) Q t.
Proof.
  intros Hlen Hirq Hrange HQ. apply (wp_set_gates t irq_stubs 32 16); [done|lia|lia|lia|lia|done|].
  exact HQ.
Qed.

(** The two parts of the initialisation together. *)
Lemma kernel_gates_intro isr_stubs isr_syscall irq_stubs t t1 t2 t3 :
  no_gates t -> gates_from isr_stubs 0 32 t t1 -> gate_at t2 0x80 isr_syscall 3 ->
  (forall v, 0 <= v -> v <> 0x80 -> idt_entries t2 !! Z.to_nat v = idt_entries t1 !! Z.to_nat v) ->
  gates_from irq_stubs 32 48 t2 t3 -> kernel_gates isr_stubs isr_syscall irq_stubs t3.
Proof.
  intros (Hl & Hno) (Hl1 & Hg1 & Hs1) Hsys H2 (Hl3 & Hg3 & Hs3) v Hv.
  destruct (Z.ltb_spec v 32); [|destruct (Z.ltb_spec v 48); [apply Hg3; lia|]].
  - destruct (Hg1 v ltac:(lia)) as (stub & Hst & e & He & Hgate). rewrite Z.sub_0_r in Hst. exists stub. split; [done|].
    exists e. split; [|done]. rewrite Hs3, H2 by lia. done.
  - destruct (Z.eqb_spec v 0x80) as [->|Hne].
    + destruct Hsys as (e & He & Hgate). exists e. by rewrite Hs3 by lia.
    + destruct (lookup_lt_is_Some_2 (idt_entries t) (Z.to_nat v)) as [e He]; [lia|].
      exists e. rewrite Hs3, H2, Hs1 by lia. split; [done|]. by apply (Hno (Z.to_nat v)).
Qed.

(** ** Witnesses *)

Definition no_gdt : gdt_t := mk_gdt (repeat (mk_gdt_entry 0 0 0 0 0 0) 6) (mk_pointer 0 0).
Definition no_idt : idt_t := mk_idt (repeat (mk_idt_entry 0 0 0 0 0) 256) (mk_pointer 0 0).

Lemma gdt_set_entry_spec_witness :
  wp (gdt_set_entry 5 0xC0123456 103 0x89 0)
     (fun r g' => exists e, gdt_entries g' !! 5%nat = Some e /\ descriptor_base e = 0xC0123456 /\ descriptor_limit e = 103) no_gdt.
Proof.
  eapply wp_mono; [apply (gdt_set_entry_spec no_gdt 5 0xC0123456 103 0x89 0); done|].
  intros r g' (_ & _ & (e & H1 & H2 & H3 & _) & _). by exists e.
Defined.

Lemma gdt_create_spec_witness :
  wp (gdt_create 0xC0110000 0xC0110100) (fun r g' => flat_selector g' 0x1B true /\ flat_selector g' 0x23 false) no_gdt.
Proof.
  eapply wp_mono; [apply (gdt_create_spec no_gdt 0xC0110000 0xC0110100); done|].
  intros r g' (_ & _ & _ & H1 & H2 & _). done.
Defined.
