(* ===== verification/Vga.v ===== *)
(** * VGA text mode (src/drivers/vga.c, include/drivers/vga.h)

    The text memory is the array of 16-bit cells at [VGA_POINTER]; a store outside
    it is a [Fault].  The writes to the ports of the CRT controller are kept as
    the list of (port, value) pairs, newest first. *)
From S2P Require Import Prelude Bitmap Paging KernelHeap Tasks Allocator Files Ports Terminal.

Definition VGA_WIDTH : Z := 80.
Definition VGA_HEIGHT : Z := 25.
Definition VGA_COLOR_BLACK : Z := 0x00.
Definition VGA_COLOR_WHITE : Z := 0x0F.

Record vga_color_t : Type := mk_color { background : Z; foreground : Z }.
Record vga_t : Type := mk_vga {
  color : vga_color_t;
  text_memory : list Z;
  crtc : list (Z * Z);
}.
#[export] Instance vga_fields : Fields vga_t := fun v => mk_vga (color v) (text_memory v) (crtc v).

Inductive vga_result_t : Type := VGA_RESULT_OK.

(** The macro [VGA_COLOR]: both fields have four bits. *)
Definition VGA_COLOR (c : vga_color_t) : Z := Z.lor (Z.shiftl (background c) 4) (foreground c).

Definition vga_set_color (c : vga_color_t) : M vga_t vga_result_t :=
  do! modify (fun v => v <| color := c |>) in ret VGA_RESULT_OK.

(** [character] is a C [char]: a negative one is sign-extended by the [|]. *)
Definition vga_put_char (character x y : Z) : M vga_t unit :=
  let! v := get in
  let i := Z.to_nat (u32 (VGA_WIDTH * y + x)) in
  do! of_option (text_memory v !! i) in
  put (v <| text_memory := <[i := u16 (Z.lor (Z.shiftl (VGA_COLOR (color v)) 8) character)]> (text_memory v) |>).

Definition vga_outb (port data : Z) : M vga_t unit := zoom crtc (fun l v => v <| crtc := l |>) (io_outb port data).

Definition vga_create : M vga_t vga_result_t :=
  do! modify (fun v => v <| color := mk_color VGA_COLOR_BLACK VGA_COLOR_WHITE |>) in
  ret VGA_RESULT_OK.

Definition vga_cursor_disable : M vga_t unit :=
  do! vga_outb 0x3D4 0x0A in
  vga_outb 0x3D5 0x20.

Definition vga_set_cursor (x y : Z) : M vga_t unit :=
  let pos := u16 (u32 (y * VGA_WIDTH + x)) in
  do! vga_outb 0x3D4 0x0F in
  do! vga_outb 0x3D5 (Z.land pos 0xFF) in
  do! vga_outb 0x3D4 0x0E in
  vga_outb 0x3D5 (Z.land (Z.shiftr pos 8) 0xFF).

Definition vga_get_dimensions : M vga_t (Z * Z) := ret (VGA_WIDTH, VGA_HEIGHT).

Definition vga_driver_init : M vga_t unit := do! vga_create in ret tt.

(** ** VGA text mode is a text display *)

#[export] Instance vga_driver : TextDisplay vga_t := {|
  put_char := vga_put_char;
  set_cursor := vga_set_cursor;
  get_dimensions := vga_get_dimensions;
|}.

Record vga_ok (columns rows : Z) (v : vga_t) : Prop := {
  vo_columns : columns = VGA_WIDTH;
  vo_rows : rows = VGA_HEIGHT;
  vo_memory : length (text_memory v) = 2000%nat;
}.

(** The low byte of a cell is its character. *)
Definition vga_shows (v : vga_t) (x y c : Z) : Prop :=
  exists w, text_memory v !! Z.to_nat (VGA_WIDTH * y + x) = Some w /\ u8 w = u8 c.

Lemma low_byte_lor a c : u8 (u16 (Z.lor (Z.shiftl a 8) c)) = u8 c.
Proof.
  unfold u8, u16. apply Z.bits_inj'. intros i Hi.
  destruct (Z.ltb_spec i 8).
  - rewrite !Z.mod_pow2_bits_low by lia. rewrite Z.lor_spec, Z.shiftl_spec_low by lia. done.
  - by rewrite !Z.mod_pow2_bits_high by lia.
Qed.

#[export] Instance vga_laws : TextDisplayLaws vga_t.
Proof.
  refine {| display_ok := vga_ok; shows := vga_shows |}.
  - intros columns rows v c x y [-> -> Hlen] [Hx Hy]. unfold VGA_WIDTH, VGA_HEIGHT in *.
    unfold put_char, vga_driver, vga_put_char. rewrite u32_small by (unfold VGA_WIDTH; lia).
    assert (forall x y, 0 <= x < 80 -> 0 <= y < 25 -> (Z.to_nat (VGA_WIDTH * y + x) < 2000)%nat) as Hin
      by (unfold VGA_WIDTH; intros; lia).
    destruct (lookup_lt_is_Some_2 (text_memory v) (Z.to_nat (VGA_WIDTH * y + x))) as [w Hw]; [rewrite Hlen; auto|].
    wp_go; [exact Hw|]. wp_go. split_and!.
    + split; [done..|]. simpl. by rewrite length_insert.
    + eexists. simpl. split; [apply list_lookup_insert_eq; rewrite Hlen; auto|apply low_byte_lor].
    + intros x' y' c' [Hx' Hy'] Hne (w' & Hw' & Hc'). exists w'. split; [|done]. simpl.
      rewrite list_lookup_insert_ne; [done|]. unfold VGA_WIDTH. intros E. apply Hne.
      assert (y = y') by lia. f_equal; lia.
  - intros columns rows v x y Hok Hon. unfold set_cursor, vga_driver, vga_set_cursor, vga_outb, io_outb. wp_go. split; [by destruct Hok|]. intros x1 y1 c1 _ _ (w & Hw & Hc). by exists w.
  - intros columns rows v [-> -> _]. done.
Defined.

(** ** A terminal on the VGA display *)

Definition demo_vga : vga_t := mk_vga (mk_color 0 15) (repeat 0x0F00 2000) [].
Definition demo_terminal : terminal_t :=
  mk_terminal 0xF0000008 (repeat 0 2000) (mk_point 79 24) TERMINAL_OVERFLOW_NEW_LINE TERMINAL_SCROLL_VERTICAL 80 25.

Lemma demo_vga_ok : vga_ok 80 25 demo_vga.
Proof. done. Qed.

Lemma demo_screen_ok : screen_ok (demo_terminal, demo_vga).
Proof.
  split; [split; simpl; try done; unfold on_screen; lia|].
  split; [done|]. intros x y [Hx Hy] _. change (0 <= x < 80) in Hx. change (0 <= y < 25) in Hy.
  exists 0. split; [apply (lookup_repeat 0 2000); simpl width; lia|]. exists 0x0F00.
  split; [apply (lookup_repeat 0x0F00 2000); unfold VGA_WIDTH; lia|done].
Qed.

(** Typing a character in the last cell scrolls. *)
Lemma terminal_put_char_spec_witness :
  screen_ok (demo_terminal, demo_vga) /\
  wp (terminal_put_char 65)
     (fun r s' => r = TERMINAL_RESULT_OK /\ screen_ok s' /\
        fst s' = with_page (typed 80 25 (page_of demo_terminal) 65) demo_terminal) (demo_terminal, demo_vga).
Proof. split; [exact demo_screen_ok|]. exact (terminal_put_char_spec (demo_terminal, demo_vga) 65 demo_screen_ok). Defined.

Lemma terminal_write_spec_witness :
  wp (terminal_write 10 [72; 105; 10; 0; 72] 5)
     (fun '(r, written) s' => r = RESOURCE_RESULT_OK /\ written = 3) (demo_terminal, demo_vga).
Proof.
  eapply wp_mono.
  { apply (terminal_write_spec 10 (demo_terminal, demo_vga) [72; 105; 10; 0; 72] 5 demo_screen_ok); simpl; lia. }
  intros [r written] s' (Hr & _ & Hw & _). split; [done|]. exact Hw.
Defined.

Lemma terminal_create_spec_witness :
  wp (terminal_create (alloc := demo_allocator))
     (fun '(r, t) s' => r = TERMINAL_RESULT_OK /\ width t = 80 /\ height t = 25) (demo_kernel, demo_vga).
Proof.
  eapply wp_mono.
  { apply (terminal_create_spec (alloc := demo_allocator) (list_to_set demo_live) 490 demo_kernel demo_vga 80 25);
      [exact demo_kernel_inv|exact demo_vga_ok|lia|lia|lia|]. vm_compute. congruence. }
  intros [r t] s' (Hr & _ & Hw & Hh & _). done.
Defined.
