(* ===== verification/Print.v ===== *)
(** * Formatted output (src/print.c, include/print.h)

    The buffer of [vsnprintf] is the list of the bytes of the object it points
    into, which may be longer than [buffer_len]; an index outside it is a
    [Fault].  A format is the list of the bytes from its first character on, the
    terminator and what follows it included: reading past its end is a [Fault].
    The variable arguments are a list; taking one of another type is a [Fault].
    The [int] arithmetic of [%d] wraps where C leaves it undefined. *)
From S2P Require Import Prelude Bitmap Paging KernelHeap Tasks Allocator Files Terminal Vga CString.

Definition FORMATTED_PRINT_NUMBER_BUFFER_LENGTH : Z := 32.
Definition FORMATTED_PRINT_BUFFER : Z := 512.

Inductive argument : Type :=
| VA_INT (n : Z)
| VA_LONG_LONG (n : Z)
| VA_STRING (l : list Z).    (* the characters before the terminator *)

(** The characters that follow [%]: ['%'], ['s'], ['d'], ['c'], ['x'], ['l']. *)
Definition PERCENT : Z := 37.
Definition CONV_S : Z := 115.
Definition CONV_D : Z := 100.
Definition CONV_C : Z := 99.
Definition CONV_X : Z := 120.
Definition CONV_L : Z := 108.

Definition out (i b : Z) : M (list Z) unit :=
  let! l := get in
  do! of_option (l !! Z.to_nat i) in
  put (<[Z.to_nat i := u8 b]> l).

(** The [do] loops that fill [reverse_number_buffer]: they leave it when the
    number is used up or [n] digits, one less than the buffer holds, are stored. *)
Fixpoint reverse_decimal (n : nat) (number : Z) : list Z :=
  match n with
  | O => []
  | S n' =>
      let digit := 48 + Z.rem number 10 in
      let number := Z.quot number 10 in
      digit :: (if number =? 0 then [] else reverse_decimal n' number)
  end.
Fixpoint reverse_hex (n : nat) (number : Z) : list Z :=
  match n with
  | O => []
  | S n' =>
      let digit := number mod 16 in
      let number := number / 16 in
      (if digit <? 10 then 48 + digit else 65 + digit - 10) ::
      (if number =? 0 then [] else reverse_hex n' number)
  end.
Definition NUMBER_DIGITS : nat := Z.to_nat (FORMATTED_PRINT_NUMBER_BUFFER_LENGTH - 1).

Section vsnprintf.
Variable buffer_len : Z.

(** The [while] loops that copy characters as long as there is room; the answer
    is [written]. *)
Fixpoint out_text (l : list Z) (written : Z) : M (list Z) Z :=
  match l with
  | [] => ret written
  | b :: l' =>
      if written + 1 <? buffer_len then
        do! out written b in
        out_text l' (written + 1)
      else ret written
  end.

Definition out_decimal (number written : Z) : M (list Z) Z :=
  let! ' (number, written) :=
    (if number <? 0 then do! out written 45 in ret (i32 (- number), written + 1)
     else ret (number, written)) in
  out_text (rev (reverse_decimal NUMBER_DIGITS number)) written.

Definition out_hex (number written : Z) : M (list Z) Z :=
  do! out written 48 in
  do! out (written + 1) 120 in
  out_text (rev (reverse_hex NUMBER_DIGITS number)) (written + 2).

(** An unknown conversion: [first] and the character itself. *)
Definition out_unknown (first c written : Z) : M (list Z) Z :=
  do! out written first in
  let written := written + 1 in
  do! (if written + 1 <? buffer_len then out written c else ret tt) in
  ret (written + 1).

Fixpoint vsnprintf_loop (fmt : list Z) (args : list argument) (written : Z) : M (list Z) Z :=
  match fmt with
  | [] => fault
  | c :: rest =>
      if c =? 0 then ret written
      else if buffer_len <=? written + 1 then ret written
      else if negb (c =? PERCENT) then
        do! out written c in
        vsnprintf_loop rest args (written + 1)
      else
        match rest with
        | [] => fault
        | c :: rest =>
            if c =? CONV_S then
              match args with
              | VA_STRING l :: args =>
                  let! written := out_text l written in vsnprintf_loop rest args written
              | _ => fault
              end
            else if c =? CONV_D then
              match args with
              | VA_INT n :: args =>
                  let! written := out_decimal (i32 n) written in vsnprintf_loop rest args written
              | _ => fault
              end
            else if c =? CONV_C then
              match args with
              | VA_INT n :: args =>
                  do! out written n in vsnprintf_loop rest args (written + 1)
              | _ => fault
              end
            else if c =? CONV_X then
              match args with
              | VA_INT n :: args =>
                  let! written := out_hex (u32 n) written in vsnprintf_loop rest args written
              | _ => fault
              end
            else if c =? CONV_L then
              match rest with
              | [] => fault
              | c :: rest =>
                  if c =? CONV_X then
                    match args with
                    | VA_LONG_LONG n :: args =>
                        let! written := out_hex (u64 n) written in vsnprintf_loop rest args written
                    | _ => fault
                    end
                  else if c =? CONV_D then
                    match args with
                    | VA_INT n :: args =>
                        let! written := out_decimal (i32 n) written in vsnprintf_loop rest args written
                    | _ => fault
                    end
                  else
                    let! written := out_unknown CONV_L c written in vsnprintf_loop rest args written
              end
            else
              let! written := out_unknown PERCENT c written in vsnprintf_loop rest args written
        end
  end.

Definition vsnprintf (fmt : list Z) (args : list argument) : M (list Z) Z :=
  let! written := vsnprintf_loop fmt args 0 in
  do! out written 0 in
  ret (i32 written).
End vsnprintf.

(** [stack] is what the local buffer holds before, [FORMATTED_PRINT_BUFFER] bytes. *)
Definition printf {D} {driver : TextDisplay D} (stack : list Z) (fmt : list Z) (args : list argument)
  : M (console_t D) Z :=
  fun s => match vsnprintf FORMATTED_PRINT_BUFFER fmt args stack with
           | Ret (written, buffer) =>
               (do! terminal_put_string (char_of_byte <$> until_nul buffer) in ret written) s
           | Fault => Fault
           | NoFuel => NoFuel
           end.

(** The format ["%x"] in a buffer of two bytes writes its terminator one byte past
    the end; so does an unknown conversion. *)
Example vsnprintf_hex_overflow : vsnprintf 2 [37; 120; 0] [VA_INT 1] [0; 0] = Fault.
Proof. reflexivity. Qed.
Example vsnprintf_unknown_overflow : vsnprintf 2 [37; 113; 0] [] [0; 0] = Fault.
Proof. reflexivity. Qed.
(** An empty buffer gets its terminator all the same. *)
Example vsnprintf_empty_buffer : vsnprintf 0 [65; 0] [] [] = Fault.
Proof. reflexivity. Qed.
(** A format that ends in [%] is read past its terminator. *)
Example vsnprintf_trailing_percent : vsnprintf 8 [37; 0] [] (repeat 0 8) = Fault.
Proof. reflexivity. Qed.
(** The most negative number prints as a minus and ten characters that are no
    digits: its negation wraps to itself. *)
Example vsnprintf_int_min :
  vsnprintf 32 [37; 100; 0] [VA_INT (- 2 ^ 31)] (repeat 0 16) =
  Ret (11, [45; 46; 47; 44; 41; 44; 40; 45; 42; 44; 40; 0; 0; 0; 0; 0]).
Proof. reflexivity. Qed.

(** ** What a format means

    The text of a format with its arguments, without a bound on its length. *)
Definition decimal (n : Z) : list Z :=
  if n <? 0 then 45 :: rev (reverse_decimal NUMBER_DIGITS (- n)) else rev (reverse_decimal NUMBER_DIGITS n).
Definition hexadecimal (n : Z) : list Z := 48 :: 120 :: rev (reverse_hex NUMBER_DIGITS n).

(** [renders fmt args text exact]: the format is well formed for the arguments
    and means [text]; [exact] when it has only the conversions that respect any
    bound: not [%x], [%lx] or an unknown one. *)
Inductive renders : list Z -> list argument -> list Z -> bool -> Prop :=
| renders_end rest args : renders (0 :: rest) args [] true
| renders_char c rest args text e :
    0 < c < 256 -> c <> PERCENT -> renders rest args text e -> renders (c :: rest) args (c :: text) e
| renders_s l rest args text e :
    chars l -> renders rest args text e ->
    renders (PERCENT :: CONV_S :: rest) (VA_STRING l :: args) (l ++ text) e
| renders_d n rest args text e :
    - 2 ^ 31 < n < 2 ^ 31 -> renders rest args text e ->
    renders (PERCENT :: CONV_D :: rest) (VA_INT n :: args) (decimal n ++ text) e
| renders_c n rest args text e :
    0 < n < 256 -> renders rest args text e ->
    renders (PERCENT :: CONV_C :: rest) (VA_INT n :: args) (n :: text) e
| renders_x n rest args text e :
    0 <= n < 2 ^ 32 -> renders rest args text e ->
    renders (PERCENT :: CONV_X :: rest) (VA_INT n :: args) (hexadecimal n ++ text) false
| renders_lx n rest args text e :
    0 <= n < 2 ^ 64 -> renders rest args text e ->
    renders (PERCENT :: CONV_L :: CONV_X :: rest) (VA_LONG_LONG n :: args) (hexadecimal n ++ text) false
| renders_ld n rest args text e :
    - 2 ^ 31 < n < 2 ^ 31 -> renders rest args text e ->
    renders (PERCENT :: CONV_L :: CONV_D :: rest) (VA_INT n :: args) (decimal n ++ text) e
| renders_unknown c rest args text e :
    0 < c < 256 -> c ∉ [CONV_S; CONV_D; CONV_C; CONV_X; CONV_L] -> renders rest args text e ->
    renders (PERCENT :: c :: rest) args (PERCENT :: c :: text) false
| renders_unknown_l c rest args text e :
    0 < c < 256 -> c ∉ [CONV_X; CONV_D] -> renders rest args text e ->
    renders (PERCENT :: CONV_L :: c :: rest) args (CONV_L :: c :: text) false.

(** ** Digits *)

(** The digit a character is: ['0'] to ['9'], and ['A'] to ['F'] in base 16. *)
Definition decimal_digit (c : Z) : option Z := if (48 <=? c) && (c <=? 57) then Some (c - 48) else None.
Definition hex_digit (c : Z) : option Z :=
  if (65 <=? c) && (c <=? 70) then Some (c - 65 + 10) else decimal_digit c.

Section numeral.
Variables (digit : Z -> option Z) (radix : Z).
(** The number a text denotes, read from the left; none when a character is no digit. *)
Definition read_digit (v : option Z) (c : Z) : option Z :=
  match v, digit c with Some v, Some d => Some (radix * v + d) | _, _ => None end.
Definition read_number (text : list Z) : option Z := fold_left read_digit text (Some 0).
(** The numeral of a number: it reads as the number and has no needless zero. *)
Definition numeral (text : list Z) (n : Z) : Prop :=
  read_number text = Some n /\ text <> [] /\ (head text = Some 48 -> text = [48]).

Lemma numeral_digit c d : digit c = Some d -> numeral [c] d.
Proof using Type.
  intros H. split_and!; [|done|by intros [= ->]]. unfold read_number, read_digit. cbn. rewrite H. f_equal. lia.
Qed.
Lemma numeral_snoc text q c d :
  digit 48 = Some 0 -> numeral text q -> q <> 0 -> digit c = Some d -> numeral (text ++ [c]) (radix * q + d).
Proof using Type.
  intros H0 (H1 & H2 & H3) Hq Hc. split_and!.
  - unfold read_number in *. rewrite fold_left_app, H1. cbn. by rewrite Hc.
  - by destruct text.
  - destruct text as [|b text]; [done|]. intros [= ->]. specialize (H3 eq_refl). injection H3 as ->.
    unfold read_number, read_digit in H1. cbn in H1. rewrite H0 in H1. injection H1 as <-. lia.
Qed.
End numeral.
Abbreviation decimal_numeral := (numeral decimal_digit 10).
Abbreviation hex_numeral := (numeral hex_digit 16).

Lemma reverse_decimal_chars n number :
  0 <= number -> Forall (fun d => 48 <= d < 58) (reverse_decimal n number).
Proof.
  revert number. induction n as [|n IH]; intros number Hn; cbn [reverse_decimal]; [constructor|].
  rewrite Z.rem_mod_nonneg, Z.quot_div_nonneg by lia. constructor; [zlia|].
  destruct (_ =? 0); [constructor|]. apply IH. zlia.
Qed.

Lemma reverse_decimal_step n number : 0 <= number ->
  reverse_decimal (S n) number =
    48 + number mod 10 :: (if number / 10 =? 0 then [] else reverse_decimal n (number / 10)).
Proof. intros Hn. cbn [reverse_decimal]. by rewrite Z.rem_mod_nonneg, Z.quot_div_nonneg by lia. Qed.

Lemma reverse_decimal_spec n number :
  0 <= number < 10 ^ Z.of_nat (S n) -> decimal_numeral (rev (reverse_decimal (S n) number)) number.
Proof.
  revert number. induction n as [|n IH]; intros number Hn; rewrite Nat2Z.inj_succ, Z.pow_succ_r in Hn by lia;
    rewrite reverse_decimal_step by lia.
  all: assert (decimal_digit (48 + number mod 10) = Some (number mod 10)) as Hd
    by (unfold decimal_digit; destruct (Z.leb_spec 48 (48 + number mod 10)), (Z.leb_spec (48 + number mod 10) 57);
        [cbn; f_equal; lia|zlia..]).
  all: destruct (Z.eqb_spec (number / 10) 0) as [Hz|Hz].
  1, 3: assert (number = number mod 10) as E by zlia; rewrite E at 2; by apply numeral_digit.
  { zlia. }
  cbn [rev]. assert (number = 10 * (number / 10) + number mod 10) as E by zlia. rewrite E at 3.
  apply numeral_snoc; [done|apply IH; zlia|done|done].
Qed.

Lemma hex_digit_char d : 0 <= d < 16 -> hex_digit (if d <? 10 then 48 + d else 65 + d - 10) = Some d.
Proof.
  intros Hd. unfold hex_digit, decimal_digit. destruct (Z.ltb_spec d 10).
  - destruct (Z.leb_spec 65 (48 + d)); [lia|]. destruct (Z.leb_spec 48 (48 + d)), (Z.leb_spec (48 + d) 57); [cbn; f_equal; lia|lia..].
  - destruct (Z.leb_spec 65 (65 + d - 10)), (Z.leb_spec (65 + d - 10) 70); [cbn; f_equal; lia|lia..].
Qed.
Lemma reverse_hex_step n number :
  reverse_hex (S n) number =
    (if number mod 16 <? 10 then 48 + number mod 16 else 65 + number mod 16 - 10) ::
    (if number / 16 =? 0 then [] else reverse_hex n (number / 16)).
Proof. done. Qed.
Lemma reverse_hex_spec n number :
  0 <= number < 16 ^ Z.of_nat (S n) -> hex_numeral (rev (reverse_hex (S n) number)) number.
Proof.
  revert number. induction n as [|n IH]; intros number Hn; rewrite Nat2Z.inj_succ, Z.pow_succ_r in Hn by lia;
    rewrite reverse_hex_step.
  all: pose proof (hex_digit_char (number mod 16) ltac:(zlia)) as Hd.
  all: destruct (Z.eqb_spec (number / 16) 0) as [Hz|Hz].
  1, 3: assert (number = number mod 16) as E by zlia; rewrite E at 4; by apply numeral_digit.
  { zlia. }
  cbn [rev]. assert (number = 16 * (number / 16) + number mod 16) as E by zlia. rewrite E at 5.
  apply numeral_snoc; [done|apply IH; zlia|done|done].
Qed.

(** C28: [%d] prints the decimal numeral of every [int] but the most negative one,
    after a minus sign when it is negative, and [%x] the hexadecimal numeral, with
    capital letters and after [0x], of every unsigned number of 64 bits: digits of
    the base only, no needless zero before them, and the number they denote. *)
Theorem printed_number_value n :
  (- 2 ^ 31 < n < 2 ^ 31 ->
     exists digits, decimal n = (if n <? 0 then [45] else []) ++ digits /\ decimal_numeral digits (Z.abs n)) /\
  (0 <= n < 2 ^ 64 ->
     exists digits, hexadecimal n = [48; 120] ++ digits /\ hex_numeral digits n).
Proof.
  split; intros Hn.
  - exists (rev (reverse_decimal NUMBER_DIGITS (Z.abs n))). split.
    + unfold decimal. destruct (Z.ltb_spec n 0); [rewrite Z.abs_neq by lia|rewrite Z.abs_eq by lia]; reflexivity.
    + change NUMBER_DIGITS with 31%nat. apply reverse_decimal_spec. change (Z.of_nat 31) with 31. lia.
  - eexists. split; [reflexivity|]. change NUMBER_DIGITS with 31%nat. apply reverse_hex_spec.
    change (Z.of_nat 31) with 31. lia.
Qed.

Lemma printed_number_value_witness :
  (exists digits, decimal (-120) = [45] ++ digits /\ decimal_numeral digits 120) /\
  (exists digits, hexadecimal 0xBEEF = [48; 120] ++ digits /\ hex_numeral digits 0xBEEF) /\
  hexadecimal 0xBEEF = [48; 120; 66; 69; 69; 70].
Proof.
  split_and!; [apply (printed_number_value (-120)); lia|apply (printed_number_value 0xBEEF); lia|reflexivity].
Defined.

(** ** The bounded output *)

Lemma reverse_hex_chars n number : 0 <= number -> Forall (fun d => 48 <= d < 71) (reverse_hex n number).
Proof.
  revert number. induction n as [|n IH]; intros number Hn; cbn [reverse_hex]; [constructor|].
  assert (0 <= number mod 16 < 16) by zlia. assert (0 <= number / 16) by zlia.
  constructor; [destruct (Z.ltb_spec (number mod 16) 10); lia|].
  destruct (_ =? 0); [constructor|auto].
Qed.

Lemma Forall_chars (l : list Z) lo hi : 0 < lo -> hi <= 256 -> Forall (fun d => lo <= d < hi) l -> chars l.
Proof. intros Hlo Hhi. apply List.Forall_impl. lia. Qed.

Section bounded.
Variable buffer_len : Z.

Let limit : nat := Z.to_nat (buffer_len - 1).

(** What fits of [pre ++ t]. *)
Definition clip (l : list Z) : list Z := take limit l.

Lemma clip_app l t : clip (clip l ++ t) = clip (l ++ t).
Proof using Type.
  unfold clip. destruct (decide (length l <= limit)%nat).
  - by rewrite (take_ge l) by done.
  - rewrite !take_app_le by (rewrite ?length_take; lia). by rewrite take_take, Nat.min_id.
Qed.
Lemma clip_short l : (length l <= limit)%nat -> clip l = l.
Proof using Type. apply take_ge. Qed.
Lemma clip_full l t : length l = limit -> clip (l ++ t) = l.
Proof using Type. intros H. unfold clip. by rewrite take_app_le, take_ge by lia. Qed.
Lemma clip_length l : (length (clip l) <= limit)%nat.
Proof using Type. unfold clip. rewrite length_take. lia. Qed.

(** What is left to print after [pre ++ t], in the forms the loop needs. *)
Lemma rest_fits (e : bool) pre t text :
  e = true \/ (length pre + length (t ++ text) <= limit)%nat ->
  e = true \/ (length (clip (pre ++ t)) + length text <= limit)%nat.
Proof using Type.
  intros [|H]; [by left|right]. rewrite length_app in H. unfold clip. rewrite length_take, length_app. lia.
Qed.

Variable l0 : list Z.
Hypothesis len_pos : 0 < buffer_len.
Hypothesis len_ok : buffer_len <= Z.of_nat (length l0).

(** The buffer starts with the characters [pre], and past [buffer_len] it is the
    old one. *)
Definition printed (pre l : list Z) : Prop :=
  (exists rest, l = pre ++ rest) /\ length l = length l0 /\
  drop (Z.to_nat buffer_len) l = drop (Z.to_nat buffer_len) l0.

Lemma wp_out pre l b Q :
  printed pre l -> (length pre <= limit)%nat -> 0 <= b < 256 ->
  (forall l', printed (pre ++ [b]) l' -> Q tt l') -> wp (out (Z.of_nat (length pre)) b) Q l.
Proof using len_pos len_ok.
  intros [[rest ->] [Hlen Hdrop]] Hpre Hb HQ. unfold out. rewrite Nat2Z.id.
  destruct rest as [|c rest]; [rewrite app_nil_r in Hlen; unfold limit in Hpre; lia|].
  wp_go; [by rewrite lookup_app_r, Nat.sub_diag|]. wp_go. unfold u8. rewrite Z.mod_small by lia. apply HQ.
  assert (<[length pre := b]> (pre ++ c :: rest) = (pre ++ [b]) ++ rest) as ->.
  { rewrite insert_app_r_alt, Nat.sub_diag by done. by rewrite <- app_assoc. }
  split; [by exists rest|]. rewrite <- app_assoc. rewrite length_app in *. simpl in *.
  split; [done|]. rewrite <- Hdrop. rewrite !drop_app_ge by (unfold limit in Hpre; lia).
  destruct (Z.to_nat buffer_len - length pre)%nat eqn:E; [unfold limit in Hpre; lia|done].
Qed.

Lemma wp_out_text t pre l Q :
  chars t -> printed pre l -> (length pre <= limit)%nat ->
  (forall l', printed (clip (pre ++ t)) l' -> Q (Z.of_nat (length (clip (pre ++ t)))) l') ->
  wp (out_text buffer_len t (Z.of_nat (length pre))) Q l.
Proof using len_pos len_ok.
  revert pre l. induction t as [|b t IH]; intros pre l Ht Hl Hpre HQ; cbn [out_text].
  - apply wp_ret. rewrite app_nil_r, clip_short in HQ by done. by apply HQ.
  - apply chars_cons in Ht as [Hb Ht].
    destruct (Z.ltb_spec (Z.of_nat (length pre) + 1) buffer_len).
    + wp_step. apply wp_out; [done|done|lia|]. intros l1 Hl1.
      replace (Z.of_nat (length pre) + 1) with (Z.of_nat (length (pre ++ [b])))
        by (rewrite length_app; simpl; lia).
      apply IH; [done|done|rewrite length_app; simpl; unfold limit; lia|].
      rewrite <- app_assoc. exact HQ.
    + wp_step. rewrite clip_full in HQ by (unfold limit in *; lia). by apply HQ.
Qed.

(** A full buffer takes nothing more, whatever is left of the format. *)
Lemma wp_full fmt args text e pre l Q :
  renders fmt args text e -> printed pre l -> length pre = limit ->
  Q (Z.of_nat (length pre)) l -> wp (vsnprintf_loop buffer_len fmt args (Z.of_nat (length pre))) Q l.
Proof using len_pos.
  intros Hr Hl Hpre HQ. destruct fmt as [|c rest]; [by inversion Hr|]. cbn [vsnprintf_loop].
  destruct (c =? 0); [by apply wp_ret|].
  destruct (Z.leb_spec buffer_len (Z.of_nat (length pre) + 1)); [by apply wp_ret|unfold limit in Hpre; lia].
Qed.

Lemma decimal_parts n :
  - 2 ^ 31 < n < 2 ^ 31 ->
  chars (rev (reverse_decimal NUMBER_DIGITS n)) \/ n < 0 /\ chars (rev (reverse_decimal NUMBER_DIGITS (- n))).
Proof using Type.
  clear. intros Hn. assert (forall k, 0 <= k < 2 ^ 31 -> chars (rev (reverse_decimal NUMBER_DIGITS k))) as H.
  { intros k Hk. eapply (Forall_chars _ 48 58); [lia|lia|]. apply Forall_rev.
    apply reverse_decimal_chars. lia. }
  destruct (Z.ltb_spec n 0); [right; split; [done|]; apply H; lia|left; apply H; lia].
Qed.

Lemma wp_out_decimal n pre l Q :
  - 2 ^ 31 < n < 2 ^ 31 -> printed pre l -> (length pre < limit)%nat ->
  (forall l', printed (clip (pre ++ decimal n)) l' -> Q (Z.of_nat (length (clip (pre ++ decimal n)))) l') ->
  wp (out_decimal buffer_len (i32 n) (Z.of_nat (length pre))) Q l.
Proof using len_pos len_ok.
  intros Hn Hl Hpre HQ. unfold out_decimal, decimal in *. rewrite i32_small by lia. wp_step.
  destruct (Z.ltb_spec n 0).
  - wp_step. apply wp_out; [done|lia|lia|]. intros l1 Hl1. wp_go. rewrite i32_small by lia.
    replace (Z.of_nat (length pre) + 1) with (Z.of_nat (length (pre ++ [45]))) by (rewrite length_app; simpl; lia).
    apply wp_out_text; [|done|rewrite length_app; simpl; lia|].
    + destruct (decimal_parts n Hn) as [|[]]; [|done]. destruct (decimal_parts (- n) ltac:(lia)) as [|[]]; [done|lia].
    + rewrite <- app_assoc. exact HQ.
  - wp_go. apply wp_out_text; [|done|lia|exact HQ]. destruct (decimal_parts n Hn) as [|[]]; [done|lia].
Qed.

(** Two characters and then as much as fits of [t], when everything fits. *)
Lemma wp_out_hex n pre l Q :
  0 <= n -> printed pre l -> (length (pre ++ hexadecimal n) <= limit)%nat ->
  (forall l', printed (pre ++ hexadecimal n) l' -> Q (Z.of_nat (length (pre ++ hexadecimal n))) l') ->
  wp (out_hex buffer_len n (Z.of_nat (length pre))) Q l.
Proof using len_pos len_ok.
  intros Hn Hl Hpre HQ. unfold out_hex, hexadecimal in *. set (t := rev (reverse_hex NUMBER_DIGITS n)) in *.
  rewrite length_app in Hpre. simpl in Hpre.
  wp_step. apply wp_out; [done|lia|lia|]. intros l1 Hl1. wp_step.
  replace (Z.of_nat (length pre) + 1) with (Z.of_nat (length (pre ++ [48]))) by (rewrite length_app; simpl; lia).
  apply wp_out; [done|rewrite length_app; simpl; lia|lia|]. intros l2 Hl2.
  replace (Z.of_nat (length pre) + 2) with (Z.of_nat (length ((pre ++ [48]) ++ [120])))
    by (rewrite !length_app; simpl; lia).
  apply wp_out_text; [|done|rewrite !length_app; simpl; lia|].
  { apply (Forall_chars _ 48 71); [lia|lia|]. by apply Forall_rev, reverse_hex_chars. }
  intros l3. rewrite <- !app_assoc. simpl. rewrite clip_short; [apply HQ|]. rewrite length_app. simpl. lia.
Qed.

Lemma wp_out_unknown first c pre l Q :
  0 <= first < 256 -> 0 <= c < 256 -> printed pre l -> (length pre + 2 <= limit)%nat ->
  (forall l', printed (pre ++ [first; c]) l' -> Q (Z.of_nat (length (pre ++ [first; c]))) l') ->
  wp (out_unknown buffer_len first c (Z.of_nat (length pre))) Q l.
Proof using len_pos len_ok.
  intros Hf Hc Hl Hpre HQ. unfold out_unknown. wp_step. apply wp_out; [done|lia|lia|]. intros l1 Hl1.
  assert (Z.of_nat (length pre) + 1 = Z.of_nat (length (pre ++ [first]))) as E by (rewrite length_app; simpl; lia).
  destruct (Z.ltb_spec (Z.of_nat (length pre) + 1 + 1) buffer_len); [|unfold limit in Hpre; lia].
  wp_step. rewrite E. apply wp_out; [done|rewrite length_app; simpl; lia|lia|]. intros l2 Hl2. wp_step.
  rewrite <- app_assoc in Hl2. specialize (HQ l2 Hl2). rewrite length_app in *. simpl in *.
  by replace (Z.of_nat (length pre + 1) + 1) with (Z.of_nat (length pre + 2)) by lia.
Qed.

(** Decides the tests on constant characters that lead to a conversion. *)
Ltac known_conversion :=
  repeat match goal with
    | |- context [?a =? ?b] =>
        let v := eval vm_compute in (a =? b) in
        match v with
        | true => change (a =? b) with true
        | false => change (a =? b) with false
        end
    end; cbv beta iota delta [negb].

(** There is room for one more character. *)
Ltac room_left :=
  match goal with |- context [buffer_len <=? ?w] =>
    destruct (Z.leb_spec buffer_len w); [unfold limit in *; lia|] end.
(** The rest of the format, after a conversion that respects any bound. *)
Ltac conversion_done :=
  match goal with
  | IH : _ -> forall pre l Q, _ |- _ =>
      intros ? ?; apply IH; [done|done|apply clip_length|by apply rest_fits|]; rewrite clip_app, <- app_assoc; done
  end.

(** The same after a conversion whose text fits. *)
Ltac fitting_done :=
  match goal with
  | IH : _ -> forall pre l Q, _ |- _ =>
      intros ? ?; apply IH; [done|done|rewrite ?length_app in *; cbn [length] in *; lia
                            |right; rewrite ?length_app in *; cbn [length] in *; lia|];
      rewrite <- app_assoc; done
  end.
(** A character that selects no conversion. *)
Ltac unknown_conversion :=
  repeat match goal with
    | |- context [?c =? ?k] =>
        is_var c; destruct (Z.eqb_spec c k) as [->|?]; [exfalso; set_solver|]
    end; wp_step.

Lemma wp_vsnprintf_loop fmt args text e :
  renders fmt args text e -> forall pre l Q,
  printed pre l -> (length pre <= limit)%nat ->
  e = true \/ (length pre + length text <= limit)%nat ->
  (forall l', printed (clip (pre ++ text)) l' -> Q (Z.of_nat (length (clip (pre ++ text)))) l') ->
  wp (vsnprintf_loop buffer_len fmt args (Z.of_nat (length pre))) Q l.
Proof using len_pos len_ok.
  intros Hr. pose proof Hr as Hr0. revert Hr.
  induction Hr0; intros Hr pre l0' Q Hl Hpre Hfits HQ;
    (destruct (decide (length pre = limit)) as [Hfull|Hroom];
     [eapply wp_full; [exact Hr|done|done|]; rewrite clip_full in HQ by done; by apply HQ|]);
    cbn [vsnprintf_loop]; known_conversion.
  - (* the terminator *) wp_step. rewrite app_nil_r, clip_short in HQ by done. by apply HQ.
  - (* an ordinary character *)
    destruct (Z.eqb_spec c 0); [lia|]. destruct (Z.leb_spec buffer_len (Z.of_nat (length pre) + 1)); [unfold limit in *; lia|].
    destruct (Z.eqb_spec c PERCENT); [done|]. cbv beta iota delta [negb]. wp_step.
    apply wp_out; [done|lia|lia|]. intros l1 Hl1.
    replace (Z.of_nat (length pre) + 1) with (Z.of_nat (length (pre ++ [c]))) by (rewrite length_app; simpl; lia).
    apply IHHr0; [done|done|rewrite length_app; simpl; lia| |].
    + destruct Hfits as [|Hf]; [by left|right]. rewrite length_app. simpl in *. lia.
    + rewrite <- app_assoc. exact HQ.
  - room_left. wp_step. apply wp_out_text; [done|done|lia|]. conversion_done.
  - room_left. wp_step. apply wp_out_decimal; [done|done|lia|]. conversion_done.
  - room_left. wp_step. apply wp_out; [done|lia|lia|]. intros l1 Hl1.
    replace (Z.of_nat (length pre) + 1) with (Z.of_nat (length (pre ++ [n]))) by (rewrite length_app; simpl; lia).
    apply IHHr0; [done|done|rewrite length_app; simpl; lia| |].
    + destruct Hfits as [|Hf]; [by left|right]. rewrite length_app. simpl in *. lia.
    + rewrite <- app_assoc. exact HQ.
  - room_left. wp_step. rewrite u32_small by lia. destruct Hfits as [|Hf]; [done|].
    apply wp_out_hex; [lia|done|rewrite !length_app in *; lia|]. fitting_done.
  - room_left. wp_step. unfold u64. rewrite Z.mod_small by lia. destruct Hfits as [|Hf]; [done|].
    apply wp_out_hex; [lia|done|rewrite !length_app in *; lia|]. fitting_done.
  - room_left. wp_step. apply wp_out_decimal; [done|done|lia|]. conversion_done.
  - destruct Hfits as [|Hf]; [done|]. simpl in Hf. room_left. unknown_conversion.
    apply wp_out_unknown; [by vm_compute|lia|done|lia|]. fitting_done.
  - destruct Hfits as [|Hf]; [done|]. simpl in Hf. room_left. unknown_conversion.
    apply wp_out_unknown; [by vm_compute|lia|done|lia|]. fitting_done.
Qed.
End bounded.

(** C27: for a well-formed format without [%x] or unknown conversions
    [vsnprintf] prints, into a buffer of any positive length, as much of the
    format's text as fits before the terminator, terminates it, answers the number
    of characters it stored and touches no byte past the length; for the other
    formats it does so when the whole text fits. *)
Theorem vsnprintf_spec buffer_len fmt args text e l :
  renders fmt args text e ->
  0 < buffer_len -> buffer_len <= Z.of_nat (length l) -> buffer_len < 2 ^ 31 ->
  e = true \/ Z.of_nat (length text) < buffer_len ->
  let printed_text := take (Z.to_nat (buffer_len - 1)) text in
  wp (vsnprintf buffer_len fmt args)
     (fun r l' => r = Z.of_nat (length printed_text) /\
        (exists rest, l' = printed_text ++ 0 :: rest) /\ length l' = length l /\
        drop (Z.to_nat buffer_len) l' = drop (Z.to_nat buffer_len) l) l.
Proof.
  intros Hr Hpos Hlen Hmax Hfits printed_text. unfold vsnprintf. wp_step.
  assert (printed buffer_len l [] l) as Hl by (split; [by exists l|done]).
  apply (wp_vsnprintf_loop buffer_len l Hpos Hlen fmt args text e Hr []); [exact Hl|simpl; lia| |].
  { destruct Hfits as [|Hf]; [by left|right]. simpl. lia. }
  simpl. unfold clip. fold printed_text. intros l' Hl'.
  assert (length printed_text <= Z.to_nat (buffer_len - 1))%nat as Hshort
    by (unfold printed_text; rewrite length_take; lia).
  wp_step. eapply (wp_out buffer_len l Hpos Hlen); [exact Hl'|exact Hshort|lia|].
  intros l2 [[rest ->] [Hlen2 Hdrop2]]. wp_step. rewrite i32_small by lia.
  split_and!; [done| |done|done]. exists rest. by rewrite <- app_assoc.
Qed.

Lemma vsnprintf_spec_witness :
  wp (vsnprintf 6 [110; 61; 37; 100; 33; 0] [VA_INT (-120)])
     (fun r l' => r = 5 /\ exists rest, l' = [110; 61; 45; 49; 50; 0] ++ rest) (repeat 7 8).
Proof.
  assert (renders [110; 61; 37; 100; 33; 0] [VA_INT (-120)] [110; 61; 45; 49; 50; 48; 33] true) as Hr.
  { apply renders_char; [lia|done|]. apply renders_char; [lia|done|].
    apply (renders_d (-120) [33; 0] [] [33] true); [lia|]. apply renders_char; [lia|done|]. apply renders_end. }
  eapply wp_mono; [apply (vsnprintf_spec 6 _ _ _ _ (repeat 7 8) Hr)|]; [lia|simpl; lia|lia|by left|].
  intros r l' (-> & [rest ->] & _). split; [done|]. by exists rest.
Defined.
