(* ===== verification/Interrupts.v ===== *)
(** * Interrupts (src/irq.c, src/idt.c, the set-up of the timer and the keyboard)

    The dispatch of exceptions, system calls and hardware interrupts to the rest
    of the kernel.  The two functions the drivers register are the values of
    [irq_handler_function]; NULL is [None]. *)
From S2P Require Import Prelude Bitmap Paging KernelHeap Tasks TaskManager Allocator Keyboard Terminal Framebuffer Files VfsCache Resource Vfs CString Memory Process Elf Syscall Print Ports Segments.

Inductive irq_handler_function : Type :=
| timer_irq
| keyboard_irq.
Inductive irq_result_t : Type :=
| IRQ_RESULT_OK
| IRQ_RESULT_INDEX_ALREADY_IN_USE
| IRQ_RESULT_OUT_OF_BOUNDS.

Record interrupts_t : Type := mk_interrupts {
  kernel_state : fs_t;
  irq_handlers : list (option irq_handler_function);
  ports : ports_t;
}.
#[export] Instance interrupts_fields : Fields interrupts_t := fun s =>
  mk_interrupts (kernel_state s) (irq_handlers s) (ports s).

Definition on_kernel_state {A} (op : M fs_t A) : M interrupts_t A :=
  zoom kernel_state (fun k s => s <| kernel_state := k |>) op.
Definition on_ports {A} (op : M ports_t A) : M interrupts_t A := zoom ports (fun p s => s <| ports := p |>) op.

(** ** The table of handlers *)

Definition irq_reset_handlers : M interrupts_t unit :=
  for_range 0 IRQ_MAX_ENTRIES_COUNT (fun i =>
    modify (fun s => s <| irq_handlers := <[Z.to_nat i := None]> (irq_handlers s) |>)).

Definition irq_register_handler (irq_index : Z) (handler : irq_handler_function) : M interrupts_t irq_result_t :=
  if IRQ_MAX_ENTRIES_COUNT - 1 <? irq_index then ret IRQ_RESULT_OUT_OF_BOUNDS
  else
    let! s := get in
    let! present := of_option (irq_handlers s !! Z.to_nat irq_index) in
    match present with
    | Some _ => ret IRQ_RESULT_INDEX_ALREADY_IN_USE
    | None =>
        do! modify (fun s => s <| irq_handlers := <[Z.to_nat irq_index := Some handler]> (irq_handlers s) |>) in
        ret IRQ_RESULT_OK
    end.

Definition irq_remove_handler (irq_index : Z) : M interrupts_t irq_result_t :=
  if IRQ_MAX_ENTRIES_COUNT - 1 <? irq_index then ret IRQ_RESULT_OUT_OF_BOUNDS
  else
    do! modify (fun s => s <| irq_handlers := <[Z.to_nat irq_index := None]> (irq_handlers s) |>) in
    ret IRQ_RESULT_OK.

Definition timer_module_init : M interrupts_t unit :=
  do! on_ports timer_set_phase in
  do! irq_register_handler 0 timer_irq in ret tt.
Definition keyboard_driver_init : M interrupts_t unit :=
  do! irq_register_handler 1 keyboard_irq in ret tt.

Section interrupts.
Context {alloc : Allocator kernel_t} {systems : FileSystems} {old : OldNodes}.
Variable base : Z.
Variable fuel : nat.
Variable stale_header : list Z.
Variable stale_program_header : Z -> list Z.
(** What the buffer of [printf] holds before. *)
Variable stale_print : list Z.
(** [&keyboard], and what its port answers. *)
Variables keyboard_address scancode : Z.

(** ** Hardware interrupts *)

Definition run_irq_handler (handler : irq_handler_function) (frame : register_interrupt_data_t) : M fs_t unit :=
  match handler with
  | timer_irq => on_os (timer_irq_handler base fuel (reg_cs frame =? TASK_MANAGER_KERNEL_CODE_SELECTOR))
  | keyboard_irq =>
      zoom (fun s => mk_keyboard_os (os s) (dev_keyboard (devices s)))
        (fun k s => s <| os := kb_os k |> <| devices := (devices s) <| dev_keyboard := keyboard k |> |>)
        (keyboard_irq_handler fuel keyboard_address scancode)
  end.

Definition irq_handler (data : Z) : M interrupts_t unit :=
  let! frame := on_kernel_state (on_machine_of (load_frame data)) in
  let irq_index := i32 (interrupt_index frame - PIC1_REMAPPED_VECTOR) in
  if irq_index <? 0 then fault
  else
    let! s := get in
    let! handler := of_option (irq_handlers s !! Z.to_nat irq_index) in
    do! match handler with
        | Some handler => on_kernel_state (run_irq_handler handler frame)
        | None => ret tt
        end in
    on_ports (pic_send_eoi irq_index).

(** ** Exceptions and system calls *)

Definition SYSCALL_SIGILL : Z := 4.
Definition SYSCALL_SIGTRAP : Z := 5.
Definition SYSCALL_SIGABRT : Z := 6.
Definition SYSCALL_SIGBUS : Z := 7.
Definition SYSCALL_SIGFPE : Z := 8.
Definition SYSCALL_SIGSEGV : Z := 11.

Definition exception_signals : list Z :=
  [SYSCALL_SIGFPE; SYSCALL_SIGTRAP; SYSCALL_SIGABRT; SYSCALL_SIGTRAP; SYSCALL_SIGFPE; SYSCALL_SIGSEGV;
   SYSCALL_SIGILL; SYSCALL_SIGFPE; SYSCALL_SIGABRT; SYSCALL_SIGFPE; SYSCALL_SIGSEGV; SYSCALL_SIGBUS;
   SYSCALL_SIGBUS; SYSCALL_SIGSEGV; SYSCALL_SIGSEGV; SYSCALL_SIGABRT; SYSCALL_SIGFPE; SYSCALL_SIGBUS;
   SYSCALL_SIGABRT; SYSCALL_SIGFPE; SYSCALL_SIGSEGV] ++ repeat SYSCALL_SIGABRT 11.

(** The two messages, with their terminators. *)
Definition exception_format : list Z :=
  [10; 10; 69; 120; 99; 101; 112; 116; 105; 111; 110; 32; 35; 37; 120; 58; 32; 69; 114; 114; 111; 114;
    32; 67; 111; 100; 101; 58; 32; 37; 120; 10; 82; 101; 103; 105; 115; 116; 101; 114; 115; 58; 10; 103;
    115; 32; 61; 32; 37; 120; 44; 32; 102; 115; 32; 61; 32; 37; 120; 44; 32; 101; 115; 32; 61; 32; 37;
    120; 44; 32; 100; 115; 32; 61; 32; 37; 120; 10; 101; 100; 105; 32; 61; 32; 37; 120; 44; 32; 101; 115;
    105; 32; 61; 32; 37; 120; 44; 32; 101; 98; 112; 32; 61; 32; 37; 120; 44; 32; 101; 98; 120; 32; 61;
    32; 37; 120; 44; 32; 101; 100; 120; 32; 61; 32; 37; 120; 44; 32; 101; 99; 120; 32; 61; 32; 37; 120;
    44; 32; 101; 97; 120; 32; 61; 32; 37; 120; 10; 101; 105; 112; 32; 61; 32; 37; 120; 44; 32; 99; 115;
    32; 61; 32; 37; 120; 44; 32; 101; 102; 108; 97; 103; 115; 32; 61; 32; 37; 120; 44; 32; 117; 115; 101;
    114; 101; 115; 112; 32; 61; 32; 37; 120; 44; 32; 115; 115; 32; 61; 32; 37; 120; 0].
Definition terminating_format : list Z :=
  [10; 91; 116; 101; 114; 109; 105; 110; 97; 116; 105; 110; 103; 32; 117; 115; 101; 114; 32; 116; 97;
    115; 107; 93; 10; 0].

Definition print {A} (op : M (console_t framebuffer_t) A) : M fs_t A :=
  zoom (fun s => (dev_terminal (devices s), dev_framebuffer (devices s)))
    (fun '(t, f) s => s <| devices := (devices s) <| dev_terminal := t |> <| dev_framebuffer := f |> |>) op.
Definition print_exception (r : register_interrupt_data_t) : M fs_t Z :=
  print (printf stale_print exception_format
    (VA_INT <$> [interrupt_index r; error_code r; reg_gs r; reg_fs r; reg_es r; reg_ds r; reg_edi r; reg_esi r;
                 reg_ebp r; reg_ebx r; reg_edx r; reg_ecx r; reg_eax r; reg_eip r; reg_cs r; reg_eflags r;
                 reg_useresp r; reg_ss r])).

(** An exception of the kernel halts the machine. *)
Inductive isr_outcome : Type := ISR_RETURNED | ISR_HALTED.

Definition isr_handler (data : Z) : M fs_t isr_outcome :=
  let! frame := on_machine_of (load_frame data) in
  if interrupt_index frame <? PIC1_REMAPPED_VECTOR then
    if negb (Z.land (reg_cs frame) 0x3 =? 3) then
      do! print_exception frame in ret ISR_HALTED
    else
      let! s := get in
      let faulting_task := task_current (task_manager (os s)) in
      if faulting_task =? 0 then ret ISR_RETURNED
      else
        let! sig := of_option (exception_signals !! Z.to_nat (interrupt_index frame)) in
        let! t := on_os (load_task faulting_task) in
        let handler := handler_of t sig in
        if negb (handler =? SYSCALL_SIG_DFL) && negb (handler =? SYSCALL_SIG_IGN) then
          do! task_manager_deliver_signal base fuel faulting_task sig handler in ret ISR_RETURNED
        else
          do! print_exception frame in
          do! print (printf stale_print terminating_format []) in
          do! on_os (task_manager_exit_task base fuel faulting_task (Z.land sig 0x7F)) in
          do! on_os (task_manager_yield_current base fuel) in
          ret ISR_RETURNED
  else if interrupt_index frame =? IDT_SYSCALL then
    do! syscall_handler base fuel stale_header stale_program_header data in ret ISR_RETURNED
  else ret ISR_RETURNED.
End interrupts.

(** ** Properties *)

(** Handlers are registered for the sixteen interrupt lines once: a line past
    the table is OUT_OF_BOUNDS and a line in use ALREADY_IN_USE, both without
    effect; a free line gets the handler and every other line keeps its own. *)
Theorem irq_register_handler_spec s irq_index handler :
  length (irq_handlers s) = 16%nat -> 0 <= irq_index ->
  wp (irq_register_handler irq_index handler)
     (fun r s' =>
        if 16 <=? irq_index then r = IRQ_RESULT_OUT_OF_BOUNDS /\ s' = s
        else if bool_decide (is_Some (mjoin (irq_handlers s !! Z.to_nat irq_index)))
        then r = IRQ_RESULT_INDEX_ALREADY_IN_USE /\ s' = s
        else r = IRQ_RESULT_OK /\ kernel_state s' = kernel_state s /\ ports s' = ports s /\
             length (irq_handlers s') = 16%nat /\
             forall i, irq_handlers s' !! i = if decide (i = Z.to_nat irq_index) then Some (Some handler)
                                              else irq_handlers s !! i) s.
Proof.
  intros Hlen Hi. unfold irq_register_handler, IRQ_MAX_ENTRIES_COUNT.
  destruct (Z.leb_spec 16 irq_index), (Z.ltb_spec (16 - 1) irq_index); try lia.
  { by apply wp_ret. }
  destruct (lookup_lt_is_Some_2 (irq_handlers s) (Z.to_nat irq_index)) as [present Hp]; [lia|].
  wp_step. wp_step. wp_step. eapply wp_of_option; [exact Hp|]. rewrite Hp. destruct present as [h|]; cbn [mjoin option_join].
  - rewrite bool_decide_eq_true_2 by (by exists h). by apply wp_ret.
  - rewrite bool_decide_eq_false_2 by (intros [? [=]]). wp_go. cbn. rewrite length_insert.
    split_and!; [done|done|done|done|]. intros i. case_decide as E.
    + subst i. apply list_lookup_insert_eq. lia.
    + apply list_lookup_insert_ne. congruence.
Qed.

Definition demo_interrupts : interrupts_t := mk_interrupts demo_fs (repeat None 16) [].

Lemma irq_register_handler_spec_witness :
  wp (irq_register_handler 1 keyboard_irq)
     (fun r s' => r = IRQ_RESULT_OK /\ irq_handlers s' !! 1%nat = Some (Some keyboard_irq)) demo_interrupts.
Proof.
  eapply wp_mono; [apply (irq_register_handler_spec demo_interrupts 1 keyboard_irq); [done|lia]|].
  intros r s' (H1 & _ & _ & _ & H2). split; [exact H1|exact (H2 1%nat)].
Defined.
