(* ===== verification/Quiet.v ===== *)
(** * What the file systems and most system calls leave alone

    Opening, reading, writing and naming files, moving the break, loading a
    program: none of this touches what the scheduler looks at, nor the identity of
    a task or the call in progress.  [quiet] is that part of the state; the proofs
    follow the structure of the code ([Keeps]). *)
From S2P Require Import Prelude Keeps Bitmap Paging KernelHeap Tasks TaskManager Allocator Keyboard Terminal Framebuffer Files VfsCache Resource Vfs Ramfs RamfsLaws CString Memory Scheduler Process Elf Syscall Devfs Print Interrupts.

Definition look_of (t : task_t) : sched_t * Z := (sched_of t, task_id t).
Definition look : os_t -> Z * gmap Z (sched_t * Z) * task_manager_t := seen look_of.
Definition quiet (s : fs_t) : Z * gmap Z (sched_t * Z) * task_manager_t * syscall_t := (look (os s), syscall s).

(** ** Rules *)

Lemma keeps_fmap {S A X Y} (h : X -> Y) (f : S -> X) (m : M S A) : Keeps f m -> Keeps (fun s => h (f s)) m.
Proof. intros H s a s' E. f_equal. by apply (H s a). Qed.
Lemma keeps_on_os {A} (op : M os_t A) : Keeps look op -> Keeps quiet (on_os op).
Proof. apply keeps_zoom. intros o s H. unfold quiet. simpl. by f_equal. Qed.
Lemma keeps_on_kernel {A} (op : M kernel_t A) : Keeps look (on_kernel op).
Proof. apply keeps_zoom_out. reflexivity. Qed.
Lemma keeps_look_task p f : (forall t, look_of (f t) = look_of t) -> Keeps look (update_task p f).
Proof. apply keeps_update_task. Qed.

(** The operations of the file systems and devices. *)
Record quiet_table (t : vfs_node_operations_t) : Prop := {
  qt_lookup f d c : op_lookup t = Some f -> Keeps quiet (f d c);
  qt_readdir f d i : op_readdir t = Some f -> Keeps quiet (f d i);
  qt_read f d o n : op_read t = Some f -> Keeps quiet (f d o n);
  qt_write f d o l : op_write t = Some f -> Keeps quiet (f d o l);
  qt_size f d : op_size t = Some f -> Keeps quiet (f d);
  qt_create f d n k : op_create t = Some f -> Keeps quiet (f d n k);
  qt_truncate f d : op_truncate t = Some f -> Keeps quiet (f d);
  qt_link f d n x : op_link t = Some f -> Keeps quiet (f d n x);
  qt_unlink f d n : op_unlink t = Some f -> Keeps quiet (f d n);
  qt_ioctl f d c a : op_ioctl t = Some f -> Keeps quiet (f d c a);
  qt_release f d : op_release t = Some f -> Keeps quiet (f d);
}.
Class QuietSystems {systems : FileSystems} := quiet_tables t : quiet_table (table_of t).

Ltac quiet_by law t := eapply (law _ (quiet_tables t)); eassumption.
Ltac quiet_op t :=
  first [quiet_by qt_lookup t | quiet_by qt_readdir t | quiet_by qt_read t | quiet_by qt_write t
        |quiet_by qt_size t | quiet_by qt_create t | quiet_by qt_truncate t | quiet_by qt_link t
        |quiet_by qt_unlink t | quiet_by qt_ioctl t | quiet_by qt_release t].

(** One construct of the code, an operation of a table, or the body of a function. *)
Ltac head_of t := match t with ?f _ => head_of f | _ => t end.
Ltac quiet_step :=
  match goal with
  | |- Keeps _ _ => solve [auto 2 with keeps nocore]
  | |- Keeps quiet (on_os _) => apply keeps_on_os
  | |- Keeps look (on_kernel _) => apply keeps_on_kernel
  | |- Keeps look (update_task _ _) => apply keeps_look_task; intros; try solve [reflexivity | by case_match | auto]
  | |- Keeps _ (bind _ _) => apply keeps_bind; [|intros]
  | |- Keeps _ (modify _) => apply keeps_modify; intros; solve [reflexivity]
  | |- Keeps _ (loop _ _ _) => apply keeps_loop; intros
  | |- Keeps _ (for_range _ _ _) => apply keeps_for_range; intros
  | |- Keeps _ (for_each _ _) => apply keeps_for_each; intros
  | |- Keeps _ (zoom _ _ _) => apply keeps_zoom_out; intros; solve [reflexivity]
  | |- Keeps _ (if ?b then _ else _) => destruct b
  | H : _ (table_of ?t) = Some ?f |- Keeps _ ?m => let h := head_of m in constr_eq h f; quiet_op t
  | |- Keeps _ (match ?x with _ => _ end) => destruct x eqn:?
  | |- Keeps _ (let x := _ in _) => cbv zeta
  | |- Keeps _ ?m => let h := head_of m in progress (unfold h)
  end.
Ltac solve_quiet := repeat first [quiet_step | progress (cbv beta zeta iota)].

Section quiet.
Context {alloc : Allocator kernel_t} {systems : FileSystems} {old : OldNodes} {quiets : QuietSystems}.
Variable base : Z.
Variable fuel : nat.

Lemma quiet_find_entry id entries : Keeps quiet (find_entry id entries).
Proof using Type. induction entries as [|[? ?] rest IH]; cbn [find_entry]; [apply keeps_ret|]. solve_quiet; apply IH. Qed.
#[local] Hint Resolve quiet_find_entry : keeps.

(** *** The virtual file system *)

Lemma quiet_vfs_create_node parent id name table data t r : Keeps quiet (vfs_create_node parent id name table data t r).
Proof using Type. solve_quiet. Qed.
Lemma quiet_vfs_lock_node p : Keeps quiet (vfs_lock_node p).
Proof using Type. solve_quiet. Qed.
#[local] Hint Resolve quiet_vfs_lock_node : keeps.
Lemma quiet_vfs_release_node p : Keeps quiet (vfs_release_node p).
Proof using quiets. solve_quiet. Qed.
#[local] Hint Resolve quiet_vfs_release_node : keeps.
Lemma quiet_vfs_resolve path : Keeps quiet (vfs_resolve fuel path).
Proof using quiets. solve_quiet. Qed.
#[local] Hint Resolve quiet_vfs_resolve : keeps.
Lemma quiet_vfs_create path t : Keeps quiet (vfs_create fuel path t).
Proof using quiets. solve_quiet. Qed.
#[local] Hint Resolve quiet_vfs_create : keeps.
Lemma quiet_resource_register task t data table flags : Keeps quiet (resource_register task t data table flags).
Proof using Type. solve_quiet. Qed.
#[local] Hint Resolve quiet_resource_register : keeps.
Lemma quiet_vfs_read_node node offset length : Keeps quiet (vfs_read_node node offset length).
Proof using quiets. solve_quiet. Qed.
#[local] Hint Resolve quiet_vfs_read_node : keeps.
Lemma quiet_close_of table close resource : close_of table = Some close -> Keeps quiet (close resource).
Proof using quiets. unfold close_of. case_match; [|done]. intros [= <-]. solve_quiet. Qed.
Lemma quiet_resource_remove task slot : Keeps quiet (resource_remove close_of task slot).
Proof using quiets. unfold resource_remove. solve_quiet. by eapply quiet_close_of. Qed.
#[local] Hint Resolve quiet_resource_remove : keeps.

(** *** System calls *)

Variable stale_header : list Z.
Variable stale_program_header : Z -> list Z.

Lemma quiet_update_call_task f : (forall t, look_of (f t) = look_of t) -> Keeps quiet (update_call_task f).
Proof using Type. intros H. solve_quiet. Qed.
Lemma quiet_syscall_open : Keeps quiet (syscall_open fuel).
Proof using quiets. solve_quiet. Qed.
Lemma quiet_syscall_close : Keeps quiet syscall_close.
Proof using quiets. solve_quiet. Qed.
Lemma quiet_syscall_execve : Keeps quiet (syscall_execve base fuel stale_header stale_program_header).
Proof using quiets. solve_quiet. Qed.
Lemma quiet_syscall_sbrk : Keeps quiet (syscall_sbrk fuel).
Proof using Type. solve_quiet. Qed.
Lemma quiet_syscall_getpid : Keeps quiet syscall_getpid.
Proof using Type. solve_quiet. Qed.
Lemma quiet_syscall_isatty : Keeps quiet syscall_isatty.
Proof using Type. solve_quiet. Qed.
Lemma quiet_syscall_lseek : Keeps quiet syscall_lseek.
Proof using quiets. solve_quiet. Qed.
Lemma quiet_syscall_fcntl : Keeps quiet syscall_fcntl.
Proof using Type. solve_quiet. Qed.
Lemma quiet_syscall_ioctl : Keeps quiet syscall_ioctl.
Proof using quiets. solve_quiet. Qed.
Lemma quiet_syscall_fstat : Keeps quiet syscall_fstat.
Proof using quiets. solve_quiet. Qed.
Lemma quiet_syscall_stat : Keeps quiet (syscall_stat fuel).
Proof using quiets. solve_quiet. Qed.
Lemma quiet_syscall_link : Keeps quiet (syscall_link fuel).
Proof using quiets. solve_quiet. Qed.
Lemma quiet_syscall_unlink : Keeps quiet (syscall_unlink fuel).
Proof using quiets. solve_quiet. Qed.
Lemma quiet_syscall_times : Keeps quiet syscall_times.
Proof using Type. solve_quiet. Qed.
Lemma quiet_syscall_sigaction : Keeps quiet syscall_sigaction.
Proof using Type. solve_quiet. Qed.
Lemma quiet_syscall_sigreturn : Keeps quiet syscall_sigreturn.
Proof using Type. solve_quiet. Qed.
End quiet.
#[export] Hint Resolve quiet_find_entry quiet_vfs_lock_node quiet_vfs_release_node quiet_vfs_resolve quiet_vfs_create
  quiet_vfs_read_node quiet_resource_register quiet_resource_remove : keeps.

(** ** The file systems of the kernel *)

Section kernel_tables.
Context {alloc : Allocator kernel_t}.
Variable heap_byte : Z -> nat -> Z.
Variable fuel : nat.
Variables keyboard_address terminal_address framebuffer_address : Z.

Lemma quiet_no_operations : quiet_table no_operations.
Proof using Type. split; done. Qed.

Lemma quiet_find_dirent children path : Keeps quiet (find_dirent children path).
Proof using Type. induction children as [|e rest IH]; cbn [find_dirent]; [apply keeps_ret|]. solve_quiet; apply IH. Qed.
#[local] Hint Resolve quiet_find_dirent : keeps.
Lemma quiet_ramfs_operations : quiet_table (ramfs_operations heap_byte).
Proof using Type. split; intros *; intros [= <-]. all: solve_quiet. Qed.
#[export] Instance quiet_kernel_systems :
  QuietSystems (systems := kernel_systems heap_byte fuel keyboard_address terminal_address framebuffer_address).
Proof using Type.
  intros [| |i]; cbn [table_of kernel_systems].
  - apply quiet_ramfs_operations.
  - split; intros *; intros [= <-]; solve_quiet.
  - unfold table_of, kernel_systems. destruct (Z.to_nat i) as [|[|[|n]]]; [..|apply quiet_no_operations];
      split; intros *; intros [= <-]; solve_quiet.
Qed.
End kernel_tables.
