(* ===== verification/Calls.v ===== *)
(** * The scheduler during a call

    What a system call, and the handler of an exception, leaves of the scheduler's
    data: the step that blocks, ends, wakes, reaps or makes a task is the
    scheduler's ([Scheduler]), and everything around it is quiet ([Quiet]).  What
    is watched ([Watch]) is carried along. *)
From S2P Require Import Prelude Keeps Bitmap Paging KernelHeap Tasks TaskManager Allocator Keyboard Terminal Framebuffer Files VfsCache Resource Vfs Ramfs CString Memory Scheduler Watch Process Elf Syscall Devfs Print Ports Segments Interrupts Quiet.

Section calls.
Context {alloc : Allocator kernel_t} {systems : FileSystems} {old : OldNodes}.
(** As in [Interrupts]. *)
Variable base : Z.
Variable fuel : nat.
Variable stale_header : list Z.
Variable stale_program_header : Z -> list Z.
Variable stale_print : list Z.
Context {watch : Watch} {laws : WatchLaws base fuel}.

(** ** What is in order *)

(** The idle task has the number 0, which no call can name. *)
Definition task_ids (o : os_t) : gmap Z Z * Z := (task_id <$> tasks o, task_idle (task_manager o)).
Definition idle_named (o : os_t) : Prop := fst (task_ids o) !! snd (task_ids o) = Some 0.

(** The allocator does not hand out the block of a task. *)
Definition tasks_allocated (o : os_t) : Prop :=
  forall p k, heap_calloc TASK_SIZE (kernel o) = Ret (p, k) -> tasks o !! p = None.

(** When a handler is done, perhaps with a switch to come; and when a call begins. *)
Definition handled (o : os_t) : Prop := ((exists qs, scheduled o qs) /\ idle_named o) /\ after o.
Definition serving (o : os_t) (qs : list (list Z)) : Prop :=
  (settled fuel o qs /\ before o) /\ idle_named o /\ task_current (task_manager o) <> task_idle (task_manager o).
Definition calling (s : fs_t) (qs : list (list Z)) : Prop :=
  serving (os s) qs /\ caller_task (syscall s) = task_current (task_manager (os s)).

Lemma look_view o o' : look o' = look o -> view o' = view o.
Proof using Type.
  intros [= Hc Ht Hm]. unfold view, seen. rewrite Hc, Hm. f_equal. f_equal. apply (f_equal (fmap fst)) in Ht.
  by rewrite <- !map_fmap_compose in Ht.
Qed.
Lemma look_ids o o' : look o' = look o -> task_ids o' = task_ids o.
Proof using Type.
  intros [= _ Ht Hm]. unfold task_ids. rewrite Hm. f_equal. apply (f_equal (fmap snd)) in Ht.
  by rewrite <- !map_fmap_compose in Ht.
Qed.
Lemma handled_look o o' : look o' = look o -> handled o -> handled o'.
Proof using laws.
  intros Hl [[(qs & Hs) Hi] Ha]. pose proof (look_view o o' Hl) as Hv. split; [split|].
  - exists qs. by apply (scheduled_seen o).
  - unfold idle_named in *. by rewrite (look_ids o o').
  - by apply (after_seen o).
Qed.
Lemma settled_look o o' qs : look o' = look o -> settled fuel o qs -> settled fuel o' qs.
Proof using Type.
  intros Hl (Hs & Hn & Hf). pose proof (look_view o o' Hl) as Hv. split_and!; [by apply (scheduled_seen o)| |].
  - pose proof (f_equal snd Hl) as Hm. simpl in Hm. by rewrite Hm.
  - by rewrite (view_size o o').
Qed.
Lemma quiet_look s s' : quiet s' = quiet s -> look (os s') = look (os s).
Proof using Type. intros H. exact (f_equal fst H). Qed.
Lemma serving_look o o' qs : look o' = look o -> serving o qs -> serving o' qs.
Proof using laws.
  intros Hl ((Hs & Hb) & Hi & Hne). pose proof (f_equal snd Hl) as Hm. simpl in Hm.
  split_and!; [by apply (settled_look o)|by apply (before_seen o), Hb; apply look_view
    |unfold idle_named in *; by rewrite (look_ids o)|by rewrite Hm].
Qed.
Lemma calling_quiet s s' qs : quiet s' = quiet s -> calling s qs -> calling s' qs.
Proof using laws.
  intros Hq (Hs & Hc). pose proof (quiet_look s s' Hq) as Hl. pose proof (f_equal snd Hq) as Hy. simpl in Hy.
  pose proof (f_equal snd Hl) as Hm. simpl in Hm. split; [by apply (serving_look (os s))|by rewrite Hy, Hm].
Qed.

(** ** Steps of a call *)

Lemma wlp_quiet {A B} (m : M fs_t A) (k : A -> M fs_t B) Q s qs :
  Keeps quiet m -> calling s qs -> (forall a s', calling s' qs -> wlp (k a) Q s') -> wlp (bind m k) Q s.
Proof using laws.
  intros Hm Hs Hk. apply runs_bind, (wlp_keeps quiet); [done|]. intros a s' Hq. apply Hk. by apply (calling_quiet s).
Qed.
Lemma wlp_handled_quiet {A} (m : M fs_t A) s : Keeps quiet m -> handled (os s) -> wlp m (fun _ s' => handled (os s')) s.
Proof using laws.
  intros Hm Hs. apply (wlp_keeps quiet); [done|]. intros a s' Hq. by apply (handled_look (os s)); [apply quiet_look|].
Qed.
Lemma serving_handled o qs : serving o qs -> handled o.
Proof using laws. intros (((Hs & _) & Hb) & Hi & _). split; [split; [by exists qs|done]|by apply before_after]. Qed.
Lemma wlp_all_quiet {A} (m : M fs_t A) s qs : Keeps quiet m -> calling s qs -> wlp m (fun _ s' => handled (os s')) s.
Proof using laws. intros Hm Hs. apply wlp_handled_quiet; [done|]. by apply (serving_handled _ qs), Hs. Qed.

(** *** The scheduler keeps the numbers of the tasks *)

Lemma ids_update_task p f : (forall t, task_id (f t) = task_id t) -> Keeps task_ids (update_task p f).
Proof using Type.
  intros H s a s' E. pose proof (keeps_update_task task_id p f H s a s' E) as K.
  unfold task_ids. injection K as _ -> ->. done.
Qed.
Lemma ids_on_kernel {A} (op : M kernel_t A) : Keeps task_ids (on_kernel op).
Proof using Type. apply keeps_zoom_out. reflexivity. Qed.
Ltac ids_step :=
  match goal with
  | |- Keeps _ (update_task _ _) => apply ids_update_task; intros; reflexivity
  | |- Keeps _ (on_kernel _) => apply ids_on_kernel
  | _ => quiet_step
  end.
Ltac solve_ids := repeat first [ids_step | progress (cbv beta zeta iota)].

Lemma ids_pick n i : Keeps task_ids (task_manager_pick_from n i).
Proof using Type. revert i. induction n as [|n IH]; intros i; cbn [task_manager_pick_from]; solve_ids; apply IH. Qed.
#[local] Hint Resolve ids_pick : keeps.
Lemma ids_schedule : Keeps task_ids (task_manager_schedule base fuel).
Proof using Type. solve_ids. Qed.
#[local] Hint Resolve ids_schedule : keeps.
Lemma ids_timer kernel_mode : Keeps task_ids (timer_irq_handler base fuel kernel_mode).
Proof using Type. solve_ids. Qed.
Lemma ids_unblock x : Keeps task_ids (task_manager_unblock_task fuel x).
Proof using Type. solve_ids. Qed.
#[local] Hint Resolve ids_unblock : keeps.
Lemma ids_wake reason object : Keeps task_ids (task_manager_wake_blocked_on fuel reason object).
Proof using Type. solve_ids. Qed.
Lemma ids_block_current reason object : Keeps task_ids (block_current base fuel reason object).
Proof using Type. solve_ids. Qed.
Lemma ids_exit x code : Keeps task_ids (task_manager_exit_task base fuel x code).
Proof using Type. solve_ids. Qed.
#[local] Hint Resolve ids_exit : keeps.
Lemma ids_exit_current code : Keeps task_ids (exit_current base fuel code).
Proof using Type. solve_ids. Qed.
Lemma ids_isr_finish esp : Keeps task_ids (isr_stub_finish esp).
Proof using Type. solve_ids. Qed.
Lemma ids_irq_finish esp : Keeps task_ids (irq_stub_finish esp).
Proof using Type. solve_ids. Qed.

(** An operation of the scheduler that keeps the numbers of the tasks. *)
Lemma wlp_on_scheduler {A} (op : M os_t A) o :
  Keeps task_ids op -> idle_named o -> wlp op (fun _ o' => exists qs, scheduled o' qs) o ->
  wlp op (fun _ o' => after o') o -> wlp op (fun _ o' => handled o') o.
Proof using Type.
  intros Hk Hi Hw Ha. eapply runs_mono; [apply (runs_and false _ _ (fun _ o' => task_ids o' = task_ids o) _ (runs_and false _ _ _ _ Hw Ha))|].
  - by apply (wlp_keeps task_ids).
  - intros a o' [[H1 H2] H3]. split; [|done]. split; [done|]. unfold idle_named in *. by rewrite H3.
Qed.
(** Its operations, run from a call. *)
Lemma wlp_on_os {A} (op : M os_t A) (P : A -> os_t -> Prop) s :
  wlp op P (os s) -> wlp (on_os op) (fun a s' => P a (os s')) s.
Proof using Type. intros H. apply runs_zoom. exact H. Qed.
Lemma wlp_on_os_ret {A} (op : M os_t A) (P : unit -> os_t -> Prop) s :
  wlp (do! op in ret tt) P (os s) -> wlp (do! on_os op in ret tt) (fun a s' => P a (os s')) s.
Proof using Type. intros H. apply runs_bind, (wlp_on_os _ (fun _ => P tt)). exact (runs_bind_inv _ _ _ _ _ H). Qed.

Lemma wlp_wait o qs reason object :
  serving o qs -> wlp (block_current base fuel reason object) (fun _ o' => handled o') o.
Proof using laws.
  intros ((Hs & Hb) & Hi & Hne). apply wlp_on_scheduler; [apply ids_block_current|done| |by apply (watch_block o qs)].
  apply (runs_block_scheduled base fuel false o qs); [done|done|done|]. intros o' qs' H _. by exists qs'.
Qed.
Lemma wlp_end o qs code :
  serving o qs -> wlp (exit_current base fuel code) (fun _ o' => handled o') o.
Proof using laws.
  intros ((Hs & Hb) & Hi & Hne). apply wlp_on_scheduler; [apply ids_exit_current|done| |by apply (watch_exit o qs)].
  apply (runs_exit_scheduled base fuel false o qs); [done|done|done|]. intros o' qs' H _ _. by exists qs'.
Qed.

(** ** System calls *)

Lemma wlp_block_call s qs reason object :
  calling s qs -> wlp (block_call base fuel reason object) (fun _ s' => handled (os s')) s.
Proof using laws.
  intros (Hs & Hc). unfold block_call, SYSCALL_TASK. apply runs_bind_wp. wp_step. rewrite Hc.
  assert (wlp (do! task_manager_block_task fuel (task_current (task_manager (os s))) reason object in
               do! task_manager_yield_current base fuel in ret tt) (fun _ o' => handled o') (os s)) as Hw
    by exact (wlp_wait (os s) qs reason object Hs).
  apply runs_bind. eapply runs_mono; [apply wlp_on_os; exact (runs_bind_inv _ _ _ _ _ Hw)|].
  intros r1 s1 H1. apply runs_bind. eapply runs_mono; [apply wlp_on_os; exact (runs_bind_inv _ _ _ _ _ H1)|].
  intros r2 s2 H2. apply wlp_handled_quiet; [|exact H2]. solve_quiet.
Qed.
Lemma wlp_exit_call {A} s qs code (k : M fs_t A) Q :
  serving (os s) qs ->
  (forall s', wlp (do! on_os (task_manager_yield_current base fuel) in ret tt) (fun _ s' => handled (os s')) s' -> wlp k Q s') ->
  wlp (do! on_os (task_manager_exit_task base fuel (task_current (task_manager (os s))) code) in k) Q s.
Proof using laws.
  intros Hs Hk.
  assert (wlp (do! task_manager_exit_task base fuel (task_current (task_manager (os s))) code in
               do! task_manager_yield_current base fuel in ret tt) (fun _ o' => handled o') (os s)) as Hw
    by exact (wlp_end (os s) qs code Hs).
  apply runs_bind. eapply runs_mono; [apply wlp_on_os; exact (runs_bind_inv _ _ _ _ _ Hw)|].
  intros r1 s1 H1. apply Hk. by apply wlp_on_os_ret.
Qed.

Context {quiets : QuietSystems}.

(** A handler whose last act on the scheduler is [m]. *)
Lemma wlp_then_quiet {A B} (m : M fs_t A) (k : A -> M fs_t B) s :
  wlp m (fun _ s' => handled (os s')) s -> (forall a, Keeps quiet (k a)) ->
  wlp (bind m k) (fun _ s' => handled (os s')) s.
Proof using laws.
  intros Hm Hk. apply runs_bind. eapply runs_mono; [exact Hm|]. intros a s' H. by apply wlp_handled_quiet.
Qed.

Ltac call_step :=
  match goal with
  | H : calling ?s ?qs |- runs false _ _ ?s =>
      first [solve [apply (wlp_block_call s qs _ _ H)]
            |apply (wlp_then_quiet _ _ s (wlp_block_call s qs _ _ H)); intros; solve [solve_quiet]
            |apply (wlp_all_quiet _ s qs); [solve [solve_quiet]|exact H]
            |apply (wlp_quiet _ _ _ s qs); [solve [solve_quiet]|exact H|clear dependent s; intros ? s H]
            |match goal with
             | |- runs _ (if ?b then _ else _) _ _ => destruct b
             | |- runs _ (match ?x with _ => _ end) _ _ => destruct x eqn:?
             end]
  end.

Lemma wlp_syscall_read s qs : calling s qs -> wlp (syscall_read base fuel) (fun _ s' => handled (os s')) s.
Proof using quiets laws. intros Hs. unfold syscall_read. repeat call_step. Qed.
Lemma wlp_syscall_write s qs : calling s qs -> wlp (syscall_write base fuel) (fun _ s' => handled (os s')) s.
Proof using quiets laws. intros Hs. unfold syscall_write. repeat call_step. Qed.
Lemma wlp_caller {B} (k : Z -> M fs_t B) Q s qs :
  calling s qs -> wlp (k (task_current (task_manager (os s)))) Q s -> wlp (bind SYSCALL_TASK k) Q s.
Proof using Type. intros (_ & Hc) Hk. unfold SYSCALL_TASK. apply runs_bind_wp. wp_step. by rewrite Hc. Qed.

Lemma wlp_syscall_exit s qs : calling s qs -> wlp (syscall_exit base fuel) (fun _ s' => handled (os s')) s.
Proof using quiets laws.
  intros Hs. unfold syscall_exit. call_step. apply (wlp_caller _ _ _ qs Hs), (wlp_exit_call _ qs); [apply Hs|].
  intros s' H. apply runs_bind. eapply runs_mono; [exact (runs_bind_inv _ _ _ _ _ H)|]. intros r s2 H2. by apply runs_ret.
Qed.

(** *** Signals *)

(** The search in the tree of tasks answers a task with the number. *)
Definition numbered (o : os_t) (pid r : Z) : Prop :=
  r <> 0 -> exists t, tasks o !! r = Some t /\ task_id t = pid.
Lemma wlp_find_task_recursive depth root pid o :
  wlp (task_manager_find_task_recursive fuel depth root pid) (fun r o' => o' = o /\ numbered o pid r) o.
Proof using Type.
  revert root. induction depth as [|depth IH]; intros root; [done|]. cbn [task_manager_find_task_recursive].
  apply runs_bind, runs_load_task; [done|]. intros t Ht.
  destruct (Z.eqb_spec (task_id t) pid) as [E|_]; [apply runs_ret; split; [done|intros _; by exists t]|].
  apply (wlp_loop (fun _ o' => o' = o)); [done|]. intros head o' ->.
  destruct (head =? 0); [apply runs_ret; split; [done|by intros []]|].
  apply runs_bind, (wlp_keeps id); [unfold load_node; solve_keeps|]. intros h o' Ho. simpl in Ho. subst o'.
  apply runs_bind. eapply runs_mono; [apply IH|]. intros found o' [-> Hf].
  destruct (Z.eqb_spec found 0); cbn [negb]; apply runs_ret; [done|by split].
Qed.

(** A signal that a task has a handler for, or that ends it for want of a stack. *)
Definition target_of (o : os_t) (target : Z) : Prop :=
  target <> task_idle (task_manager o) /\ exists t, tasks o !! target = Some t /\ task_state t <> TASK_STATE_ZOMBIE.
Lemma target_quiet s s' target : quiet s' = quiet s -> target_of (os s) target -> target_of (os s') target.
Proof using Type.
  intros Hq (Hne & t & Ht & Hz). pose proof (quiet_look s s' Hq) as Hl. pose proof (f_equal snd Hl) as Hm. simpl in Hm.
  split; [by rewrite Hm|]. destruct (view_task (os s') (os s) target (core t)) as (c & Hc & Hst & _).
  - symmetry. by apply look_view.
  - unfold cores. by rewrite lookup_fmap, Ht.
  - destruct (cores_lookup _ _ _ Hc) as (t' & Ht' & <-). exists t'. split; [done|].
    change (task_state t' = task_state t) in Hst. by rewrite Hst.
Qed.

(** The end of a task, the caller or another one. *)
Lemma wlp_end_target s qs target code :
  serving (os s) qs -> target_of (os s) target ->
  wlp (do! on_os (task_manager_exit_task base fuel target code) in
       if target =? task_current (task_manager (os s))
       then do! on_os (task_manager_yield_current base fuel) in ret tt else ret tt)
      (fun _ s' => handled (os s')) s.
Proof using laws.
  intros Hcall (Hx & t & Ht & Hz).
  destruct (Z.eqb_spec target (task_current (task_manager (os s)))) as [->|Hxc].
  - apply (wlp_exit_call _ qs); [done|]. intros s1 H1. exact H1.
  - destruct Hcall as ((Hs & Hb) & Hi & _). apply wlp_then_quiet; [|intros _; solve_quiet].
    assert (cores (os s) !! target = Some (core t)) as Hct by (unfold cores; by rewrite lookup_fmap, Ht).
    apply (wlp_on_os _ (fun _ => handled)), wlp_on_scheduler; [apply ids_exit|done| |by apply (watch_kill (os s) qs target (core t))].
    apply (runs_kill_scheduled base fuel false (os s) qs target code (core t)); try done.
    intros r o' qs' H _ _. by exists qs'.
Qed.

Lemma wlp_pass {A B} (m : M fs_t A) (k : A -> M fs_t B) Q s :
  Keeps quiet m -> (forall a s', quiet s' = quiet s -> wlp (k a) Q s') -> wlp (bind m k) Q s.
Proof using Type. intros Hm Hk. by apply runs_bind, (wlp_keeps quiet). Qed.

Lemma wlp_deliver_signal s qs target sig handler :
  serving (os s) qs -> target_of (os s) target ->
  wlp (task_manager_deliver_signal base fuel target sig handler) (fun _ s' => handled (os s')) s.
Proof using laws.
  intros Hs Ht. unfold task_manager_deliver_signal. cbv zeta. apply runs_bind_wp. wp_step.
  apply wlp_pass; [solve_quiet|]. intros t s1 H1. apply wlp_pass; [solve_quiet|]. intros frame s2 H2.
  apply wlp_pass; [solve_quiet|]. intros unusable s3 H3. rewrite H2, H1 in H3. clear s1 s2 H1 H2.
  pose proof (serving_look _ _ qs (quiet_look s s3 H3) Hs) as Hs3.
  destruct unusable; [|apply wlp_handled_quiet; [solve_quiet|by apply (serving_handled _ qs)]].
  pose proof (f_equal snd (quiet_look s s3 H3)) as Hm. simpl in Hm. rewrite <- Hm.
  by apply (wlp_end_target s3 qs); [|apply (target_quiet s)].
Qed.
(** A target that waits is woken first. *)
Lemma wlp_wake_target s qs target t Q :
  calling s qs -> target_of (os s) target -> tasks (os s) !! target = Some t ->
  (forall s' qs', calling s' qs' -> target_of (os s') target -> Q tt s') ->
  wlp (if bool_decide (task_state t = TASK_STATE_BLOCKED)
       then do! on_os (task_manager_unblock_task fuel target) in ret tt else ret tt) Q s.
Proof using laws.
  intros (((Hs & Hbf) & Hi & Hne) & Hc) Htt Ht HQ. case_bool_decide as Hb; [|by apply runs_ret, (HQ s qs)].
  assert (wlp (do! task_manager_unblock_task fuel target in ret tt)
    (fun _ o => (task_ids o = task_ids (os s) /\ before o) /\ target_of o target /\ exists qs', settled fuel o qs' /\ kept (os s) o) (os s)) as Hw.
  { assert (cores (os s) !! target = Some (core t)) as Hct by (unfold cores; by rewrite lookup_fmap, Ht).
    apply runs_and; [apply runs_and|].
    - apply (wlp_keeps task_ids); [solve_ids|done].
    - by apply (watch_unblock (os s) qs target (core t)).
    - apply runs_wp, (wp_unblock_scheduled fuel (os s) qs target (core t)); [done|done|done|].
      intros o qs' H1 H2 H3. pose proof H2 as (K1 & K2 & K3 & K4 & _). split.
      + split; [rewrite K2; apply Htt|]. destruct (cores_lookup o target _ ltac:(rewrite H3; apply lookup_insert_eq)) as (t' & Ht' & E).
        exists t'. split; [done|]. change (task_state (core t') <> TASK_STATE_ZOMBIE). by rewrite E.
      + exists qs'. split; [|done]. destruct Hs as (_ & H4 & H5). split_and!; [done|congruence|by rewrite (same_tasks_size (os s) o)]. }
  apply runs_bind, runs_zoom. eapply runs_mono; [exact (runs_bind_inv _ _ _ _ _ Hw)|].
  intros r o ((H1 & H6) & H2 & qs' & H3 & _ & H4 & H5 & _). apply runs_ret, (HQ _ qs'); [|exact H2].
  split; [split_and!; [exact H3|exact H6|change (idle_named o); unfold idle_named in *; by rewrite H1|simpl; by rewrite H4, H5]|].
  simpl. by rewrite Hc, H5.
Qed.

Lemma wlp_syscall_kill s qs : calling s qs -> wlp (syscall_kill base fuel) (fun _ s' => handled (os s')) s.
Proof using quiets laws.
  intros Hs. unfold syscall_kill. do 2 call_step. cbv zeta. destruct (Z.leb_spec (i32 a) 0) as [|Hpid]; [by call_step|].
  destruct ((i32 a0 <? 0) || (SYSCALL_NSIG <=? i32 a0)); [by call_step|].
  assert (s <| os := os s |> = s) as Hss by (by destruct s).
  apply runs_bind, runs_zoom. eapply runs_mono; [apply wlp_find_task_recursive|]. intros target o [-> Hn]. rewrite Hss.
  destruct (Z.eqb_spec target 0) as [|Ht0]; [by call_step|]. destruct (i32 a0 =? 0); [by call_step|].
  apply runs_bind, runs_zoom, runs_load_task; [done|]. intros t Ht. rewrite Hss.
  destruct (bool_decide (task_state t = TASK_STATE_ZOMBIE) || bool_decide (task_state t = TASK_STATE_TERMINATED)) eqn:Hst;
    [by call_step|]. apply orb_false_iff in Hst as [Hst%bool_decide_eq_false _].
  assert (target_of (os s) target) as Htgt.
  { split; [|by exists t]. intros ->. destruct (Hn Ht0) as (t' & Ht' & Hid). destruct Hs as ((_ & Hi & _) & _).
    unfold idle_named, task_ids in Hi. simpl in Hi. rewrite lookup_fmap, Ht' in Hi. simpl in Hi. injection Hi as Hi.
    rewrite Hi in Hid. subst a. change (i32 0) with 0 in Hpid. lia. }
  destruct (handler_of t (i32 a0) =? SYSCALL_SIG_IGN); [by call_step|].
  destruct (handler_of t (i32 a0) =? SYSCALL_SIG_DFL).
  - pose proof (wlp_end_target s qs target (Z.land (i32 a0) 0x7F) (proj1 Hs) Htgt) as Hw.
    apply runs_bind. eapply runs_mono; [apply runs_and; [exact (runs_bind_inv _ _ _ _ _ Hw)|]|].
    + apply (wlp_keeps syscall); [by apply keeps_zoom_out|]. intros r s' H. exact H.
    + intros r s1 [H1 H2]. unfold SYSCALL_TASK. apply runs_bind_wp. wp_step. rewrite H2.
      destruct Hs as (_ & Hc). rewrite Hc. apply wlp_then_quiet; [exact H1|]. intros; solve_quiet.
  - apply runs_bind, (wlp_wake_target s qs target t); [done..|]. intros s' qs' H1 H2.
    apply wlp_then_quiet; [by apply (wlp_deliver_signal s' qs'); [apply H1|]|]. intros; solve_quiet.
Qed.
(** *** Reaping a child *)

(** A zombie leaves its queue, if it is in one. *)
Lemma remove_index i x : task_manager_remove_task_from_queue fuel i x =
  task_manager_remove_task_from_queue fuel (Z.of_nat (Z.to_nat i)) x.
Proof using Type. unfold task_manager_remove_task_from_queue, load_queue, store_queue. by rewrite !Nat2Z.id. Qed.

Lemma wlp_remove_zombie o qs x c :
  scheduled o qs -> cores o !! x = Some c -> task_state c = TASK_STATE_ZOMBIE -> (size (cores o) < fuel)%nat ->
  wlp (do! task_manager_remove_task_from_queue fuel (task_queue_level c) x in ret tt)
    (fun _ o' => ((scheduled o' (purge x qs) /\ cores o' = cores o) /\ runner o' = runner o) /\ rest_of o' = rest_of o) o.
Proof using Type.
  intros [Ho Hr] Hc Hz Hf. rewrite remove_index. set (i := Z.of_nat (Z.to_nat (task_queue_level c))).
  pose proof (or_queues _ _ _ Ho) as Hq. pose proof (queued_size o qs Hq).
  destruct (decide (i < 6)) as [Hi|Hi].
  - apply runs_wp, (wp_leave fuel o qs i x); [done|lia|intros ->; by rewrite (or_null _ _ _ Ho) in Hc|lia| |].
    { intros j q Hj Hx. pose proof (qs_levels _ _ Hq j q x c Hj Hx Hc). lia. }
    intros o' K1 K2 K3. assert (runner o' = runner o) as E.
    { unfold runner. destruct (rest_manager o o' K3) as [-> ->].
      change (task_next (task_manager o')) with (task_next (task_manager (rest_of o'))). by rewrite K3. }
    split; [split; [split; [|done]|done]|done]. split; rewrite E.
    + eapply orderly_change; [exact Ho|done|by rewrite K2|by apply rest_idle| |]; rewrite K2;
        [intros ci; by apply (orderly_idle o qs (runner o))|].
      intros y cy Hcy Hy. destruct (decide (y = x)) as [->|Hyx]; [|by apply placed_purge, (or_placed _ _ _ Ho)].
      unfold placed. replace cy with c by congruence. rewrite Hz. right. apply not_in_purge.
    + destruct Hr as (H1 & cr & H2). split; [by apply not_in_purged|]. exists cr. by rewrite K2.
  - unfold runs, bind, task_manager_remove_task_from_queue, load_queue, manager, gets, bind, of_option.
    rewrite lookup_ge_None_2; [done|]. rewrite (Forall2_length (qs_lists _ _ Hq)), (qs_length _ _ Hq). lia.
Qed.

(** Then it is no task any more. *)
Lemma scheduled_deleted o qs x :
  scheduled o qs -> x ∉ concat qs -> x <> task_idle (task_manager o) -> x <> runner o ->
  scheduled (o <| tasks := delete x (tasks o) |>) qs.
Proof using Type.
  intros [Ho Hr] Hx Hi Hxr. set (o' := o <| tasks := delete x (tasks o) |>).
  assert (cores o' = delete x (cores o)) as Hc by (unfold cores; simpl; apply fmap_delete).
  destruct (or_queues _ _ _ Ho) as [K1 K2 K3 K4 K5]. split.
  - split.
    + split; try done.
      * clear -K2 Hx. cbn [task_manager assign over o']. simpl. induction K2 as [|p q ps qs Hs _ IH]; [constructor|].
        simpl in Hx. apply not_elem_of_app in Hx as [H1 H2]. constructor; [|by apply IH].
        eapply seg_frame; [|exact Hs]. intros y Hy. rewrite lookup_delete_ne; [done|]. by intros ->.
      * intros i q y c Hi' Hy. rewrite Hc. intros [_ H]%lookup_delete_Some. by apply (K5 i q y).
    + intros y c. rewrite Hc. intros [_ H]%lookup_delete_Some. by apply (or_placed _ _ _ Ho).
    + rewrite Hc. destruct (or_idle _ _ _ Ho) as (c & H1 & H2). exists c. by rewrite lookup_delete_ne.
    + rewrite Hc. apply lookup_delete_None. right. apply (or_null _ _ _ Ho).
  - destruct Hr as (H1 & c & H2 & H3). split; [done|]. exists c. rewrite Hc. by rewrite lookup_delete_ne.
Qed.
(** A zombie of the calling task's that exists. *)
Definition zombie_of (o : os_t) (x : Z) : Prop := exists t, tasks o !! x = Some t /\ task_state t = TASK_STATE_ZOMBIE.
Lemma zombie_quiet s s' x : quiet s' = quiet s -> zombie_of (os s) x -> zombie_of (os s') x.
Proof using Type.
  intros Hq (t & Ht & Hz). destruct (view_task (os s') (os s) x (core t)) as (c & Hc & Hst & _).
  - symmetry. by apply look_view, quiet_look.
  - unfold cores. by rewrite lookup_fmap, Ht.
  - destruct (cores_lookup _ _ _ Hc) as (t' & Ht' & <-). exists t'. split; [done|].
    change (task_state t' = task_state t) in Hst. by rewrite Hst.
Qed.
(** It is neither the idle task nor the one on the processor. *)
Lemma zombie_other o qs x : scheduled o qs -> zombie_of o x -> x <> task_idle (task_manager o) /\ x <> runner o.
Proof using Type.
  intros [Ho (_ & cr & Hcr & Hsr & _)] (t & Ht & Hz).
  assert (cores o !! x = Some (core t)) as Hc by (unfold cores; by rewrite lookup_fmap, Ht).
  split; intros ->.
  - destruct (orderly_idle o qs _ _ Ho Hc) as [[H|H] _]; change (task_state t) with (task_state (core t)) in Hz; congruence.
  - rewrite Hc in Hcr. injection Hcr as <-. change (task_state t) with (task_state (core t)) in Hz. congruence.
Qed.

Lemma wlp_destroy_task s qs child :
  calling s qs -> zombie_of (os s) child ->
  wlp (task_manager_destroy_task base fuel child) (fun _ s' => handled (os s')) s.
Proof using quiets laws.
  intros Hs Hz. unfold task_manager_destroy_task.
  apply wlp_pass; [solve_quiet|]. intros t s1 H1. apply wlp_pass; [solve_quiet|]. intros r1 s2 H2.
  apply wlp_pass; [solve_quiet|]. intros r2 s3 H3. apply wlp_pass; [solve_quiet|]. intros r3 s4 H4.
  rewrite H3, H2, H1 in H4. clear s1 s2 s3 H1 H2 H3.
  pose proof (calling_quiet s s4 qs H4 Hs) as Hs4. apply (zombie_quiet s s4 child H4) in Hz. clear s H4 Hs.
  destruct Hs4 as ((((Hs & Hns & Hf) & Hb) & Hi & _) & _). destruct (zombie_other _ _ _ Hs Hz) as [Hne Hnr].
  destruct Hz as (t4 & Ht4 & Hz). assert (s4 <| os := os s4 |> = s4) as Hss by (by destruct s4).
  apply runs_bind, runs_zoom, runs_load_task; [done|]. intros t5 Ht5. rewrite Hss. rewrite Ht4 in Ht5. injection Ht5 as <-.
  assert (cores (os s4) !! child = Some (core t4)) as Hc by (unfold cores; by rewrite lookup_fmap, Ht4).
  apply runs_bind, runs_zoom. eapply runs_mono.
  { apply runs_and; [apply runs_and; [exact (runs_bind_inv _ _ _ _ _ (wlp_remove_zombie (os s4) qs child (core t4) Hs Hc Hz ltac:(lia)))|]|].
    - apply (wlp_keeps task_ids); [solve_ids|]. intros ? o H. exact H.
    - exact (runs_bind_inv _ _ _ _ _ (watch_remove (os s4) qs child (core t4) ltac:(done) Hc Hz Hb)). }
  intros r o [[[[[K1 K2] Hrun] _] Hids] Hb5]. change (before o) in Hb5.
  assert (task_idle (task_manager o) = task_idle (task_manager (os s4))) as Hidle by exact (f_equal snd Hids).
  apply runs_bind_wp. wp_step. apply wlp_pass; [solve_quiet|]. intros r4 s6 H6.
  pose proof (quiet_look _ _ H6) as Hl. pose proof (look_view _ _ Hl) as Hv. pose proof (look_ids _ _ Hl) as Hid6. simpl in Hv, Hid6.
  apply runs_bind, runs_zoom, runs_wp, wp_modify. apply wlp_handled_quiet; [solve_quiet|].
  pose proof (f_equal snd Hv) as Hm. simpl in Hm. assert (runner (os s6) = runner (os s4)) as Hrun6 by (unfold runner in *; by rewrite Hm).
  apply (scheduled_seen o (os s6)) in K1; [|done]. split; [split|].
  - exists (purge child qs). apply scheduled_deleted; [done|apply not_in_purge|by rewrite Hm, Hidle|by rewrite Hrun6].
  - unfold idle_named, task_ids in *. simpl in *. rewrite fmap_delete, lookup_delete_ne by (rewrite Hm, Hidle; done).
    injection Hid6 as -> ->. by injection Hids as -> ->.
  - rewrite <- K2 in Hc. destruct (view_task (os s6) o child _ (eq_sym Hv) Hc) as (c6 & Hc6 & E & _).
    apply (watch_delete _ (purge child qs) child c6); [done|apply not_in_purge|done|by rewrite E|].
    by apply (before_seen o).
Qed.

Lemma wlp_find_zombie_child p o :
  wlp (task_manager_find_zombie_child fuel p) (fun r o' => o' = o /\ (r <> 0 -> zombie_of o r)) o.
Proof using Type.
  unfold task_manager_find_zombie_child. apply runs_bind, runs_load_task; [done|]. intros t _.
  apply (wlp_loop (fun _ o' => o' = o)); [done|]. intros head o' ->.
  destruct (head =? 0); [apply runs_ret; split; [done|by intros []]|].
  apply runs_bind, (wlp_keeps id); [unfold load_node; solve_keeps|]. intros h o' Ho. simpl in Ho. subst o'.
  apply runs_bind, runs_load_task; [done|]. intros c Hc. case_decide; apply runs_ret; [split; [done|by exists c]|done].
Qed.

Lemma wlp_syscall_waitpid s qs : calling s qs -> wlp (syscall_waitpid base fuel) (fun _ s' => handled (os s')) s.
Proof using quiets laws.
  intros Hs. unfold syscall_waitpid. do 2 call_step. apply (wlp_caller _ _ _ qs Hs).
  assert (s <| os := os s |> = s) as Hss by (by destruct s).
  apply runs_bind. eapply (runs_mono _ _ (fun child s' => s' = s /\ (child <> 0 -> zombie_of (os s) child))).
  { destruct (i32 a =? -1).
    - apply runs_zoom. eapply runs_mono; [apply wlp_find_zombie_child|]. by intros r o [-> H].
    - apply runs_bind, runs_zoom, (wlp_keeps id); [unfold task_manager_find_child, load_node, load_task; solve_keeps|].
      intros child o Ho. simpl in Ho. subst o. rewrite Hss. destruct (child =? 0); [apply runs_ret; split; [done|by intros []]|].
      apply runs_bind, runs_zoom, runs_load_task; [done|]. intros c Hc. rewrite Hss.
      case_bool_decide; apply runs_ret; (split; [done|]); [by exists c|by intros []]. }
  intros child s1 [-> Hz]. destruct (Z.eqb_spec child 0) as [|Hc0]; [repeat call_step|].
  apply wlp_pass; [solve_quiet|]. intros c s2 H2. apply wlp_then_quiet; [|intros; solve_quiet].
  apply (wlp_destroy_task _ qs); [by apply (calling_quiet s)|]. apply (zombie_quiet s); auto.
Qed.
(** *** Fork *)

(** A task that is in no queue yet, and everything else as it was in [s]. *)
Record newborn (s : fs_t) (p : Z) (s' : fs_t) : Prop := {
  nb_new : p <> 0 /\ tasks (os s) !! p = None;
  nb_others : delete p (look_of <$> tasks (os s')) = look_of <$> tasks (os s);
  nb_manager : task_manager (os s') = task_manager (os s);
  nb_ticks : timer_ticks (os s') = timer_ticks (os s);
  nb_syscall : syscall s' = syscall s;
  nb_task : exists t, tasks (os s') !! p = Some t /\ task_state t = TASK_STATE_READY /\ 0 <= task_queue_level t < 4;
}.
Lemma newborn_quiet s p s1 s2 : newborn s p s1 -> quiet s2 = quiet s1 -> newborn s p s2.
Proof using Type.
  intros [H1 H2 H3 H5 H4 (t & Ht & Hst & Hl)] Hq. pose proof (quiet_look s1 s2 Hq) as Hlk.
  pose proof (f_equal fst Hlk) as Htt. pose proof (f_equal fst Htt) as Htk. simpl in Htk. pose proof (f_equal snd Htt) as Hts. pose proof (f_equal snd Hlk) as Hm. pose proof (f_equal snd Hq) as Hs. simpl in Hts, Hm, Hs.
  split; [done|by rewrite Hts|congruence..|].
  pose proof (f_equal (.!! p) Hts) as E. rewrite !lookup_fmap, Ht in E.
  destruct (tasks (os s2) !! p) as [t2|] eqn:Ht2; [|done]. injection E as _ E1 E2 _ _ _. exists t2. by rewrite E1, E2.
Qed.
Lemma newborn_update s p s1 t' :
  newborn s p s1 -> task_state t' = TASK_STATE_READY -> 0 <= task_queue_level t' < 4 ->
  newborn s p (s1 <| os := (os s1) <| tasks := <[p := t']> (tasks (os s1)) |> |>).
Proof using Type.
  intros [H1 H2 H3 H5 H4 _] Hst Hl. split; [done| |done|done|done|].
  - simpl. by rewrite fmap_insert, delete_insert_eq.
  - exists t'. simpl. by rewrite lookup_insert_eq.
Qed.
Lemma wlp_newborn_quiet {A B} s p s1 (m : M fs_t A) (k : A -> M fs_t B) Q :
  newborn s p s1 -> Keeps quiet m -> (forall a s2, newborn s p s2 -> wlp (k a) Q s2) -> wlp (bind m k) Q s1.
Proof using Type.
  intros Hn Hm Hk. apply wlp_pass; [done|]. intros a s2 H2. apply Hk. by apply (newborn_quiet s p s1).
Qed.
Lemma wlp_newborn_update {B} s p s1 f (k : unit -> M fs_t B) Q :
  newborn s p s1 -> (forall t, task_state (f t) = TASK_STATE_READY) -> (forall t, task_queue_level (f t) = 0) ->
  (forall s2, newborn s p s2 -> wlp (k tt) Q s2) -> wlp (bind (on_os (update_task p f)) k) Q s1.
Proof using Type.
  intros Hn Hs Hl Hk. destruct (nb_task _ _ _ Hn) as (t & Ht & _).
  apply runs_bind, runs_zoom, runs_wp. eapply wp_update_task; [done|]. apply Hk, newborn_update; [done|done|rewrite Hl; lia].
Qed.

Lemma wlp_calloc_task s Q :
  tasks_allocated (os s) -> (forall p s', newborn s p s' -> Q p s') -> wlp calloc_task Q s.
Proof using Type.
  intros Ha HQ. unfold calloc_task. apply runs_bind, runs_zoom, runs_zoom. unfold runs at 1.
  destruct (heap_calloc TASK_SIZE (kernel (os s))) as [[p k]| |] eqn:E; [|done|done]. pose proof (Ha p k E) as Hp.
  destruct (Z.eqb_spec p 0) as [|Hp0]; [done|]. cbn [os assign over].
  apply runs_bind, runs_zoom, runs_wp, wp_modify. match goal with |- runs _ _ _ ?st => assert (newborn s p st) as Hn end.
  { split; simpl; [done| |done|done|done|].
    - rewrite fmap_insert, delete_insert_eq. apply delete_id. by rewrite lookup_fmap, Hp.
    - exists zero_task. rewrite lookup_insert_eq. split_and!; [done|done|simpl; lia|simpl; lia]. }
  apply runs_bind_wp. wp_step. destruct (nb_task _ _ _ Hn) as (t & Ht & Hst & Hl).
  apply runs_bind, runs_zoom, runs_wp. eapply wp_update_task; [done|].
  match goal with |- runs _ _ _ ?st => assert (newborn s p st) as Hn2 by (by apply newborn_update) end.
  apply runs_bind, runs_zoom, runs_wp, wp_modify, runs_ret, HQ. by eapply newborn_quiet.
Qed.
(** The new task gets a place in a ready queue. *)
Lemma wlp_adopt o qs p t :
  scheduled (o <| tasks := delete p (tasks o) |>) qs -> tasks o !! p = Some t -> p <> 0 ->
  task_state t = TASK_STATE_READY -> 0 <= task_queue_level t < 4 -> (size (delete p (cores o)) < fuel)%nat ->
  wlp (task_manager_enqueue_task fuel (task_queue_level t) p)
    (fun _ o' => rest_of o' = rest_of o /\ exists q c, qs !! Z.to_nat (task_queue_level t) = Some q /\
       scheduled o' (<[Z.to_nat (task_queue_level t) := q ++ [p]]> qs) /\ cores o' = <[p := c]> (cores o)) o.
Proof using Type.
  set (od := o <| tasks := delete p (tasks o) |>). intros [Ho Hr] Ht Hp0 Hst Hl Hf.
  assert (cores od = delete p (cores o)) as Hcd by (unfold cores; simpl; apply fmap_delete).
  pose proof (or_queues _ _ _ Ho) as Hqd. pose proof (queued_size od qs Hqd) as Hsz. rewrite Hcd in Hsz.
  assert (forall x c, cores od !! x = Some c -> x <> p /\ cores o !! x = Some c) as Hod.
  { intros x c. rewrite Hcd. intros [H1 H2]%lookup_delete_Some. by split. }
  assert (p ∉ concat qs) as Hpq by (intros [c [H _]%Hod]%(queued_task od qs p Hqd); done).
  assert (p <> task_idle (task_manager o)) as Hpi by (destruct (or_idle _ _ _ Ho) as (c & [H _]%Hod & _); exact (not_eq_sym H)).
  destruct (Hr) as (Hrq & cr & [Hrp Hcr]%Hod & Hcr').
  assert (queues o qs) as Hq.
  { destruct Hqd as [K1 K2 K3 K4 K5]. split; try done.
    - clear -K2 Hpq. cbn [task_manager assign over od] in K2. simpl in K2. induction K2 as [|h q hs qs Hs _ IH]; [constructor|].
      simpl in Hpq. apply not_elem_of_app in Hpq as [H1 H2]. constructor; [|by apply IH].
      eapply seg_frame; [|exact Hs]. intros y Hy. rewrite lookup_delete_ne; [done|]. by intros ->.
    - intros i q x c Hi Hx Hc. apply (K5 i q x c Hi Hx). rewrite Hcd, lookup_delete_ne; [done|].
      intros ->. apply Hpq. by eapply in_queue. }
  destruct (queue_index o qs Hq (task_queue_level t) ltac:(lia)) as (q & Hqi).
  apply runs_wp. eapply (wp_enqueue fuel o qs Hq (task_queue_level t) p t q); [lia|done|done|done|done|done| |].
  { pose proof (total_length qs _ _ Hqi). lia. }
  intros o' K1 K2 K3. pose proof (rest_idle o o' K3) as Hi. split; [done|]. eexists q, _. split; [done|]. split; [|exact K2].
  assert (runner o' = runner od) as E.
  { unfold runner. change (task_manager od) with (task_manager o). destruct (rest_manager o o' K3) as [-> ->].
    change (task_next (task_manager o')) with (task_next (task_manager (rest_of o'))). by rewrite K3. }
  split; rewrite E.
  - split; [done| |rewrite Hi, K2|rewrite K2].
    + rewrite Hi, K2. intros x c. destruct (decide (x = p)) as [->|Hx].
      * rewrite lookup_insert_eq. intros [= <-] _. apply placed_end; [apply (qs_length _ _ Hq)|done|].
        cbn. rewrite Hst. lia.
      * rewrite lookup_insert_ne by done. intros Hc Hxi. apply placed_push; [apply (qs_length _ _ Hq)|done|done|].
        apply (or_placed _ _ _ Ho); [rewrite Hcd; by rewrite lookup_delete_ne|done].
    + destruct (or_idle _ _ _ Ho) as (c & [H1 H2]%Hod & H3). exists c. by rewrite lookup_insert_ne.
    + rewrite lookup_insert_ne by done. pose proof (or_null _ _ _ Ho) as H. rewrite Hcd in H. by rewrite lookup_delete_ne in H.
  - split; [by apply not_in_push|]. exists cr. rewrite K2. by rewrite lookup_insert_ne.
Qed.

Lemma wlp_enqueue_newborn s qs p s1 t :
  calling s qs -> newborn s p s1 -> tasks (os s1) !! p = Some t ->
  wlp (on_os (task_manager_enqueue_task fuel (task_queue_level t) p)) (fun _ s' => handled (os s')) s1.
Proof using laws.
  intros ((((Hs & Hns & Hf) & Hb) & Hi & _) & _) [[H0 H1] H2 H3 H5 H4 (t' & Ht' & Hst & Hl)] Ht. rewrite Ht in Ht'. injection Ht' as <-.
  set (od := (os s1) <| tasks := delete p (tasks (os s1)) |>).
  assert (look od = look (os s)) as Hlk by (unfold look, seen; f_equal; [f_equal; [exact H5|simpl; by rewrite fmap_delete]|exact H3]).
  assert (settled fuel od qs) as Hset by (by apply (settled_look (os s))). apply look_view in Hlk as Hv.
  apply (wlp_on_os _ (fun _ => handled)), wlp_on_scheduler; [solve_ids| | |by apply (watch_adopt _ qs); [|apply (before_seen (os s))|..]].
  - unfold idle_named, task_ids in *. simpl in *. rewrite H3.
    assert (task_idle (task_manager (os s)) <> p) as Hne.
    { intros E. rewrite E, lookup_fmap, H1 in Hi. done. }
    pose proof (look_ids _ _ Hlk) as E. injection E as E1 _. simpl in E1. rewrite <- E1, fmap_delete in Hi.
    by rewrite lookup_delete_ne in Hi.
  - eapply runs_mono; [apply (wlp_adopt _ qs p t); try done|by intros r o (_ & q & c & _ & H & _); eexists].
    + apply (scheduled_seen (os s)); [by apply look_view|done].
    + replace (delete p (cores (os s1))) with (cores od) by (unfold cores; simpl; apply fmap_delete).
      rewrite (view_size (os s) od) by (by apply look_view). lia.
Qed.

Lemma wlp_task_copy s qs parent_ :
  calling s qs -> tasks_allocated (os s) ->
  wlp (task_manager_task_copy fuel parent_ true) (fun _ s' => handled (os s')) s.
Proof using laws.
  intros Hs Ha. unfold task_manager_task_copy. apply runs_bind, wlp_calloc_task; [done|]. intros p s1 Hn.
  apply (wlp_newborn_quiet s p s1); [done|solve_quiet|]. clear s1 Hn. intros t s1 Hn.
  apply (wlp_newborn_update s p s1); [done|done|done|]. clear s1 Hn. intros s1 Hn.
  do 16 (apply (wlp_newborn_quiet s p s1); [done|solve [solve_quiet]|]; clear s1 Hn; intros ? s1 Hn; cbv beta iota;
    try match goal with |- runs _ (let '(_, _) := ?x in _) _ _ => destruct x end).
  apply runs_bind, runs_zoom, runs_load_task; [done|]. intros t1 Ht1.
  replace (s1 <| os := os s1 |>) with s1 by (by destruct s1). cbv iota.
  apply wlp_then_quiet; [by apply (wlp_enqueue_newborn s qs p)|]. intros; solve_quiet.
Qed.

Lemma wlp_syscall_fork s qs :
  calling s qs -> tasks_allocated (os s) -> wlp (syscall_fork base fuel) (fun _ s' => handled (os s')) s.
Proof using laws.
  intros Hs Ha. unfold syscall_fork. apply (wlp_caller _ _ _ qs Hs).
  apply wlp_then_quiet; [by apply (wlp_task_copy s qs)|]. intros; solve_quiet.
Qed.

(** *** Every call *)

Lemma wlp_answer s data (call : M fs_t Z) :
  wlp call (fun _ s' => handled (os s')) s -> wlp (answer_in_eax data call) (fun _ s' => handled (os s')) s.
Proof using laws. intros H. apply wlp_then_quiet; [done|]. intros; solve_quiet. Qed.

Lemma wlp_syscall_dispatch s qs data number :
  calling s qs -> tasks_allocated (os s) ->
  wlp (syscall_dispatch base fuel stale_header stale_program_header data number) (fun _ s' => handled (os s')) s.
Proof using quiets laws.
  intros Hs Ha. unfold syscall_dispatch.
  repeat match goal with |- runs _ (if ?b then _ else _) _ _ => destruct b end.
  all: try (apply wlp_answer).
  all: try solve [by apply (wlp_syscall_read s qs) | by apply (wlp_syscall_write s qs) | by apply (wlp_syscall_fork s qs)
    |by apply (wlp_syscall_waitpid s qs) | by apply (wlp_syscall_kill s qs)
    |apply wlp_then_quiet; [by apply (wlp_syscall_exit s qs)|intros; solve_quiet]
    |apply (wlp_all_quiet _ s qs); [solve_quiet|done]].
Qed.

(** While the tasks are live blocks of the heap, it hands out none of them again. *)
Lemma tasks_allocated_live live room o :
  heap_inv live room (kernel o) -> dom (tasks o) ⊆ live -> block_headers TASK_SIZE <= room -> tasks_allocated o.
Proof using Type.
  intros Hk Hd Hr p k E. assert (wp (heap_calloc TASK_SIZE) (fun p _ => p ∉ live) (kernel o)) as H.
  { apply (heap_calloc_law live room); [done|unfold TASK_SIZE; lia|done|]. by intros q h _ Hq _. }
  unfold wp in H. rewrite E in H. apply not_elem_of_dom. intros Hp. by apply H, Hd.
Qed.

(** The memory of the heap and the set of tasks, while the parameters are read. *)
Definition reserve (s : fs_t) : kernel_t * gset Z := (kernel (os s), dom (tasks (os s))).
Lemma allocated_reserve s s' : reserve s' = reserve s -> tasks_allocated (os s) -> tasks_allocated (os s').
Proof using Type.
  intros [= Hk Hd] Ha p k. rewrite Hk. intros H%Ha. apply not_elem_of_dom. rewrite Hd. by apply not_elem_of_dom.
Qed.
Lemma reads_memory va n : Keeps id (read_memory va n).
Proof using Type.
  revert va. induction n as [|n IH]; intros va; cbn [read_memory]; [apply keeps_ret|].
  apply keeps_bind; [unfold load8; solve_keeps|]. intros. apply keeps_bind; [apply IH|intros; apply keeps_ret].
Qed.
Lemma reserve_load_frame data : Keeps reserve (on_machine_of (load_frame data)).
Proof using Type.
  assert (Keeps id (load_frame data)) as H.
  { unfold load_frame. apply keeps_bind; [apply reads_memory|intros; apply keeps_of_option]. }
  intros s a s'. unfold on_machine_of, on_os, in_machine, on_kernel, on_machine, zoom.
  destruct (load_frame data (machine (kernel (os s)))) as [[r m]| |] eqn:E; [|done|done].
  pose proof (H _ _ _ E) as Hm. simpl in Hm. intros [= _ <-]. unfold reserve. simpl. f_equal. rewrite Hm.
  by destruct (kernel (os s)).
Qed.
Lemma reserve_update_call_task f : Keeps reserve (update_call_task f).
Proof using Type.
  unfold update_call_task, SYSCALL_TASK. apply keeps_bind; [solve_keeps|]. intros p s a s'.
  unfold on_os, zoom, update_task, load_task, bind, get, of_option, ret, modify.
  destruct (tasks (os s) !! p) as [t|] eqn:Ht; [|done]. intros [= _ <-]. unfold reserve. simpl. f_equal.
  rewrite dom_insert_L. apply subseteq_union_1_L, singleton_subseteq_l, elem_of_dom. by exists t.
Qed.
Lemma reserve_task_of_call : Keeps reserve task_of_call.
Proof using Type.
  unfold task_of_call, SYSCALL_TASK. apply keeps_bind; [solve_keeps|]. intros p.
  apply (keeps_zoom _ id); [|unfold load_task; solve_keeps].
  intros o s H. simpl in H. subst o. by destruct s.
Qed.

Lemma wlp_reserve {A B} (m : M fs_t A) (k : A -> M fs_t B) Q s qs :
  Keeps quiet m -> Keeps reserve m -> calling s qs -> tasks_allocated (os s) ->
  (forall a s', calling s' qs -> tasks_allocated (os s') -> wlp (k a) Q s') -> wlp (bind m k) Q s.
Proof using laws.
  intros H1 H2 Hs Ha Hk. apply runs_bind.
  eapply runs_mono; [apply (runs_and false m (fun _ s' => quiet s' = quiet s) (fun _ s' => reserve s' = reserve s))|].
  - by apply (wlp_keeps quiet).
  - by apply (wlp_keeps reserve).
  - intros a s' [K1 K2]. apply Hk; [by apply (calling_quiet s)|by apply (allocated_reserve s)].
Qed.

(** What an interrupt finds. *)
Definition entered (o : os_t) (qs : list (list Z)) : Prop :=
  serving o qs /\ tasks_allocated o.

Lemma wlp_syscall_handler s qs data :
  entered (os s) qs ->
  wlp (syscall_handler base fuel stale_header stale_program_header data) (fun _ s' => handled (os s')) s.
Proof using quiets laws.
  intros (Hs & Ha). unfold syscall_handler. apply runs_bind, runs_wp, wp_modify.
  match goal with |- runs _ _ _ ?st => set (s0 := st) end. assert (calling s0 qs) as Hc by done.
  assert (tasks_allocated (os s0)) as Ha0 by exact Ha. clearbody s0. clear s Hs Ha.
  apply (wlp_reserve _ _ _ s0 qs); [solve_quiet|apply reserve_task_of_call|done|done|].
  intros t s1 Hs1 Ha1. apply (wlp_reserve _ _ _ s1 qs); [solve_quiet| |done|done|].
  { destruct (syscall_retry t); [apply keeps_ret|]. apply keeps_bind; [apply reserve_load_frame|].
    intros frame. apply reserve_update_call_task. }
  intros r s2 Hs2 Ha2. apply (wlp_reserve _ _ _ s2 qs); [solve_quiet|apply reserve_task_of_call|done|done|].
  intros t3 s3 Hs3 Ha3. by apply (wlp_syscall_dispatch s3 qs).
Qed.

Lemma quiet_print {A} (op : M (console_t framebuffer_t) A) : Keeps quiet (Interrupts.print op).
Proof using Type. apply keeps_zoom_out. by intros [t f] s. Qed.
#[local] Hint Resolve quiet_print : keeps.

(** The running task is one that a signal can end. *)
Lemma current_target o qs : serving o qs -> target_of o (task_current (task_manager o)).
Proof using Type.
  intros ((Hs & _) & _ & Hne). split; [done|]. pose proof (settled_current fuel o qs Hs) as Hcur.
  destruct Hs as ([_ (_ & c & Hc & Hst & _)] & _). rewrite Hcur in Hc. destruct (cores_lookup _ _ _ Hc) as (t & Ht & <-).
  exists t. split; [done|]. change (task_state (core t) <> TASK_STATE_ZOMBIE). by rewrite Hst.
Qed.

(** An exception of a program: its handler is called, or the task ends. *)
Lemma wlp_isr_handler s qs data :
  entered (os s) qs ->
  wlp (isr_handler base fuel stale_header stale_program_header stale_print data) (fun _ s' => handled (os s')) s.
Proof using quiets laws.
  intros He. unfold isr_handler. apply runs_bind.
  eapply runs_mono; [apply (runs_and false _ (fun _ s' => quiet s' = quiet s) (fun _ s' => reserve s' = reserve s))|].
  { by apply (wlp_keeps quiet); [solve_quiet|]. }
  { by apply (wlp_keeps reserve); [apply reserve_load_frame|]. }
  intros frame s1 [Hq Hr]. assert (entered (os s1) qs) as He1.
  { destruct He as [H1 H2]. split; [by apply (serving_look (os s)); [apply quiet_look|]|by apply (allocated_reserve s)]. }
  clear s He Hq Hr. pose proof (serving_handled _ _ (proj1 He1)) as Hh.
  destruct (interrupt_index frame <? PIC1_REMAPPED_VECTOR).
  - destruct (negb (Z.land (reg_cs frame) 0x3 =? 3)); [apply wlp_handled_quiet; [solve_quiet|done]|].
    apply runs_bind_wp. wp_step. cbv zeta.
    destruct (task_current (task_manager (os s1)) =? 0); [by apply runs_ret|].
    apply wlp_pass; [solve_quiet|]. intros sig s2 H2. apply wlp_pass; [solve_quiet|]. intros t s3 H3. rewrite H2 in H3. clear s2 H2.
    assert (forall s4, quiet s4 = quiet s1 -> serving (os s4) qs /\ task_current (task_manager (os s1)) = task_current (task_manager (os s4))) as Hk.
    { intros s4 H4. pose proof (quiet_look s1 s4 H4) as Hl. split; [by apply (serving_look (os s1)); [|apply He1]|].
      pose proof (f_equal snd Hl) as Hm. simpl in Hm. by rewrite Hm. }
    destruct (negb (handler_of t sig =? SYSCALL_SIG_DFL) && negb (handler_of t sig =? SYSCALL_SIG_IGN)).
    + destruct (Hk s3 H3) as [Hs3 ->]. apply wlp_then_quiet; [|intros; solve_quiet].
      apply (wlp_deliver_signal s3 qs); [done|by apply (current_target _ qs)].
    + apply wlp_pass; [solve_quiet|]. intros r4 s4 H4. apply wlp_pass; [solve_quiet|]. intros r5 s5 H5.
      destruct (Hk s5) as [Hs5 ->]; [congruence|]. apply (wlp_exit_call _ qs); [done|].
      intros s' H. apply runs_bind. eapply runs_mono; [exact (runs_bind_inv _ _ _ _ _ H)|]. intros r6 s6 H6. by apply runs_ret.
  - destruct (interrupt_index frame =? IDT_SYSCALL); [|by apply runs_ret].
    apply wlp_then_quiet; [by apply (wlp_syscall_handler s1 qs)|]. intros; solve_quiet.
Qed.
End calls.
