(* ===== verification/Entry.v ===== *)
(** * The kernel between two programs

    Every way into the kernel, as a whole: a hardware interrupt with its handler,
    an exception, a system call, and the way out through the interrupt stubs
    (src/irq_stub_handler.s, src/isr_stub_handler.s).  Programs run in between and
    do what they like with the machine.  Whatever happens, the scheduler's data is
    in order whenever the kernel has been left, and what is watched ([Watch]) is
    carried through. *)
From S2P Require Import Prelude Keeps Bitmap Paging KernelHeap Tasks TaskManager Allocator Keyboard Terminal Framebuffer Files VfsCache Resource Vfs Ramfs CString Memory Scheduler Watch Process Elf Syscall SignalLaws Devfs Print Ports Segments Interrupts Quiet Calls.

(** ** The entries *)

Section entry.
Context {alloc : Allocator kernel_t} {systems : FileSystems} {old : OldNodes}.
(** As in [Interrupts]. *)
Variable base : Z.
Variable fuel : nat.
Variable stale_header : list Z.
Variable stale_program_header : Z -> list Z.
Variable stale_print : list Z.
Variables keyboard_address : Z.

(** The stubs leave the registers in a frame at [esp], which they also pass on.
    The answer is that of [irq_stub_finish], or that the machine was halted. *)
Inductive way_out : Type :=
| LEFT (stack : option (Z * Z))
| HALTED.
Definition irq_stub_handler (scancode esp : Z) : M interrupts_t way_out :=
  do! irq_handler base fuel keyboard_address scancode esp in
  let! stack := on_kernel_state (on_os (irq_stub_finish esp)) in
  ret (LEFT stack).
Definition isr_stub_handler (esp : Z) : M interrupts_t way_out :=
  let! outcome := on_kernel_state (isr_handler base fuel stale_header stale_program_header stale_print esp) in
  match outcome with
  | ISR_HALTED => ret HALTED
  | ISR_RETURNED => let! stack := on_kernel_state (on_os (isr_stub_finish esp)) in ret (LEFT stack)
  end.

Inductive entry : Type :=
| ENTRY_IRQ (scancode esp : Z)    (* the keyboard's port answers [scancode] *)
| ENTRY_ISR (esp : Z).
Definition enter (e : entry) : M interrupts_t way_out :=
  match e with
  | ENTRY_IRQ scancode esp => irq_stub_handler scancode esp
  | ENTRY_ISR esp => isr_stub_handler esp
  end.

(** What the model needs of the state for an entry: more fuel than there are
    tasks; the idle task, which halts in a loop, neither calls nor faults; the
    allocator does not hand out the block of a task. *)
Definition ready_for (o : os_t) (e : entry) : Prop :=
  (size (cores o) + 1 < fuel)%nat /\
  match e with
  | ENTRY_IRQ _ _ => True
  | ENTRY_ISR _ => task_current (task_manager o) <> task_idle (task_manager o) /\ tasks_allocated o
  end.

(** Memory and registers change while a program runs. *)
Definition program_ran (m : machine_t) (s : interrupts_t) : interrupts_t :=
  s <| kernel_state := (kernel_state s) <| os := (os (kernel_state s))
         <| kernel := set_machine m (kernel (os (kernel_state s))) |> |> |>.

(** What the kernel leaves behind, and finds again. *)
Definition in_order (o : os_t) : Prop :=
  ((exists qs, scheduled o qs) /\ idle_named o) /\ task_needs_switching (task_manager o) = false.

Inductive reached (s0 : interrupts_t) : interrupts_t -> Prop :=
| reached_start : reached s0 s0
| reached_program s m : reached s0 s -> reached s0 (program_ran m s)
| reached_entry s e stack s' :
    reached s0 s -> ready_for (os (kernel_state s)) e -> enter e s = Ret (LEFT stack, s') -> reached s0 s'.

End entry.
Section handlers.
Context {alloc : Allocator kernel_t} {systems : FileSystems} {old : OldNodes}.
(** As in [Interrupts]. *)
Variable base : Z.
Variable fuel : nat.
Variable stale_header : list Z.
Variable stale_program_header : Z -> list Z.
Variable stale_print : list Z.
Variables keyboard_address : Z.
Context {watch : Watch} {laws : WatchLaws base fuel} {quiets : QuietSystems}.
#[local] Abbreviation enter := (enter base fuel stale_header stale_program_header stale_print keyboard_address).

(** ** A hardware interrupt *)

Lemma wlp_timer_irq s qs kernel_mode :
  settled fuel (os s) qs -> idle_named (os s) -> before (os s) ->
  wlp (on_os (timer_irq_handler base fuel kernel_mode)) (fun _ s' => handled (os s')) s.
Proof using laws.
  intros Hs Hi Hb. apply (wlp_on_os _ (fun _ => handled)), wlp_on_scheduler; [apply ids_timer|done| |by apply (watch_tick (os s) qs)].
  apply (runs_tick_scheduled base fuel false (os s) qs); [done|done|]. intros o' qs' H _. by exists qs'.
Qed.

(** The keyboard's own data is not the scheduler's. *)
Lemma keyboard_write_os scancode : Keeps kb_os (on_keyboard (keyboard_buffer_write scancode)).
Proof using Type. by apply keeps_zoom_out. Qed.
Lemma wlp_keyboard_irq k qs address scancode :
  settled fuel (kb_os k) qs -> idle_named (kb_os k) -> before (kb_os k) ->
  wlp (keyboard_irq_handler fuel address scancode) (fun _ k' => handled (kb_os k')) k.
Proof using laws.
  intros Hs Hi Hb. unfold keyboard_irq_handler. cbv zeta. apply runs_bind, runs_zoom, runs_wp, wp_modify.
  apply runs_bind, (wlp_keeps kb_os); [apply keyboard_write_os|]. intros r k' Hk. cbn [kb_os assign over] in Hk.
  apply runs_zoom. rewrite Hk. apply wlp_on_scheduler; [apply ids_wake|done| |by apply (watch_wake _ qs)].
  apply runs_wp, (wp_wake_scheduled fuel _ qs); [done|]. intros o' qs' H _. by exists qs'.
Qed.

Lemma wlp_run_irq_handler s qs handler frame scancode :
  settled fuel (os s) qs -> idle_named (os s) -> before (os s) ->
  wlp (run_irq_handler base fuel keyboard_address scancode handler frame) (fun _ s' => handled (os s')) s.
Proof using laws.
  intros Hs Hi Hb. destruct handler; [by apply (wlp_timer_irq s qs)|].
  apply runs_zoom. eapply runs_mono; [by apply (wlp_keyboard_irq _ qs)|]. intros r k H. exact H.
Qed.

Lemma wlp_irq_handler s qs scancode esp :
  settled fuel (os (kernel_state s)) qs -> idle_named (os (kernel_state s)) -> before (os (kernel_state s)) ->
  wlp (irq_handler base fuel keyboard_address scancode esp) (fun _ s' => handled (os (kernel_state s'))) s.
Proof using laws.
  intros Hs Hi Hb. unfold irq_handler. apply runs_bind, runs_zoom, (wlp_keeps quiet); [solve_quiet|]. intros frame k Hq.
  apply (quiet_look _ k) in Hq. apply (settled_look fuel _ (os k) qs Hq) in Hs.
  assert (idle_named (os k)) as Hi' by (unfold idle_named in *; by rewrite (look_ids _ (os k) Hq)).
  apply (before_seen _ (os k)) in Hb; [|by apply look_view]. clear Hi Hq.
  cbv zeta. destruct (_ <? 0); [done|]. apply runs_bind_wp. wp_step. apply runs_bind.
  match goal with |- wlp (of_option ?x) _ _ => destruct x as [handler|]; [|done] end. apply runs_ret, runs_bind.
  eapply (runs_mono _ _ (fun _ s' => handled (os (kernel_state s')))).
  - destruct handler as [handler|].
    + apply runs_zoom. eapply runs_mono; [by apply (wlp_run_irq_handler k qs)|]. intros r k' H. exact H.
    + apply runs_ret. split; [split; [exists qs; apply Hs|exact Hi']|by apply before_after].
  - intros r s' H. apply (wlp_keeps kernel_state); [by apply keeps_zoom_out|]. intros r' s'' ->. exact H.
Qed.

(** ** The way out *)

Lemma wlp_way_out e o esp :
  Keeps task_ids (finish e esp) -> handled o -> wlp (finish e esp) (fun _ o' => in_order o' /\ after o') o.
Proof using laws.
  intros Hk [[(qs & Hs) Hi] Ha]. apply runs_and; [|by apply (watch_finish o qs)].
  eapply runs_mono; [apply (runs_and false _ (fun _ o' =>
    (exists qs, scheduled o' qs) /\ task_needs_switching (task_manager o') = false) (fun _ o' => task_ids o' = task_ids o))|].
  - apply (wlp_finish o qs); [done|]. intros r o' H1 H2 _. by split; [exists qs|].
  - by apply (wlp_keeps task_ids).
  - intros r o' [[H1 H2] H3]. split; [|done]. split; [done|]. unfold idle_named in *. by rewrite H3.
Qed.
Lemma wlp_leave e s esp :
  Keeps task_ids (finish e esp) -> handled (os (kernel_state s)) ->
  wlp (let! stack := on_kernel_state (on_os (finish e esp)) in ret (LEFT stack))
      (fun _ s' => in_order (os (kernel_state s')) /\ after (os (kernel_state s'))) s.
Proof using laws.
  intros Hk Hs. apply runs_bind, runs_zoom, runs_zoom. eapply runs_mono; [by apply (wlp_way_out e)|].
  intros r o H. by apply runs_ret.
Qed.

Lemma program_in_order m s : in_order (os (kernel_state s)) -> in_order (os (kernel_state (program_ran m s))).
Proof using Type.
  intros [[(qs & Hs) Hi] Hn]. split; [split; [exists qs|]|]; [by apply (scheduled_seen (os (kernel_state s)))|done..].
Qed.
(** An entry keeps the order, if the machine is not halted. *)
Lemma wlp_enter e s :
  in_order (os (kernel_state s)) -> ready_for fuel (os (kernel_state s)) e -> before (os (kernel_state s)) ->
  wlp (enter e) (fun out s' => forall stack, out = LEFT stack ->
    in_order (os (kernel_state s')) /\ after (os (kernel_state s'))) s.
Proof using quiets laws.
  intros [[(qs & Hs) Hi] Hn] [Hf He] Hb. assert (settled fuel (os (kernel_state s)) qs) as Hset by done. destruct e as [scancode esp|esp].
  - apply runs_bind. eapply runs_mono; [by apply (wlp_irq_handler s qs)|]. intros r s1 H1.
    eapply runs_mono; [apply (wlp_leave (EV_TICK false)); [apply ids_irq_finish|exact H1]|]. by intros out s2 H2 stack _.
  - destruct He as [Hne Ha]. apply runs_bind, runs_zoom.
    eapply runs_mono; [by apply (wlp_isr_handler base fuel stale_header stale_program_header stale_print _ qs)|].
    intros outcome k H1. destruct outcome; [|by apply runs_ret].
    eapply runs_mono; [apply (wlp_leave (EV_EXIT 0)); [apply ids_isr_finish|exact H1]|]. by intros out s2 H2 stack _.
Qed.

End handlers.

(** ** The invariant of the kernel *)

Section invariant.
Context {alloc : Allocator kernel_t} {systems : FileSystems} {old : OldNodes} {quiets : QuietSystems}.
(** As in [Interrupts]. *)
Variable base : Z.
Variable fuel : nat.
Variable stale_header : list Z.
Variable stale_program_header : Z -> list Z.
Variable stale_print : list Z.
Variables keyboard_address : Z.
#[local] Abbreviation reached := (reached base fuel stale_header stale_program_header stale_print keyboard_address).

(** C1: Programs run, interrupts and exceptions enter the kernel, every system call
    there is may be made: whenever the kernel has been left, the scheduler's data
    is in order.  The queues are disjoint lists of tasks, every task but the idle
    one is in the place its state says (a ready task in one of the four ready
    queues, a blocked one in the blocked queue, a running one on the processor, a
    zombie in the zombie queue if it is in one), the task on the processor is
    running and in no queue, and no switch is left to be done. *)
Theorem kernel_in_order s0 s :
  in_order (os (kernel_state s0)) -> reached s0 s ->
  let o := os (kernel_state s) in
  exists qs, queues o qs /\
    (forall x c, cores o !! x = Some c -> x <> task_idle (task_manager o) ->
       placed qs (task_current (task_manager o)) x c) /\
    (task_current (task_manager o) ∉ concat qs) /\
    (exists c, cores o !! task_current (task_manager o) = Some c /\ task_state c = TASK_STATE_RUNNING) /\
    task_needs_switching (task_manager o) = false.
Proof using quiets.
  intros H0 Hr. cbv zeta. assert (in_order (os (kernel_state s))) as [[(qs & Ho & Hx) _] Hn].
  { induction Hr as [|s m _ IH|s e stack s' _ IH Hready E]; [done|by apply program_in_order|].
    pose proof (nothing_laws base fuel) as laws.
    by apply (runs_inv _ _ _ _ _ _ (wlp_enter (laws := laws) _ _ _ _ _ _ e s IH Hready I) E stack). }
  assert (runner (os (kernel_state s)) = task_current (task_manager (os (kernel_state s)))) as E by (unfold runner; by rewrite Hn).
  rewrite E in Ho, Hx. destruct Hx as (H1 & c & H2 & H3 & _). exists qs. split_and!; [apply Ho|apply Ho|done|by exists c|done].
Qed.

End invariant.
#[local] Existing Instance demo_old_nodes.

(** ** A witness *)

(** The running task of [demo] is interrupted with these registers. *)
Definition interrupted_state (registers : register_interrupt_data_t) : interrupts_t :=
  mk_interrupts
    (with_machine (interrupted_machine registers)
      (with_tasks (tasks demo) (demo_fs <| os := (os demo_fs) <| task_manager := task_manager demo |> <| timer_ticks := timer_ticks demo |> |>)))
    ([Some timer_irq; Some keyboard_irq] ++ repeat None 14) [].
Lemma interrupted_in_order registers : in_order (os (kernel_state (interrupted_state registers))).
Proof.
  split; [split|done].
  - exists demo_queues. apply (scheduled_seen demo); [done|]. apply demo_settled.
  - done.
Qed.

(** It calls exit; its parent waits for it. *)
Definition exit_state : interrupts_t := interrupted_state (demo_registers <| reg_eax := SYSCALL_EXIT |>).
#[local] Abbreviation exit_entered :=
  (enter (alloc := demo_allocator) (systems := demo_systems) 0xC0100000 20 [] (fun _ => []) [] 0xC0001000
     (ENTRY_ISR 0xCFFFFFB8) exit_state).

Lemma exit_ready : ready_for (alloc := demo_allocator) 20 (os (kernel_state exit_state)) (ENTRY_ISR 0xCFFFFFB8).
Proof.
  split; [vm_compute; lia|]. split; [done|]. intros p k E.
  assert (match heap_calloc (Allocator := demo_allocator) TASK_SIZE (kernel (os (kernel_state exit_state))) with
          | Ret (p, _) => tasks demo !! p = None | _ => True end) as H by (vm_compute; reflexivity).
  rewrite E in H. exact H.
Qed.

(** The child is a zombie, the parent is ready, and the next task runs. *)
Lemma kernel_in_order_witness :
  match exit_entered with
  | Ret (LEFT _, s) =>
      (fun t => task_state t) <$> tasks (os (kernel_state s)) =
        {[ 0x100 := TASK_STATE_READY; 0x200 := TASK_STATE_RUNNING; 0x300 := TASK_STATE_READY;
           0x400 := TASK_STATE_READY; 0x500 := TASK_STATE_ZOMBIE ]} /\
      exists qs, queues (os (kernel_state s)) qs
  | _ => False
  end.
Proof.
  destruct exit_entered as [[[stack|] s]| |] eqn:E; [|vm_compute in E; discriminate E..].
  destruct (kernel_in_order (alloc := demo_allocator) (systems := demo_systems) 0xC0100000 20 [] (fun _ => []) [] 0xC0001000
              exit_state s) as (qs & Hq & _).
  - apply interrupted_in_order.
  - eapply reached_entry; [constructor|exact exit_ready|exact E].
  - split; [|by exists qs]. clear Hq. vm_compute in E. injection E as _ <-. vm_compute. reflexivity.
Defined.
