(* ===== verification/Fairness.v ===== *)
(** * No task waits for ever

    The kernel's promise over time: how far a ready task is from the processor is
    a number of ticks, that everything that enters the kernel keeps or lowers,
    that every tick lowers, and that only a new task can raise.  It is an instance
    of what [Calls] and [Entry] carry through an entry ([Watch]). *)
From S2P Require Import Prelude Keeps Bitmap Paging KernelHeap Tasks TaskManager Places Allocator Keyboard Terminal Framebuffer Files VfsCache Resource Vfs Ramfs CString Memory Scheduler Watch Process Elf Syscall SignalLaws Devfs Print Ports Segments Interrupts Quiet Calls Entry.

Section fairness.
Context {old : OldNodes}.
(** As in [Scheduler]. *)
Variable base : Z.
Variable fuel : nat.

(** ** The schedule step, seen from a task that waits *)

(** The ticks since the last boost. *)
Definition since_boost (s : os_t) : Z := u64 (timer_ticks s - last_priority_boost_at_ticks (task_manager s)).

(** The slice of the task that has, or gets, the processor. *)
Definition slice_is (s : os_t) (P : Z -> Prop) : Prop :=
  exists c, cores s !! runner s = Some c /\ P (task_time_slice c).

(** The processor changed hands: to [x], or to a task before it. *)
Definition moved_up (x : Z) (k : option nat) (s' : os_t) : Prop :=
  runner s' = x \/
  exists qs' k', queues s' qs' /\ advanced k k' /\ stands x qs' k' /\ slice_is s' (fun t => 1 <= t <= 32).

Lemma level_slice i : 0 <= i < 4 -> 1 <= 4 * 2 ^ i <= 32.
Proof using Type. intros Hi. assert (i = 0 \/ i = 1 \/ i = 2 \/ i = 3) as [->|[->|[->| ->]]] by lia; lia. Qed.

Lemma wp_pick_fair s qs y x k Q :
  queues s qs -> is_Some (cores s !! task_idle (task_manager s)) ->
  task_needs_switching (task_manager s) = false -> task_current (task_manager s) = y -> stands x qs k ->
  (forall s', clock s' = clock s -> moved_up x k s' -> Q tt s') ->
  wp (let! new_task := task_manager_pick_task in
      do! update_task new_task (fun t => t <| task_state := TASK_STATE_RUNNING |>) in
      if negb (new_task =? y) then
        update_manager (fun m => m <| task_next := new_task |> <| task_needs_switching := true |>)
      else
        update_task new_task (fun t =>
          t <| task_time_slice := task_manager_calculate_time_slice (task_queue_level t) |>)) Q s.
Proof using Type.
  intros Hq Hi Hns Hcur Hs HQ. apply (wp_switch_pick s qs y); [done|done|by eapply stands_first|].
  intros i z s' Hf (K1 & K2 & c & K3 & K4).
  assert (runner s' = z) as Hr.
  { change (runner (rest_of s') = z). rewrite K2. unfold runner. case_decide as E; cbn; [|done].
    by rewrite Hns, Hcur, E. }
  apply HQ.
  - change (clock (rest_of s') = clock s). rewrite K2. by case_decide.
  - destruct (decide (z = x)) as [->|Hzx]; [by left|right].
    destruct (stands_pop x qs k i z (qs_length _ _ Hq) Hf) as (k' & H1 & H2); [done|done|].
    eexists _, k'. split_and!; [exact K1|done|done|]. exists (c <| task_time_slice := 4 * 2 ^ i |> <| task_state := TASK_STATE_RUNNING |>).
    rewrite Hr, K4, lookup_insert_eq. split; [done|]. cbn. apply level_slice.
    destruct (first_ready_spec _ _ _ _ Hf) as [H _]. rewrite length_take, (qs_length _ _ Hq) in H. simpl in H. lia.
Qed.

Lemma wp_switch_fair s qs y x k Q :
  orderly s qs y -> task_needs_switching (task_manager s) = false -> task_current (task_manager s) = y ->
  running s qs y \/ stopped s qs y -> (size (cores s) < fuel)%nat -> stands x qs k ->
  (forall s', clock s' = clock s -> moved_up x k s' -> Q tt s') ->
  wp (task_manager_switch fuel y) Q s.
Proof using Type.
  intros Ho Hns Hcur Hy Hf Hs HQ. unfold task_manager_switch, manager. pose proof (or_queues _ _ _ Ho) as Hq.
  pose proof (queued_size s qs Hq) as Hsz. destruct (or_idle _ _ _ Ho) as (ci & Hci & _ & Hli).
  assert (exists c, cores s !! y = Some c /\ (task_state c = TASK_STATE_RUNNING -> (y ∉ concat qs) /\ 0 <= task_queue_level c < 4))
    as (c & Hc & Hrun).
  { destruct Hy as [(H1 & c & Hc & _ & H)|(_ & c & Hc & _ & H)]; exists c; split; [done|done|done|].
    intros E. rewrite E in H. by destruct H. }
  assert (y <> 0) as Hy0 by (intros ->; by rewrite (or_null _ _ _ Ho) in Hc).
  wp_step. eapply (wp_update_core s qs y c); [done|done|done|done|by left|]. intros s1 K1 K2 K3 K4.
  assert (is_Some (cores s1 !! task_idle (task_manager s1))) as Hi1.
  { rewrite K4, K2. destruct (decide (task_idle (task_manager s) = y)) as [->|]; [rewrite lookup_insert_eq|rewrite lookup_insert_ne by done]; by eexists. }
  wp_step. wp_step. destruct (cores_lookup s1 y _ ltac:(rewrite K2; apply lookup_insert_eq)) as (t & Ht & Hct).
  wp_step. eapply wp_load_task; [done|].
  assert (task_state t = task_state c) as -> by (change (task_state (core t) = task_state c); by rewrite Hct).
  wp_step. apply (wp_mono _ (fun _ s2 => exists qs2, queues s2 qs2 /\ rest_of s2 = rest_of s /\
    is_Some (cores s2 !! task_idle (task_manager s2)) /\ stands x qs2 k)).
  - destruct (negb (y =? task_idle (task_manager s1)) && bool_decide _) eqn:E.
    + apply andb_prop in E as [E1 E2]. apply negb_true_iff, Z.eqb_neq in E1. apply bool_decide_eq_true in E2.
      destruct (Hrun E2) as [Hyq Hl].
      apply (wp_requeue fuel s1 qs y (c <| yield := false |>)); try done; [by rewrite K2, lookup_insert_eq|lia|].
      intros q s2 L1 L2 L3 L4. eexists. split_and!; [exact L2|congruence| |by apply stands_push].
      rewrite (rest_idle s1 s2), L3 by done. by rewrite lookup_insert_ne.
    + wp_step. by exists qs.
  - intros [] s2 (qs2 & L1 & L2 & L3 & L4). destruct (rest_manager s s2 L2) as [M1 M2].
    apply (wp_pick_fair s2 qs2 y x k); [done|done|congruence|congruence|done|].
    intros s3 N1 N2. apply HQ; [|done]. rewrite N1. by apply rest_clock.
Qed.

(** The step up to the decrement of the slice. *)
Lemma wp_boost_fair s qs y x k c Q :
  orderly s qs y -> running s qs y \/ stopped s qs y -> (size (cores s) < fuel)%nat -> stands x qs k ->
  cores s !! y = Some c ->
  (forall s' qs' c', orderly s' qs' y -> kept s s' -> running s' qs' y \/ stopped s' qs' y ->
     stands x qs' (boosted (size (cores s)) k) -> since_boost s' = 0 ->
     cores s' !! y = Some c' -> task_time_slice c' = task_time_slice c -> yield c' = yield c -> Q tt s') ->
  wp (task_manager_boost_priority_of_all_tasks fuel) Q s.
Proof using Type.
  intros Ho Hy Hf Hs Hc HQ. pose proof (or_queues _ _ _ Ho) as Hq. pose proof (queued_size s qs Hq) as Hsz.
  destruct (queues_six _ _ Hq) as (q0 & q1 & q2 & q3 & q4 & q5 & ->).
  assert (length (q0 ++ q1 ++ q2 ++ q3) <= size (cores s))%nat as Hn
    by (simpl in Hsz; rewrite !length_app in *; lia).
  eapply wp_mono; [apply (wp_and _ (fun _ s' => exists qs', orderly s' qs' y /\ kept s s' /\ (running s' qs' y \/ stopped s' qs' y)))|].
  - apply (wp_boost_orderly fuel s [q0; q1; q2; q3; q4; q5] y); [done|done|]. intros s' qs' K1 K2 K3 K4. exists qs'.
    split_and!; [done|done|]. destruct Hy; [left|right]; auto.
  - apply (task_manager_boost_priority_of_all_tasks_spec fuel s q0 q1 q2 q3 q4 q5 Hq). lia.
  - intros [] s' ((qs' & K1 & K2 & K3) & L1 & L2 & L3 & L4).
    pose proof (queues_unique s' qs' _ (or_queues _ _ _ K1) L1) as ->.
    eapply HQ; [exact K1|done|done|by apply stands_boost| |by apply (lowered_at _ _ _ y c L2)|by case_bool_decide..].
    unfold since_boost. rewrite L3. change (timer_ticks s') with (timer_ticks (rest_of s')). rewrite L4.
    change (u64 (timer_ticks s - timer_ticks s) = 0). by rewrite Z.sub_diag.
Qed.

Definition boost_due (s : os_t) : bool := TASK_MANAGER_PRIORITY_BOOST_INTERVAL <=? since_boost s.
Definition place_after (s : os_t) (k : option nat) : option nat :=
  if boost_due s then boosted (size (cores s)) k else k.

(** The slice goes on. *)
Definition stays (y x : Z) (k : option nat) (slice : Z) (s' : os_t) : Prop :=
  runner s' = y /\ slice_is s' (fun t => t = slice) /\ exists qs', queues s' qs' /\ stands x qs' k.

Lemma wlp_schedule_fair s qs y x k c Q :
  orderly s qs y -> task_needs_switching (task_manager s) = false -> task_current (task_manager s) = y ->
  running s qs y \/ stopped s qs y -> (size (cores s) < fuel)%nat -> stands x qs k ->
  cores s !! y = Some c -> 1 <= task_time_slice c <= 32 ->
  (forall s', since_boost s' = (if boost_due s then 0 else since_boost s) ->
     moved_up x (place_after s k) s' \/
       yield c = false /\ 1 < task_time_slice c /\ stays y x (place_after s k) (task_time_slice c - 1) s' -> Q tt s') ->
  wlp (task_manager_schedule base fuel) Q s.
Proof using Type.
  intros Ho Hns Hcur Hy Hf Hs Hc Hsl HQ. unfold task_manager_schedule, timer_get_ticks, manager.
  apply runs_bind, runs_destroy_queued; [lia|done|]. intros k0 _. set (s0 := s <| kernel := k0 |>).
  assert (orderly s0 qs y) as Ho0 by (by apply (orderly_view s)). apply runs_wp.
  do 4 wp_step. cbv beta. fold s0. change (timer_ticks s0) with (timer_ticks s).
  change (task_manager s0) with (task_manager s). fold (since_boost s) (boost_due s).
  wp_step. apply (wp_mono _ (fun _ s1 => exists qs1 c1, orderly s1 qs1 y /\ kept s0 s1 /\
    (running s1 qs1 y \/ stopped s1 qs1 y) /\ stands x qs1 (place_after s k) /\
    since_boost s1 = (if boost_due s then 0 else since_boost s) /\
    cores s1 !! y = Some c1 /\ task_time_slice c1 = task_time_slice c /\ yield c1 = yield c)).
  { unfold place_after. destruct (boost_due s).
    - apply (wp_boost_fair s0 qs y x k c); [done..|]. intros s1 qs1 c1. intros. by exists qs1, c1.
    - wp_step. by exists qs, c. }
  clear Ho0. intros [] s1 (qs1 & c1 & K1 & (K2 & K3 & K4 & K5 & _) & K6 & K7 & K8 & K9 & K10 & K11). rewrite Hcur.
  change (task_manager s0) with (task_manager s) in *. change (cores s0) with (cores s) in *.
  destruct (Z.eqb_spec y 0) as [->|Hy0]; [by rewrite (or_null _ _ _ K1) in K9|].
  wp_step. eapply (wp_update_orderly s1 qs1 y y c1); try done. intros s2 L1 L2 L3 L4 L5.
  pose proof (on_processor_update s1 s2 qs1 y c1 _ K9 L2 L4 eq_refl eq_refl eq_refl K6) as Hy2.
  destruct (cores_lookup s2 y _ ltac:(rewrite L2; apply lookup_insert_eq)) as (t & Ht & Hct).
  assert (u32 (task_time_slice c1 - 1) = task_time_slice c - 1) as Hu by (rewrite K10; apply u32_small; lia).
  wp_step. eapply wp_load_task; [done|].
  assert (task_time_slice t = task_time_slice c - 1) as ->
    by (change (task_time_slice (core t) = task_time_slice c - 1); by rewrite Hct, <- Hu).
  assert (yield t = yield c) as -> by (change (yield (core t) = yield c); by rewrite Hct, <- K11).
  assert (since_boost s2 = (if boost_due s then 0 else since_boost s)) as Hsb.
  { rewrite <- K8. unfold since_boost. rewrite L4. f_equal. f_equal.
    change (timer_ticks (rest_of s2) = timer_ticks (rest_of s1)). by rewrite L5. }
  destruct ((task_time_slice c - 1 =? 0) || yield c) eqn:Hover.
  - apply (wp_switch_fair s2 qs1 y x (place_after s k)); [done|congruence|congruence|done| |done|].
    { rewrite (same_tasks_size s1 s2), (same_tasks_size s s1) by done. done. }
    intros s3 M1 M2. apply HQ; [|by left]. rewrite <- Hsb. by injection M1 as H1 H2; unfold since_boost; rewrite H1, H2.
  - apply orb_false_iff in Hover as [E1 E2]. apply Z.eqb_neq in E1. wp_step. apply HQ; [done|right].
    assert (runner s2 = y) as Hr by (unfold runner; by rewrite L4, K5, Hns, K4).
    split; [done|]. split; [lia|]. split; [done|]. split; [|exists qs1; split; [apply L1|done]].
    eexists. rewrite Hr, L2, lookup_insert_eq. split; [done|]. cbn. exact Hu.
Qed.

(** ** The distance to the processor *)

(** [x] gets the processor within [n] ticks: 33 for each task before it in the top
    queue and what is left of the running slice, or the ticks up to the next boost
    and 33 for each task there is. *)
Definition distance (s : os_t) (k : option nat) (t : Z) : Z :=
  match k with
  | Some p => 33 * Z.of_nat p + t
  | None => TASK_MANAGER_PRIORITY_BOOST_INTERVAL - since_boost s + 33 * Z.of_nat (size (cores s))
  end.
(** [top]: it is known to be in the top queue. *)
Definition waits (x : Z) (top : bool) (n : Z) (s : os_t) : Prop :=
  since_boost s < TASK_MANAGER_PRIORITY_BOOST_INTERVAL /\
  exists qs k t, queues s qs /\ stands x qs k /\ (top = true -> k <> None) /\ slice_is s (fun u => u = t) /\
    1 <= t <= 32 /\ distance s k t <= n.

(** A task that stands in a ready queue is ready. *)
Lemma stands_ready s qs x k :
  scheduled s qs -> stands x qs k ->
  x <> runner s /\ exists c, cores s !! x = Some c /\ task_state c = TASK_STATE_READY.
Proof using Type.
  intros [Ho [Hr _]] Hx. destruct (stands_in x qs k Hx) as (i & q & _ & Hqi & Hin).
  pose proof (in_queue qs _ _ _ Hqi Hin) as Hcq. assert (x <> runner s) as Hxr by (by intros ->). split; [done|].
  destruct (queued_task s qs x (or_queues _ _ _ Ho) Hcq) as [c Hc]. exists c. split; [done|].
  by destruct (stands_waiting s qs (runner s) x k c Ho Hx Hc) as [|[_ ?]].
Qed.

(** A change that concerns neither the task on the processor nor the clock. *)
Lemma waits_kept x top n s s' qs qs' :
  queues s qs -> queues s' qs' -> (forall k, stands x qs k -> stands x qs' k) ->
  clock s' = clock s -> (size (cores s') <= size (cores s))%nat -> runner s' = runner s ->
  slice_of s' (runner s) = slice_of s (runner s) -> waits x top n s -> waits x top n s'.
Proof using Type.
  intros Hq Hq' Hk Hcl Hsz Hr Hsl (Hsb & qs0 & k & t & K1 & K2 & Ht & (c & K3 & K4) & K5 & K6).
  rewrite (queues_unique s qs0 qs K1 Hq) in K2. injection Hcl as H1 H2.
  assert (since_boost s' = since_boost s) as Hsb' by (unfold since_boost; congruence).
  split; [by rewrite Hsb'|]. exists qs', k, t. split_and!; [done|by apply Hk|done| |lia|lia|].
  - unfold slice_of in Hsl. rewrite K3 in Hsl. destruct (cores s' !! runner s) as [c'|] eqn:E; [|done]. injection Hsl as Hsl.
    exists c'. rewrite Hr, Hsl. done.
  - unfold distance in *. rewrite Hsb'. destruct k; lia.
Qed.
Lemma waits_seen x top n s s' qs : queues s qs -> view s' = view s -> waits x top n s -> waits x top n s'.
Proof using Type.
  intros Hq Hv. apply (waits_kept x top n s s' qs qs Hq); [by apply (queues_seen s)|done|by apply view_clock| | |by apply view_slice].
  - by rewrite (view_size s s').
  - unfold runner. by injection Hv as _ _ ->.
Qed.

(** [x] has come to the processor, or will within [n] ticks if no task has been made. *)
Definition nears (x : Z) (top : bool) (n : Z) (s s' : os_t) : Prop :=
  runner s' = x \/ (size (cores s') = size (cores s) -> waits x top n s').

(** The schedule step: a place in the top queue costs a tick less after it. *)
Lemma wlp_schedule_waits s qs y x top k c n Q :
  orderly s qs y -> task_needs_switching (task_manager s) = false -> task_current (task_manager s) = y ->
  running s qs y \/ stopped s qs y -> (size (cores s) < fuel)%nat -> stands x qs k -> (top = true -> k <> None) ->
  cores s !! y = Some c -> 1 <= task_time_slice c <= 32 ->
  since_boost s <= TASK_MANAGER_PRIORITY_BOOST_INTERVAL ->
  distance s k (task_time_slice c) <= n + match k with Some _ => 1 | None => 0 end ->
  (forall s', nears x top n s s' -> Q tt s') ->
  wlp (task_manager_schedule base fuel) Q s.
Proof using Type.
  intros Ho Hns Hcur Hy Hf Hs Htop Hc Hsl Hsb Hd HQ.
  assert (0 < size (cores s))%nat as Hsz.
  { destruct (decide (size (cores s) = 0%nat)) as [E|]; [|lia]. apply map_size_empty_inv in E. by rewrite E in Hc. }
  apply (wlp_schedule_fair s qs y x k c); try done. unfold place_after, boost_due. intros s' Hsb' Hend.
  assert (since_boost s' < TASK_MANAGER_PRIORITY_BOOST_INTERVAL) as Hlt.
  { rewrite Hsb'. destruct (Z.leb_spec TASK_MANAGER_PRIORITY_BOOST_INTERVAL (since_boost s)); [done|lia]. }
  apply HQ. destruct Hend as [[Hr|(qs' & k' & K1 & K2 & K3 & c' & K4 & K5)]|(_ & H1 & _ & (c' & K4 & K5) & qs' & K1 & K3)];
    [by left|right; intros E; split; [done|].. ].
  - exists qs', k', (task_time_slice c'). split_and!; [done|done| |by exists c'|lia|lia|].
    { intros Ht ->. apply Htop; [done|]. by destruct (_ <=? _), k. }
    unfold distance in *. rewrite Hsb'. clear Hsb'.
    destruct (Z.leb_spec TASK_MANAGER_PRIORITY_BOOST_INTERVAL (since_boost s)); destruct k as [p|], k' as [p'|]; simpl in K2; lia.
  - eexists qs', _, _. split_and!; [done|exact K3| |by exists c'|lia|lia|].
    { intros Ht. by destruct (_ <=? _); [|apply Htop]. }
    unfold distance in *. rewrite Hsb'. clear Hsb' K3.
    destruct (Z.leb_spec TASK_MANAGER_PRIORITY_BOOST_INTERVAL (since_boost s)); destruct k as [p|]; simpl; lia.
Qed.

(** ** Every step of the scheduler *)

Lemma wlp_tick_waits s qs x top n kernel_mode Q :
  settled fuel s qs -> waits x top n s -> (forall s', nears x top (n - 1) s s' -> Q tt s') ->
  wlp (timer_irq_handler base fuel kernel_mode) Q s.
Proof using Type.
  intros H (Hsb & qs0 & k & t & K1 & K2 & Htop & (c & K3 & K4) & K5 & K6) HQ.
  pose proof (settled_current fuel s qs H) as Hcur. destruct H as ([Ho Hr] & Hns & Hf).
  pose proof (queues_unique s qs0 qs K1 (or_queues _ _ _ Ho)) as ->. clear K1.
  unfold timer_irq_handler, manager. do 2 apply runs_bind_wp, wp_modify || apply runs_bind_wp; wp_step.
  match goal with |- runs _ _ _ ?st => set (s0 := st) end.
  assert (orderly s0 qs (runner s)) as Ho0 by (by apply (orderly_view s)).
  change (task_manager s0) with (task_manager s). rewrite <- Hcur.
  destruct (Z.eqb_spec (runner s) 0) as [E|_]; [by rewrite E, (or_null _ _ _ Ho) in K3|].
  apply runs_bind_wp, (wp_mono _ (fun _ s1 => orderly s1 qs (runner s) /\ task_manager s1 = task_manager s /\
    (running s1 qs (runner s) \/ stopped s1 qs (runner s)) /\ kept s0 s1 /\ timer_ticks s1 = u64 (timer_ticks s + 1) /\
    exists c1, cores s1 !! runner s = Some c1 /\ task_time_slice c1 = t)).
  - destruct kernel_mode; (eapply (wp_update_orderly s0 qs _ (runner s) c); try done); intros s1 L1 L2 L3 L4 L5;
      (split_and!; [done|done|by eapply (on_processor_update s0 s1 qs _ c _ K3 L2 L4); [..|left]|by apply kept_rest
        |change (timer_ticks (rest_of s1) = timer_ticks (rest_of s0)); by rewrite L5
        |eexists; by rewrite L2, lookup_insert_eq]).
  - intros [] s1 (L1 & L2 & L3 & L4 & L5 & c1 & L6 & <-). pose proof (same_tasks_size s0 s1 (proj1 L4)) as Hsz.
    change (cores s0) with (cores s) in Hsz.
    assert (since_boost s1 = since_boost s + 1) as Hsb1.
    { unfold since_boost in *. rewrite L5, L2. unfold_words. unfold TASK_MANAGER_PRIORITY_BOOST_INTERVAL, TIMER_PHASE in Hsb.
      rewrite Zminus_mod_idemp_l. replace (timer_ticks s + 1 - last_priority_boost_at_ticks (task_manager s))
        with (timer_ticks s - last_priority_boost_at_ticks (task_manager s) + 1) by lia.
      rewrite <- Zplus_mod_idemp_l. apply Z.mod_small. pose proof (Z.mod_pos_bound (timer_ticks s - last_priority_boost_at_ticks (task_manager s)) (2 ^ 64) eq_refl). lia. }
    apply (wlp_schedule_waits s1 qs (runner s) x top k c1 (n - 1)); try done; [congruence|congruence|lia|lia| |].
    + unfold distance in *. rewrite Hsb1, Hsz. destruct k; lia.
    + intros s2 Hs2. apply HQ. unfold nears in *. by rewrite Hsz in Hs2.
Qed.

Lemma wp_wake_waits s qs x top n reason object Q :
  settled fuel s qs -> waits x top n s -> (forall s', nears x top n s s' -> Q tt s') ->
  wp (task_manager_wake_blocked_on fuel reason object) Q s.
Proof using Type.
  intros (Hs & Hns & Hf) Hw HQ. pose proof (or_queues _ _ _ (sd_orderly _ _ Hs)) as Hq. pose proof (queued_size s qs Hq) as Hsz.
  destruct (queues_six _ _ Hq) as (q0 & q1 & q2 & q3 & q4 & q5 & ->).
  apply (wp_wake_blocked_on fuel s q0 q1 q2 q3 q4 q5); [done| | |].
  - intros y c Hy Hc. by eapply (blocked_queue s _ q4).
  - simpl in Hsz. rewrite app_nil_r in Hsz. lia.
  - intros s' woken others K1 K2 K3. apply HQ. right. intros E. destruct (rest_manager s s' K3) as [M1 M2].
    assert (runner s ∉ woken) as Hrw.
    { intros [_ H]%list_elem_of_filter. apply (proj1 (sd_running _ _ Hs)). simpl. rewrite !elem_of_app. tauto. }
    apply (waits_kept x top n s s' _ _ Hq K1); [|by apply rest_clock|lia|by unfold runner; rewrite M2, Hns, M1| |done].
    + intros [p|]; cbn.
      * intros (l1 & l2 & [= ->] & Hp). exists l1, (l2 ++ woken). by rewrite <- app_assoc.
      * intros (i & q & Hi & Hqi & Hx). destruct i as [|[|[|[|i]]]]; [|by eexists _, _..|lia].
        injection Hqi as ->. exists 0%nat, (q ++ woken). rewrite elem_of_app. tauto.
    + unfold slice_of. by rewrite (K2 (runner s)), bool_decide_eq_false_2.
Qed.

(** A blocked task becomes ready, as in front of a signal. *)
Lemma wp_unblock_waits s qs x top n y c Q :
  settled fuel s qs -> cores s !! y = Some c -> task_state c = TASK_STATE_BLOCKED -> waits x top n s ->
  (forall s', size (cores s') = size (cores s) -> waits x top n s' -> Q tt s') ->
  wp (do! task_manager_unblock_task fuel y in ret tt) Q s.
Proof using Type.
  intros (Hs & Hns & Hf) Hc Hst Hw HQ. pose proof (sd_orderly _ _ Hs) as Ho. pose proof (or_queues _ _ _ Ho) as Hq.
  pose proof Hw as (_ & qs0 & k & t0 & L1 & L2 & _). pose proof (queues_unique s qs0 qs L1 Hq) as ->.
  assert (x <> y) as Hxy.
  { intros ->. destruct (stands_ready s qs y k Hs L2) as (_ & c' & Hc' & Hr). congruence. }
  apply (wp_unblock_orderly fuel s qs (runner s) y c); [done|done|done|lia|].
  intros q s1 qs1 K1 K2 _ K5 K4 K3. destruct (rest_manager s s1 K4) as [M1 M2].
  pose proof (same_tasks_size s s1 (proj1 K5)) as Hsz. apply HQ; [done|].
  apply (waits_kept x top n s s1 _ _ Hq K2); [|by apply rest_clock|lia|by unfold runner; rewrite M2, Hns, M1| |done].
  - intros k'. by apply stands_moved.
  - unfold slice_of. rewrite K3, lookup_insert_ne; [done|]. intros ->.
    destruct (sd_running _ _ Hs) as (_ & cr & Hcr & Hsr & _). congruence.
Qed.

(** The task on the processor waits or has ended: the next one is chosen. *)
Lemma wlp_yield_waits s qs x top k y c n Q :
  orderly s qs y -> task_needs_switching (task_manager s) = false -> task_current (task_manager s) = y ->
  y <> task_idle (task_manager s) -> cores s !! y = Some c ->
  (task_state c = TASK_STATE_BLOCKED \/ task_state c = TASK_STATE_ZOMBIE) -> (size (cores s) < fuel)%nat ->
  stands x qs k -> (top = true -> k <> None) -> 1 <= task_time_slice c <= 32 ->
  since_boost s < TASK_MANAGER_PRIORITY_BOOST_INTERVAL ->
  distance s k (task_time_slice c) <= n -> (forall s', nears x top n s s' -> Q tt s') ->
  wlp (do! task_manager_yield_current base fuel in ret tt) Q s.
Proof using Type.
  intros Ho Hns Hcur Hi Hc Hst Hf Hx Htop Hsl Hsb Hd HQ. unfold task_manager_yield_current, manager.
  apply runs_bind, runs_bind_wp. wp_step. rewrite Hcur.
  destruct (Z.eqb_spec y 0) as [->|_]; [by rewrite (or_null _ _ _ Ho) in Hc|].
  apply runs_bind, runs_bind_wp. eapply (wp_update_orderly s qs y y c); try done. intros s1 K1 K2 K3 K4 K5.
  pose proof (same_tasks_size s s1 K3) as Hsz.
  assert (since_boost s1 = since_boost s) as Hsb1.
  { pose proof (rest_clock s s1 K5) as E. injection E as E1 E2. unfold since_boost. congruence. }
  eapply (wlp_schedule_waits s1 qs y x top k _ n); [done|by rewrite K4|by rewrite K4| |by rewrite Hsz|done|done
    |by rewrite K2, lookup_insert_eq|done|lia| |].
  - right. split; [by rewrite K4|]. eexists. by rewrite K2, lookup_insert_eq.
  - unfold distance in *. rewrite Hsb1, Hsz. cbn. destruct k; lia.
  - intros s2 L1. apply runs_ret, runs_ret, HQ. unfold nears in *. by rewrite Hsz in L1.
Qed.

Lemma wlp_block_waits s qs x top n reason object Q :
  settled fuel s qs -> task_current (task_manager s) <> task_idle (task_manager s) -> waits x top n s ->
  (forall s', nears x top n s s' -> Q tt s') ->
  wlp (block_current base fuel reason object) Q s.
Proof using Type.
  intros H Hi (Hsb & qs0 & k & t & W1 & W2 & Htop & (c0 & W3 & W4) & W5 & W6) HQ.
  pose proof (settled_current fuel s qs H) as Hcur. destruct H as (Hs & Hns & Hf).
  pose proof (sd_orderly _ _ Hs) as Ho. pose proof (or_queues _ _ _ Ho) as Hq. pose proof (queued_size s qs Hq).
  pose proof (queues_unique s qs0 qs W1 Hq) as ->. destruct (stands_ready s qs x k Hs W2) as (Hxr & _).
  destruct (sd_running _ _ Hs) as (Hx & c & Hc & Hst & Hl). rewrite Hcur in *. rewrite Hc in W3. injection W3 as <-.
  unfold block_current, manager. apply runs_bind_wp. wp_step. apply runs_bind_wp.
  eapply wp_mono; [apply (task_manager_block_task_spec fuel s qs _ c reason object); try done|].
  { intros E. by rewrite E, (or_null _ _ _ Ho) in Hc. }
  { lia. }
  { lia. }
  intros r s1 (_ & K). rewrite decide_False in K by (by rewrite Hst). destruct K as (q & K1 & K2 & K3 & K4).
  destruct (orderly_moved s s1 qs (task_current (task_manager s)) 4 q _ c _ Ho Hc K1 K2 K3 K4) as (L1 & L2 & L3 & L4 & L5 & L6); try done.
  pose proof (same_tasks_size s s1 L2) as Hsz. pose proof (rest_clock s s1 K4) as Hcl. injection Hcl as C1 C2.
  assert (since_boost s1 = since_boost s) as Hsb1 by (unfold since_boost; congruence).
  eapply (wlp_yield_waits s1 _ x top k (task_current (task_manager s)) _ n); try done;
    [congruence|congruence|by rewrite K3, lookup_insert_eq|by left|rewrite Hsz; lia|by apply stands_moved|cbn; lia|lia| |].
  - unfold distance in *. rewrite Hsb1, Hsz. cbn. by rewrite W4.
  - intros s2 M1. apply HQ. unfold nears in *. by rewrite Hsz in M1.
Qed.

Lemma wlp_exit_waits s qs x top n code Q :
  settled fuel s qs -> task_current (task_manager s) <> task_idle (task_manager s) -> waits x top n s ->
  (forall s', nears x top n s s' -> Q tt s') ->
  wlp (exit_current base fuel code) Q s.
Proof using Type.
  intros H Hi (Hsb & qs0 & k & t & W1 & W2 & Htop & (c0 & W3 & W4) & W5 & W6) HQ.
  pose proof (settled_current fuel s qs H) as Hcur. destruct H as (Hs & Hns & Hf).
  pose proof (or_queues _ _ _ (sd_orderly _ _ Hs)) as Hq. pose proof (queues_unique s qs0 qs W1 Hq) as ->.
  destruct (stands_ready s qs x k Hs W2) as (Hxr & _). destruct (sd_running _ _ Hs) as (_ & c & Hc & Hst & _).
  rewrite Hcur in *. rewrite Hc in W3. injection W3 as <-.
  unfold exit_current, manager. apply runs_bind_wp. wp_step. apply runs_bind.
  apply (runs_exit_orderly base fuel false s qs _ code c); try done; [by rewrite Hst|lia|].
  intros r s1 qs1 He _. pose proof (en_orderly _ _ _ _ _ He) as K1. rewrite Hcur in K1.
  pose proof (en_settings _ _ _ _ _ He) as Hset. pose proof Hset as (_ & K2 & K3 & K4).
  destruct (en_zombie _ _ _ _ _ He) as (c1 & K5 & K6). destruct (en_others _ _ _ _ _ He) as [U1 U2 U3].
  pose proof (settings_size s s1 Hset) as Hsz. injection U3 as C1 C2.
  assert (since_boost s1 = since_boost s) as Hsb1 by (unfold since_boost; congruence).
  specialize (U2 (task_current (task_manager s))). unfold slice_of in U2. rewrite K5, Hc in U2. injection U2 as U2.
  eapply (wlp_yield_waits s1 qs1 x top k (task_current (task_manager s)) c1 n); try done;
    [congruence|congruence|by right|rewrite Hsz; lia|by apply (U1 qs)|lia|lia| |].
  - unfold distance in *. rewrite Hsb1, Hsz, U2, W4. done.
  - intros s2 M1. apply HQ. unfold nears in *. by rewrite Hsz in M1.
Qed.

(** The end of another task than the one on the processor, and than [x]. *)
Lemma wlp_kill_waits s qs x top n y c code Q :
  settled fuel s qs -> y <> task_idle (task_manager s) -> y <> task_current (task_manager s) ->
  cores s !! y = Some c -> task_state c <> TASK_STATE_ZOMBIE -> x <> y -> waits x top n s ->
  (forall r s', nears x top n s s' -> Q r s') ->
  wlp (task_manager_exit_task base fuel y code) Q s.
Proof using Type.
  intros H Hi Hy Hc Hst Hxy Hw HQ. pose proof (settled_current fuel s qs H) as Hcur. destruct H as (Hs & Hns & Hf).
  pose proof (or_queues _ _ _ (sd_orderly _ _ Hs)) as Hq.
  apply (runs_exit_orderly base fuel false s qs y code c); try done; [lia|].
  intros r s1 qs1 He _. destruct (en_others _ _ _ _ _ He) as [U1 U2 U3].
  pose proof (en_settings _ _ _ _ _ He) as Hset. pose proof Hset as (_ & K2 & K3 & K4).
  pose proof (settings_size s s1 Hset) as Hsz. apply HQ. right. intros _.
  apply (waits_kept x top n s s1 qs qs1 Hq); [apply (or_queues _ _ _ (en_orderly _ _ _ _ _ He))| |done|lia| |done|done].
  - intros k Hk. by apply (U1 qs).
  - unfold runner. by rewrite K4, Hns, K3.
Qed.

(** A zombie [y] leaves its queue; then it is no task any more. *)
Lemma wlp_remove_waits s qs x top n y c Q :
  settled fuel s qs -> cores s !! y = Some c -> task_state c = TASK_STATE_ZOMBIE -> waits x top n s ->
  (forall r s', size (cores s') = size (cores s) -> waits x top n s' -> Q r s') ->
  wlp (do! task_manager_remove_task_from_queue fuel (task_queue_level c) y in ret tt) Q s.
Proof using Type.
  intros (Hs & Hns & Hf) Hc Hz Hw HQ. pose proof Hw as (_ & qs0 & k & t & L1 & L2 & _).
  pose proof (or_queues _ _ _ (sd_orderly _ _ Hs)) as Hq. pose proof (queues_unique s qs0 qs L1 Hq) as ->.
  destruct (stands_ready s qs x k Hs L2) as (_ & cx & Hcx & Hr). assert (x <> y) as Hxy by congruence.
  eapply runs_mono; [apply (wlp_remove_zombie fuel s qs y c); [done..|lia]|].
  intros r s1 (((K1 & K2) & K3) & K4). apply HQ; [by rewrite K2|].
  apply (waits_kept x top n s s1 qs (purge y qs) Hq); [apply (or_queues _ _ _ (sd_orderly _ _ K1))| |by apply rest_clock|by rewrite K2|done|unfold slice_of; by rewrite K2|done].
  intros k'. by apply stands_purge.
Qed.
Lemma waits_deleted s qs x top n y :
  scheduled s qs -> scheduled (s <| tasks := delete y (tasks s) |>) qs -> y <> runner s ->
  waits x top n s -> waits x top n (s <| tasks := delete y (tasks s) |>).
Proof using Type.
  intros Hs Hs' Hy. set (s' := s <| tasks := delete y (tasks s) |>).
  assert (cores s' = delete y (cores s)) as Hc by (unfold cores; simpl; apply fmap_delete).
  apply (waits_kept x top n s s' qs qs); [apply (or_queues _ _ _ (sd_orderly _ _ Hs))
    |apply (or_queues _ _ _ (sd_orderly _ _ Hs'))|done|done| |done|].
  - rewrite Hc, map_size_delete. destruct (cores s !! y); simpl; lia.
  - unfold slice_of. by rewrite Hc, lookup_delete_ne.
Qed.

(** A new task is put behind the ready ones. *)
Lemma wlp_adopt_waits s qs x top n y t Q :
  settled fuel (s <| tasks := delete y (tasks s) |>) qs -> tasks s !! y = Some t -> y <> 0 ->
  task_state t = TASK_STATE_READY -> 0 <= task_queue_level t < 4 -> waits x top n (s <| tasks := delete y (tasks s) |>) ->
  (forall r s', size (cores s') = S (size (delete y (cores s))) -> timer_ticks s' = timer_ticks s ->
     waits x top (n + if top then 0 else 33) s' -> Q r s') ->
  wlp (task_manager_enqueue_task fuel (task_queue_level t) y) Q s.
Proof using Type.
  set (sd := s <| tasks := delete y (tasks s) |>). intros (Hs & Hns & Hf) Ht Hy0 Hst Hl Hw HQ.
  assert (cores sd = delete y (cores s)) as Hcd by (unfold cores; simpl; apply fmap_delete).
  assert (cores s !! y = Some (core t)) as Hcy by (unfold cores; by rewrite lookup_fmap, Ht).
  eapply runs_mono; [apply (wlp_adopt fuel s qs y t); try done; rewrite <- Hcd; lia|].
  intros r s1 (K1 & q & c & K2 & K3 & K4). pose proof (rest_clock s s1 K1) as Hcl. destruct (rest_manager s s1 K1) as [M1 M2].
  assert (size (cores s1) = S (size (delete y (cores s)))) as Hsz.
  { rewrite K4, <- insert_delete_eq, map_size_insert_None by apply lookup_delete_eq. done. }
  injection Hcl as C1 C2. apply HQ; [done|done|].
  destruct Hw as (Hsb & qs0 & k & u & L1 & L2 & Htop & (cr & L3 & L4) & L5 & L6).
  pose proof (queues_unique sd qs0 qs L1 (or_queues _ _ _ (sd_orderly _ _ Hs))) as ->.
  assert (since_boost s1 = since_boost sd) as Hsb1 by (unfold since_boost; rewrite C1, C2; done).
  assert (runner s1 = runner sd) as Hr.
  { change (task_needs_switching (task_manager s) = false) in Hns. unfold runner. change (task_manager sd) with (task_manager s).
    by rewrite M1, M2, Hns. }
  split; [by rewrite Hsb1|]. eexists _, k, u. split_and!; [apply (or_queues _ _ _ (sd_orderly _ _ K3))|by apply stands_push|done| |lia|lia|].
  - exists cr. split; [|done]. rewrite Hr, K4. rewrite Hcd in L3. apply lookup_delete_Some in L3 as [L3 L7].
    by rewrite lookup_insert_ne.
  - unfold distance in *. rewrite Hsb1, Hsz. rewrite Hcd in L6. destruct k; [destruct top; lia|]. destruct top; [by destruct Htop|lia].
Qed.

(** ** The way out *)

(** What the scheduler sees of the tasks and the clock are as before. *)
Definition unmoved (s s' : os_t) : Prop := sched_of <$> tasks s' = sched_of <$> tasks s /\ clock s' = clock s.

Lemma unmoved_sched s s' y : unmoved s s' -> sched_of <$> tasks s' !! y = sched_of <$> tasks s !! y.
Proof using Type. intros [H _]. by rewrite <- !lookup_fmap, H. Qed.
Lemma unmoved_view s s1 s2 :
  unmoved s s1 -> tasks s2 = tasks s1 -> clock s2 = clock s1 -> unmoved s s2.
Proof using Type. intros [H1 H2] Ht Hc. split; [by rewrite Ht|congruence]. Qed.

Lemma wlp_save_unmoved s p esp Q :
  (forall s', unmoved s s' -> task_manager s' = task_manager s -> Q tt s') ->
  wlp (update_task p (fun t => t <| task_esp := esp |>)) Q s.
Proof using Type.
  intros HQ. apply (wlp_keeps (seen sched_of)); [by apply keeps_update_task|].
  intros [] s' [=H1 H2 H3]. apply HQ; [|done]. split; [done|]. unfold clock. by rewrite H1, H3.
Qed.

Lemma wlp_switch_unmoved s esp Q :
  (forall r s', unmoved s s' ->
     task_current (task_manager s') = task_next (task_manager s) ->
     task_needs_switching (task_manager s') = task_needs_switching (task_manager s) -> Q r s') ->
  wlp (task_manager_task_switch esp) Q s.
Proof using Type.
  intros HQ. unfold task_manager_task_switch, manager. apply runs_bind, runs_wp. wp_step. apply runs_bind.
  assert (forall s1, unmoved s s1 -> task_manager s1 = task_manager s -> wlp (task_manager_load_next (task_next (task_manager s))) Q s1) as Hgo.
  { intros s1 H1 Hm. apply runs_bind, wlp_load_task. intros t _. apply runs_bind, runs_wp, wp_modify.
    apply runs_bind, wlp_in_machine. intros _ m2. apply runs_bind.
    match goal with |- wlp _ _ ?st => set (s2 := st) end.
    assert (unmoved s s2) as H2 by (by apply (unmoved_view s s1)).
    assert (task_current (task_manager s2) = task_next (task_manager s)) as Hc
      by (change (task_next (task_manager s1) = task_next (task_manager s)); by rewrite Hm).
    assert (task_needs_switching (task_manager s2) = task_needs_switching (task_manager s)) as Hn
      by (change (task_needs_switching (task_manager s1) = task_needs_switching (task_manager s)); by rewrite Hm).
    destruct (retry_word_set t).
    - apply wlp_in_machine. intros _ m3. apply runs_wp, wp_ret, HQ; [by apply (unmoved_view s s2)|done|done].
    - apply runs_wp, wp_ret, runs_wp, wp_ret. by apply HQ. }
  destruct (Z.eqb_spec (task_current (task_manager s)) 0); [by apply runs_wp, wp_ret, Hgo|].
  apply wlp_save_unmoved. auto.
Qed.

Lemma wlp_finish_unmoved s e esp Q :
  (forall r s', unmoved s s' -> runner s' = runner s -> Q r s') -> wlp (finish e esp) Q s.
Proof using Type.
  intros HQ.
  assert (forall s1, unmoved s s1 -> task_manager s1 = task_manager s -> wlp (irq_stub_finish esp) Q s1) as Hirq.
  { intros s1 H1 Hm. unfold irq_stub_finish, manager. apply runs_bind, runs_wp. wp_step.
    destruct (task_needs_switching (task_manager s1)) eqn:Hn.
    - apply runs_bind, runs_wp, wp_modify, runs_bind. apply wlp_switch_unmoved. intros r s2 [K1 K2] K3 K4.
      apply runs_wp, wp_ret, HQ.
      + destruct H1 as [H1 H2]. split; [by rewrite K1, <- H1|by rewrite K2, <- H2].
      + unfold runner. rewrite K4, K3, <- Hm, Hn. done.
    - apply runs_wp, wp_ret, HQ; [done|]. unfold runner. by rewrite Hm. }
  assert (wlp (isr_stub_finish esp) Q s) as Hisr.
  { unfold isr_stub_finish, manager. apply runs_bind, runs_wp. wp_step. apply runs_bind.
    apply wlp_load_task. intros t _. apply runs_bind, wlp_in_machine. intros _ m. by apply Hirq. }
  destruct e; try exact Hisr; by apply Hirq.
Qed.

(** ** The clock *)

Lemma keeps_pick_ticks k i : Keeps timer_ticks (task_manager_pick_from k i).
Proof using Type. revert i. induction k as [|k IH]; intros i; cbn [task_manager_pick_from]; solve_quiet; apply IH. Qed.
#[local] Hint Resolve keeps_pick_ticks : keeps.
Lemma ticks_schedule : Keeps timer_ticks (task_manager_schedule base fuel).
Proof using Type. solve_quiet. Qed.
#[local] Hint Resolve ticks_schedule : keeps.
Lemma ticks_wake reason object : Keeps timer_ticks (task_manager_wake_blocked_on fuel reason object).
Proof using Type. solve_quiet. Qed.
Lemma ticks_block reason object : Keeps timer_ticks (block_current base fuel reason object).
Proof using Type. solve_quiet. Qed.
Lemma ticks_end x code : Keeps timer_ticks (task_manager_exit_task base fuel x code).
Proof using Type. solve_quiet. Qed.
#[local] Hint Resolve ticks_end : keeps.
Lemma ticks_exit code : Keeps timer_ticks (exit_current base fuel code).
Proof using Type. solve_quiet. Qed.
Lemma ticks_unblock x : Keeps timer_ticks (do! task_manager_unblock_task fuel x in ret tt).
Proof using Type. solve_quiet. Qed.
Lemma ticks_remove i x : Keeps timer_ticks (do! task_manager_remove_task_from_queue fuel i x in ret tt).
Proof using Type. solve_quiet. Qed.

(** A tick is seen: the counter has 64 bits. *)
Lemma u64_next t : u64 (t + 1) <> t.
Proof using Type.
  unfold_words. intros E. pose proof (Z.mod_pos_bound (t + 1) (2 ^ 64) eq_refl) as H. rewrite E in H.
  destruct (decide (t + 1 < 2 ^ 64)) as [Hl|Hl]; [rewrite Z.mod_small in E; lia|].
  replace (t + 1) with (2 ^ 64) in E by lia. rewrite Z.mod_same in E; lia.
Qed.
Lemma wlp_timer_ticks s kernel_mode :
  wlp (timer_irq_handler base fuel kernel_mode) (fun _ s' => timer_ticks s' = u64 (timer_ticks s + 1)) s.
Proof using Type.
  unfold timer_irq_handler. apply runs_bind_wp, wp_modify. apply (wlp_keeps timer_ticks); [solve_quiet|].
  intros a s' H. exact H.
Qed.

(** ** What an entry carries *)

Section carried.
Variables (x : Z) (top : bool) (n ticks0 : Z) (size0 : nat).

Definition ended (s : os_t) : Prop := forall c, cores s !! x = Some c -> task_state c = TASK_STATE_ZOMBIE.
(** Less one after a tick, 33 more for a new task. *)
Definition bound (s : os_t) : Z :=
  n - (if timer_ticks s =? ticks0 then 0 else 1) + (if top then 0 else 33 * Z.of_nat (size (cores s) - size0)).
Definition fairness_watch : Watch := {|
  before s := timer_ticks s = ticks0 /\ size (cores s) = size0 /\ waits x top n s;
  after s := runner s = x \/ ended s \/ waits x top (bound s) s |}.
#[local] Existing Instance fairness_watch.

Lemma waits_more m m' s : waits x top m s -> m <= m' -> waits x top m' s.
Proof using Type.
  intros (Hsb & qs & k & t & H1 & H2 & H3 & H4 & H5 & H6) Hm. split; [done|]. exists qs, k, t. split_and!; try done; lia.
Qed.
Lemma bound_same s : timer_ticks s = ticks0 -> size (cores s) = size0 -> bound s = n.
Proof using Type. unfold bound. intros -> ->. rewrite Z.eqb_refl, Nat.sub_diag. destruct top; lia. Qed.
Lemma after_nears s s' :
  before s -> size (cores s') = size (cores s) -> timer_ticks s' = timer_ticks s -> nears x top n s s' -> after s'.
Proof using Type.
  intros (H1 & H2 & _) Hsz Ht [H|H]; [by left|right; right]. rewrite bound_same by congruence. auto.
Qed.
(** A step that makes no task and does not count a tick. *)
Lemma wlp_carried {A} (op : M os_t A) o :
  Keeps timer_ticks op -> before o -> wlp op (fun _ o' => size (cores o') = size (cores o)) o ->
  (waits x top n o -> wlp op (fun _ o' => nears x top n o o') o) -> wlp op (fun _ o' => after o') o.
Proof using Type.
  intros Hk Hb Hsz Hn. eapply runs_mono; [apply (runs_and false _ (fun _ o' => timer_ticks o' = timer_ticks o))|].
  - by apply (wlp_keeps timer_ticks).
  - exact (runs_and false op _ _ o Hsz (Hn (proj2 (proj2 Hb)))).
  - intros a o' (K1 & K2 & K3). by apply (after_nears o).
Qed.
Lemma ended_seen s s' : view s' = view s -> ended s -> ended s'.
Proof using Type. intros Hv H c' (c & Hc & E & _)%(view_task s s' x c' Hv). rewrite <- E. auto. Qed.
Lemma waits_view m s s' : view s' = view s -> waits x top m s -> waits x top m s'.
Proof using Type. intros Hv Hw. pose proof Hw as (_ & qs & _ & _ & Hq & _). by apply (waits_seen x top m s s' qs). Qed.
Lemma bound_view s s' : view s' = view s -> bound s' = bound s.
Proof using Type. intros Hv. unfold bound. rewrite (view_size s s' Hv). by injection Hv as -> _ _. Qed.

(** The steps one by one. *)
Lemma carried_tick o qs kernel_mode :
  settled fuel o qs -> before o -> wlp (timer_irq_handler base fuel kernel_mode) (fun _ o' => after o') o.
Proof using Type.
  intros Hs (H1 & H2 & H3). eapply runs_mono; [apply (runs_and false _ (fun _ o' => timer_ticks o' = u64 (timer_ticks o + 1)))|].
  - apply wlp_timer_ticks.
  - apply (runs_and false _ (fun _ o' => size (cores o') = size (cores o)) (fun _ o' => nears x top (n - 1) o o')).
    + apply (runs_tick_scheduled base fuel false o qs); [done|done|]. intros o' qs' _ [H _]. by apply same_tasks_size.
    + by apply (wlp_tick_waits o qs x top n).
  - intros r o' (K1 & K2 & [K3|K3]); [by left|right; right]. unfold bound. rewrite K1, K2, H1, H2, Nat.sub_diag.
    destruct (Z.eqb_spec (u64 (ticks0 + 1)) ticks0) as [E|_]; [by apply u64_next in E|].
    apply (waits_more (n - 1)); [auto|destruct top; lia].
Qed.
Lemma carried_wake o qs reason object :
  settled fuel o qs -> before o -> wlp (task_manager_wake_blocked_on fuel reason object) (fun _ o' => after o') o.
Proof using Type.
  intros Hs Hb. apply wlp_carried; [apply ticks_wake|done| |].
  - apply runs_wp, (wp_wake_scheduled fuel o qs); [done|]. intros o' qs' _ [H _]. by apply same_tasks_size.
  - intros Hw. by apply runs_wp, (wp_wake_waits o qs x top n).
Qed.
Lemma carried_block o qs reason object :
  settled fuel o qs -> task_current (task_manager o) <> task_idle (task_manager o) -> before o ->
  wlp (block_current base fuel reason object) (fun _ o' => after o') o.
Proof using Type.
  intros Hs Hi Hb. apply wlp_carried; [apply ticks_block|done| |].
  - apply (runs_block_scheduled base fuel false o qs); [done|done|done|]. intros o' qs' _ [H _]. by apply same_tasks_size.
  - intros Hw. by apply (wlp_block_waits o qs x top n).
Qed.
Lemma carried_exit o qs code :
  settled fuel o qs -> task_current (task_manager o) <> task_idle (task_manager o) -> before o ->
  wlp (exit_current base fuel code) (fun _ o' => after o') o.
Proof using Type.
  intros Hs Hi Hb. apply wlp_carried; [apply ticks_exit|done| |].
  - by apply (runs_exit_scheduled base fuel false o qs).
  - intros Hw. by apply (wlp_exit_waits o qs x top n).
Qed.
Lemma carried_kill o qs y c code :
  settled fuel o qs -> y <> task_idle (task_manager o) -> y <> task_current (task_manager o) ->
  cores o !! y = Some c -> task_state c <> TASK_STATE_ZOMBIE -> before o ->
  wlp (task_manager_exit_task base fuel y code) (fun _ o' => after o') o.
Proof using Type.
  intros Hs Hi Hy Hc Hst Hb. destruct (decide (x = y)) as [<-|Hxy].
  - destruct Hs as (Hs & Hns & Hf). apply (runs_exit_orderly base fuel false o qs x code c); try done; [lia|].
    intros r o' qs' He _. right. left. destruct (en_zombie _ _ _ _ _ He) as (c' & Hc' & Hz). intros c2 Hc2. congruence.
  - apply wlp_carried; [apply ticks_end|done| |].
    + apply (runs_kill_scheduled base fuel false o qs y code c); try done. intros r o' qs' _ H _. by apply settings_size.
    + intros Hw. by apply (wlp_kill_waits o qs x top n y c).
Qed.
Lemma carried_unblock o qs y c :
  settled fuel o qs -> cores o !! y = Some c -> task_state c = TASK_STATE_BLOCKED -> before o ->
  wlp (do! task_manager_unblock_task fuel y in ret tt) (fun _ o' => before o') o.
Proof using Type.
  intros Hs Hc Hst (H1 & H2 & H3). eapply runs_mono; [apply (runs_and false _ (fun _ o' => timer_ticks o' = timer_ticks o)
    (fun _ o' => size (cores o') = size (cores o) /\ waits x top n o'))|].
  - by apply (wlp_keeps timer_ticks); [apply ticks_unblock|].
  - by apply runs_wp, (wp_unblock_waits o qs x top n y c).
  - intros a o' (K1 & K2 & K3). split_and!; [congruence|congruence|done].
Qed.
Lemma carried_remove o qs y c :
  settled fuel o qs -> cores o !! y = Some c -> task_state c = TASK_STATE_ZOMBIE -> before o ->
  wlp (do! task_manager_remove_task_from_queue fuel (task_queue_level c) y in ret tt) (fun _ o' => before o') o.
Proof using Type.
  intros Hs Hc Hst (H1 & H2 & H3). eapply runs_mono; [apply (runs_and false _ (fun _ o' => timer_ticks o' = timer_ticks o)
    (fun _ o' => size (cores o') = size (cores o) /\ waits x top n o'))|].
  - by apply (wlp_keeps timer_ticks); [apply ticks_remove|].
  - by apply (wlp_remove_waits o qs x top n y c).
  - intros a o' (K1 & K2 & K3). split_and!; [congruence|congruence|done].
Qed.
Lemma carried_delete o qs y c :
  scheduled o qs -> y ∉ concat qs -> cores o !! y = Some c -> task_state c = TASK_STATE_ZOMBIE -> before o ->
  after (o <| tasks := delete y (tasks o) |>).
Proof using Type.
  intros Hs Hy Hc Hz (H1 & H2 & H3). right. right. set (o' := o <| tasks := delete y (tasks o) |>).
  destruct (cores_lookup o y c Hc) as (t & Ht & <-).
  destruct (zombie_other o qs y Hs) as [Hyi Hyr]; [by exists t|].
  assert (bound o' = n) as ->.
  { unfold bound. change (timer_ticks o') with (timer_ticks o). rewrite H1, Z.eqb_refl.
    replace (size (cores o') - size0)%nat with 0%nat; [destruct top; lia|].
    assert (cores o' = delete y (cores o)) as -> by (unfold cores; simpl; apply fmap_delete).
    rewrite map_size_delete, Hc. simpl. lia. }
  apply (waits_deleted o qs); try done. by apply scheduled_deleted.
Qed.
Lemma carried_adopt o qs y t :
  settled fuel (o <| tasks := delete y (tasks o) |>) qs -> before (o <| tasks := delete y (tasks o) |>) ->
  tasks o !! y = Some t -> y <> 0 -> task_state t = TASK_STATE_READY -> 0 <= task_queue_level t < 4 ->
  wlp (task_manager_enqueue_task fuel (task_queue_level t) y) (fun _ o' => after o') o.
Proof using Type.
  intros Hs (H1 & H2 & H3) Ht Hy0 Hst Hl. apply (wlp_adopt_waits o qs x top n y t); try done.
  intros r o' K1 K2 K3. right. right. unfold bound. change (timer_ticks o = ticks0) in H1. rewrite K2, H1, Z.eqb_refl.
  assert (cores (o <| tasks := delete y (tasks o) |>) = delete y (cores o)) as E by (unfold cores; simpl; apply fmap_delete).
  rewrite E in H2. rewrite K1, H2. replace (S size0 - size0)%nat with 1%nat by lia.
  apply (waits_more _ _ _ K3). destruct top; lia.
Qed.
Lemma carried_finish o qs e esp : scheduled o qs -> after o -> wlp (finish e esp) (fun _ o' => after o') o.
Proof using Type.
  intros Hs Ha. eapply runs_mono; [apply (runs_and false _ (fun _ o' => scheduled o' qs /\ ran o o')
    (fun _ o' => unmoved o o' /\ runner o' = runner o))|].
  - apply (wlp_finish o qs); [done|]. intros r o' K1 _ K2. exact (conj K1 K2).
  - by apply wlp_finish_unmoved.
  - intros r o' ((K1 & K2) & K3 & K4). pose proof (same_tasks_size o o' (proj1 K2)) as Hsz.
    assert (forall y c', cores o' !! y = Some c' -> exists c, cores o !! y = Some c /\
      task_state c' = task_state c /\ task_time_slice c' = task_time_slice c) as Hu.
    { intros y c' Hc'. destruct (cores_lookup o' y c' Hc') as (t' & Ht' & <-). pose proof (unmoved_sched o o' y K3) as E.
      rewrite Ht' in E. destruct (tasks o !! y) as [t|] eqn:Ht; [|done]. injection E as _ E1 _ _ E2.
      exists (core t). split; [unfold cores; by rewrite lookup_fmap, Ht|done]. }
    assert (bound o' = bound o) as Hbo.
    { unfold bound. rewrite Hsz. destruct K3 as [_ Hcl]. by injection Hcl as -> _. }
    destruct Ha as [Ha|[Ha|Ha]]; [left; congruence|right; left|right; right; rewrite Hbo].
    + intros c' (c & Hc & E & _)%Hu. rewrite E. auto.
    + apply (waits_kept x top (bound o) o o' qs qs); [apply Hs|apply K1|done|apply K3|lia|done| |done].
      unfold slice_of. destruct (sd_running _ _ K1) as (_ & c' & Hc' & _). rewrite K4 in Hc'. rewrite Hc'.
      destruct (Hu _ _ Hc') as (c & Hc & _ & E). rewrite Hc. simpl. by rewrite E.
Qed.

Lemma fairness_laws : WatchLaws base fuel.
Proof using Type.
  split; eauto using carried_tick, carried_wake, carried_block, carried_exit, carried_kill, carried_unblock,
    carried_remove, carried_delete, carried_adopt, carried_finish.
  - intros o o' Hv (H1 & H2 & H3). split_and!; [by injection Hv as -> _ _|by rewrite (view_size o o')|by apply (waits_view n o)].
  - intros o o' Hv. cbn. rewrite (bound_view o o' Hv). intros [H|[H|H]].
    + left. unfold runner in *. by injection Hv as _ _ ->.
    + right. left. by apply (ended_seen o).
    + right. right. by apply (waits_view _ o).
  - intros o (H1 & H2 & H3). right. right. by rewrite bound_same.
Qed.
End carried.
End fairness.

(** ** Runs *)

Section runs.
Context {alloc : Allocator kernel_t} {systems : FileSystems} {old : OldNodes} {quiets : QuietSystems}.
(** As in [Interrupts]. *)
Variable base : Z.
Variable fuel : nat.
Variable stale_header : list Z.
Variable stale_program_header : Z -> list Z.
Variable stale_print : list Z.
Variables keyboard_address : Z.
#[local] Abbreviation enter := (enter base fuel stale_header stale_program_header stale_print keyboard_address).

(** The states in which a program has run, or the kernel has been left. *)
Inductive execution : interrupts_t -> list interrupts_t -> Prop :=
| execution_end s : execution s []
| execution_program s m l : execution (program_ran m s) l -> execution s (program_ran m s :: l)
| execution_entry s e stack s' l :
    ready_for fuel (os (kernel_state s)) e -> enter e s = Ret (LEFT stack, s') -> execution s' l -> execution s (s' :: l).

(** The ticks counted on the way, and the tasks made. *)
Definition ticked (s s' : interrupts_t) : Z :=
  if timer_ticks (os (kernel_state s')) =? timer_ticks (os (kernel_state s)) then 0 else 1.
Fixpoint ticks (s : interrupts_t) (l : list interrupts_t) : Z :=
  match l with [] => 0 | s' :: l => ticked s s' + ticks s' l end.
Definition grown (s s' : interrupts_t) : nat :=
  size (cores (os (kernel_state s'))) - size (cores (os (kernel_state s))).
Fixpoint made (s : interrupts_t) (l : list interrupts_t) : nat :=
  match l with [] => 0 | s' :: l => grown s s' + made s' l end.

(** [x] has the processor, or is a zombie, or not a task any more. *)
Definition served (x : Z) (s : interrupts_t) : Prop :=
  task_current (task_manager (os (kernel_state s))) = x \/ ended x (os (kernel_state s)).

Lemma waits_positive x top n s : waits x top n s -> 0 < n.
Proof using Type. intros (Hsb & qs & [p|] & t & _ & _ & _ & _ & Ht & Hd); unfold distance in Hd; lia. Qed.

Lemma entry_waits s x top n e stack s' :
  in_order (os (kernel_state s)) -> waits x top n (os (kernel_state s)) -> ready_for fuel (os (kernel_state s)) e ->
  enter e s = Ret (LEFT stack, s') ->
  in_order (os (kernel_state s')) /\
  (served x s' \/ waits x top (n - ticked s s' + (if top then 0 else 33 * Z.of_nat (grown s s'))) (os (kernel_state s'))).
Proof using quiets.
  intros Hi Hw Hr E. set (o := os (kernel_state s)) in *.
  pose proof (fairness_laws base fuel x top n (timer_ticks o) (size (cores o))) as laws.
  destruct (runs_inv _ _ _ _ _ _ (wlp_enter (laws := laws) base fuel stale_header stale_program_header stale_print
    keyboard_address e s Hi Hr (conj eq_refl (conj eq_refl Hw))) E stack eq_refl) as [K1 K2].
  split; [done|]. destruct K2 as [K2|[K2|K2]]; [left; left|by left; right|by right].
  destruct K1 as [_ Hn]. unfold runner in K2. by rewrite Hn in K2.
Qed.

Lemma waits_ends s x top n l :
  in_order (os (kernel_state s)) -> waits x top n (os (kernel_state s)) -> execution s l ->
  n + (if top then 0 else 33 * Z.of_nat (made s l)) <= ticks s l -> Exists (served x) l.
Proof using quiets.
  intros Hi Hw He. revert n Hi Hw. induction He as [s|s m l _ IH|s e stack s' l Hr E _ IH]; intros n Hi Hw Hn.
  - pose proof (waits_positive x top n _ Hw). cbn in Hn. destruct top; lia.
  - right. apply (IH n); [by apply program_in_order|by apply (waits_view x top n (os (kernel_state s)))|].
    assert (ticked s (program_ran m s) = 0) as H1 by (unfold ticked; simpl; by rewrite Z.eqb_refl).
    assert (grown s (program_ran m s) = 0%nat) as H2 by apply Nat.sub_diag.
    cbn [ticks made] in Hn. by rewrite H1, H2 in Hn.
  - destruct (entry_waits s x top n e stack s' Hi Hw Hr E) as (Hi' & [Hs|Hw']); [by left|right].
    apply (IH _ Hi' Hw'). cbn [ticks made] in Hn. destruct top; lia.
Qed.

(** C2: No starvation.  From a state that is in order, programs run and interrupts,
    exceptions and system calls enter the kernel, every call there is (fork, exit,
    waitpid and kill among them): a ready task [x] gets the processor, unless it is
    ended first.  When at most [p] tasks are before it in the top queue, after as
    many ticks as are left of the running slice and 33 for each of them; when it
    is in any ready queue, after the ticks up to the next boost, 33 for each task
    there is and 33 for each that is made in the meantime.  (An entry is taken
    with more fuel than there are tasks, by another task than the idle one, and
    the allocator hands out no block of a task.) *)
Theorem ready_task_runs s x qs k t l :
  let o := os (kernel_state s) in
  in_order o -> queues o qs -> stands x qs k ->
  since_boost o < TASK_MANAGER_PRIORITY_BOOST_INTERVAL -> slice_is o (fun u => u = t) -> 1 <= t <= 32 ->
  execution s l ->
  match k with
  | Some p => 33 * Z.of_nat p + t
  | None => TASK_MANAGER_PRIORITY_BOOST_INTERVAL - since_boost o + 33 * Z.of_nat (size (cores o) + made s l)
  end <= ticks s l ->
  Exists (served x) l.
Proof using quiets.
  intros o Hi Hq Hx Hsb Ht Hr He Hn. apply (waits_ends s x (bool_decide (is_Some k)) (distance o k t)); [done| |done|].
  - split; [done|]. exists qs, k, t. split_and!; try done; [|lia..]. intros Hk%bool_decide_eq_true ->. by destruct Hk.
  - unfold distance. destruct k as [p|]; [rewrite bool_decide_eq_true_2 by done|rewrite bool_decide_eq_false_2 by (by intros [])]; lia.
Qed.
End runs.
#[local] Existing Instance demo_old_nodes.

(** ** A witness

    Task 0x200 is the first of the top queue, and the slice of the running task
    0x500 has one tick left: it runs, then the timer's interrupt (vector 32) comes. *)
Definition tick_state : interrupts_t :=
  program_ran (interrupted_machine (demo_registers <| interrupt_index := 32 |>)) (interrupted_state demo_registers).
#[local] Abbreviation tick_entered :=
  (enter (alloc := demo_allocator) (systems := demo_systems) 0xC0100000 20 [] (fun _ => []) [] 0xC0001000
     (ENTRY_IRQ 0 0xCFFFFFB8) tick_state).

Lemma ready_task_runs_witness :
  match tick_entered with
  | Ret (LEFT _, s) => Exists (served 0x200) [tick_state; s]
  | _ => False
  end.
Proof.
  destruct tick_entered as [[[stack|] s]| |] eqn:E; [|vm_compute in E; discriminate E..].
  apply (ready_task_runs (alloc := demo_allocator) (systems := demo_systems) 0xC0100000 20 [] (fun _ => []) [] 0xC0001000
           (interrupted_state demo_registers) 0x200 demo_queues (Some 0%nat) 1).
  - apply interrupted_in_order.
  - apply (queues_seen demo); [reflexivity|exact demo_ok].
  - exists [], []. split; [reflexivity|simpl; lia].
  - reflexivity.
  - eexists. split; reflexivity.
  - lia.
  - apply execution_program. apply (execution_entry _ _ _ _ _ _ tick_state (ENTRY_IRQ 0 0xCFFFFFB8) stack s); [|exact E|constructor].
    split; [vm_compute; lia|exact I].
  - vm_compute in E. injection E as _ <-. vm_compute. congruence.
Defined.
