(* ===== verification/Interaction.v ===== *)
(** * Programs that talk to the kernel, as interaction trees

    The user programs of the initial RAM disk call the kernel and go on with its
    answer; some of them never end.  They are modelled as interaction trees, whose
    events are the calls.  [always] is the logic their properties are stated in: a
    ghost state is carried along the run, every call made must be permitted in the
    ghost state at that point, whatever the kernel answered before, and a result
    must satisfy the postcondition.  Runs that do not end are included. *)
From S2P Require Import Prelude.
From ITree Require Import ITree.
From Paco Require Import paco.

Declare Scope program_scope.
Delimit Scope program_scope with program.
Definition finish {E R} (r : R) : itree E R := go (RetF r).
Notation "'let*' x := m 'in' k" := (ITree.bind m (fun x => k))
  (at level 10, x binder, m at level 100, k at level 200,
   format "'[v' 'let*'  x  :=  m  'in' '/' k ']'") : program_scope.
Notation "'let*' ' p := m 'in' k" := (ITree.bind m (fun x => match x with p => k end))
  (at level 10, p pattern, m at level 100, k at level 200) : program_scope.
Notation "'do*' m 'in' k" := (ITree.bind m (fun _ => k))
  (at level 10, m at level 100, k at level 200) : program_scope.

Section always.
(** The events, the ghost state, the calls permitted in a ghost state, the answers
    the kernel may give, and the ghost state after an answer. *)
Context {E : Type -> Type} {G R : Type}.
Variable permitted : G -> forall X, E X -> Prop.
Variable answers : forall X, E X -> X -> Prop.
Variable after : G -> forall X, E X -> X -> G.

Inductive alwaysF (Q : R -> G -> Prop) (rec : G -> itree E R -> Prop) (g : G)
  : itree' E R -> Prop :=
| always_ret r : Q r g -> alwaysF Q rec g (RetF r)
| always_tau t : rec g t -> alwaysF Q rec g (TauF t)
| always_vis X (e : E X) k :
    permitted g X e -> (forall x, answers X e x -> rec (after g X e x) (k x)) ->
    alwaysF Q rec g (VisF e k).

Definition always_gen (Q : R -> G -> Prop) (rec : G -> itree E R -> Prop) (g : G) (t : itree E R)
  : Prop := alwaysF Q rec g (observe t).

Lemma always_gen_mon Q : monotone2 (always_gen Q).
Proof using Type. intros g t rec rec' H Hle. unfold always_gen in *. destruct H; constructor; eauto. Qed.

Definition always (Q : R -> G -> Prop) (g : G) (t : itree E R) : Prop :=
  paco2 (always_gen Q) bot2 g t.
End always.
#[export] Hint Resolve always_gen_mon : paco.

Section rules.
Context {E : Type -> Type} {G : Type}.
Variable permitted : G -> forall X, E X -> Prop.
Variable answers : forall X, E X -> X -> Prop.
Variable after : G -> forall X, E X -> X -> G.
Abbreviation gen := (always_gen permitted answers after).
Abbreviation safe := (always permitted answers after).

Lemma safe_ret {R} (Q : R -> G -> Prop) g r : Q r g -> safe Q g (finish r).
Proof using Type. intros H. pfold. by constructor. Qed.

Lemma safe_tau {R} (Q : R -> G -> Prop) g t : safe Q g t -> safe Q g (go (TauF t)).
Proof using Type. intros H. pfold. constructor. by left. Qed.

Lemma safe_vis {R X} (Q : R -> G -> Prop) g (e : E X) k :
  permitted g X e -> (forall x, answers X e x -> safe Q (after g X e x) (k x)) ->
  safe Q g (go (VisF e k)).
Proof using Type. intros H1 H2. pfold. constructor; [done|]. intros x Hx. left. by apply H2. Qed.

Lemma observe_bind {R R'} (t : itree E R) (k : R -> itree E R') :
  observe (ITree.bind t k) =
  match observe t with
  | RetF r => observe (k r)
  | TauF t' => TauF (ITree.bind t' k)
  | VisF e k' => VisF e (fun x => ITree.bind (k' x) k)
  end.
Proof using Type. unfold observe at 1. cbn. by destruct (observe t). Qed.

(** A sequence, up to what is known of its continuation. *)
Lemma paco_bind {R R'} (P : R -> G -> Prop) (Q : R' -> G -> Prop) rec k :
  (forall r g, P r g -> paco2 (gen Q) rec g (k r)) ->
  forall g t, safe P g t -> paco2 (gen Q) rec g (ITree.bind t k).
Proof using Type.
  intros Hk. pcofix CIH. intros g t Ht. punfold Ht. unfold always_gen in Ht.
  assert (forall o, observe t = o -> alwaysF permitted answers after P (upaco2 (gen P) bot2) g o ->
            paco2 (gen Q) r g (ITree.bind t k)) as Hcase; [|by eapply Hcase].
  intros o Ho Hcase. destruct Hcase as [a Ha|t' Ht'|X e k' He Hx].
  - assert (paco2 (gen Q) r g (k a)) as Hka by (eapply paco2_mon; [by apply Hk|exact CIH0]).
    punfold Hka. pfold. unfold always_gen in *. by rewrite observe_bind, Ho.
  - pfold. unfold always_gen. rewrite observe_bind, Ho. constructor.
    destruct Ht' as [Ht'|[]]. right. by apply CIH.
  - pfold. unfold always_gen. rewrite observe_bind, Ho.
    constructor; [done|]. intros x Hxx. destruct (Hx x Hxx) as [Hx'|[]]. right. by apply CIH.
Qed.

Lemma safe_bind {R R'} (Q : R' -> G -> Prop) g (t : itree E R) k :
  safe (fun r g' => safe Q g' (k r)) g t -> safe Q g (ITree.bind t k).
Proof using Type. intros Ht. by apply (paco_bind (fun r g' => safe Q g' (k r))). Qed.

Lemma safe_trigger {X} (Q : X -> G -> Prop) g (e : E X) :
  permitted g X e -> (forall x, answers X e x -> Q x (after g X e x)) ->
  safe Q g (ITree.trigger e).
Proof using Type. intros H1 H2. apply safe_vis; [done|]. intros x Hx. by apply safe_ret, H2. Qed.

(** A loop that does nothing never ends. *)
Lemma safe_spin {R} (Q : R -> G -> Prop) g : safe Q g ITree.spin.
Proof using Type. pcofix CIH. pfold. unfold always_gen. cbn. constructor. by right. Qed.

Lemma safe_mono {R} (P Q : R -> G -> Prop) g t :
  (forall r g', P r g' -> Q r g') -> safe P g t -> safe Q g t.
Proof using Type.
  intros HPQ. revert g t. pcofix CIH. intros g t Ht. punfold Ht. pfold. unfold always_gen in *.
  destruct Ht as [a Ha|t' [Ht'|[]]|X e k He Hx].
  - constructor. by apply HPQ.
  - constructor. right. by apply CIH.
  - constructor; [done|]. intros x Hxx. destruct (Hx x Hxx) as [Hx'|[]]. right. by apply CIH.
Qed.

(** The loop rule: an invariant of the loop's state and the ghost state. *)
Lemma safe_iter {I R} (Inv : I -> G -> Prop) (Q : R -> G -> Prop) body :
  (forall i g, Inv i g ->
     safe (fun x g' => match x with inl i' => Inv i' g' | inr r => Q r g' end) g (body i)) ->
  forall i g, Inv i g -> safe Q g (ITree.iter body i).
Proof using Type.
  intros Hbody. pcofix CIH. intros i g Hi.
  enough (paco2 (gen Q) r g (ITree.bind (body i) (fun lr =>
            match lr with inl l => go (TauF (ITree.iter body l)) | inr r => go (RetF r) end))) as H.
  { by punfold H. }
  eapply paco_bind; [|by apply Hbody]. intros [i'|a] g' H; simpl in H.
  - pfold. constructor. right. by apply CIH.
  - pfold. by constructor.
Qed.
End rules.

(** One step of a proof about a program: a sequence, or the call it starts with. *)
Ltac itree_step :=
  cbv beta iota;
  lazymatch goal with
  | |- always _ _ _ _ _ (ITree.bind _ _) => apply safe_bind
  | |- always _ _ _ _ _ (ITree.trigger _) => apply safe_trigger
  | |- always _ _ _ _ _ (finish _) => apply safe_ret
  | |- always _ _ _ _ _ (go (TauF _)) => apply safe_tau
  end.
