(* ===== verification/Userland.v ===== *)
(** * The C library's side of the system calls (src/initrd/lib/syscall.c,
      src/initrd/lib/newlib_glue.c, src/initrd/include/syscall.h)

    The wrappers put the number and the parameters in registers and raise
    interrupt 0x80; the glue turns a negative answer into -1 and an error number.
    A call is an event of an interaction tree, and so are the accesses of [signal]
    to its two structures, which stand at addresses the compiler chooses. *)
From S2P Require Import Prelude Bitmap Paging KernelHeap Tasks TaskManager Allocator Files VfsCache Resource Vfs Memory Process Elf Syscall Interaction.
From ITree Require Import ITree.
#[local] Open Scope program_scope.

Inductive userE : Type -> Type :=
| Int80 (number : Z) (parameters : list Z) : userE Z
| Peek (address : Z) : userE Z
| Poke (address value : Z) : userE unit
| SetErrno (error : Z) : userE unit.

(** include/syscall.h of the user programs: the numbers are the kernel's. *)
Definition SYSCALL_OPEN : Z := 0.
Definition SYSCALL_CLOSE : Z := 1.
Definition SYSCALL_READ : Z := 2.
Definition SYSCALL_WRITE : Z := 3.
Definition SYSCALL_FORK : Z := 4.
Definition SYSCALL_EXECVE : Z := 5.
Definition SYSCALL_EXIT : Z := 6.
Definition SYSCALL_WAITPID : Z := 7.
Definition SYSCALL_SBRK : Z := 8.
Definition SYSCALL_ISATTY : Z := 9.
Definition SYSCALL_GETPID : Z := 10.
Definition SYSCALL_LSEEK : Z := 11.
Definition SYSCALL_FCNTL : Z := 12.
Definition SYSCALL_IOCTL : Z := 13.
Definition SYSCALL_FSTAT : Z := 14.
Definition SYSCALL_STAT : Z := 15.
Definition SYSCALL_LINK : Z := 16.
Definition SYSCALL_UNLINK : Z := 17.
Definition SYSCALL_TIMES : Z := 18.
Definition SYSCALL_KILL : Z := 19.
Definition SYSCALL_SIGACTION : Z := 20.
Definition SYSCALL_SIGRETURN : Z := 21.
Definition SYSCALL_RESULT_BAD_PARAMETER : Z := 2.
Definition SYSCALL_RESULT_BUSY : Z := 3.
Definition SYSCALL_RESULT_OUT_OF_MEMORY : Z := 4.
Definition SYSCALL_RESULT_WOULD_BLOCK : Z := 5.
Definition SIG_ERR : Z := -1.

Definition syscall0 (n : Z) : itree userE Z := ITree.trigger (Int80 n []).
Definition syscall1 (n a1 : Z) : itree userE Z := ITree.trigger (Int80 n [a1]).
Definition syscall2 (n a1 a2 : Z) : itree userE Z := ITree.trigger (Int80 n [a1; a2]).
Definition syscall3 (n a1 a2 a3 : Z) : itree userE Z := ITree.trigger (Int80 n [a1; a2; a3]).

(** ** The wrappers *)
Definition open (path flags : Z) := syscall2 SYSCALL_OPEN path flags.
Definition close (resource : Z) := syscall1 SYSCALL_CLOSE resource.
Definition read (resource buffer length_ : Z) := syscall3 SYSCALL_READ resource buffer (i32 length_).
Definition write (resource buffer length_ : Z) := syscall3 SYSCALL_WRITE resource buffer (i32 length_).
Definition fork := syscall0 SYSCALL_FORK.
Definition execve (path argv : Z) := syscall2 SYSCALL_EXECVE path argv.
Definition exit {R} (code : Z) : itree userE R := do* syscall1 SYSCALL_EXIT code in ITree.spin.
Definition waitpid (pid status : Z) := syscall2 SYSCALL_WAITPID pid status.
Definition sbrk (increment : Z) := syscall1 SYSCALL_SBRK increment.
Definition isatty (fd : Z) := syscall1 SYSCALL_ISATTY fd.
Definition getpid := syscall0 SYSCALL_GETPID.
Definition lseek (fd offset whence : Z) := syscall3 SYSCALL_LSEEK fd offset whence.
Definition fcntl (fd cmd arg : Z) := syscall3 SYSCALL_FCNTL fd cmd arg.
Definition ioctl (fd cmd arg : Z) := syscall3 SYSCALL_IOCTL fd cmd arg.
Definition fstat (fd buf : Z) := syscall2 SYSCALL_FSTAT fd buf.
Definition stat (path buf : Z) := syscall2 SYSCALL_STAT path buf.
Definition link (old_path new_path : Z) := syscall2 SYSCALL_LINK old_path new_path.
Definition unlink (path : Z) := syscall1 SYSCALL_UNLINK path.
Definition times (buf : Z) := syscall1 SYSCALL_TIMES buf.
Definition kill (pid sig : Z) := syscall2 SYSCALL_KILL pid sig.
Definition raise (sig : Z) := let* pid := getpid in kill pid sig.
Definition sigaction (sig act oldact : Z) := syscall3 SYSCALL_SIGACTION sig act oldact.

(** [act] and [oldact] are the addresses of the local structures. *)
Definition signal (act oldact sig handler : Z) : itree userE Z :=
  do* ITree.trigger (Poke act handler) in
  let* r := sigaction sig act oldact in
  if r <? 0 then finish SIG_ERR else ITree.trigger (Peek oldact).

(** ** The glue *)
Section glue.
(** The error numbers of the C library. *)
Variables EINVAL EBUSY ENOMEM EAGAIN EIO : Z.

Definition result_to_errno (r : Z) : Z :=
  let code := i32 (- r) in
  if code =? SYSCALL_RESULT_BAD_PARAMETER then EINVAL
  else if code =? SYSCALL_RESULT_BUSY then EBUSY
  else if code =? SYSCALL_RESULT_OUT_OF_MEMORY then ENOMEM
  else if code =? SYSCALL_RESULT_WOULD_BLOCK then EAGAIN
  else EIO.

(** The shape the functions of the glue share. *)
Definition with_errno (call : itree userE Z) : itree userE Z :=
  let* r := call in
  if r <? 0 then do* ITree.trigger (SetErrno (result_to_errno r)) in finish (-1)
  else finish r.

Definition _read (fd buf len : Z) := with_errno (read fd buf (u32 len)).
Definition _write (fd buf len : Z) := with_errno (write fd buf (u32 len)).
Definition _open (name flags mode : Z) := with_errno (open name flags).
Definition _close (fd : Z) := with_errno (close fd).
Definition _lseek (fd ptr dir : Z) := with_errno (lseek fd ptr dir).
Definition _fstat (fd st : Z) := with_errno (fstat fd st).
Definition _stat (file st : Z) := with_errno (stat file st).
Definition _isatty (fd : Z) := isatty fd.
Definition _link (old_path new_path : Z) := with_errno (link old_path new_path).
Definition _unlink (path : Z) := with_errno (unlink path).
(** The pointer is converted to a signed integer before it is tested. *)
Definition _sbrk (increment : Z) : itree userE Z :=
  let* pointer := sbrk increment in
  let ret := i32 pointer in
  if ret <? 0 then do* ITree.trigger (SetErrno (result_to_errno ret)) in finish (u32 (-1))
  else finish (u32 ret).
Definition _getpid := getpid.
Definition _kill (pid sig : Z) := with_errno (kill pid sig).
Definition _exit {R} (code : Z) : itree userE R := exit code.
End glue.

(** ** The kernel's side of a call *)
Section kernel.
Context {alloc : Allocator kernel_t} {systems : FileSystems} {old : OldNodes}.
Variable base : Z.
Variable fuel : nat.
Variable stale_header : list Z.
Variable stale_program_header : Z -> list Z.

Abbreviation dispatch := (syscall_dispatch base fuel stale_header stale_program_header).

(** The registers of a program at interrupt 0x80 with number [n] and parameters
    [ps], the way the inline assembly loads them. *)
Definition loaded (n : Z) (ps : list Z) (frame : register_interrupt_data_t) : Prop :=
  reg_eax frame = u32 n /\
  forall i p, ps !! i = Some p -> [reg_ebx frame; reg_ecx frame; reg_edx frame] !! i = Some (u32 p).

(** The first thing the program does is the interrupt, and from the registers it
    loads the kernel goes to [entry] with the parameters [ps]. *)
Definition served (t : itree userE Z) (ps : list Z) (entry : Z -> M fs_t unit) : Prop :=
  exists n k, observe t = VisF (Int80 n ps) k /\
    forall frame data, loaded n ps frame ->
      dispatch data (execution_index (captured frame)) = entry data /\
      forall i p, ps !! i = Some p -> parameters (captured frame) !! i = Some (u32 p).

Lemma served_intro t n ps k entry :
  observe t = VisF (Int80 n ps) k -> 0 <= n < 2 ^ 32 ->
  (forall data, dispatch data n = entry data) -> served t ps entry.
Proof using Type.
  intros Ht Hn He. exists n, k. split; [done|]. intros frame data [H1 H2]. split.
  - simpl. rewrite H1, u32_small by done. apply He.
  - intros i p Hp. specialize (H2 i p Hp). simpl.
    do 3 (destruct i as [|i]; [done|]). done.
Qed.

(** C37: the calls of the C library and the kernel's handler of interrupt 0x80 agree.
    Every wrapper starts with the interrupt, and from the registers it loads the
    handler goes to the system call of the same name and finds the wrapper's
    parameters, in their order, as the parameters of the call. *)
Theorem wrapper_reaches_kernel a b c :
  served (open a b) [a; b] (fun d => answer_in_eax d (syscall_open fuel)) /\
  served (close a) [a] (fun d => answer_in_eax d syscall_close) /\
  served (read a b c) [a; b; i32 c] (fun d => answer_in_eax d (syscall_read base fuel)) /\
  served (write a b c) [a; b; i32 c] (fun d => answer_in_eax d (syscall_write base fuel)) /\
  served fork [] (fun d => answer_in_eax d (syscall_fork base fuel)) /\
  served (execve a b) [a; b] (syscall_execve_case base fuel stale_header stale_program_header) /\
  served (@exit Z a) [a] (fun _ => bind (syscall_exit base fuel) (fun _ => ret tt)) /\
  served (waitpid a b) [a; b] (fun d => answer_in_eax d (syscall_waitpid base fuel)) /\
  served (sbrk a) [a] (fun d => answer_in_eax d (syscall_sbrk fuel)) /\
  served (isatty a) [a] (fun d => answer_in_eax d syscall_isatty) /\
  served getpid [] (fun d => answer_in_eax d syscall_getpid) /\
  served (lseek a b c) [a; b; c] (fun d => answer_in_eax d syscall_lseek) /\
  served (fcntl a b c) [a; b; c] (fun d => answer_in_eax d syscall_fcntl) /\
  served (ioctl a b c) [a; b; c] (fun d => answer_in_eax d syscall_ioctl) /\
  served (fstat a b) [a; b] (fun d => answer_in_eax d syscall_fstat) /\
  served (stat a b) [a; b] (fun d => answer_in_eax d (syscall_stat fuel)) /\
  served (link a b) [a; b] (fun d => answer_in_eax d (syscall_link fuel)) /\
  served (unlink a) [a] (fun d => answer_in_eax d (syscall_unlink fuel)) /\
  served (times a) [a] (fun d => answer_in_eax d syscall_times) /\
  served (kill a b) [a; b] (fun d => answer_in_eax d (syscall_kill base fuel)) /\
  served (sigaction a b c) [a; b; c] (fun d => answer_in_eax d syscall_sigaction).
Proof using Type.
  split_and!; (eapply served_intro; [unfold observe; cbn; reflexivity|done|reflexivity]).
Qed.
End kernel.

(** ** Errors *)
Section errors.
Variables EINVAL EBUSY ENOMEM EAGAIN EIO : Z.
Abbreviation errno_of := (result_to_errno EINVAL EBUSY ENOMEM EAGAIN EIO).

(** What happened in a call of the glue: what the kernel answered, and the error
    number that was set. *)
Record report_t : Type := mk_report { answered : option Z; errno_set : option Z }.

(** One system call, with the number [n] and the parameters [ps]. *)
Definition glue_may (n : Z) (ps : list Z) (g : report_t) (X : Type) (e : userE X) : Prop :=
  match e with
  | Int80 n' ps' => answered g = None /\ n' = n /\ ps' = ps
  | SetErrno error => errno_set g = None
  | _ => False
  end.
Definition kernel_answers (X : Type) (e : userE X) : X -> Prop :=
  match e in userE X return X -> Prop with
  | Int80 _ _ => fun r => - 2 ^ 31 <= r < 2 ^ 31
  | _ => fun _ => True
  end.
Definition after_glue (g : report_t) (X : Type) (e : userE X) : X -> report_t :=
  match e in userE X return X -> report_t with
  | Int80 _ _ => fun r => mk_report (Some r) (errno_set g)
  | SetErrno error => fun _ => mk_report (answered g) (Some error)
  | _ => fun _ => g
  end.
(** The function [t] makes the call [n] with the parameters [ps], and ends with [Q]. *)
Definition glue {R} (Q : R -> report_t -> Prop) (n : Z) (ps : list Z) (t : itree userE R) : Prop :=
  always (glue_may n ps) kernel_answers after_glue Q (mk_report None None) t.

(** The result is the answer of the kernel; or [failed], with its error number. *)
Definition reported_as (failed r : Z) (g : report_t) : Prop :=
  exists a, answered g = Some a /\
    if a <? 0 then r = failed /\ errno_set g = Some (errno_of a) else r = a /\ errno_set g = None.
Abbreviation reported := (reported_as (-1)).
(** The result is the answer, whatever it is. *)
Definition passed (r : Z) (g : report_t) : Prop := answered g = Some r /\ errno_set g = None.

Lemma with_errno_reports n ps :
  glue reported n ps (with_errno EINVAL EBUSY ENOMEM EAGAIN EIO (ITree.trigger (Int80 n ps))).
Proof using Type.
  unfold glue, with_errno. itree_step. itree_step; [done|]. intros r _. simpl.
  destruct (r <? 0) eqn:Hr.
  - itree_step. itree_step; [done|]. intros [] _. itree_step. exists r. by rewrite Hr.
  - itree_step. exists r. by rewrite Hr.
Qed.
Lemma trigger_passes n ps : glue passed n ps (ITree.trigger (Int80 n ps)).
Proof using Type. unfold glue. by itree_step. Qed.
Lemma sbrk_reports increment :
  glue (reported_as (u32 (-1))) SYSCALL_SBRK [increment] (_sbrk EINVAL EBUSY ENOMEM EAGAIN EIO increment).
Proof using Type.
  unfold glue, _sbrk, sbrk, syscall1. itree_step. itree_step; [done|]. intros r Hr. simpl in Hr |- *. rewrite i32_small by lia.
  destruct (Z.ltb_spec r 0).
  - itree_step. itree_step; [done|]. intros [] _. itree_step. exists r. by destruct (Z.ltb_spec r 0); [|lia].
  - itree_step. exists r. destruct (Z.ltb_spec r 0); [lia|]. by rewrite u32_small by lia.
Qed.
Lemma exit_stays code : glue (fun _ _ => False) SYSCALL_EXIT [code] (@_exit Z code).
Proof using Type. unfold glue, _exit, exit, syscall1. itree_step. itree_step; [done|]. intros r _. apply safe_spin. Qed.


(** The break is an address; from 2 GiB up it looks like an error. *)
Lemma sbrk_high_break increment a :
  2 ^ 31 <= a < 2 ^ 32 ->
  always (fun _ X (e : userE X) => True)
    (fun X (e : userE X) => match e in userE X return X -> Prop with Int80 _ _ => fun r => r = i32 a | _ => fun _ => True end)
    (fun g _ _ _ => g) (fun r _ => r = u32 (-1)) tt
    (_sbrk EINVAL EBUSY ENOMEM EAGAIN EIO increment).
Proof using Type.
  intros Ha. unfold _sbrk, sbrk, syscall1. itree_step. itree_step; [done|]. intros r ->.
  assert (i32 (i32 a) < 0) as Hneg by word_lia.
  destruct (Z.ltb_spec (i32 (i32 a)) 0); [|lia]. itree_step. itree_step; [done|]. intros [] _. by itree_step.
Qed.
End errors.
