(* ===== verification/Shell.v ===== *)
(** * The shell (src/initrd/src/shell.c)

    The user program that turns key codes into command lines, echoes them and runs
    the commands.  It never ends, so it is an interaction tree; [line] is the
    array of the C function, with an access outside it as the call [Undefined],
    and [strtok] of the C library cuts it in place, as the library does. *)
From S2P Require Import Prelude Interaction.
From ITree Require Import ITree.
#[local] Open Scope program_scope.

Definition LINE_MAX : Z := 256.
Definition ARGV_MAX : nat := 16.

(** Characters, as their codes. *)
Definition CHAR_BACKSPACE : Z := 8.
Definition CHAR_NEWLINE : Z := 10.
Definition CHAR_SPACE : Z := 32.

(** ** The keymaps: initialisers, and zeros to the end of the array *)

Definition initialised (n : nat) (l : list Z) : list Z := l ++ replicate (n - length l) 0.

Definition keymap : list Z := initialised 128 [
  0;
  0;
  49; 50; 51; 52; 53; 54; 55; 56; 57; 48;
  45; 61;
  8;
  9;
  113; 119; 101; 114; 116; 121; 117; 105; 111; 112;
  91; 93;
  10;
  0;
  97; 115; 100; 102; 103; 104; 106; 107; 108;
  59; 39; 96;
  0;
  92;
  122; 120; 99; 118; 98; 110; 109;
  44; 46; 47;
  0;
  42;
  0;
  32].

Definition keymap_shift : list Z := initialised 128 [
  0;
  0;
  33; 64; 35; 36; 37; 94; 38; 42; 40; 41;
  95; 43;
  8;
  9;
  81; 87; 69; 82; 84; 89; 85; 73; 79; 80;
  123; 125;
  10;
  0;
  65; 83; 68; 70; 71; 72; 74; 75; 76;
  58; 34; 126;
  0;
  124;
  90; 88; 67; 86; 66; 78; 77;
  60; 62; 63;
  0;
  42;
  0;
  32].

(** ** The calls the shell makes

    The answer of [ReadKey] is what [read] answers and the byte it stored. *)
Inductive shellE : Type -> Type :=
| ReadKey : shellE (Z * Z)
| WriteOut (bytes : list Z) : shellE Z
| Fork : shellE Z
| Execve (path : list Z) (argv : list (list Z)) : shellE Z
| Waitpid (pid : Z) : shellE Z
| Exit (code : Z) : shellE void
| Complain (name : list Z) : shellE unit
| Undefined : shellE void.

Definition undefined {R} : itree shellE R :=
  let* x := ITree.trigger Undefined in match x : void with end.
Definition exit_shell {R} (code : Z) : itree shellE R :=
  let* x := ITree.trigger (Exit code) in match x : void with end.
Definition of_defined {R} (o : option R) : itree shellE R :=
  match o with Some r => finish r | None => undefined end.

Definition shell_put_char (c : Z) : itree shellE unit := do* ITree.trigger (WriteOut [c]) in finish tt.
Definition put_str (s : list Z) : itree shellE unit := do* ITree.trigger (WriteOut s) in finish tt.

(** ** Splitting the line

    The bytes before the first that satisfies [stop], and the rest. *)
Fixpoint span (stop : Z -> bool) (l : list Z) : list Z * list Z :=
  match l with
  | [] => ([], [])
  | c :: l' => if stop c then ([], l) else let '(a, b) := span stop l' in (c :: a, b)
  end.

Definition is_nul (c : Z) : bool := c =? 0.
Definition is_space (c : Z) : bool := c =? CHAR_SPACE.

(** The string that starts at index [p] of an array. *)
Definition string_at (line : list Z) (p : nat) : list Z := fst (span is_nul (drop p line)).

(** [strtok(_, SPACE)] from index [p]: the array with the end of the token cut,
    where the next call goes on, and the token's index, or none.  [None] when it
    runs out of the array. *)
Definition strtok_space (line : list Z) (p : nat) : option (list Z * nat * option nat) :=
  let '(skipped, found) := span (fun c => negb (is_space c)) (drop p line) in
  let i := (p + length skipped)%nat in
  match found with
  | [] => None
  | c :: _ =>
      if is_nul c then Some (line, i, None)
      else
        let '(token, found') := span (fun c => is_nul c || is_space c) found in
        let j := (i + length token)%nat in
        match found' with
        | [] => None
        | d :: _ => if is_nul d then Some (line, j, Some i) else Some (<[j := 0]> line, S j, Some i)
        end
  end.

(** The loop of [parse_args] with room for [n] more arguments; [argv] holds the
    indices of the arguments. *)
Fixpoint parse_tokens (n : nat) (line : list Z) (p : nat) (tok : option nat) (argv : list nat)
  : option (list Z * list nat) :=
  match tok with
  | None => Some (line, argv)
  | Some i =>
      match n with
      | O => Some (line, argv)
      | S n' =>
          match strtok_space line p with
          | Some (line, p, tok) => parse_tokens n' line p tok (argv ++ [i])
          | None => None
          end
      end
  end.

Definition parse_args (line : list Z) : option (list Z * list nat) :=
  match strtok_space line 0 with
  | Some (line, p, tok) => parse_tokens (ARGV_MAX - 1) line p tok []
  | None => None
  end.

(** The name of the command that ends the shell. *)
Definition EXIT_COMMAND : list Z := [101; 120; 105; 116].
(** Standard output's prompt. *)
Definition PROMPT : list Z := [62; 32].

(** The answer is the array the tokens were cut in. *)
Definition run_command (line : list Z) : itree shellE (list Z) :=
  let* '(line, argv) := of_defined (parse_args line) in
  match argv with
  | [] => finish line
  | first :: _ =>
      if bool_decide (string_at line first = EXIT_COMMAND) then exit_shell 0
      else
        let* pid := ITree.trigger Fork in
        if pid =? 0 then
          let* result := ITree.trigger (Execve (string_at line first) (string_at line <$> argv)) in
          if result <? 0 then
            do* ITree.trigger (Complain (string_at line first)) in exit_shell result
          else finish line
        else
          do* ITree.trigger (Waitpid (-1)) in finish line
  end.

(** ** The main loop *)

Record shell_t : Type := mk_shell { line : list Z; line_length : Z; shift_held : bool }.
#[export] Instance shell_fields : Fields shell_t := fun s =>
  mk_shell (line s) (line_length s) (shift_held s).

(** [line[i] = c]. *)
Definition store_line (i c : Z) (l : list Z) : itree shellE (list Z) :=
  if (0 <=? i) && (i <? Z.of_nat (length l)) then finish (<[Z.to_nat i := c]> l) else undefined.

Definition shell_character (s : shell_t) (key : Z) : option Z :=
  (if shift_held s then keymap_shift else keymap) !! Z.to_nat key.

(** A key that has a character. *)
Definition shell_type (s : shell_t) (character : Z) : itree shellE shell_t :=
  if character =? CHAR_BACKSPACE then
    if 0 <? line_length s then
      do* shell_put_char character in finish (s <| line_length := line_length s - 1 |>)
    else finish s
  else if character =? CHAR_NEWLINE then
    let* l := store_line (line_length s) 0 (line s) in
    do* shell_put_char character in
    let* l := run_command l in
    do* put_str PROMPT in
    finish (s <| line := l |> <| line_length := 0 |>)
  else if line_length s <? LINE_MAX - 1 then
    let* l := store_line (line_length s) character (line s) in
    do* shell_put_char character in
    finish (s <| line := l |> <| line_length := line_length s + 1 |>)
  else finish s.

(** One round of the loop. *)
Definition shell_round (s : shell_t) : itree shellE (shell_t + void) :=
  let* '(r, scancode) := ITree.trigger ReadKey in
  if r <=? 0 then finish (inl s)
  else
    let released := Z.land scancode 0x80 in
    let key := Z.land scancode 0x7F in
    if (key =? 42) || (key =? 54) then finish (inl (s <| shift_held := released =? 0 |>))
    else if negb (released =? 0) then finish (inl s)
    else
      let* character := of_defined (shell_character s key) in
      if character =? 0 then finish (inl s)
      else let* s := shell_type s character in finish (inl s).

(** [line] is not initialised: [line0] is what the stack holds. *)
Definition shell_main (line0 : list Z) : itree shellE void :=
  do* put_str PROMPT in ITree.iter shell_round (mk_shell line0 0 false).

(** ** Splitting a line into its words *)

Fixpoint split_on (sep : Z) (l : list Z) : list (list Z) :=
  match l with
  | [] => [[]]
  | c :: l' =>
      if c =? sep then [] :: split_on sep l'
      else match split_on sep l' with w :: ws => (c :: w) :: ws | [] => [[c]] end
  end.
Definition words (text : list Z) : list (list Z) := filter (fun w => w <> []) (split_on CHAR_SPACE text).

Lemma span_app stop a b : Forall (fun c => stop c = false) a ->
  (forall c, head b = Some c -> stop c = true) -> span stop (a ++ b) = (a, b).
Proof.
  intros Ha Hb. induction Ha as [|c a Hc Ha IH]; simpl.
  - destruct b as [|c b]; simpl; [done|]. by rewrite Hb.
  - by rewrite Hc, IH.
Qed.

Lemma span_split stop l a b : span stop l = (a, b) ->
  l = a ++ b /\ Forall (fun c => stop c = false) a /\ (forall c, head b = Some c -> stop c = true).
Proof.
  revert a b. induction l as [|c l IH]; simpl; intros a b.
  - intros [= <- <-]. by split_and!.
  - destruct (stop c) eqn:Hc.
    + intros [= <- <-]. split_and!; [done|done|]. by intros d [= <-].
    + destruct (span stop l) as [a' b']. intros [= <- <-]. destruct (IH a' b' eq_refl) as (-> & H1 & H2).
      split_and!; [done|by constructor|done].
Qed.

Lemma split_on_cons sep l : exists w ws, split_on sep l = w :: ws.
Proof.
  destruct l as [|c l]; simpl; [by eexists _, _|]. destruct (c =? sep); [by eexists _, _|].
  destruct (split_on sep l); by eexists _, _.
Qed.

Lemma words_space text : words (CHAR_SPACE :: text) = words text.
Proof. done. Qed.

Lemma words_skip skipped text : Forall (fun c => c = CHAR_SPACE) skipped -> words (skipped ++ text) = words text.
Proof. induction 1 as [|c l -> _ IH]; [done|]. simpl app. by rewrite words_space. Qed.

Lemma split_on_word sep w l : Forall (fun c => c <> sep) w ->
  split_on sep (w ++ l) =
    match split_on sep l with v :: vs => (w ++ v) :: vs | [] => [w] end.
Proof.
  induction 1 as [|c w Hc _ IH]; simpl.
  - destruct (split_on_cons sep l) as (v & vs & ->). done.
  - destruct (Z.eqb_spec c sep); [done|]. rewrite IH. destruct (split_on_cons sep l) as (v & vs & ->). done.
Qed.

(** A word and what follows it. *)
Lemma words_word w rest : w <> [] -> Forall (fun c => c <> CHAR_SPACE) w ->
  words (w ++ CHAR_SPACE :: rest) = w :: words rest.
Proof.
  intros Hw Hs. unfold words. rewrite split_on_word by done. simpl. rewrite app_nil_r.
  by rewrite filter_cons_True.
Qed.
Lemma words_last w : w <> [] -> Forall (fun c => c <> CHAR_SPACE) w -> words w = [w].
Proof.
  intros Hw Hs. unfold words. rewrite <- (app_nil_r w) at 1. rewrite split_on_word by done. simpl.
  rewrite app_nil_r. by rewrite filter_cons_True.
Qed.

(** The text of a line ends at its NUL. *)
Lemma string_at_spec l p w tail : drop p l = w ++ 0 :: tail -> Forall (fun c => c <> 0) w -> string_at l p = w.
Proof.
  intros Hd Hw. unfold string_at. rewrite Hd, span_app; [done| |by intros c [= <-]].
  eapply List.Forall_impl; [|exact Hw]. intros c Hc. unfold is_nul. by destruct (Z.eqb_spec c 0).
Qed.

(** [strtok] on a line whose text from [p] on is [text].  The cut leaves every byte
    that is no space in place. *)
Definition keeps_text (l l' : list Z) : Prop :=
  length l' = length l /\ forall j c, l !! j = Some c -> c <> CHAR_SPACE -> l' !! j = Some c.

#[export] Instance keeps_text_preorder : PreOrder keeps_text.
Proof.
  split; [by intros l|]. intros l1 l2 l3 [H1 H2] [H3 H4]. split; [congruence|].
  intros j c Hj Hc. by apply H4; [apply H2|].
Qed.

(** The word [w] stands at index [i], terminated. *)
Definition word_at (l : list Z) (i : nat) (w : list Z) : Prop :=
  Forall (fun c => c <> 0) w /\ Forall (fun c => c <> CHAR_SPACE) w /\
  forall k c, (w ++ [0]) !! k = Some c -> l !! (i + k)%nat = Some c.

Lemma word_at_keeps l l' i w : keeps_text l l' -> word_at l i w -> word_at l' i w.
Proof.
  intros [_ Hk] (H1 & H2 & H3). split_and!; [done|done|]. intros k c Hc. apply Hk; [by apply H3|].
  intros ->. apply lookup_app_Some in Hc as [Hc|[_ Hc]].
  - eapply Forall_lookup_1 in H2; [|exact Hc]. done.
  - apply list_lookup_singleton_Some in Hc as [_ Hc]. done.
Qed.

Lemma word_at_string l i w : word_at l i w -> string_at l i = w.
Proof.
  intros (H1 & _ & H3). apply (string_at_spec l i w (drop (i + length w + 1) l)); [|done].
  rewrite cons_middle, app_assoc.
  rewrite <- (take_drop (length (w ++ [0])) (drop i l)). f_equal.
  - apply list_eq. intros k. destruct (decide (k < length (w ++ [0%Z]))%nat) as [Hk|Hk].
    + rewrite lookup_take_lt, lookup_drop by done.
      destruct (lookup_lt_is_Some_2 (w ++ [0]) k Hk) as [c Hc]. rewrite Hc. by apply H3.
    + rewrite lookup_take_ge by lia. symmetry. apply lookup_ge_None. lia.
  - rewrite drop_drop, length_app. simpl. f_equal. lia.
Qed.

(** One call of [strtok] on spaces, a token and its end [d]. *)
Lemma strtok_space_token pre skipped token d rest :
  Forall (fun c => c = CHAR_SPACE) skipped -> token <> [] ->
  Forall (fun c => c <> 0) token -> Forall (fun c => c <> CHAR_SPACE) token -> d = 0 \/ d = CHAR_SPACE ->
  strtok_space (pre ++ skipped ++ token ++ d :: rest) (length pre) =
    let i := (length pre + length skipped)%nat in
    if d =? 0 then Some (pre ++ skipped ++ token ++ d :: rest, (i + length token)%nat, Some i)
    else Some (pre ++ skipped ++ token ++ 0 :: rest, S (i + length token), Some i).
Proof.
  intros Hsk Ht Hnz Hsp Hd. unfold strtok_space. rewrite drop_app_length.
  rewrite span_app; [|eapply List.Forall_impl; [|exact Hsk]; by intros c ->|].
  2: { destruct token as [|c token]; [done|]. intros c' [= <-]. pose proof (Forall_inv Hsp) as Hc.
       unfold is_space. by destruct (Z.eqb_spec c CHAR_SPACE). }
  assert (span (fun c => is_nul c || is_space c) (token ++ d :: rest) = (token, d :: rest)) as Hspan.
  { apply span_app; [|intros c [= <-]; by destruct Hd as [->| ->]].
    apply List.Forall_forall. intros c Hc. pose proof (proj1 (List.Forall_forall _ _) Hnz c Hc).
    pose proof (proj1 (List.Forall_forall _ _) Hsp c Hc). unfold is_nul, is_space.
    destruct (Z.eqb_spec c 0); [done|]. by destruct (Z.eqb_spec c CHAR_SPACE). }
  rewrite Hspan. destruct token as [|c token]; [done|]. pose proof (Forall_inv Hnz) as Hc.
  cbn [app]. unfold is_nul at 1. destruct (Z.eqb_spec c 0) as [|_]; [done|]. unfold is_nul.
  destruct (d =? 0); [done|]. do 2 f_equal.
  rewrite app_comm_cons, !app_assoc, <- length_app, <- length_app.
  rewrite insert_app_r_alt, Nat.sub_diag by lia. f_equal. by rewrite <- app_assoc.
Qed.

Lemma strtok_space_none pre skipped rest :
  Forall (fun c => c = CHAR_SPACE) skipped ->
  strtok_space (pre ++ skipped ++ 0 :: rest) (length pre) =
    Some (pre ++ skipped ++ 0 :: rest, (length pre + length skipped)%nat, None).
Proof.
  intros Hsk. unfold strtok_space. rewrite drop_app_length.
  rewrite span_app; [done|eapply List.Forall_impl; [|exact Hsk]; by intros c ->|by intros c [= <-]].
Qed.

(** A text is spaces, or spaces, a word, and the rest of it after a space. *)
Lemma text_cases text :
  Forall (fun c => c = CHAR_SPACE) text \/
  exists skipped w, Forall (fun c => c = CHAR_SPACE) skipped /\ w <> [] /\
    Forall (fun c => c <> CHAR_SPACE) w /\
    (text = skipped ++ w \/ exists rest, text = skipped ++ w ++ CHAR_SPACE :: rest).
Proof.
  destruct (span (fun c => negb (is_space c)) text) as [skipped found] eqn:Hsp.
  apply span_split in Hsp as (-> & Hsk & Hfound).
  assert (Forall (fun c => c = CHAR_SPACE) skipped) as Hspaces.
  { eapply List.Forall_impl; [|exact Hsk]. unfold is_space. intros c. by destruct (Z.eqb_spec c CHAR_SPACE). }
  destruct found as [|c found]; [left; by rewrite app_nil_r|right]. specialize (Hfound c eq_refl).
  destruct (span is_space (c :: found)) as [w rest] eqn:Hw.
  pose proof Hw as Hw'. apply span_split in Hw as (E & Hn & Hr). rewrite E. exists skipped, w.
  split_and!; [done| | |].
  - intros ->. simpl in Hw'. destruct (is_space c); [done|]. by destruct (span is_space found).
  - eapply List.Forall_impl; [|exact Hn]. unfold is_space. intros x. by destruct (Z.eqb_spec x CHAR_SPACE).
  - destruct rest as [|d rest]; [left; by rewrite app_nil_r|right]. exists rest.
    specialize (Hr d eq_refl). unfold is_space in Hr. by destruct (Z.eqb_spec d CHAR_SPACE) as [->|].
Qed.

(** The line with [text] left to cut. *)
Definition line_of (pre text tail : list Z) : list Z := pre ++ text ++ 0 :: tail.

Lemma word_at_middle pre w tail :
  Forall (fun c => c <> 0) w -> Forall (fun c => c <> CHAR_SPACE) w ->
  word_at (pre ++ w ++ 0 :: tail) (length pre) w.
Proof.
  intros H1 H2. split_and!; [done|done|]. intros k c Hk.
  rewrite lookup_app_r, Nat.add_sub' by lia.
  change (w ++ 0 :: tail) with (w ++ [0] ++ tail). rewrite app_assoc. by apply lookup_app_l_Some.
Qed.

Lemma keeps_text_cut pre tail : keeps_text (pre ++ CHAR_SPACE :: tail) (pre ++ 0 :: tail).
Proof.
  split; [by rewrite !length_app|]. intros j c Hj Hc.
  destruct (decide (j = length pre)) as [->|Hne].
  - rewrite list_lookup_middle in Hj by done. congruence.
  - destruct (decide (j < length pre)%nat).
    + rewrite lookup_app_l in * by lia. done.
    + rewrite lookup_app_r in * by lia. destruct (j - length pre)%nat eqn:E; [lia|done].
Qed.

(** One call of [strtok] when [text] is left: nothing more, or its first word, and
    [text'] is left. *)
Lemma strtok_space_spec pre text tail :
  Forall (fun c => c <> 0) text ->
  (words text = [] /\
     exists p, strtok_space (line_of pre text tail) (length pre) = Some (line_of pre text tail, p, None)) \/
  exists w text' pre' i,
    words text = w :: words text' /\ Forall (fun c => c <> 0) text' /\
    strtok_space (line_of pre text tail) (length pre) =
      Some (line_of pre' text' tail, length pre', Some i) /\
    keeps_text (line_of pre text tail) (line_of pre' text' tail) /\
    word_at (line_of pre' text' tail) i w.
Proof.
  unfold line_of. intros Hnz. destruct (text_cases text) as [Hsp|(skipped & w & Hsk & Hw & Hns & Ht)].
  { left. split; [|by eexists; apply strtok_space_none].
    rewrite <- (app_nil_r text). by rewrite words_skip. }
  right. destruct Ht as [->|[rest ->]].
  - apply Forall_app in Hnz as [_ Hnz]. exists w, [], (pre ++ skipped ++ w), (length pre + length skipped)%nat.
    rewrite words_skip, words_last, !length_app by done.
    rewrite <- !app_assoc, strtok_space_token by (done || by left). simpl. rewrite Nat.add_assoc.
    split_and!; [done|done|done|done|]. rewrite <- length_app, (app_assoc pre). by apply word_at_middle.
  - apply Forall_app in Hnz as [_ Hnz]. apply Forall_app in Hnz as [Hnw Hnz]. pose proof (Forall_inv_tail Hnz) as Hnr.
    exists w, rest, (pre ++ skipped ++ w ++ [0]), (length pre + length skipped)%nat.
    rewrite words_skip, words_word, !length_app by done.
    rewrite <- !app_assoc, <- !app_comm_cons, strtok_space_token by (done || by right).
    split_and!; [done|done| | |].
    + simpl. repeat f_equal. lia.
    + rewrite !app_assoc. apply keeps_text_cut.
    + rewrite <- length_app, (app_assoc pre). by apply word_at_middle.
Qed.

Lemma parse_tokens_spec n text pre tail l p tok argv :
  Forall (fun c => c <> 0) text ->
  strtok_space (line_of pre text tail) (length pre) = Some (l, p, tok) ->
  exists l' found, parse_tokens n l p tok argv = Some (l', argv ++ found) /\
    keeps_text (line_of pre text tail) l' /\ Forall2 (word_at l') found (take n (words text)).
Proof.
  revert text pre l p tok argv. induction n as [|n IH]; intros text pre l p tok argv Hnz Hstr;
    destruct (strtok_space_spec pre text tail Hnz) as [(Hw & p' & E)|(w & text' & pre' & i & Hw & Hnz' & E & Hk & Hat)];
    rewrite E in Hstr; injection Hstr as <- <- <-; simpl.
  - eexists _, []. rewrite app_nil_r. by split_and!.
  - eexists _, []. rewrite app_nil_r. by split_and!.
  - eexists _, []. rewrite app_nil_r, Hw. by split_and!.
  - assert (exists r, strtok_space (line_of pre' text' tail) (length pre') = Some r) as [[[l2 p2] tok2] E2].
    { destruct (strtok_space_spec pre' text' tail Hnz') as [(_ & p2 & E2)|(? & ? & ? & ? & _ & _ & E2 & _)]; eauto. }
    rewrite E2. destruct (IH text' pre' l2 p2 tok2 (argv ++ [i]) Hnz' E2) as (l' & found & H1 & H2 & H3).
    exists l', (i :: found). rewrite H1, <- app_assoc, Hw. split_and!; [done|by etrans|].
    simpl. constructor; [|done]. by eapply word_at_keeps.
Qed.

(** The arguments of a command line are its words, the first fifteen of them, each a
    terminated string in the line. *)
Lemma parse_args_words text tail : Forall (fun c => c <> 0) text ->
  exists l' argv, parse_args (text ++ 0 :: tail) = Some (l', argv) /\
    length l' = length (text ++ 0 :: tail) /\ string_at l' <$> argv = take 15 (words text).
Proof.
  intros Hnz. unfold parse_args. destruct (strtok_space (text ++ 0 :: tail) 0) as [[[l p] tok]|] eqn:E.
  - destruct (parse_tokens_spec (ARGV_MAX - 1) text [] tail l p tok [] Hnz E) as (l' & found & H1 & [H2 _] & H3).
    exists l', found. split_and!; [done|done|]. change (ARGV_MAX - 1)%nat with 15%nat in H3. clear H1.
    induction H3 as [|i w found ws Hi _ IH]; [done|]. rewrite fmap_cons. f_equal; [by apply word_at_string|done].
  - destruct (strtok_space_spec [] text tail Hnz) as [(_ & p & E')|(? & ? & ? & ? & _ & _ & E' & _)];
      unfold line_of in E'; simpl in E'; congruence.
Qed.

(** ** A session

    What the user has typed, by key codes alone: [typed] is the line being edited,
    [entered] the last line that was ended, [held] the state of the shift keys.
    [shown] is what the shell itself has written since its last newline, as a
    display shows it.  [stage] is what the shell owes: its prompt, the end of the
    line, the command that was entered, its part after the fork, and in the child
    whose command did not start a message and then the end. *)
Inductive stage_t : Type :=
| READING | LINE_ENDED | COMMAND | CHILD | PARENT | FAILED (error : Z) | COMPLAINED (error : Z) | PROMPT_DUE.
Record session_t : Type := mk_session {
  typed : list Z;
  entered : list Z;
  held : bool;
  shown : list Z;
  stage : stage_t;
}.
#[export] Instance session_fields : Fields session_t := fun g =>
  mk_session (typed g) (entered g) (held g) (shown g) (stage g).

Definition show (d : list Z) (c : Z) : list Z :=
  if c =? CHAR_NEWLINE then []
  else if c =? CHAR_BACKSPACE then take (length d - 1) d
  else d ++ [c].

Definition press_character (g : session_t) (c : Z) : session_t :=
  if c =? CHAR_BACKSPACE then g <| typed := take (length (typed g) - 1) (typed g) |>
  else if c =? CHAR_NEWLINE then g <| entered := typed g |> <| typed := [] |> <| stage := LINE_ENDED |>
  else if (length (typed g) <? 255)%nat then g <| typed := typed g ++ [c] |>
  else g.

(** A code of 128 and more is a key let go. *)
Definition press (g : session_t) (scancode : Z) : session_t :=
  let key := scancode mod 128 in
  if (key =? 42) || (key =? 54) then g <| held := scancode <? 128 |>
  else if scancode <? 128 then
    match (if held g then keymap_shift else keymap) !! Z.to_nat key with
    | Some c => if c =? 0 then g else press_character g c
    | None => g
    end
  else g.

(** The arguments of the command the user entered. *)
Definition arguments_of (text : list Z) : list (list Z) := take 15 (words text).

(** What is owed when something has been written. *)
Definition stage_written (g : session_t) : stage_t :=
  match stage g with
  | LINE_ENDED => if bool_decide (arguments_of (entered g) = []) then PROMPT_DUE else COMMAND
  | PROMPT_DUE => READING
  | k => k
  end.

Definition after_call (g : session_t) (X : Type) (e : shellE X) : X -> session_t :=
  match e in shellE X return X -> session_t with
  | ReadKey => fun '(r, scancode) => if r <=? 0 then g else press g scancode
  | WriteOut bytes => fun _ => g <| shown := foldl show (shown g) bytes |> <| stage := stage_written g |>
  | Fork => fun pid => g <| stage := if pid =? 0 then CHILD else PARENT |>
  | Execve _ _ => fun result => g <| stage := if result <? 0 then FAILED result else PROMPT_DUE |>
  | Waitpid _ => fun _ => g <| stage := PROMPT_DUE |>
  | Complain _ => fun _ => g <| stage := match stage g with FAILED error => COMPLAINED error | k => k end |>
  | Exit _ | Undefined => fun _ => g
  end.

(** The kernel stores a byte. *)
Definition key_answers (X : Type) (e : shellE X) : X -> Prop :=
  match e in shellE X return X -> Prop with
  | ReadKey => fun '(_, scancode) => 0 <= scancode < 256
  | _ => fun _ => True
  end.

(** When the shell waits for a key, it owes nothing, and shows the prompt and what
    has been typed; a command that was entered is started, with its arguments, in
    a child, and any child is waited for in the parent; the shell ends when told to,
    or in the child with the error of its command, after the message; and it never
    leaves its arrays. *)
Definition shell_may (g : session_t) (X : Type) (e : shellE X) : Prop :=
  match e with
  | ReadKey => stage g = READING /\ shown g = PROMPT ++ typed g
  | WriteOut bytes =>
      match stage g with
      | READING => length bytes = 1%nat
      | LINE_ENDED => bytes = [CHAR_NEWLINE]
      | PROMPT_DUE => bytes = PROMPT
      | _ => False
      end
  | Fork => stage g = COMMAND /\ exists first rest, arguments_of (entered g) = first :: rest /\ first <> EXIT_COMMAND
  | Execve path argv => stage g = CHILD /\ argv = arguments_of (entered g) /\ head argv = Some path
  | Waitpid pid => stage g = PARENT /\ pid = -1
  | Exit code =>
      match stage g with
      | COMMAND => code = 0 /\ head (arguments_of (entered g)) = Some EXIT_COMMAND
      | COMPLAINED error => code = error
      | _ => False
      end
  | Complain name => (exists error, stage g = FAILED error) /\ head (arguments_of (entered g)) = Some name
  | Undefined => False
  end.

(** The loop's invariant. *)
Record in_step (s : shell_t) (g : session_t) : Prop := {
  in_shown : shown g = PROMPT ++ typed g;
  in_array : length (line s) = 256%nat;
  in_length : line_length s = Z.of_nat (length (typed g));
  in_room : (length (typed g) <= 255)%nat;
  in_text : take (length (typed g)) (line s) = typed g;
  in_nul : Forall (fun c => c <> 0) (typed g);
  in_held : shift_held s = held g;
  in_stage : stage g = READING;
}.

Abbreviation session := (always shell_may key_answers after_call).

Lemma session_of_defined {R} (Q : R -> session_t -> Prop) g o r : o = Some r -> Q r g -> session Q g (of_defined o).
Proof. intros -> HQ. by apply safe_ret. Qed.

Lemma session_exit {R} (Q : R -> session_t -> Prop) g code :
  shell_may g void (Exit code) -> session Q g (exit_shell code).
Proof. intros H. unfold exit_shell. itree_step. itree_step; [done|]. intros []. Qed.

Lemma session_put_char (Q : unit -> session_t -> Prop) g c :
  shell_may g Z (WriteOut [c]) ->
  Q tt (g <| shown := show (shown g) c |> <| stage := stage_written g |>) -> session Q g (shell_put_char c).
Proof. intros H HQ. unfold shell_put_char. itree_step. itree_step; [done|]. intros x _. by itree_step. Qed.

Lemma session_prompt (Q : unit -> session_t -> Prop) g : stage g = PROMPT_DUE -> shown g = [] ->
  Q tt (g <| shown := PROMPT |> <| stage := READING |>) -> session Q g (put_str PROMPT).
Proof.
  intros Hg Hs HQ. unfold put_str. itree_step. itree_step; [unfold shell_may; by rewrite Hg|]. intros x _. itree_step. unfold after_call.
  unfold stage_written. rewrite Hg, Hs. exact HQ.
Qed.

Lemma session_store_line (Q : list Z -> session_t -> Prop) g i c l :
  0 <= i < Z.of_nat (length l) -> Q (<[Z.to_nat i := c]> l) g -> session Q g (store_line i c l).
Proof.
  intros Hi HQ. unfold store_line. destruct (Z.leb_spec 0 i); [|lia].
  destruct (Z.ltb_spec i (Z.of_nat (length l))); [|lia]. cbn [andb]. by itree_step.
Qed.

(** The command line the user ended, once its end is shown. *)
Lemma session_run_command (Q : list Z -> session_t -> Prop) g text tail :
  Forall (fun c => c <> 0) text -> entered g = text ->
  stage g = (if bool_decide (arguments_of text = []) then PROMPT_DUE else COMMAND) ->
  (forall l, length l = length (text ++ 0 :: tail) -> Q l (g <| stage := PROMPT_DUE |>)) ->
  session Q g (run_command (text ++ 0 :: tail)).
Proof.
  intros Hnz He Hst HQ. unfold run_command.
  destruct (parse_args_words text tail Hnz) as (l & argv & Hp & Hlen & Hargs). fold (arguments_of text) in Hargs.
  rewrite <- Hargs in Hst. itree_step. apply (session_of_defined _ _ _ _ Hp). destruct argv as [|first argv].
  { itree_step. specialize (HQ l Hlen). cbn in Hst. destruct g. cbn in *. by subst. }
  cbn in Hst. rewrite <- He in Hargs. assert (arguments_of (entered g) = string_at l first :: (string_at l <$> argv)) as Ha by done.
  case_bool_decide as Hexit.
  { apply session_exit. cbn. by rewrite Hst, Ha, Hexit. }
  itree_step. itree_step; [split; [done|by eexists _, _]|].
  intros pid _. cbn. destruct (pid =? 0); itree_step.
  - itree_step; [split; [done|split; [exact (eq_sym Ha)|done]]|]. intros result _. simpl.
    destruct (Z.ltb_spec result 0); [|itree_step; by apply HQ].
    itree_step. itree_step; [split; [by eexists|exact (f_equal head Ha)]|]. intros [] _. by apply session_exit.
  - itree_step; [done|]. intros answer _. itree_step. by apply HQ.
Qed.

Lemma released_spec s : 0 <= s < 256 -> (Z.land s 0x80 =? 0) = (s <? 128).
Proof.
  intros Hs.
  assert (forallb (fun n => Bool.eqb (Z.land (Z.of_nat n) 0x80 =? 0) (Z.of_nat n <? 128)) (seq 0 256) = true) as H
    by by vm_compute.
  rewrite forallb_forall in H. specialize (H (Z.to_nat s)). rewrite Z2Nat.id in H by lia.
  apply Bool.eqb_prop, H, in_seq. lia.
Qed.

Lemma key_spec s : Z.land s 0x7F = s mod 128.
Proof. exact (Z.land_ones s 7 ltac:(lia)). Qed.

(** A character that is typed: the line and what is shown stay in step. *)
Lemma session_type s g c :
  in_step s g -> c <> 0 ->
  session (fun s' g' => in_step s' g')
    (press_character g c) (shell_type s c).
Proof.
  intros [H1 H2 H3 H4 H5 H6 H7 H8] Hc. unfold shell_type, press_character.
  destruct (Z.eqb_spec c CHAR_BACKSPACE) as [->|Hb].
  - destruct (Z.ltb_spec 0 (line_length s)) as [Hpos|Hpos].
    + itree_step. apply session_put_char; [by cbn; rewrite H8|]. itree_step. split; cbn; try done.
      * unfold show. simpl. rewrite H1, length_app, take_app_ge by (simpl; lia). f_equal.
      * rewrite length_take. lia.
      * rewrite length_take. lia.
      * rewrite length_take, Nat.min_l by lia.
        transitivity (take (length (typed g) - 1) (take (length (typed g)) (line s)));
          [rewrite take_take; f_equal; lia|by rewrite H5].
      * by apply Forall_take.
      * unfold stage_written. cbn. by rewrite H8.
    + assert (typed g = []) as E by (destruct (typed g); simpl in *; [done|lia]).
      itree_step. split; cbn; rewrite ?E in *; done.
  - destruct (Z.eqb_spec c CHAR_NEWLINE) as [->|Hn].
    + itree_step. apply session_store_line; [lia|]. itree_step. apply session_put_char; [done|]. itree_step.
      assert (<[Z.to_nat (line_length s) := 0]> (line s) =
              typed g ++ 0 :: drop (S (length (typed g))) (line s)) as ->.
      { rewrite H3, Nat2Z.id. rewrite insert_take_drop by lia. by rewrite H5. }
      apply session_run_command; [done|done|done|]. intros l Hl. itree_step. apply session_prompt; [done|done|].
      itree_step. split; cbn; try done.
      * rewrite Hl, length_app. simpl. rewrite length_drop. lia.
      * lia.
    + assert ((line_length s <? LINE_MAX - 1) = (length (typed g) <? 255)%nat) as ->.
      { unfold LINE_MAX. destruct (Nat.ltb_spec (length (typed g)) 255); destruct (Z.ltb_spec (line_length s) (256 - 1)); lia. }
      destruct (Nat.ltb_spec (length (typed g)) 255); [|by itree_step].
      itree_step. apply session_store_line; [lia|]. itree_step. apply session_put_char; [by cbn; rewrite H8|]. itree_step.
      split; cbn; try done.
      * unfold show. destruct (Z.eqb_spec c CHAR_NEWLINE); [done|]. destruct (Z.eqb_spec c CHAR_BACKSPACE); [done|].
        by rewrite H1, <- app_assoc.
      * by rewrite length_insert.
      * rewrite length_app. simpl. lia.
      * rewrite length_app. simpl. lia.
      * rewrite length_app, H3, Nat2Z.id. simpl. rewrite Nat.add_1_r.
        rewrite (take_S_r _ _ c) by (rewrite list_lookup_insert_eq; [done|lia]).
        by rewrite take_insert_ge, H5 by lia.
      * apply Forall_app. split; [done|]. by repeat constructor.
      * unfold stage_written. cbn. by rewrite H8.
Qed.

Lemma session_round s g : in_step s g ->
  session (fun x g' => match x with inl s' => in_step s' g' | inr v => match v : void with end end) g (shell_round s).
Proof.
  intros Hs. pose proof Hs as [H1 H2 H3 H4 H5 H6 H7 H8]. unfold shell_round.
  itree_step. itree_step; [done|]. intros [r scancode] Hcode. simpl in Hcode |- *.
  destruct (Z.leb_spec r 0); [by itree_step|]. rewrite key_spec, released_spec by done. unfold press.
  destruct ((scancode mod 128 =? 42) || (scancode mod 128 =? 54)); [itree_step; by split|].
  destruct (scancode <? 128); cbn [negb]; [|by itree_step].
  unfold shell_character. rewrite H7.
  assert (is_Some ((if held g then keymap_shift else keymap) !! Z.to_nat (scancode mod 128))) as [c Hc].
  { apply lookup_lt_is_Some_2. pose proof (Z.mod_pos_bound scancode 128 ltac:(lia)).
    destruct (held g); change (length _) with 128%nat; lia. }
  rewrite Hc. itree_step. apply (session_of_defined _ _ _ c); [done|].
  destruct (Z.eqb_spec c 0); [by itree_step|]. itree_step.
  eapply safe_mono; [|by apply session_type]. intros s' g' Hs'. by itree_step.
Qed.

(** C4: the shell, in every run and whatever the kernel answers to its calls.
    Whenever it waits for a key it has shown the prompt followed by exactly the
    text the keys so far make (characters of the keymap in force, the last one
    erased by backspace, at most 255 of them), and it has dealt with every line
    that was ended: for an empty one it only shows the prompt again, and otherwise
    it has forked.  Where the fork answers 0 the command is started: the line that
    was ended, split at its spaces, at most 15 arguments.  Elsewhere it waits for any
    child before it prompts again.  It exits with 0 for the command exit only, and
    otherwise only with the very error of a command that did not start, after its
    message; and it never leaves its line or its keymaps. *)
Theorem shell_session line0 : length line0 = 256%nat ->
  session (fun _ _ => False) (mk_session [] [] false [] PROMPT_DUE) (shell_main line0).
Proof.
  intros H. unfold shell_main. itree_step. apply session_prompt; [done|done|].
  apply (safe_iter _ _ _ in_step).
  - intros s g Hs. eapply safe_mono; [|by apply session_round]. by intros [s'|[]] g'.
  - split; simpl; try done. lia.
Qed.

Lemma shell_session_witness :
  session (fun _ _ => False) (mk_session [] [] false [] PROMPT_DUE) (shell_main (replicate 256 0)).
Proof. apply shell_session. reflexivity. Defined.
