(* ===== verification/Square.v ===== *)
(** * The square program (src/initrd/src/square.c)

    It draws a filled rectangle through /dev/framebuffer: it asks the driver for
    the geometry, clips the rectangle to the screen, packs one row of pixels and
    writes the row line by line.  Signed arithmetic is written with the wrap-around
    the processor has; a store outside the row is the call [Undefined]. *)
From S2P Require Import Prelude Bitmap Paging KernelHeap Tasks Allocator Terminal Framebuffer Interaction.
From ITree Require Import ITree.
#[local] Open Scope program_scope.

(** [Malloc] answers the bytes of the block, which are not initialised, or NULL. *)
Inductive squareE : Type -> Type :=
| OpenFramebuffer : squareE Z
| IoctlInfo (fd : Z) : squareE (Z * fb_info)
| Malloc (size : Z) : squareE (option (list Z))
| SeekTo (fd offset : Z) : squareE Z
| WriteRow (fd : Z) (bytes : list Z) : squareE Z
| FreeRow : squareE unit
| CloseFramebuffer (fd : Z) : squareE Z
| Message : squareE unit
| OutOfRow : squareE void.

(** [row[i] = b] *)
Definition store_row (i b : Z) (row : list Z) : itree squareE (list Z) :=
  if (0 <=? i) && (i <? Z.of_nat (length row)) then finish (<[Z.to_nat i := u8 b]> row)
  else let* x := ITree.trigger OutOfRow in match x : void with end.

Definition pack_pixel (dest color bpp : Z) (row : list Z) : itree squareE (list Z) :=
  if bpp =? 32 then
    let* row := store_row dest (Z.land color 0xFF) row in
    let* row := store_row (dest + 1) (Z.land (Z.shiftr color 8) 0xFF) row in
    let* row := store_row (dest + 2) (Z.land (Z.shiftr color 16) 0xFF) row in
    store_row (dest + 3) (Z.land (Z.shiftr color 24) 0xFF) row
  else if bpp =? 24 then
    let* row := store_row dest (Z.land color 0xFF) row in
    let* row := store_row (dest + 1) (Z.land (Z.shiftr color 8) 0xFF) row in
    store_row (dest + 2) (Z.land (Z.shiftr color 16) 0xFF) row
  else if bpp =? 16 then
    let* row := store_row dest (Z.land color 0xFF) row in
    store_row (dest + 1) (Z.land (Z.shiftr color 8) 0xFF) row
  else finish row.

(** The loop over the columns from [col], [n] to go. *)
Fixpoint pack_row (n : nat) (col color bytes_per_pixel bpp : Z) (row : list Z) : itree squareE (list Z) :=
  match n with
  | O => finish row
  | S n' =>
      let* row := pack_pixel (u32 (col * bytes_per_pixel)) color (u8 bpp) row in
      pack_row n' (col + 1) color bytes_per_pixel bpp row
  end.

(** The loop over the lines from [l], [n] to go. *)
Fixpoint draw_lines (n : nat) (l fd x y pitch bytes_per_pixel : Z) (bytes : list Z) : itree squareE unit :=
  match n with
  | O => finish tt
  | S n' =>
      let offset := i32 (i32 (i32 (y + l) * i32 pitch) + i32 (x * i32 bytes_per_pixel)) in
      do* ITree.trigger (SeekTo fd offset) in
      do* ITree.trigger (WriteRow fd bytes) in
      draw_lines n' (l + 1) fd x y pitch bytes_per_pixel bytes
  end.

(** The rectangle cut to the screen: the left edge and the right one, which are
    treated alike in both directions. *)
Definition clip_start (x w : Z) : Z * Z := if x <? 0 then (0, i32 (w + x)) else (x, w).
Definition clip_end (size x w : Z) : Z :=
  if i32 size <? i32 (x + w) then i32 (i32 size - x) else w.

Definition square_color (info : fb_info) (r g b : Z) : Z :=
  Z.lor (Z.lor (u32 (Z.shiftl r (info_red_field_position info)))
               (u32 (Z.shiftl g (info_green_field_position info))))
        (u32 (Z.shiftl b (info_blue_field_position info))).

(** [main], with the numbers its arguments stand for. *)
Definition square_main (argc : Z) (x y w h r g b : Z) : itree squareE Z :=
  if argc <? 8 then do* ITree.trigger Message in finish 1
  else
    let r := u8 r in let g := u8 g in let b := u8 b in
    let* fd := ITree.trigger OpenFramebuffer in
    if fd <? 0 then do* ITree.trigger Message in finish 1
    else
      let* '(result, info) := ITree.trigger (IoctlInfo fd) in
      if result <? 0 then
        do* ITree.trigger Message in do* ITree.trigger (CloseFramebuffer fd) in finish 1
      else
        let '(x, w) := clip_start x w in
        let '(y, h) := clip_start y h in
        let w := clip_end (info_width info) x w in
        let h := clip_end (info_height info) y h in
        if (w <=? 0) || (h <=? 0) then do* ITree.trigger (CloseFramebuffer fd) in finish 0
        else
          let bytes_per_pixel := info_bpp info / 8 in
          let color := square_color info r g b in
          let* row := ITree.trigger (Malloc (u32 (w * bytes_per_pixel))) in
          match row with
          | None => do* ITree.trigger Message in do* ITree.trigger (CloseFramebuffer fd) in finish 1
          | Some row =>
              let* row := pack_row (Z.to_nat w) 0 color bytes_per_pixel (info_bpp info) row in
              do* draw_lines (Z.to_nat h) 0 fd x y (info_pitch info) bytes_per_pixel
                    (take (Z.to_nat (u32 (w * bytes_per_pixel))) row) in
              do* ITree.trigger FreeRow in
              do* ITree.trigger (CloseFramebuffer fd) in
              finish 0
          end.

(** ** The bytes of a pixel *)

Definition pixel_bytes (k : nat) (color : Z) : list Z :=
  (fun i : nat => u8 (Z.shiftr color (8 * Z.of_nat i))) <$> seq 0 k.

(** The rectangle the program is asked for, cut to the screen, as the writes that
    fill it: the offset and the bytes of each line. *)
Definition clipped (size x w : Z) : Z * Z := (Z.max 0 x, Z.min size (x + w) - Z.max 0 x).
Definition square_lines (info : fb_info) (x y w h color : Z) : list (Z * list Z) :=
  let bytes := info_bpp info / 8 in
  let '(x0, columns) := clipped (info_width info) x w in
  let '(y0, lines) := clipped (info_height info) y h in
  if (columns <=? 0) || (lines <=? 0) then []
  else
    (fun l : nat => ((y0 + Z.of_nat l) * info_pitch info + x0 * bytes,
                     concat (replicate (Z.to_nat columns) (pixel_bytes (Z.to_nat bytes) color))))
    <$> seq 0 (Z.to_nat lines).

(** A geometry the driver reports. *)
Record geometry_ok (info : fb_info) : Prop := {
  geo_bpp : info_bpp info = 16 \/ info_bpp info = 24 \/ info_bpp info = 32;
  geo_width : 0 <= info_width info < 2 ^ 16;
  geo_height : 0 <= info_height info < 2 ^ 16;
  geo_pitch : info_width info * (info_bpp info / 8) <= info_pitch info;
  geo_size : 0 <= info_pitch info * info_height info < 2 ^ 31;
  geo_pitch_max : 0 <= info_pitch info < 2 ^ 31;
}.

(** ** Runs of the program

    The descriptor that is open; the last seek that no write has followed, with what
    it answered; and the lines so far: the place that was asked for, the bytes, and
    what the seek and the write answered. *)
Record line_t : Type := mk_line { asked : Z; line_bytes : list Z; seek_answer : Z; write_answer : Z }.
Record drawing_t : Type := mk_drawing {
  opened : option Z;
  sought : option (Z * Z);
  written : list line_t;
}.
Definition start_drawing : drawing_t := mk_drawing None None [].

(** What the device is asked for. *)
Definition requests (l : list line_t) : list (Z * list Z) := (fun e => (asked e, line_bytes e)) <$> l.
(** What it takes, and where, from [position] on: a seek that fails leaves the
    position where it is, and a write takes as many bytes as it answers. *)
Fixpoint effects (position : Z) (l : list line_t) : list (Z * list Z) :=
  match l with
  | [] => []
  | e :: l' =>
      let position := if seek_answer e <? 0 then position else asked e in
      let taken := take (Z.to_nat (write_answer e)) (line_bytes e) in
      (position, taken) :: effects (position + Z.of_nat (length taken)) l'
  end.
(** Both calls of a line did what they were asked for. *)
Definition done_line (e : line_t) : Prop := 0 <= seek_answer e /\ write_answer e = Z.of_nat (length (line_bytes e)).

Lemma effects_done position l i e :
  l !! i = Some e -> done_line e -> effects position l !! i = Some (asked e, line_bytes e).
Proof.
  intros Hi [Hs Hw]. revert position i Hi. induction l as [|e' l IH]; intros position [|i] Hi; simpl in *; try done; [|by apply IH].
  injection Hi as ->. rewrite Hw, Nat2Z.id, firstn_all. by destruct (Z.ltb_spec (seek_answer e) 0); [lia|].
Qed.

Section drawing.
Variable info : fb_info.

Definition square_may (g : drawing_t) (X : Type) (e : squareE X) : Prop :=
  match e with
  | OpenFramebuffer => opened g = None
  | IoctlInfo fd => opened g = Some fd
  | Malloc size => 0 < size
  | SeekTo fd _ => opened g = Some fd
  | WriteRow fd bytes =>
      opened g = Some fd /\ exists offset answer, sought g = Some (offset, answer) /\ 0 <= offset /\
        offset + Z.of_nat (length bytes) <= info_pitch info * info_height info
  | CloseFramebuffer fd => opened g = Some fd
  | FreeRow | Message => True
  | OutOfRow => False
  end.

(** The driver reports [info]; a block has the size that was asked for. *)
Definition square_answers (X : Type) (e : squareE X) : X -> Prop :=
  match e in squareE X return X -> Prop with
  | IoctlInfo _ => fun '(_, i) => i = info
  | Malloc size => fun row => forall l, row = Some l -> Z.of_nat (length l) = size
  | _ => fun _ => True
  end.

Definition after_drawing (g : drawing_t) (X : Type) (e : squareE X) : X -> drawing_t :=
  match e in squareE X return X -> drawing_t with
  | OpenFramebuffer => fun fd => mk_drawing (if fd <? 0 then None else Some fd) None (written g)
  | SeekTo _ offset => fun answer => mk_drawing (opened g) (Some (offset, answer)) (written g)
  | WriteRow _ bytes => fun answer =>
      mk_drawing (opened g) None
        (match sought g with Some (offset, r) => written g ++ [mk_line offset bytes r answer] | None => written g end)
  | CloseFramebuffer _ => fun _ => mk_drawing None (sought g) (written g)
  | _ => fun _ => g
  end.

Abbreviation drawing := (always square_may square_answers after_drawing).

Lemma drawing_store_row (Q : list Z -> drawing_t -> Prop) g pre c post b i :
  i = Z.of_nat (length pre) -> Q (pre ++ u8 b :: post) g -> drawing Q g (store_row i b (pre ++ c :: post)).
Proof using Type.
  intros -> HQ. unfold store_row.
  destruct (Z.leb_spec 0 (Z.of_nat (length pre))); [|lia].
  destruct (Z.ltb_spec (Z.of_nat (length pre)) (Z.of_nat (length (pre ++ c :: post))));
    [|rewrite length_app in *; simpl in *; lia].
  cbn [andb]. itree_step. rewrite Nat2Z.id, insert_app_r_alt, Nat.sub_diag by lia. done.
Qed.

Lemma u8_low_byte c n : u8 (Z.land (Z.shiftr c n) 0xFF) = u8 (Z.shiftr c n).
Proof using Type. unfold u8. rewrite (Z.land_ones _ 8) by lia. apply Z.mod_mod. lia. Qed.

(** The same, with the bytes stored before it moved to the left. *)
Lemma drawing_store_next (Q : list Z -> drawing_t -> Prop) g pre a c post b i :
  i = Z.of_nat (length pre) + 1 -> Q ((pre ++ [a]) ++ u8 b :: post) g ->
  drawing Q g (store_row i b (pre ++ a :: c :: post)).
Proof using Type.
  intros -> HQ. rewrite cons_middle, app_assoc. apply drawing_store_row; [|done].
  rewrite length_app. simpl. lia.
Qed.

(** One pixel: its bytes take the place of as many old ones. *)
Lemma drawing_pack_pixel (Q : list Z -> drawing_t -> Prop) g pre old post color bpp dest :
  (bpp = 16 \/ bpp = 24 \/ bpp = 32) -> length old = Z.to_nat (bpp / 8) -> dest = Z.of_nat (length pre) ->
  Q (pre ++ pixel_bytes (Z.to_nat (bpp / 8)) color ++ post) g ->
  drawing Q g (pack_pixel dest color bpp (pre ++ old ++ post)).
Proof using Type.
  intros Hbpp Hold -> HQ. unfold pack_pixel.
  pose proof (u8_low_byte color 0) as H0. rewrite Z.shiftr_0_r in H0.
  destruct Hbpp as [->|[->| ->]]; cbn in Hold; [destruct old as [|? [|? [|]]]|destruct old as [|? [|? [|? [|]]]]|
    destruct old as [|? [|? [|? [|? [|]]]]]]; try done; cbn [Z.eqb Pos.eqb app];
    (itree_step; apply drawing_store_row; [done|]).
  - apply drawing_store_next; [done|]. rewrite H0, u8_low_byte, <- app_assoc. exact HQ.
  - itree_step. apply drawing_store_next; [done|].
    apply drawing_store_next; [rewrite length_app; simpl; lia|]. rewrite H0, !u8_low_byte, <- !app_assoc. exact HQ.
  - itree_step. apply drawing_store_next; [done|].
    itree_step. apply drawing_store_next; [rewrite length_app; simpl; lia|].
    apply drawing_store_next; [rewrite !length_app; simpl; lia|]. rewrite H0, !u8_low_byte, <- !app_assoc. exact HQ.
Qed.

Lemma pixel_bytes_length k color : length (pixel_bytes k color) = k.
Proof using Type. unfold pixel_bytes. by rewrite length_fmap, length_seq. Qed.

(** A row of pixels. *)
Lemma drawing_pack_row (Q : list Z -> drawing_t -> Prop) g n col pre old color bpp :
  (bpp = 16 \/ bpp = 24 \/ bpp = 32) -> length old = (n * Z.to_nat (bpp / 8))%nat ->
  0 <= col -> col * (bpp / 8) = Z.of_nat (length pre) -> (col + Z.of_nat n) * (bpp / 8) < 2 ^ 32 ->
  Q (pre ++ concat (replicate n (pixel_bytes (Z.to_nat (bpp / 8)) color))) g ->
  drawing Q g (pack_row n col color (bpp / 8) bpp (pre ++ old)).
Proof using Type.
  intros Hbpp. assert (0 < bpp / 8 <= 4 /\ u8 bpp = bpp) as [Hk Hu] by (by destruct Hbpp as [->|[->| ->]]).
  revert col pre old. induction n as [|n IH]; intros col pre old Hold Hcol Hpre Hmax HQ; cbn [pack_row].
  - destruct old; [|done]. itree_step. exact HQ.
  - assert (exists pixel rest, old = pixel ++ rest /\ length pixel = Z.to_nat (bpp / 8)) as (pixel & rest & -> & Hp).
    { exists (take (Z.to_nat (bpp / 8)) old), (drop (Z.to_nat (bpp / 8)) old).
      rewrite take_drop, length_take. split; [done|]. lia. }
    itree_step. rewrite Hu. apply drawing_pack_pixel; [done|done|rewrite u32_small; nia|].
    rewrite app_assoc. rewrite length_app, Hp in Hold. apply IH; [lia|lia| |nia|].
    + rewrite length_app, pixel_bytes_length. nia.
    + rewrite <- app_assoc. exact HQ.
Qed.

(** The lines: each is asked for at its place, in order. *)
Lemma drawing_draw_lines (Q : unit -> drawing_t -> Prop) n l fd x y pitch k bytes g :
  opened g = Some fd -> 0 <= x -> 0 <= y -> 0 <= l -> 0 <= k -> 0 <= pitch < 2 ^ 31 ->
  x * k + Z.of_nat (length bytes) <= pitch -> pitch = info_pitch info ->
  y + l + Z.of_nat n <= info_height info -> pitch * info_height info < 2 ^ 31 ->
  x < 2 ^ 16 -> k < 2 ^ 31 -> info_height info < 2 ^ 16 ->
  (forall g', opened g' = Some fd ->
     requests (written g') =
       requests (written g) ++ ((fun i : nat => ((y + l + Z.of_nat i) * pitch + x * k, bytes)) <$> seq 0 n) -> Q tt g') ->
  drawing Q g (draw_lines n l fd x y pitch k bytes).
Proof using Type.
  intros Hfd Hx Hy Hl0 Hk Hp Hrow Hpi Hh Hsize Hx2 Hk2 Hh2. revert l g Hfd Hl0 Hh.
  induction n as [|n IH]; intros l g Hfd Hl0 Hh HQ; cbn [draw_lines].
  - itree_step. apply HQ; [done|]. by rewrite app_nil_r.
  - set (o := (y + l) * pitch + x * k).
    assert (0 <= o /\ o + Z.of_nat (length bytes) <= pitch * info_height info) as [Ho1 Ho2].
    { unfold o. assert ((y + l + 1) * pitch <= info_height info * pitch) by (apply Z.mul_le_mono_nonneg_r; lia).
      assert (0 <= (y + l) * pitch) by nia. assert (0 <= x * k) by nia. lia. }
    assert (i32 (i32 (i32 (y + l) * i32 pitch) + i32 (x * i32 k)) = o) as ->.
    { assert (0 <= (y + l) * pitch /\ 0 <= x * k) by nia. unfold o in *.
      rewrite (i32_small (y + l)), (i32_small pitch), (i32_small k) by lia.
      rewrite (i32_small ((y + l) * pitch)), (i32_small (x * k)) by lia. apply i32_small. lia. }
    itree_step. itree_step; [done|]. intros r1 _. itree_step.
    itree_step; [split; [done|]; exists o, r1; split_and!; [done|lia|by rewrite <- Hpi]|]. intros r2 _.
    apply IH; [done|lia|lia|]. intros g' H1 H2. apply HQ; [done|]. rewrite H2. unfold requests. simpl.
    rewrite fmap_app, <- app_assoc. f_equal. simpl. unfold o. rewrite Z.add_0_r. f_equal.
    rewrite <- fmap_S_seq, <- list_fmap_compose. apply list_fmap_ext. intros i a Ha. simpl.
    do 2 f_equal. lia.
Qed.

Lemma clip_start_spec x w : - 2 ^ 30 <= x < 2 ^ 30 -> - 2 ^ 30 <= w < 2 ^ 30 ->
  clip_start x w = (Z.max 0 x, x + w - Z.max 0 x).
Proof using Type.
  intros Hx Hw. unfold clip_start. destruct (Z.ltb_spec x 0).
  - rewrite i32_small by lia. f_equal; lia.
  - f_equal; lia.
Qed.

Lemma clip_end_spec size x w : 0 <= size < 2 ^ 16 -> - 2 ^ 30 <= x < 2 ^ 30 -> - 2 ^ 30 <= w < 2 ^ 30 ->
  clip_end size (Z.max 0 x) (x + w - Z.max 0 x) = Z.min size (x + w) - Z.max 0 x.
Proof using Type.
  intros Hs Hx Hw. unfold clip_end. rewrite (i32_small size), (i32_small (Z.max 0 x + _)), i32_small by lia.
  destruct (Z.ltb_spec size (Z.max 0 x + (x + w - Z.max 0 x))); lia.
Qed.
End drawing.

(** A call whose answer does not matter. *)
Ltac square_call := itree_step; itree_step; [done|]; intros ? _.

Lemma square_requests info argc x y w h r g b :
  geometry_ok info ->
  - 2 ^ 30 <= x < 2 ^ 30 -> - 2 ^ 30 <= y < 2 ^ 30 -> - 2 ^ 30 <= w < 2 ^ 30 -> - 2 ^ 30 <= h < 2 ^ 30 ->
  always (square_may info) (square_answers info) after_drawing
    (fun code d => opened d = None /\ requests (written d) =
       if code =? 0 then square_lines info x y w h (square_color info (u8 r) (u8 g) (u8 b)) else [])
    start_drawing (square_main argc x y w h r g b).
Proof.
  intros [Hbpp Hwidth Hheight Hpitch Hsize Hpm] Hx Hy Hw Hh. unfold square_main.
  destruct (argc <? 8); [square_call; by itree_step|]. cbv zeta.
  itree_step. itree_step; [done|]. intros fd _. simpl. destruct (fd <? 0).
  { square_call. by itree_step. }
  itree_step. itree_step; [done|]. intros [result i] Hi. simpl in Hi. subst i. destruct (result <? 0).
  { do 2 square_call. by itree_step. }
  rewrite !clip_start_spec by done. cbv beta iota. rewrite !clip_end_spec by done.
  unfold square_lines, clipped.
  set (x0 := Z.max 0 x). set (y0 := Z.max 0 y).
  set (columns := Z.min (info_width info) (x + w) - x0). set (lines := Z.min (info_height info) (y + h) - y0).
  set (color := square_color info (u8 r) (u8 g) (u8 b)). cbv beta iota.
  assert (0 < info_bpp info / 8 <= 4) as Hk by (by destruct Hbpp as [->|[->| ->]]).
  destruct (Z.leb_spec columns 0) as [|Hc]; [cbn [orb]; square_call; by itree_step|].
  destruct (Z.leb_spec lines 0) as [|Hl]; [cbn [orb]; square_call; by itree_step|].
  assert (0 <= x0 /\ x0 + columns <= info_width info) as [Hx0 Hx1] by lia.
  assert (0 <= y0 /\ y0 + lines <= info_height info) as [Hy0 Hy1] by lia.
  assert (0 < columns * (info_bpp info / 8) < 2 ^ 32) as Hrow by nia. rewrite (u32_small (columns * _)) by lia.
  cbn [orb]. itree_step. itree_step; [simpl; lia|]. intros [row|] Hlen.
  2: { do 2 square_call. by itree_step. }
  specialize (Hlen row eq_refl). itree_step.
  apply (drawing_pack_row info _ _ _ 0 []); [done|nia|done|done|nia|]. rewrite app_nil_l.
  set (bytes := concat _). assert (length bytes = Z.to_nat (columns * (info_bpp info / 8))) as Hb.
  { unfold bytes. rewrite length_concat, fmap_replicate, pixel_bytes_length, sum_list_replicate. nia. }
  rewrite take_ge by lia. itree_step.
  assert (x0 * (info_bpp info / 8) + columns * (info_bpp info / 8) <= info_pitch info) as Hfit.
  { rewrite <- Z.mul_add_distr_r. etrans; [|exact Hpitch]. apply Z.mul_le_mono_nonneg_r; lia. }
  apply (drawing_draw_lines info _ _ _ _ _ _ (info_pitch info)); try (done || lia).
  intros d H1 H2. do 2 square_call. itree_step. split; [done|]. simpl. rewrite H2. simpl. apply list_fmap_ext.
  intros i a _. do 2 f_equal. lia.
Qed.

(** C39: the square program. For a rectangle whose numbers are below 2^30 in absolute
    value, and a screen of 16, 24 or 32 bits per pixel, whatever the calls answer. If
    it ends with 0 it has asked for the part of the rectangle that lies on the
    screen, and for nothing else: line by line from the top, a seek to the line's
    place in the frame buffer and then a write of the line, filled with the packed
    colour. Every line whose seek and write were answered with success has been
    written at its place, whatever became of the others. If it ends with an error it
    has written nothing. Every place it asks for lies within the frame buffer, no
    store leaves the row, and the device is closed again. *)
Theorem square_draws info argc x y w h r g b :
  geometry_ok info ->
  - 2 ^ 30 <= x < 2 ^ 30 -> - 2 ^ 30 <= y < 2 ^ 30 -> - 2 ^ 30 <= w < 2 ^ 30 -> - 2 ^ 30 <= h < 2 ^ 30 ->
  always (square_may info) (square_answers info) after_drawing
    (fun code d => opened d = None /\
       let lines := if code =? 0 then square_lines info x y w h (square_color info (u8 r) (u8 g) (u8 b)) else [] in
       requests (written d) = lines /\
       forall i e, written d !! i = Some e -> done_line e -> effects 0 (written d) !! i = lines !! i)
    start_drawing (square_main argc x y w h r g b).
Proof.
  intros Hinfo Hx Hy Hw Hh. eapply safe_mono; [|by apply square_requests].
  intros code d [H1 H2]. cbv zeta. rewrite <- H2. split_and!; [done|done|]. intros i e He Hd. rewrite (effects_done 0 _ i e) by done.
  unfold requests. by rewrite list_lookup_fmap, He.
Qed.

Definition demo_geometry : fb_info := mk_fb_info 8 4 32 32 128 16 8 0.
Lemma square_draws_witness :
  always (square_may demo_geometry) (square_answers demo_geometry) after_drawing
    (fun code d => opened d = None /\
       let lines := if code =? 0
                    then square_lines demo_geometry (-1) 2 3 5 (square_color demo_geometry (u8 255) (u8 0) (u8 7)) else [] in
       requests (written d) = lines /\
       forall i e, written d !! i = Some e -> done_line e -> effects 0 (written d) !! i = lines !! i)
    start_drawing (square_main 8 (-1) 2 3 5 255 0 7).
Proof.
  apply square_draws; [|lia..]. split; vm_compute; intuition congruence.
Defined.

(** What the example draws: two columns, cut at the left, on the two last lines. *)
Example square_demo :
  square_lines demo_geometry (-1) 2 3 5 (square_color demo_geometry 255 0 7) =
    [(64, [7; 0; 255; 0; 7; 0; 255; 0]); (96, [7; 0; 255; 0; 7; 0; 255; 0])].
Proof. reflexivity. Qed.

(** A seek that fails, which the program does not notice: the line goes to where the
    one before it ended. *)
Example square_failed_seek :
  effects 0 [mk_line 64 [1; 2] 64 2; mk_line 96 [1; 2] (-5) 2] = [(64, [1; 2]); (66, [1; 2])].
Proof. reflexivity. Qed.

(** ** The same pixels as the kernel's *)

Lemma u32_lor a b : u32 (Z.lor a b) = Z.lor (u32 a) (u32 b).
Proof.
  apply Z.bits_inj. intros i. rewrite testbit_u32, !Z.lor_spec, !testbit_u32.
  by destruct (Z.testbit a i), (Z.testbit b i), (i <? 32).
Qed.

(** The program's pixel and the one the driver's blit draws: with the driver's
    geometry, the bytes packed into a row are those the driver stores for the same
    colour. *)
Lemma square_pixel_color f info r g b :
  info_red_field_position info = red_field_position f ->
  info_green_field_position info = green_field_position f ->
  info_blue_field_position info = blue_field_position f ->
  square_color info r g b = pixel_color f r g b.
Proof. intros H1 H2 H3. unfold square_color, pixel_color. by rewrite H1, H2, H3, !u32_lor. Qed.

Lemma store_byte_low p b b' : u8 b = u8 b' -> store_byte p b = store_byte p b'.
Proof. intros H. unfold store_byte. by rewrite H. Qed.

(** The three stores of a 24-bit pixel are a little-endian store. *)
Lemma wp_store_three {A} f p color (r : A) (Q : A -> framebuffer_t -> Prop) :
  wp (store_little_endian 3 p color) (fun _ => Q r) f ->
  wp (do! store_byte p (Z.land color 0xFF) in
      do! store_byte (p + 1) (Z.land (Z.shiftr color 8) 0xFF) in
      do! store_byte (p + 2) (Z.land (Z.shiftr color 16) 0xFF) in ret r) Q f.
Proof.
  pose proof (u8_low_byte color 0) as H0. rewrite Z.shiftr_0_r in H0.
  rewrite (store_byte_low p _ color) by done.
  rewrite (store_byte_low (p + 1) _ (Z.shiftr color 8)) by apply u8_low_byte.
  rewrite (store_byte_low (p + 2) _ (Z.shiftr color 16)) by apply u8_low_byte.
  cbn [store_little_endian]. rewrite Z.shiftr_shiftr by lia.
  replace (p + 1 + 1) with (p + 2) by lia. change (8 + 8) with 16. unfold wp, bind, ret.
  destruct (store_byte p color f) as [[[] f1]| |]; [|done..].
  destruct (store_byte (p + 1) _ f1) as [[[] f2]| |]; [|done..].
  by destruct (store_byte (p + 2) _ f2) as [[[] f3]| |].
Qed.

(** C40: the program's pixel and the kernel's. With the driver's geometry and a mapped
    place in the frame buffer, the bytes that the program packs into its row for a
    colour are those the driver's blit stores for it, at 16, 24 and 32 bits per
    pixel, and both go on to the next pixel. *)
Theorem square_pixel_matches_blit info f p raw pre old post g :
  (bpp f = 16 \/ bpp f = 24 \/ bpp f = 32) -> mapped f p (bpp f / 8) -> length old = Z.to_nat (bpp f / 8) ->
  info_red_field_position info = red_field_position f ->
  info_green_field_position info = green_field_position f ->
  info_blue_field_position info = blue_field_position f ->
  let r := Z.land (Z.shiftr raw 16) 0xFF in
  let gr := Z.land (Z.shiftr raw 8) 0xFF in
  let b := Z.land raw 0xFF in
  always (square_may info) (square_answers info) after_drawing
    (fun row _ =>
       length row = length (pre ++ old ++ post) /\
       wp (blit_pixel f p raw)
         (fun p' f' => p' = p + bpp f / 8 /\
            forall i, 0 <= i < bpp f / 8 ->
              exists c, row !! (length pre + Z.to_nat i)%nat = Some c /\ video f' !! (p + i) = Some c) f)
    g (pack_pixel (Z.of_nat (length pre)) (square_color info r gr b) (bpp f) (pre ++ old ++ post)).
Proof.
  intros Hbpp Hm Hold Hr Hg Hb r gr b. apply drawing_pack_pixel; [done|done|done|].
  split; [rewrite !length_app, pixel_bytes_length; lia|].
  rewrite (square_pixel_color f info r gr b) by done. set (color := pixel_color f r gr b).
  assert (forall f', (forall j, 0 <= j < Z.of_nat (Z.to_nat (bpp f / 8)) ->
      video f' !! (p + j) = Some (u8 (Z.shiftr color (8 * j)))) ->
    forall i, 0 <= i < bpp f / 8 -> exists c,
      (pre ++ pixel_bytes (Z.to_nat (bpp f / 8)) color ++ post) !! (length pre + Z.to_nat i)%nat = Some c /\
      video f' !! (p + i) = Some c) as Hbytes.
  { intros f' Hf i Hi. exists (u8 (Z.shiftr color (8 * i))). split; [|apply Hf; lia].
    rewrite lookup_app_r, Nat.add_sub', lookup_app_l by (rewrite ?pixel_bytes_length; lia).
    unfold pixel_bytes. rewrite list_lookup_fmap, lookup_seq_lt by lia. simpl. by rewrite Z2Nat.id by lia. }
  unfold blit_pixel. fold r gr b. cbv zeta. fold color.
  destruct Hbpp as [E|[E|E]]; rewrite E in *; cbn [Z.eqb Pos.eqb].
  - wp_step. apply wp_store_little_endian; [done|]. intros f' _ Hw. wp_step. split; [done|]. by apply Hbytes.
  - apply wp_store_three. apply wp_store_little_endian; [done|]. intros f' _ Hw. split; [done|]. by apply Hbytes.
  - wp_step. apply wp_store_little_endian; [done|]. intros f' _ Hw. wp_step. split; [done|]. by apply Hbytes.
Qed.

Lemma square_pixel_matches_blit_witness :
  always (square_may demo_geometry) (square_answers demo_geometry) after_drawing
    (fun row _ =>
       length row = 5%nat /\
       wp (blit_pixel demo_framebuffer 0xF8000000 0xFF0007)
         (fun p' f' => p' = 0xF8000000 + bpp demo_framebuffer / 8 /\
            forall i, 0 <= i < bpp demo_framebuffer / 8 ->
              exists c, row !! (1 + Z.to_nat i)%nat = Some c /\ video f' !! (0xF8000000 + i) = Some c)
         demo_framebuffer)
    start_drawing
    (pack_pixel 1 (square_color demo_geometry 0xFF 0 7) 32 ([9] ++ [1; 2; 3; 4] ++ [])).
Proof.
  apply (square_pixel_matches_blit demo_geometry demo_framebuffer 0xF8000000 0xFF0007 [9] [1; 2; 3; 4] [] start_drawing);
    [by right; right| |done..].
  apply (mapped_sub _ _ _ _ _ demo_framebuffer_mapped); [done|].
  change (bpp demo_framebuffer / 8) with 4. lia.
Defined.
