(* ===== verification/Programs.v ===== *)
(** * The first process and the calculator (src/initrd/src/init.c, src/initrd/src/calc.c)

    [init] starts the shell and waits for children for ever; [calc] computes one
    operation.  [atoi] and the printing functions are the C library's: the
    operands are the numbers, and what is printed is a call. *)
From S2P Require Import Prelude Interaction.
From ITree Require Import ITree.
#[local] Open Scope program_scope.

(** ** init *)

Inductive initE : Type -> Type :=
| InitFork : initE Z
| InitExecve (path : list Z) (argv : list (list Z)) : initE Z
| InitWait (pid : Z) : initE Z.

(** /bin/shell.elf *)
Definition SHELL_PATH : list Z := [47; 98; 105; 110; 47; 115; 104; 101; 108; 108; 46; 101; 108; 102].

Definition init_main : itree initE void :=
  let* shell_pid := ITree.trigger InitFork in
  do* (if shell_pid =? 0
       then do* ITree.trigger (InitExecve SHELL_PATH [SHELL_PATH]) in finish tt
       else finish tt) in
  ITree.iter (fun _ : unit => do* ITree.trigger (InitWait (-1)) in finish (inl tt)) tt.

(** ** calc *)

Inductive calcE : Type -> Type :=
| CalcUsage : calcE unit
| CalcOnDivisionError : calcE Z
| CalcDivisionMessage : calcE unit
| CalcPrint (result : Z) : calcE unit
| CalcExit (code : Z) : calcE void.

Definition OP_ADD : Z := 43.
Definition OP_SUB : Z := 45.
Definition OP_MUL : Z := 42.
Definition OP_DIV : Z := 47.

(** The signed division of the processor; [None] is the division error. *)
Definition idiv (a b : Z) : option Z :=
  if b =? 0 then None
  else if 2 ^ 31 <=? Z.quot a b then None
  else Some (Z.quot a b).

(** The handler of the signal of a division error. *)
Definition sigfpe_handler {R} : itree calcE R :=
  do* ITree.trigger CalcDivisionMessage in
  let* x := ITree.trigger (CalcExit 1) in match x : void with end.

(** [a] and [b] are the numbers of the first and the third argument, [op] the first
    character of the second; sums and products wrap around. *)
Definition calc_main (argc a op b : Z) : itree calcE Z :=
  if argc <? 4 then do* ITree.trigger CalcUsage in finish 1
  else if negb (op =? OP_ADD) && negb (op =? OP_SUB) && negb (op =? OP_MUL) && negb (op =? OP_DIV) then
    do* ITree.trigger CalcUsage in finish 1
  else
    do* ITree.trigger CalcOnDivisionError in
    let* result :=
      (if op =? OP_ADD then finish (i32 (a + b))
       else if op =? OP_SUB then finish (i32 (a - b))
       else if op =? OP_MUL then finish (i32 (a * b))
       else match idiv a b with Some q => finish q | None => sigfpe_handler end) in
    do* ITree.trigger (CalcPrint result) in
    finish 0.

(** ** What they do *)

(** Whether the first process has forked, whether it is the child, and whether the
    shell was started. *)
Inductive init_phase := InitStart | InitParent | InitChild | InitWaiting.

Definition init_may (p : init_phase) (X : Type) (e : initE X) : Prop :=
  match e with
  | InitFork => p = InitStart
  | InitExecve path argv => p = InitChild /\ path = SHELL_PATH /\ argv = [path]
  | InitWait pid => (p = InitParent \/ p = InitWaiting) /\ pid = -1
  end.
Definition after_init (p : init_phase) (X : Type) (e : initE X) : X -> init_phase :=
  match e in initE X return X -> init_phase with
  | InitFork => fun pid => if pid =? 0 then InitChild else InitParent
  | _ => fun _ => InitWaiting
  end.

(** The first process forks once, starts the shell in the child only, and waits for
    any child for ever. *)
Theorem init_runs :
  always init_may (fun _ _ _ => True) after_init (fun _ _ => False) InitStart init_main.
Proof.
  unfold init_main. itree_step. itree_step; [done|]. intros pid _. simpl. itree_step.
  assert (forall p, p = InitParent \/ p = InitWaiting ->
    always init_may (fun _ _ _ => True) after_init (fun (_ : void) _ => False) p
      (ITree.iter (fun _ : unit => do* ITree.trigger (InitWait (-1)) in finish (inl tt)) tt)) as Hloop.
  { intros p Hp. apply (safe_iter _ _ _ (fun _ p => p = InitParent \/ p = InitWaiting)); [|done].
    clear p Hp. intros _ p Hp. itree_step. itree_step; [done|]. intros x _. itree_step. by right. }
  destruct (pid =? 0).
  - itree_step. itree_step; [done|]. intros x _. itree_step. apply Hloop. by right.
  - itree_step. apply Hloop. by left.
Qed.

(** The result the calculator is asked for. *)
Definition calculated (a op b : Z) : option Z :=
  if op =? OP_ADD then Some (i32 (a + b))
  else if op =? OP_SUB then Some (i32 (a - b))
  else if op =? OP_MUL then Some (i32 (a * b))
  else if b =? 0 then None else Some (Z.quot a b).

(** Whether the handler is installed, and what was printed. *)
Definition calc_may (a op b : Z) (g : bool * option Z) (X : Type) (e : calcE X) : Prop :=
  match e with
  | CalcUsage => g = (false, None)
  | CalcOnDivisionError => g = (false, None)
  | CalcDivisionMessage => g = (true, None) /\ op = OP_DIV /\ (b = 0 \/ a = - 2 ^ 31 /\ b = -1)
  | CalcPrint result => g = (true, None) /\ calculated a op b = Some result /\ - 2 ^ 31 <= result < 2 ^ 31
  | CalcExit code => code = 1 /\ g = (true, None)
  end.
Definition after_calc (g : bool * option Z) (X : Type) (e : calcE X) : X -> bool * option Z :=
  match e in calcE X return X -> bool * option Z with
  | CalcOnDivisionError => fun _ => (true, snd g)
  | CalcPrint result => fun _ => (fst g, Some result)
  | _ => fun _ => g
  end.

Lemma idiv_spec a b : - 2 ^ 31 <= a < 2 ^ 31 -> - 2 ^ 31 <= b < 2 ^ 31 ->
  match idiv a b with
  | Some q => b <> 0 /\ q = Z.quot a b /\ - 2 ^ 31 <= q < 2 ^ 31
  | None => b = 0 \/ a = - 2 ^ 31 /\ b = -1
  end.
Proof.
  intros Ha Hb. unfold idiv. destruct (Z.eqb_spec b 0) as [->|Hb0]; [by left|].
  pose proof (Z.quot_rem' a b) as Hqr. pose proof (Z.rem_bound_abs a b Hb0) as Hr.
  destruct (Z.leb_spec (2 ^ 31) (Z.quot a b)).
  - right. nia.
  - split_and!; [done|done| |done]. nia.
Qed.

(** The calculator prints the result of the operation, which is in the range of an
    [int], and ends with 0; on a division error, which is a division by 0 or the one
    quotient that is out of range, the handler has been installed and the message
    of a division by zero is printed instead. *)
Theorem calc_runs argc a op b :
  - 2 ^ 31 <= a < 2 ^ 31 -> - 2 ^ 31 <= b < 2 ^ 31 ->
  always (calc_may a op b) (fun _ _ _ => True) after_calc
    (fun code g => code = 0 /\ snd g = calculated a op b \/ code = 1 /\ snd g = None) (false, None)
    (calc_main argc a op b).
Proof.
  intros Ha Hb. unfold calc_main.
  destruct (argc <? 4). { itree_step. itree_step; [done|]. intros [] _. itree_step. by right. }
  destruct (negb (op =? OP_ADD) && negb (op =? OP_SUB) && negb (op =? OP_MUL) && negb (op =? OP_DIV)) eqn:Hop.
  { itree_step. itree_step; [done|]. intros [] _. itree_step. by right. }
  itree_step. itree_step; [done|]. intros x _. itree_step. simpl.
  assert (forall r, calculated a op b = Some r -> - 2 ^ 31 <= r < 2 ^ 31 ->
    always (calc_may a op b) (fun _ _ _ => True) after_calc
      (fun code g => code = 0 /\ snd g = calculated a op b \/ code = 1 /\ snd g = None) (true, None)
      (do* ITree.trigger (CalcPrint r) in finish 0)) as Hprint.
  { intros r Hr Hrange. itree_step. itree_step; [done|]. intros [] _. itree_step. by left. }
  unfold calculated in Hprint |- *. destruct (op =? OP_ADD); [itree_step; apply Hprint; [done|word_lia]|].
  destruct (op =? OP_SUB); [itree_step; apply Hprint; [done|word_lia]|].
  destruct (op =? OP_MUL); [itree_step; apply Hprint; [done|word_lia]|].
  destruct (Z.eqb_spec op OP_DIV) as [Hd|]; [|done]. pose proof (idiv_spec a b Ha Hb) as Hi.
  destruct (idiv a b) as [q|].
  - destruct Hi as (Hb0 & Hq & Hrange). itree_step. apply Hprint; [|done]. rewrite Hq. by destruct (Z.eqb_spec b 0).
  - unfold sigfpe_handler. itree_step. itree_step; [done|]. intros [] _. itree_step. itree_step; [done|]. intros [].
Qed.
