(* ===== verification/Kernel.v ===== *)
(** * The start of the kernel (src/kernel.c)

    [kernel_initialize] runs the initialisers of the parts in order, starts the
    first program and opens its three descriptors; interrupts are enabled last.
    The state is all of the kernel's: the entries with their handlers, the ports
    and the rest of the kernel ([interrupts_t]), the processor's tables and the
    VGA display.  Addresses of linker symbols, of the entry stubs and of global
    objects, and the boot information, are parameters. *)
From S2P Require Import Prelude Bitmap Paging KernelHeap Tasks TaskManager Allocator Keyboard Terminal Framebuffer Files VfsCache Resource Vfs Memory Process Elf Syscall Ports Segments Vga Ustar Devfs Interrupts.

Record computer_t : Type := mk_computer {
  entries_state : interrupts_t;
  gdt : gdt_t;
  tss : tss_entry_t;
  idt : idt_t;
  vga : vga_t;
  interrupts_enabled : bool;
}.
#[export] Instance computer_fields : Fields computer_t := fun s =>
  mk_computer (entries_state s) (gdt s) (tss s) (idt s) (vga s) (interrupts_enabled s).

Definition on_entries {A} (op : M interrupts_t A) : M computer_t A :=
  zoom entries_state (fun i s => s <| entries_state := i |>) op.
Definition on_fs {A} (op : M fs_t A) : M computer_t A := on_entries (on_kernel_state op).
Definition on_gdt {A} (op : M gdt_t A) : M computer_t A := zoom gdt (fun g s => s <| gdt := g |>) op.
Definition on_tss {A} (op : M tss_entry_t A) : M computer_t A := zoom tss (fun t s => s <| tss := t |>) op.
Definition on_idt {A} (op : M idt_t A) : M computer_t A := zoom idt (fun t s => s <| idt := t |>) op.
Definition on_vga {A} (op : M vga_t A) : M computer_t A := zoom vga (fun v s => s <| vga := v |>) op.

(** A driver over a part of the kernel and the framebuffer. *)
Definition with_framebuffer {C A} (proj : fs_t -> C) (inj : C -> fs_t -> fs_t) (op : M (C * framebuffer_t) A)
  : M fs_t A :=
  zoom (fun s => (proj s, dev_framebuffer (devices s)))
    (fun c s => inj (fst c) (s <| devices := (devices s) <| dev_framebuffer := snd c |> |>)) op.

(** What the boot loader and the linker give. *)
Record boot_t : Type := mk_boot {
  multiboot : multiboot_info_t;
  boot_framebuffer : multiboot_framebuffer_t;
  framebuffer_contents : gmap Z Z;
  kernel_physical_start : Z;
  kernel_physical_end : Z;
  gdt_address : Z;
  tss_address : Z;
  idt_address : Z;
  isr_stubs : list Z;
  isr_syscall : Z;
  irq_stubs : list Z;
  idle_entry : Z;
  keyboard_address : Z;
  terminal_address : Z;
  framebuffer_address : Z;
}.

Section kernel.
Variable base : Z.
Variable fuel : nat.
Variable heap_byte : Z -> nat -> Z.
Variable stale_header : list Z.
Variable stale_program_header : Z -> list Z.
Variable boot : boot_t.

#[local] Instance boot_allocator : Allocator kernel_t := kernel_allocator base fuel.
#[local] Instance boot_systems : FileSystems :=
  kernel_systems heap_byte fuel (keyboard_address boot) (terminal_address boot) (framebuffer_address boot).

Definition gdt_module_init : M gdt_t unit := do! gdt_create (gdt_address boot) (tss_address boot) in ret tt.
Definition idt_module_init : M idt_t unit :=
  do! idt_create (idt_address boot) (isr_stubs boot) (isr_syscall boot) in ret tt.
(** It fills the table of handlers, and the entries of the interrupt table. *)
Definition irq_module_init : M computer_t unit :=
  do! on_entries irq_reset_handlers in on_idt (irq_set_idt_entries (irq_stubs boot)).
Definition terminal_module_init : M fs_t unit :=
  let! ' (_, t) := with_framebuffer (fun s => kernel (os s)) (fun k s => s <| os := (os s) <| kernel := k |> |>)
                     terminal_create in
  modify (fun s => s <| devices := (devices s) <| dev_terminal := t |> |>).

(** /bin/init.elf, /dev/keyboard, /dev/terminal *)
Definition INIT_PATH : list Z := [47; 98; 105; 110; 47; 105; 110; 105; 116; 46; 101; 108; 102].
Definition KEYBOARD_PATH : list Z := [47; 100; 101; 118; 47; 107; 101; 121; 98; 111; 97; 114; 100].
Definition TERMINAL_PATH : list Z := [47; 100; 101; 118; 47; 116; 101; 114; 109; 105; 110; 97; 108].

(** The initialisers up to the heap. *)
Definition initialize_memory : M computer_t unit :=
  do! on_fs (on_machine_of (on_bitmap
        (memory_bitmap_module_init (kernel_physical_start boot) (kernel_physical_end boot) (multiboot boot)))) in
  do! on_fs (on_machine_of memory_paging_module_init) in
  on_fs (on_os (on_kernel (kernel_heap_module_init base))).

(** From the segments to the timer. *)
Definition initialize_processor : M computer_t unit :=
  do! on_gdt gdt_module_init in
  do! on_tss tss_module_init in
  do! on_entries (on_ports pic_module_init) in
  do! on_idt idt_module_init in
  do! irq_module_init in
  on_entries timer_module_init.

(** The file systems and the devices; without a module there is no archive. *)
Definition initialize_files : M computer_t unit :=
  do! on_fs (with_framebuffer (fun s => machine (kernel (os s)))
               (fun m s => s <| os := (os s) <| kernel := set_machine m (kernel (os s)) |> |>)
               (framebuffer_driver_init (boot_framebuffer boot) (framebuffer_contents boot))) in
  let! initrd := of_option (mods (multiboot boot) !! 0%nat) in
  do! on_fs (ramfs_driver_init fuel initrd) in
  do! on_fs vfs_module_init in
  on_fs (devfs_module_init heap_byte fuel (keyboard_address boot) (terminal_address boot) (framebuffer_address boot)).

(** The first program and its descriptors 0, 1 and 2. *)
Definition start_init : M computer_t unit :=
  do! on_fs (elf_load_and_execute base fuel stale_header stale_program_header INIT_PATH [INIT_PATH]
               (Some (fun task => on_os (update_manager (fun m => m <| task_init := task |>))))) in
  let! m := on_fs (on_os manager) in
  let task := task_init m in
  do! on_fs (vfs_open fuel task KEYBOARD_PATH SYSCALL_O_RDONLY) in
  do! on_fs (vfs_open fuel task TERMINAL_PATH SYSCALL_O_WRONLY) in
  do! on_fs (vfs_open fuel task TERMINAL_PATH SYSCALL_O_WRONLY) in
  ret tt.

Inductive kernel_result_t : Type := KERNEL_RESULT_OK.

Definition kernel_initialize : M computer_t kernel_result_t :=
  do! initialize_memory in
  do! on_vga vga_driver_init in
  do! initialize_processor in
  do! on_fs (task_manager_module_init fuel (idle_entry boot)) in
  do! initialize_files in
  do! on_fs terminal_module_init in
  do! on_entries keyboard_driver_init in
  do! start_init in
  do! modify (fun s => s <| interrupts_enabled := true |>) in
  ret KERNEL_RESULT_OK.

Definition kernel_main : M computer_t unit := do! kernel_initialize in ret tt.
End kernel.

(** ** What the interrupt controllers were told

    A controller takes a write of a byte with bit 4 to its command port as the
    start of its set-up, and the next write to its data port as the vector of its
    first line. *)
Definition pic_write (command data : Z) (st : bool * option Z) (w : Z * Z) : bool * option Z :=
  if (w.1 =? command) && Z.testbit w.2 4 then (true, st.2)
  else if (w.1 =? data) && st.1 then (false, Some w.2)
  else st.
Definition pic_base (command data : Z) (l : ports_t) : option Z :=
  (foldl (pic_write command data) (false, None) (rev l)).2.

(** The vector of hardware interrupt [irq]. *)
Definition irq_vector (l : ports_t) (irq : Z) : option Z :=
  if irq <? 8 then (fun b => b + irq) <$> pic_base PIC1_COMMAND PIC1_DATA l
  else (fun b => b + (irq - 8)) <$> pic_base PIC2_COMMAND PIC2_DATA l.

(** The writes of the two initialisers, newest first. *)
Definition pic_setup : ports_t :=
  match pic_module_init [] with Ret (_, l) => l | _ => [] end.
Definition timer_setup : ports_t :=
  match timer_set_phase [] with Ret (_, l) => l | _ => [] end.

Lemma wp_pic_module_init l (Q : unit -> ports_t -> Prop) : Q tt (pic_setup ++ l) -> wp pic_module_init Q l.
Proof. exact id. Qed.
Lemma wp_timer_set_phase l (Q : unit -> ports_t -> Prop) : Q tt (timer_setup ++ l) -> wp timer_set_phase Q l.
Proof. exact id. Qed.

Lemma setup_vectors l irq : irq_vector (timer_setup ++ pic_setup ++ l) irq = Some (32 + irq).
Proof.
  unfold irq_vector, pic_base. rewrite !rev_app_distr, !foldl_app.
  generalize (foldl (pic_write PIC1_COMMAND PIC1_DATA) (false, None) (rev l)) as st1.
  generalize (foldl (pic_write PIC2_COMMAND PIC2_DATA) (false, None) (rev l)) as st2.
  intros [w2 b2] [w1 b1]. destruct (irq <? 8).
  - vm_compute (rev _). destruct w1; cbn; done.
  - vm_compute (rev _). destruct w2; cbn; f_equal; lia.
Qed.

Lemma wp_irq_reset_handlers s (Q : unit -> interrupts_t -> Prop) :
  length (irq_handlers s) = 16%nat ->
  Q tt (s <| irq_handlers := replicate 16 None |>) -> wp irq_reset_handlers Q s.
Proof.
  intros Hlen HQ. unfold irq_reset_handlers, IRQ_MAX_ENTRIES_COUNT.
  apply (wp_for_range _ _ _ (fun i s' =>
    s' = s <| irq_handlers := replicate (Z.to_nat i) None ++ drop (Z.to_nat i) (irq_handlers s) |>)).
  - by destruct s.
  - intros i s' Hi ->. wp_go. cbn. f_equal.
    destruct (lookup_lt_is_Some_2 (irq_handlers s) (Z.to_nat i)) as [h Hh]; [lia|].
    rewrite (drop_S _ h) by done. rewrite insert_app_r_alt, length_replicate, Nat.sub_diag by (rewrite length_replicate; lia).
    replace (Z.to_nat (i + 1)) with (S (Z.to_nat i)) by lia. rewrite replicate_S_end, <- app_assoc. done.
  - intros s' ->. change (Z.to_nat (0 + Z.max 0 (16 - 0))) with 16%nat. rewrite drop_ge, app_nil_r by lia. exact HQ.
Qed.

Lemma wp_irq_register_free s irq handler (Q : irq_result_t -> interrupts_t -> Prop) :
  irq < 16 -> irq_handlers s !! Z.to_nat irq = Some None ->
  Q IRQ_RESULT_OK (s <| irq_handlers := <[Z.to_nat irq := Some handler]> (irq_handlers s) |>) ->
  wp (irq_register_handler irq handler) Q s.
Proof.
  intros Hirq Hfree HQ. unfold irq_register_handler, IRQ_MAX_ENTRIES_COUNT.
  destruct (Z.ltb_spec (16 - 1) irq); [lia|]. wp_step. wp_step. wp_step.
  eapply wp_of_option; [exact Hfree|]. wp_go. exact HQ.
Qed.

(** The state of the tables before the initialisation: that of the program image. *)
Record tables_sized (s : computer_t) : Prop := {
  sized_gdt : length (gdt_entries (gdt s)) = 6%nat;
  sized_idt : no_gates (idt s);
  sized_handlers : length (irq_handlers (entries_state s)) = 16%nat;
}.
Record boot_ok (boot : boot_t) : Prop := {
  boot_tss : 0 <= tss_address boot < 2 ^ 32;
  boot_isr : length (isr_stubs boot) = 32%nat;
  boot_irq : length (irq_stubs boot) = 16%nat;
  boot_stubs : Forall (fun stub => 0 <= stub < 2 ^ 32) (isr_syscall boot :: isr_stubs boot ++ irq_stubs boot);
}.

(** C30: the processor's tables and the interrupt controllers after the start. The
    four selectors of the kernel and of programs name present, flat 32-bit segments
    of their rings, readable code or writable data, and the selector of the task
    register names the TSS, whose stack segment is the kernel's; the table pointers
    cover the tables. Every exception enters the kernel at its stub through a present
    interrupt gate, and the only gate that programs can enter through is 0x80, which
    leads to the system call entry. The controllers raise hardware interrupt n at the
    very vector whose gate leads to stub n, whatever they were told before; the timer
    is the only line with a handler; the rest of the kernel is untouched, and
    interrupts are still off. *)
Theorem initialize_processor_spec boot s :
  boot_ok boot -> tables_sized s ->
  wp (initialize_processor boot)
     (fun _ s' =>
        flat_selector (gdt s') 0x08 true /\ flat_selector (gdt s') 0x10 false /\
        flat_selector (gdt s') 0x1B true /\ flat_selector (gdt s') 0x23 false /\
        tss_selector (gdt s') 0x28 (tss_address boot) /\ ss0 (tss s') = 0x10 /\
        gdt_pointer (gdt s') = mk_pointer (8 * 6 - 1) (gdt_address boot) /\
        idt_pointer (idt s') = mk_pointer (8 * 256 - 1) (idt_address boot) /\
        kernel_gates (isr_stubs boot) (isr_syscall boot) (irq_stubs boot) (idt s') /\
        (forall v e, 0 <= v < 256 -> idt_entries (idt s') !! Z.to_nat v = Some e ->
           gate_present e = true -> gate_ring e = 3 -> v = 0x80) /\
        (forall irq, 0 <= irq < 16 -> exists stub,
           irq_vector (ports (entries_state s')) irq = Some (32 + irq) /\
           irq_stubs boot !! Z.to_nat irq = Some stub /\ gate_at (idt s') (32 + irq) stub 0) /\
        irq_handlers (entries_state s') = Some timer_irq :: replicate 15 None /\
        kernel_state (entries_state s') = kernel_state (entries_state s) /\
        vga s' = vga s /\ interrupts_enabled s' = interrupts_enabled s) s.
Proof.
  intros [Htss Hisr Hirq Hstubs] [Hg Hi Hh]. destruct s as [[os0 handlers0 ports0] g0 tss0 i0 vga0 if0]. cbn in Hg, Hi, Hh.
  pose proof (Forall_inv Hstubs) as Hsys. apply Forall_inv_tail, Forall_app in Hstubs as [Hs1 Hs2].
  unfold initialize_processor, gdt_module_init, idt_module_init, irq_module_init, timer_module_init.
  wp_step. apply wp_zoom. wp_step. eapply wp_mono; [by apply gdt_create_spec|].
  intros r g1 (_ & Hc & Hd & Huc & Hud & Ht & Hgp). wp_step.
  wp_step. apply wp_zoom. unfold tss_module_init. wp_step. wp_step. wp_step.
  wp_step. apply wp_zoom, wp_zoom, wp_pic_module_init. cbn [entries_state kernel_state irq_handlers ports gdt tss idt vga interrupts_enabled].
  wp_step. apply wp_zoom. wp_step. apply wp_idt_create; [apply Hi|done|by constructor|].
  intros t1 t2 Hg1 Hl2 Hp2 H80 Hsame. wp_step.
  wp_step. wp_step. apply wp_zoom, wp_irq_reset_handlers; [done|].
  apply wp_zoom, wp_irq_set_idt_entries; [done|done|done|]. intros t3 Hp3 Hg3.
  apply wp_zoom. wp_step. apply wp_zoom, wp_timer_set_phase.
  wp_step. apply wp_irq_register_free; [lia|done|]. wp_step.
  pose proof (kernel_gates_intro _ _ _ _ _ _ _ Hi Hg1 H80 Hsame Hg3) as Hk. destruct Hg3 as (_ & Hg3 & _).
  split_and!; [done|done|done|done|done|reflexivity|done|exact (eq_trans Hp3 Hp2)|exact Hk| | |reflexivity|reflexivity|reflexivity|reflexivity].
  { intros v e. exact (kernel_gates_user _ _ _ _ v e Hk). }
  intros irq Hq. destruct (Hg3 (32 + irq) ltac:(lia)) as (stub & Hst & Hgate).
  replace (32 + irq - 32) with irq in Hst by lia.
  exists stub. split; [apply setup_vectors|]. done.
Qed.

(** ** A machine before the start *)

Definition demo_boot : boot_t :=
  mk_boot (mk_multiboot [] []) (mk_multiboot_framebuffer 0 0 0 0 0 0 0 0) ∅ 0x100000 0x180000
    0xC0110000 0xC0110100 0xC0110200 (repeat 0xC0101000 32) 0xC0101100 (repeat 0xC0101200 16) 0xC0100100
    0xC0120000 0xC0120100 0xC0120200.
Definition demo_computer : computer_t :=
  mk_computer (mk_interrupts demo_fs (replicate 16 None) []) no_gdt (mk_tss 0 0 0) no_idt (mk_vga (mk_color 0 0) (repeat 0 4000) []) false.

Lemma initialize_processor_spec_witness :
  wp (initialize_processor demo_boot)
     (fun _ s' => flat_selector (gdt s') 0x1B true /\ gate_at (idt s') 0x80 0xC0101100 3 /\ irq_vector (ports (entries_state s')) 9 = Some 41 /\ ss0 (tss s') = 0x10)
     demo_computer.
Proof.
  eapply wp_mono; [apply (initialize_processor_spec demo_boot demo_computer)|].
  - constructor; [cbn; lia|reflexivity|reflexivity|]. cbn. repeat constructor; lia.
  - constructor; [reflexivity| |reflexivity]. split; [reflexivity|]. intros i e H. change (repeat (mk_idt_entry 0 0 0 0 0) 256 !! i = Some e) in H.
    pose proof (lookup_lt_Some _ _ _ H) as Hi. rewrite repeat_length in Hi. rewrite lookup_repeat in H by done. by injection H as <-.
  - intros r s' (_ & _ & H1 & _ & _ & H2 & _ & _ & H4 & _ & H3 & _). split; [exact H1|].
    split; [exact (H4 0x80 ltac:(lia))|]. split; [|exact H2].
    destruct (H3 9 ltac:(lia)) as (stub & Hv & _). exact Hv.
Defined.
